(* ===== verification/_CoqProject ===== *)
-Q . S2P
Prelude.v
Errors.v
DecimalText.v
DecimalCanonical.v
DecimalScanner.v
Models.v
Json.v
JsonFacts.v
JsonPretty.v
JsonLoad.v
Contracts.v
DeploymentCatalog.v
Disk.v
DeploymentWriter.v
TrashMover.v
Effects.v
Repository.v
Wire.v
Scripted.v
StateCodec.v
OpenPositionCodec.v
EntryPackageCodec.v
RecoveryCodec.v
PositionManagementCodec.v
EngineCodec.v
HttpClients.v
JsonlRepository.v
ProcessingJournal.v
Coordination.v
FirstFill.v
Config.v
HttpAdapters.v
Protocol.v
ProtocolRules.v
Threads.v
Sections.v
EntryReconciliation.v
Routing.v
EntryOrchestrator.v
PositionManagement.v
RuntimeOrchestrator.v
UncertainResolver.v
EnabledControl.v
ChartLayers.v
ExecutionEvent.v
CommittedBar.v
Lifecycle.v
Intake.v
ResolverWorker.v
Runtime.v
FilePorts.v
Refusals.v
HttpApp.v
Process.v
Bootstrap.v
