(* ===== verification/Prelude.v ===== *)
(** * Verification of strategy_runtime

    The Strategy Runtime drives trading strategies ("strategy instances"). For every committed
    candle ("bar") it asks the Strategy Engine what each instance wants and makes the
    exchange-facing service ABI do it: send, replace or remove the entry order of the
    instance's one trade cycle, and, once ABI reports the fill, keep the position's
    protection up to date or close it. Everything it must remember of an instance is one
    aggregate, [StrategyInstanceRuntimeState], kept in a repository. Two recovery markers in
    the aggregate record that an order or a close was sent whose fate is not known yet; a
    resolver asks ABI later.

    This library translates that core (the package src/src/strategy_runtime) into Rocq and
    proves it correct. Names are those of the code; every dataclass is a record, its
    [__post_init__] a function [X_post_init] that returns the record or raises, and
    [dataclasses.replace] validates again. Paths below are relative to
    src/src/strategy_runtime.

    ** Parts, from the bottom up

    - Prelude.v: automation, text, Python dictionaries and [sorted]. Errors.v: exceptions,
      the [isinstance] tests of the [except] clauses, and [result], the value or exception
      of pure code.
    - DecimalText.v, DecimalCanonical.v, DecimalScanner.v (shared/decimal_text.py): the
      exact-decimal grammar and the canonical text, with the part of Python's [Decimal] they
      use.
    - Models.v (runtime/state/models.py, runtime/recipes, runtime/timeframe.py,
      runtime/entry_order_lifetime.py): the aggregate. [valid_state] is its invariant: the
      markers name the current cycle and exclude each other.
      Contracts.v (runtime/abi, runtime/engine, runtime/open_position,
      runtime/trade_cycle_closure, utility/deployment_catalog, utility/committed_bar): the
      values exchanged with ABI, the Engine and the deployment catalog.
    - Json.v, JsonFacts.v: Python's [json], the writer [dumps] as the code calls it (sorted
      keys, compact, not ASCII-only) and the reader [loads] with its hooks, with the UTF-8 of
      the texts of the model. JsonPretty.v: the writer with an indentation, as deployment
      files are written. JsonLoad.v: what [loads] returns.
    - DeploymentCatalog.v (utility/deployment_catalog/identity.py, filesystem_adapter.py): the
      derived identity and the snapshot of one directory. Disk.v: programs on the directory,
      whose operations other processes can precede and that can fail one by one.
      DeploymentWriter.v (enabled_writer.py), TrashMover.v (trash_mover.py): the two programs.
    - Effects.v: the monad of the stateful code. A system is a repository, a world behind the
      ports and the trace of observable effects; a program [M] is a tree of steps, each a
      function of the system, that ends with a value or an exception, so that steps of other
      threads can come between any two of its own; [run] is the program by itself.
      [Repository] and [RepositoryLaws] are the
      interface of runtime/state/repository.py; [Ports] is the interface of ABI, the Engine
      and the deployment files; [wp] is the program logic. Repository.v is the in-memory
      repository, an instance of the laws; Scripted.v is a world that answers from a script,
      so that every operation can be evaluated.
    - StateCodec.v (infrastructure/runtime_state/codec.py): the record of one aggregate and
      the reader of its four schema versions. JsonlRepository.v
      (infrastructure/runtime_state/jsonl_repository.py): the append-only log, its poison and
      its replay, as a second instance of the laws of the repository. ProcessingJournal.v
      (utility/processing_journal): the records of the journal and their best-effort append.
    - Wire.v: the strict JSON readers the HTTP contracts share. OpenPositionCodec.v,
      EntryPackageCodec.v, PositionManagementCodec.v, RecoveryCodec.v (infrastructure/abi and
      runtime/abi/entry_package_codec.py) and EngineCodec.v
      (infrastructure/strategy_engine/wire_codec.py): one codec each. HttpClients.v
      (infrastructure/abi/http_*.py, strategy_engine/http_projection_client.py): the calls
      over an abstract HTTP client, put together as an instance of [Ports]. HttpAdapters.v: how
      these classes open and close their client.
    - Coordination.v (runtime/coordination/keyed_mutex.py): the keyed mutex, as a transition
      system of the single lock operations of any number of threads.
    - FirstFill.v (runtime/first_fill), EntryReconciliation.v (runtime/entry_reconciliation),
      PositionManagement.v (runtime/position_management_decision, _execution and
      _orchestrator, runtime/entry_remainder_cancel): the decisions and the transitions of the
      aggregate, and the execution of position management.
      Routing.v (runtime/open_position, runtime/routing): what the position is, and which
      projection is asked of the Engine. EntryOrchestrator.v
      (runtime/entry_reconciliation_orchestrator and _bridge, runtime/entry_cycle_ended): the
      execution of an entry decision: mark, save, send, confirm.
    - Protocol.v: the specification. For one instance, an abstract machine whose states are
      "outside or inside the critical section, with this stored aggregate": [part_step] lists
      the legal changes of the stored aggregate, [permitted] says what each call to a service
      requires of the aggregate stored at that moment, [follows] is the language of traces.
      ProtocolRules.v: the rules that prove that a program stays inside that language whatever
      other threads do before each of its steps: [inside] a critical section it relies on the
      stored aggregate of its instance, [outside] of one on nothing but the invariant.
      Threads.v: pools of programs that take turns step by step under any scheduler.
      Sections.v: the keyed mutex implements the sections for which they wait.
    - RuntimeOrchestrator.v (runtime/orchestrator): one bar for one instance.
      UncertainResolver.v (runtime/uncertain_exchange_state_resolver/resolver.py and the tick
      of worker.py). EnabledControl.v (runtime/enabled_control, runtime/strategy_delete,
      runtime/operator_commands, runtime/trading_state): the operator's side.
      ExecutionEvent.v (runtime/abi_execution_event): fills pushed by ABI.
    - CommittedBar.v (utility/committed_bar, utility/deployment_selection): the fan-out of a
      bar to the deployments of its stream.
    - ChartLayers.v (runtime/chart_layers): the chart layers, read from an Engine feature plan.
    - Refusals.v: which refusals each of the operator's actions can end with, over an interface
      ([ServiceErrors], [RepositoryErrors]) that the deployment files, the HTTP adapters and
      the in-memory repository implement.
    - Lifecycle.v, Intake.v, ResolverWorker.v (runtime/committed_bar_intake,
      runtime/uncertain_exchange_state_resolver/worker.py): the two background threads, their
      start/stop life cycle and the bounded queue, as transition systems.
    - Config.v (config): the environment, the TOML file and the checks of the configuration.
    - bootstrap/application.py is in five files: Runtime.v, the services with all their
      operations; FilePorts.v, the deployment files behind the ports of the services; HttpApp.v
      (with adapters/http), the application whose handlers run the operations; Process.v, the
      threads of the process, which serve requests, orchestrate bars and tick, with everything
      that is shown of their interleavings; Bootstrap.v, the construction, the rollback and the
      lifespan of the process.

    ** What is shown

    - Refinement (Process.v): [interleavings_follow_protocol], any number of HTTP requests of
      every kind, valid or not, committed bars and recovery ticks, interleaved step by step in
      any order, against arbitrary answers and failures of all services and of the repository,
      implements the machine of Protocol.v and keeps the invariant of every stored aggregate.
      Read off for every trace of the process: entries and closes are sent only after their
      marker is durable ([entry_sent_only_when_marked], [close_sent_only_when_marked]),
      removals only for the instance's own cycle, protections and remainder cancels only for
      the frozen, unmarked cycle, deployments are disabled or deleted only when settled, a
      stored cycle keeps its identity and its frozen context ([saved_cycle_stable]), and all of
      it inside the critical section. Running the same activities, or the operations of
      Runtime.v, one after the other is one of these schedules
      ([sequential_runs_are_schedules], [operations_follow_protocol]).
      The protocol does not read the [enabled] flag, and the code does not under the section:
      [overtaken_bar_enters] is a schedule in which a bar enters a strategy that was disabled
      and deleted while the bar was under way.
    - Liveness (Process.v): no schedule gets stuck or goes on for ever, whoever waits for a
      critical section ([threads_complete]).
    - Requests: one that names an operation does exactly what the operation does, and is
      answered with exactly the status and the body that the table [reports] gives for its end,
      every result and every exception ([requests_run_operations]); a closed bar
      is queued, once, exactly when it is answered 200 ([closed_bar_accepts_exactly]); every
      request is answered with a status its route documents ([answers_are_documented]), given
      that the services raise no refusal of the console's own (Refusals.v).
    - Deployment files: a snapshot lists every file of the directory that describes a
      deployment, names exactly the first problem, code and message, of every other, and every
      duplicate identity with its files ([load_snapshot_complete]); one bad file never hides the others
      ([load_snapshot_contains_failures]); an identity is the canonical content
      ([identity_is_content]). A change or a move that is refused, whatever fails and whatever
      other processes write meanwhile, leaves every visible file to the others
      ([refused_change_leaves_files], [refused_move_leaves_files]); a change of a catalogued
      deployment succeeds where nothing fails, nobody else writes, the temporary name is free and
      the document has no infinity ([set_enabled_completes]). End to end: an
      operator's action that returned has changed [enabled] in the catalog and nothing else
      ([returned_change_reaches_the_file]), a deletion has removed the deployment and kept its
      bytes in the trash ([returned_delete_reaches_the_trash]).
    - The file of a new journal reads back as the events that were persisted, unless an append
      was torn inside a record ([journal_reads_back]). The chart layers are what the plan of the instance shows, or the
      documented refusal ([chart_layers_follow_the_plan]), in whatever order the plan lists its
      features ([feature_order_is_irrelevant]).
    - The process starts completely or not at all, with every client it constructed closed
      ([startup_fails_closed]); the shutdown closes every client once, after the workers
      ([shutdown_closes_every_client]).
    - The bar, the resolver, the operator's actions and the pushed fill: what each call leaves
      in the store and in the trace, on every branch, errors included
      ([recovery_marker_blocks_bar], [detected_closure_ends_cycle], [bar_returns_stored_state],
      also among threads, [bar_returns_stored_state_among_threads],
      [pending_entry_resolution], [pending_close_resolution],
      [tick_attempts_every_marked_instance], [operator_close_outcomes],
      [cancel_step_outcomes], [first_fill_event_applied], [redelivered_event_ignored],
      [replacement_waits_for_removal], [list_trading_states_describes]).
    - The pure decisions: they exist where they are asked for, follow the intended table, and
      converge once confirmed ([decide_entry_reconciliation_correct],
      [confirmed_entry_decision_converges], [decide_position_management_correct],
      [confirmed_protection_converges], [touch_trigger_lifetime]); a confirmation is applied
      only when it answers the command that was sent; a fill is frozen once.
    - The keyed mutex and the workers: mutual exclusion per key and absence of deadlock in every interleaving; the
      intake repeats and reorders nothing and loses nothing but the one event that was dequeued
      when a stop was decided ([intake_accounts_for_every_event]); a stop is final
      ([stop_is_final]) and ends the thread, within three of its steps, under every schedule
      ([stop_terminates]).
    - Texts: one canonical text per number ([normalize_decimal_text_canonical]), a scanner that
      agrees with [Decimal] ([scanner_agrees_with_Decimal]) and the range in which a text
      normalises ([exact_text_normalises]).
    - Durability: a written record is read back ([decode_encoded_state]); whatever a line says,
      what it is read as satisfies the invariants of the model classes
      ([decoded_state_well_formed]) or raises ([decode_state_line_raises]); replaying the log of
      a repository that was opened on a complete one, after any operations that store encodable
      aggregates with ASCII texts and whatever the disk did, gives the aggregates it serves, or
      that with the one write of unknown fate ([replay_recovers_states]). The examples of
      JsonlRepository.v show what the log does not survive.
    - The wire: every representation ABI and the Engine document is read as it is
      ([open_position_answer_accepted], [acknowledgement_accepted],
      [recovery_state_accepted], [projections_accepted]); what is accepted answers the request
      that was sent and satisfies its contract ([entry_package_answer_matches_request],
      [confirmations_answer_their_commands], [recovery_state_is_the_one_named],
      [projections_are_typed]); whatever else arrives, a timeout or a transport error raises an
      error the callers name, and any other exception of the client goes through
      ([http_calls_raise_named_errors]); paths identify cycles ([paths_identify_cycles]).

    ** Modelling decisions

    - A service call is an arbitrary function of the world: it answers or raises, and nothing
      is assumed of the answer. A repository satisfies [RepositoryLaws]: in particular a call
      that raises leaves the content as it was, and a save is observable once it is durable.
    - Threads: a step is one call of a service or of the repository (which serialises its
      callers with a lock of its own), or one observable event; between two steps of a thread
      the others may make any number. A step that enters a critical section is not taken while
      the section is held: this is what Sections.v shows of the keyed mutex, at the
      granularity of its lock operations ([mutex_implements_sections]). [hold] without a timeout waits; with one the world
      decides whether the wait is given up. Programs are finite trees, so that a call that
      never returns is outside of the model: it would hold its section for ever.
    - Deployment files: a directory is a map of names to entries; a name that starts with a dot
      is invisible to the catalog. Each file operation is a step, which other processes may
      precede and which may fail; a scan reads one state of the directory. Closing a descriptor
      is no step. SHA-256 and the shortest text of a float are parameters, the digest a text of
      64 characters ([identity_is_content] says what an equality of digests means) and the text
      one that reads back as the same float ([float_repr_law]).
    - HTTP: a request is its path parameters and its parsed body, [None] when it is not JSON.
      What pydantic does with one field is a class with laws ([Pydantic]); how the model
      classes combine their fields is written out.
    - Configuration: what [tomllib] reads and what the file system answers are parameters; a
      float is its literal number with a test whether the nearest double is positive and
      finite. The constructors of the HTTP transport and client do not fail once the URL and
      the timeout were accepted. In the lifespan the two waits for the workers return.
    - Texts are lists of code points below 256. Exceptions are a class and the literal part of
      the message. Checks of dynamic types ([type(x) is T]) hold by typing. Journal ports are
      present or absent; a record is an event of the trace, and writing it never raises, as
      the ports promise. [freeze_json] is the identity, JSON being immutable here. Integers
      are unbounded, as in Python.
    - JSON: a float is its literal text; a text read from bytes that holds a code point above
      255, or a number where a typed field has no place for it, raises [outside_model]. The
      limit of 4300 digits of Python's integer texts is modelled, the recursion limit of deeply
      nested documents is not. A value that is decoded is untyped JSON until the checks of the
      code have been run on it; there the checks of dynamic types are all modelled.
    - The disk of the log is a list of outcomes, one per append: all bytes are durable, the
      directory cannot be made, or a prefix of the bytes reaches the file and the call raises.
    - An HTTP client is an arbitrary function of a request: a response, one of the two
      exceptions the adapters name, or any other.
    - The reader of JSON runs on fuel [S (2 * length)], which is enough for
      every text: more gives the same result ([scan_more_fuel]), and what it raises is never
      the end of the fuel ([loads_raises]). No other fuel is needed: every other loop of the
      modelled code runs over a given list or text. The loops of the two threads are infinite
      and are steps of a transition system; the number of instances a tick attempts before a
      stop is an argument ([running]).

    ** Not modelled

    The HTTP transport (httpx), the framework (FastAPI, starlette and the single fields of
    pydantic), [tomllib], SHA-256 and the file system are outside code and stay parameters.
    Logging and the sources of time and of random identifiers (their values are arguments) are
    left out. The scripts, tests and documents of the repository are not code of the runtime. *)
From Stdlib Require Export ZArith Lia Ascii String Sorted.
From stdpp Require Export prelude strings list gmap.
Open Scope string_scope.
Open Scope Z_scope.
Open Scope list_scope.

(** * Automation shared by the development *)

Create HintDb runtime.
Create Rewrite HintDb runtime.

(** A literal that occurs in a list of literals. *)
Ltac listed :=
  simpl; solve [repeat first [exact (list_elem_of_here _ _) | apply list_elem_of_further]].

(** Each of a list of literals. *)
Ltac each_listed := repeat (apply Forall_cons_2; [listed|]); apply Forall_nil_2.

(** [break] performs the case analysis a Python [if]/[match] chain asks for: it
    destructs the scrutinee of the first [match] it finds in the goal or in a
    hypothesis, and simplifies the equations it learns. *)
Ltac break :=
  match goal with
  | |- context [match ?x with _ => _ end] =>
      lazymatch x with
      | context [match _ with _ => _ end] => fail
      | _ => destruct x eqn:?
      end
  | H : context [match ?x with _ => _ end] |- _ =>
      lazymatch x with
      | context [match _ with _ => _ end] => fail
      | _ => destruct x eqn:?
      end
  end; simplify_eq/=.

Ltac breaks := repeat break.

(** [by_break] closes goals that are case analyses with trivial leaves. *)
Ltac by_break := intros; simplify_eq/=; breaks; try done; eauto with runtime.

(** * Text

    A Rocq [string] stands for a Python [str] whose code points are all below 256
    (one [ascii] per code point). *)

(** [str.isspace] of one code point below 256. *)
Definition is_space (c : ascii) : bool :=
  let n := N_of_ascii c in
  ((9 <=? n) && (n <=? 13) || (28 <=? n) && (n <=? 32) || (n =? 133) || (n =? 160))%N.

(** [not value.strip()]: the text is empty or all white space. *)
Fixpoint is_blank (s : string) : bool :=
  match s with
  | EmptyString => true
  | String c s => is_space c && is_blank s
  end.

Definition is_empty (s : string) : bool :=
  match s with EmptyString => true | String _ _ => false end.

Fixpoint lstrip (s : string) : string :=
  match s with
  | EmptyString => EmptyString
  | String c s' => if is_space c then lstrip s' else s
  end.

(** [string] as the list of its code points. *)
Definition chars (s : string) : list ascii := list_ascii_of_string s.
Definition text (l : list ascii) : string := string_of_list_ascii l.

Lemma chars_text l : chars (text l) = l.
Proof. apply list_ascii_of_string_of_list_ascii. Qed.

Lemma text_chars s : text (chars s) = s.
Proof. apply string_of_list_ascii_of_string. Qed.

#[export] Hint Rewrite chars_text text_chars : runtime.

(** Remove the leading elements that satisfy [p] ([lstrip] on code points). *)
Fixpoint ldrop {A} (p : A -> bool) (l : list A) : list A :=
  match l with
  | [] => []
  | x :: l' => if p x then ldrop p l' else l
  end.

(** Remove the trailing elements that satisfy [p] ([rstrip]). *)
Definition rdrop {A} (p : A -> bool) (l : list A) : list A := reverse (ldrop p (reverse l)).

(** The longest prefix that satisfies [p], and what follows it: the scanning loops
    [while index < len(value) and p(value[index])]. *)
Fixpoint span {A} (p : A -> bool) (l : list A) : list A * list A :=
  match l with
  | [] => ([], [])
  | x :: l' => if p x then let '(a, b) := span p l' in (x :: a, b) else ([], l)
  end.

Section list_facts.
Context {A : Type} (p : A -> bool).

Lemma span_app l a b : span p l = (a, b) -> l = a ++ b.
Proof.
  revert a b; induction l as [|x l IH]; intros a b H; simplify_eq/=; [done|].
  destruct (p x); [|by inv H].
  destruct (span p l) as [a' b'] eqn:E; simplify_eq/=. f_equal; auto.
Qed.

Lemma span_prefix_forall l a b : span p l = (a, b) -> forallb p a = true.
Proof.
  revert a b; induction l as [|x l IH]; intros a b H; simplify_eq/=; [done|].
  destruct (p x) eqn:Ex; [|by inv H].
  destruct (span p l) as [a' b'] eqn:E; simplify_eq/=. rewrite Ex. eauto.
Qed.

Lemma span_stops l a x b : span p l = (a, x :: b) -> p x = false.
Proof.
  revert a; induction l as [|y l IH]; intros a H; simpl in H; [by inv H|].
  destruct (p y) eqn:Ey; [|by inv H].
  destruct (span p l) as [a' b'] eqn:E; simplify_eq/=. eauto.
Qed.

Lemma span_full a b :
  forallb p a = true -> match b with [] => True | x :: _ => p x = false end ->
  span p (a ++ b) = (a, b).
Proof.
  intros Ha Hb. induction a as [|x a IH]; simpl in *.
  - destruct b as [|y b]; simpl; [reflexivity|]. by rewrite Hb.
  - apply andb_true_iff in Ha as [Hx Ha]. by rewrite Hx, (IH Ha).
Qed.

Lemma ldrop_spec l : exists pre, l = pre ++ ldrop p l /\ forallb p pre = true.
Proof.
  induction l as [|x l (pre & Hl & Hp)]; simpl; [by exists []|].
  destruct (p x) eqn:Ex; [|by exists []].
  exists (x :: pre). simpl. rewrite Ex. split; [by f_equal|done].
Qed.

Lemma ldrop_stops l x l' : ldrop p l = x :: l' -> p x = false.
Proof. induction l as [|y l IH]; simpl; [done|]. destruct (p y) eqn:?; [auto|congruence]. Qed.

Lemma ldrop_id x l : p x = false -> ldrop p (x :: l) = x :: l.
Proof. simpl. by intros ->. Qed.

Lemma ldrop_app_all a b : forallb p a = true -> ldrop p (a ++ b) = ldrop p b.
Proof.
  induction a as [|x a IH]; simpl; [done|].
  intros [-> H]%andb_true_iff. auto.
Qed.

Lemma rdrop_spec l : exists suf, l = rdrop p l ++ suf /\ forallb p suf = true.
Proof.
  unfold rdrop. destruct (ldrop_spec (reverse l)) as (pre & H & Hp).
  exists (reverse pre). split.
  - rewrite <- reverse_app, <- H. by rewrite reverse_involutive.
  - apply forallb_forall. intros x Hx. eapply forallb_forall in Hp; [exact Hp|].
    by apply list_elem_of_In, elem_of_reverse, list_elem_of_In.
Qed.

Lemma rdrop_stops l l' x : rdrop p l = l' ++ [x] -> p x = false.
Proof.
  unfold rdrop. intros H.
  assert (ldrop p (reverse l) = x :: reverse l') as E.
  { rewrite <- (reverse_involutive (ldrop _ _)), H. by rewrite reverse_snoc. }
  eauto using ldrop_stops.
Qed.

Lemma rdrop_app_all a b : forallb p b = true -> rdrop p (a ++ b) = rdrop p a.
Proof.
  intros Hb. unfold rdrop. rewrite reverse_app, ldrop_app_all; [done|].
  apply forallb_forall. intros x Hx. eapply forallb_forall in Hb; [exact Hb|].
  by apply list_elem_of_In, elem_of_reverse, list_elem_of_In.
Qed.

Lemma rdrop_id l x : p x = false -> rdrop p (l ++ [x]) = l ++ [x].
Proof.
  intros Hx. unfold rdrop. rewrite reverse_snoc. simpl. rewrite Hx.
  by rewrite <- reverse_snoc, reverse_involutive.
Qed.
End list_facts.

(** * Python dictionaries with string keys

    Insertion ordered: assigning to a present key keeps its position, assigning to a
    new key appends it. *)

Definition dict (V : Type) := list (string * V).

Fixpoint dget {V} (k : string) (d : dict V) : option V :=
  match d with
  | [] => None
  | (k', v) :: d => if decide (k = k') then Some v else dget k d
  end.

Fixpoint dset {V} (k : string) (v : V) (d : dict V) : dict V :=
  match d with
  | [] => [(k, v)]
  | (k', v') :: d => if decide (k = k') then (k', v) :: d else (k', v') :: dset k v d
  end.

Definition dkeys {V} (d : dict V) : list string := map fst d.

Section dict_facts.
Context {V : Type}.
Implicit Types d : dict V.

Lemma dget_dset k k' v d : dget k (dset k' v d) = if decide (k = k') then Some v else dget k d.
Proof.
  induction d as [|[k1 v1] d IH]; simpl; [by repeat case_decide; simplify_eq|].
  repeat (case_decide; simplify_eq/=); try done.
  all: rewrite IH; by repeat (case_decide; simplify_eq/=).
Qed.

Lemma dget_dset_eq k v d : dget k (dset k v d) = Some v.
Proof. rewrite dget_dset. by rewrite decide_True. Qed.

Lemma dget_dset_ne k k' v d : k <> k' -> dget k (dset k' v d) = dget k d.
Proof. intros. rewrite dget_dset. by rewrite decide_False. Qed.

Lemma dget_Some_elem k v d : dget k d = Some v -> (k, v) ∈ d.
Proof.
  induction d as [|[k1 v1] d IH]; simpl; [done|].
  case_decide; intros; simplify_eq; [left|right; auto].
Qed.

Lemma elem_dget k v d : NoDup (dkeys d) -> (k, v) ∈ d -> dget k d = Some v.
Proof.
  induction d as [|[k1 v1] d IH]; simpl; [by intros _ ?%elem_of_nil|].
  intros [Hk Hd]%NoDup_cons [Heq|Hin]%elem_of_cons; [simplify_eq; by rewrite decide_True|].
  rewrite decide_False; [auto|]. intros ->. apply Hk.
  apply list_elem_of_fmap. by exists (k1, v).
Qed.

Lemma dget_None_keys k d : dget k d = None <-> k ∉ dkeys d.
Proof.
  induction d as [|[k1 v1] d IH]; simpl.
  - split; [intros _ ?%elem_of_nil|]; done.
  - rewrite not_elem_of_cons. case_decide; subst; [|rewrite IH; tauto].
    split; [done|intros []; done].
Qed.

Lemma dkeys_dset k v d :
  dkeys (dset k v d) = if decide (k ∈ dkeys d) then dkeys d else dkeys d ++ [k].
Proof.
  induction d as [|[k1 v1] d IH]; [done|].
  destruct (decide (k ∈ dkeys ((k1, v1) :: d))) as [Hin|Hin];
    destruct (decide (k ∈ dkeys d)) as [Hd|Hd];
    simpl in *; case_decide; simplify_eq/=; try done; rewrite ?IH; try done.
  all: exfalso; rewrite elem_of_cons in Hin; tauto.
Qed.

Lemma dset_NoDup k v d : NoDup (dkeys d) -> NoDup (dkeys (dset k v d)).
Proof.
  intros H. rewrite dkeys_dset. case_decide; [done|].
  apply NoDup_app. split_and!; [done| |apply NoDup_singleton].
  intros x Hx Hx'%list_elem_of_singleton. by subst.
Qed.
End dict_facts.

#[export] Hint Rewrite @dget_dset_eq : runtime.
#[export] Hint Resolve dset_NoDup : runtime.

(** [sorted] with a string key: Python compares [str] by code points, and [sorted] is
    stable; insertion keeps equal keys in their original order. *)
Fixpoint string_leb (a b : string) : bool :=
  match a, b with
  | EmptyString, _ => true
  | String _ _, EmptyString => false
  | String x a, String y b =>
      let nx := N_of_ascii x in
      let ny := N_of_ascii y in
      ((nx <? ny) || (nx =? ny) && string_leb a b)%N
  end.

Section sorting.
Context {A : Type} (key : A -> string).

Fixpoint insert_by (x : A) (l : list A) : list A :=
  match l with
  | [] => [x]
  | y :: l' => if string_leb (key x) (key y) then x :: l else y :: insert_by x l'
  end.

Fixpoint sort_by (l : list A) : list A :=
  match l with
  | [] => []
  | x :: l => insert_by x (sort_by l)
  end.

Lemma insert_by_perm x l : insert_by x l ≡ₚ x :: l.
Proof.
  induction l as [|y l IH]; simpl; [done|].
  destruct (string_leb _ _); [done|]. rewrite IH. apply Permutation_swap.
Qed.

Lemma sort_by_perm l : sort_by l ≡ₚ l.
Proof. induction l as [|x l IH]; simpl; [done|]. by rewrite insert_by_perm, IH. Qed.

Lemma string_leb_total a b : string_leb a b = false -> string_leb b a = true.
Proof.
  revert b; induction a as [|x a IH]; intros [|y b]; simpl; try done.
  intros [H1 H2]%orb_false_iff.
  destruct (N.ltb_spec (N_of_ascii x) (N_of_ascii y)); [done|].
  destruct (N.eqb_spec (N_of_ascii x) (N_of_ascii y)) as [e|e]; simpl in *.
  - rewrite e, N.ltb_irrefl, N.eqb_refl. simpl. auto.
  - apply orb_true_iff. left. apply N.ltb_lt. lia.
Qed.

Lemma string_leb_trans a b c :
  string_leb a b = true -> string_leb b c = true -> string_leb a c = true.
Proof.
  revert b c; induction a as [|x a IH]; intros [|y b] [|z c]; simpl; try done.
  rewrite !orb_true_iff, !andb_true_iff, !N.ltb_lt, !N.eqb_eq.
  intros [?|[? ?]] [?|[? ?]]; [left; lia|left; lia|left; lia|right; split; [lia|eauto]].
Qed.

Definition key_le (x y : A) : Prop := string_leb (key x) (key y) = true.

Lemma insert_by_sorted x l : Sorted key_le l -> Sorted key_le (insert_by x l).
Proof.
  induction 1 as [|y l Hs IH Hr]; simpl; [by repeat constructor|].
  destruct (string_leb (key x) (key y)) eqn:E; [by repeat constructor|].
  constructor; [done|].
  destruct l as [|z l]; simpl.
  - constructor. by apply string_leb_total.
  - destruct (string_leb (key x) (key z)); constructor; [by apply string_leb_total|].
    by inv Hr.
Qed.

Lemma sort_by_sorted l : Sorted key_le (sort_by l).
Proof. induction l as [|x l IH]; simpl; [constructor|by apply insert_by_sorted]. Qed.
End sorting.
