(* ===== verification/Errors.v ===== *)
(** Exceptions and the two ways the runtime's code can end: a value or a raised
    exception.

    [exn_class] lists the exception classes that src/src/strategy_runtime raises or
    catches by class (the [errors.py] modules, the built-in classes the code names, and
    [OtherException] for any class raised by code outside the repository). An exception
    is its class with its message; a message the code builds with an f-string keeps its
    literal part only. The [is_...] functions are the [isinstance] tests of the
    [except] clauses. *)
From S2P Require Import Prelude.

Inductive exn_class : Type :=
| ValueError | TypeError | KeyError | AssertionError | RuntimeError | OSError
| FileExistsError
| JSONDecodeError | UnicodeDecodeError | AttributeError
| OtherException (name : string)
(** runtime/state/errors.py and infrastructure/runtime_state/errors.py *)
| StrategyInstanceIdentityConflict
| StrategyInstanceRegistrationConflict
| StrategyInstanceStateNotFound
| StrategyInstanceStateReplayError
| StrategyInstanceStateStorePoisoned
| StateRecordDecodeError
(** runtime/coordination *)
| StrategyInstanceBusy
(** runtime/first_fill, runtime/entry_reconciliation and its orchestrator and bridge *)
| FirstFillInvariantError
| EntryReconciliationInvariantError
| EntryExecutionNotReady
| EntryReconciliationExecutionError
(** runtime/position_management_decision and _execution *)
| PositionManagementDecisionInvariantError
| PositionManagementExecutionInvariantError
| PositionManagementExecutionUnavailable
| PositionManagementExecutionTimeout
| PositionManagementExecutionNetworkFailure
| PositionManagementExecutionProtocolError
| PositionManagementExecutionPublicError (status_code : Z) (code : string)
| PositionManagementExecutionNotReady
(** runtime/open_position *)
| OpenPositionLookupUnavailable
| OpenPositionLookupTimeout
| OpenPositionLookupNetworkFailure
| OpenPositionLookupProtocolError
| OpenPositionLookupPublicError (status_code : Z) (code : string)
| OpenPositionLookupExecutionNotReady
(** runtime/abi *)
| AbiEntryPackageTimeout
| AbiEntryPackageNetworkFailure
| AbiEntryPackageProtocolError
| AbiEntryCycleRecoveryTimeout
| AbiEntryCycleRecoveryNetworkFailure
| AbiEntryCycleRecoveryProtocolError
| AbiEntryCycleRecoveryUnavailable
| AbiEntryCycleRecoveryUnknownTradeCycleBinding
| AbiEntryCycleRecoveryExecutionNotReady
(** runtime/routing, runtime/engine, runtime/orchestrator *)
| StrategyInstanceBindingError
| OpenTradeContextUnavailable
| StrategyEngineProjectionPublicError (status_code : Z) (code : string)
| StrategyEngineMarketStreamNotFound
| StrategyEngineProjectionTimeout
| StrategyEngineProjectionNetworkFailure
| StrategyEngineProjectionProtocolError
| UnknownStrategyProjectionError
(** runtime/enabled_control, runtime/strategy_delete, runtime/operator_commands *)
| StrategyInstanceNotFound | InstanceBusy | RecoveryPending | PositionOpen
| CycleNotSettled | CancelNotConfirmed | AbiUnavailable | FileChanged
| IdentityChanged | WriteFailed | CatalogUnavailable
| StillEnabled | TrashNameTaken | MoveFailed | NoPosition
(** runtime/chart_layers *)
| EngineUnavailable
| EngineRejected (engine_code engine_message : string)
(** runtime/trading_state *)
| TradingStateCatalogUnavailable | StateUnavailable
(** utility/deployment_catalog *)
| DeploymentCatalogUnavailableError
| InvalidDeployment (code : string) (message : option string)
| DeploymentNotInCatalog
| DeploymentFileChanged
| DeploymentIdentityWouldChange
| DeploymentFileWriteFailed
| DeploymentTrashNameTaken
| DeploymentTrashMoveFailed
(** utility/committed_bar, runtime/committed_bar_intake *)
| CommittedBarPreparationError (stage : string)
| IntakeNotAccepting
| QueueFull
| QueueEmpty.

#[export] Instance exn_class_eq_dec : EqDecision exn_class.
Proof. solve_decision. Defined.

Record exn : Type := Exn { exn_cls : exn_class; exn_msg : string }.

#[export] Instance exn_eq_dec : EqDecision exn.
Proof. solve_decision. Defined.

(** [error.__class__.__name__]. *)
Definition class_name (c : exn_class) : string :=
  match c with
  | ValueError => "ValueError" | TypeError => "TypeError" | KeyError => "KeyError"
  | AssertionError => "AssertionError" | RuntimeError => "RuntimeError"
  | OSError => "OSError" | FileExistsError => "FileExistsError" | JSONDecodeError => "JSONDecodeError"
  | UnicodeDecodeError => "UnicodeDecodeError" | AttributeError => "AttributeError"
  | OtherException name => name
  | StrategyInstanceIdentityConflict => "StrategyInstanceIdentityConflict"
  | StrategyInstanceRegistrationConflict => "StrategyInstanceRegistrationConflict"
  | StrategyInstanceStateNotFound => "StrategyInstanceStateNotFound"
  | StrategyInstanceStateReplayError => "StrategyInstanceStateReplayError"
  | StrategyInstanceStateStorePoisoned => "StrategyInstanceStateStorePoisoned"
  | StateRecordDecodeError => "StateRecordDecodeError"
  | StrategyInstanceBusy => "StrategyInstanceBusy"
  | FirstFillInvariantError => "FirstFillInvariantError"
  | EntryReconciliationInvariantError => "EntryReconciliationInvariantError"
  | EntryExecutionNotReady => "EntryExecutionNotReady"
  | EntryReconciliationExecutionError => "EntryReconciliationExecutionError"
  | PositionManagementDecisionInvariantError => "PositionManagementDecisionInvariantError"
  | PositionManagementExecutionInvariantError => "PositionManagementExecutionInvariantError"
  | PositionManagementExecutionUnavailable => "PositionManagementExecutionUnavailable"
  | PositionManagementExecutionTimeout => "PositionManagementExecutionTimeout"
  | PositionManagementExecutionNetworkFailure => "PositionManagementExecutionNetworkFailure"
  | PositionManagementExecutionProtocolError => "PositionManagementExecutionProtocolError"
  | PositionManagementExecutionPublicError _ _ => "PositionManagementExecutionPublicError"
  | PositionManagementExecutionNotReady => "PositionManagementExecutionNotReady"
  | OpenPositionLookupUnavailable => "OpenPositionLookupUnavailable"
  | OpenPositionLookupTimeout => "OpenPositionLookupTimeout"
  | OpenPositionLookupNetworkFailure => "OpenPositionLookupNetworkFailure"
  | OpenPositionLookupProtocolError => "OpenPositionLookupProtocolError"
  | OpenPositionLookupPublicError _ _ => "OpenPositionLookupPublicError"
  | OpenPositionLookupExecutionNotReady => "OpenPositionLookupExecutionNotReady"
  | AbiEntryPackageTimeout => "AbiEntryPackageTimeout"
  | AbiEntryPackageNetworkFailure => "AbiEntryPackageNetworkFailure"
  | AbiEntryPackageProtocolError => "AbiEntryPackageProtocolError"
  | AbiEntryCycleRecoveryTimeout => "AbiEntryCycleRecoveryTimeout"
  | AbiEntryCycleRecoveryNetworkFailure => "AbiEntryCycleRecoveryNetworkFailure"
  | AbiEntryCycleRecoveryProtocolError => "AbiEntryCycleRecoveryProtocolError"
  | AbiEntryCycleRecoveryUnavailable => "AbiEntryCycleRecoveryUnavailable"
  | AbiEntryCycleRecoveryUnknownTradeCycleBinding =>
      "AbiEntryCycleRecoveryUnknownTradeCycleBinding"
  | AbiEntryCycleRecoveryExecutionNotReady => "AbiEntryCycleRecoveryExecutionNotReady"
  | StrategyInstanceBindingError => "StrategyInstanceBindingError"
  | OpenTradeContextUnavailable => "OpenTradeContextUnavailable"
  | StrategyEngineProjectionPublicError _ _ => "StrategyEngineProjectionPublicError"
  | StrategyEngineMarketStreamNotFound => "StrategyEngineMarketStreamNotFound"
  | StrategyEngineProjectionTimeout => "StrategyEngineProjectionTimeout"
  | StrategyEngineProjectionNetworkFailure => "StrategyEngineProjectionNetworkFailure"
  | StrategyEngineProjectionProtocolError => "StrategyEngineProjectionProtocolError"
  | UnknownStrategyProjectionError => "UnknownStrategyProjectionError"
  | StrategyInstanceNotFound => "StrategyInstanceNotFound"
  | InstanceBusy => "InstanceBusy" | RecoveryPending => "RecoveryPending"
  | PositionOpen => "PositionOpen" | CycleNotSettled => "CycleNotSettled"
  | CancelNotConfirmed => "CancelNotConfirmed" | AbiUnavailable => "AbiUnavailable"
  | FileChanged => "FileChanged" | IdentityChanged => "IdentityChanged"
  | WriteFailed => "WriteFailed" | CatalogUnavailable => "CatalogUnavailable"
  | StillEnabled => "StillEnabled" | TrashNameTaken => "TrashNameTaken"
  | MoveFailed => "MoveFailed" | NoPosition => "NoPosition"
  | EngineUnavailable => "EngineUnavailable" | EngineRejected _ _ => "EngineRejected"
  | TradingStateCatalogUnavailable => "CatalogUnavailable"
  | StateUnavailable => "StateUnavailable"
  | DeploymentCatalogUnavailableError => "DeploymentCatalogUnavailableError"
  | InvalidDeployment _ _ => "_InvalidDeployment"
  | DeploymentNotInCatalog => "DeploymentNotInCatalog"
  | DeploymentFileChanged => "DeploymentFileChanged"
  | DeploymentIdentityWouldChange => "DeploymentIdentityWouldChange"
  | DeploymentFileWriteFailed => "DeploymentFileWriteFailed"
  | DeploymentTrashNameTaken => "DeploymentTrashNameTaken"
  | DeploymentTrashMoveFailed => "DeploymentTrashMoveFailed"
  | CommittedBarPreparationError _ => "CommittedBarPreparationError"
  | IntakeNotAccepting => "IntakeNotAccepting"
  | QueueFull => "Full" | QueueEmpty => "Empty"
  end.

(** [except PositionManagementExecutionError] *)
Definition is_position_management_execution_error (c : exn_class) : bool :=
  match c with
  | PositionManagementExecutionUnavailable | PositionManagementExecutionTimeout
  | PositionManagementExecutionNetworkFailure | PositionManagementExecutionProtocolError
  | PositionManagementExecutionPublicError _ _ | PositionManagementExecutionNotReady => true
  | _ => false
  end.

(** [except OpenPositionResolutionError] *)
Definition is_open_position_resolution_error (c : exn_class) : bool :=
  match c with
  | OpenPositionLookupUnavailable | OpenPositionLookupTimeout
  | OpenPositionLookupNetworkFailure | OpenPositionLookupProtocolError
  | OpenPositionLookupPublicError _ _ | OpenPositionLookupExecutionNotReady => true
  | _ => false
  end.

(** [except AbiEntryPackageClientError] *)
Definition is_abi_entry_package_client_error (c : exn_class) : bool :=
  match c with
  | AbiEntryPackageTimeout | AbiEntryPackageNetworkFailure
  | AbiEntryPackageProtocolError => true
  | _ => false
  end.

(** [except AbiEntryCycleRecoveryClientError] *)
Definition is_abi_entry_cycle_recovery_client_error (c : exn_class) : bool :=
  match c with
  | AbiEntryCycleRecoveryTimeout | AbiEntryCycleRecoveryNetworkFailure
  | AbiEntryCycleRecoveryProtocolError | AbiEntryCycleRecoveryUnavailable
  | AbiEntryCycleRecoveryUnknownTradeCycleBinding
  | AbiEntryCycleRecoveryExecutionNotReady => true
  | _ => false
  end.

(** [except StrategyEngineProjectionUnavailable] *)
Definition is_engine_projection_unavailable (c : exn_class) : bool :=
  match c with
  | StrategyEngineProjectionPublicError _ _ | StrategyEngineMarketStreamNotFound
  | StrategyEngineProjectionTimeout | StrategyEngineProjectionNetworkFailure
  | StrategyEngineProjectionProtocolError => true
  | _ => false
  end.

(** [except StrategyInstanceStateError] *)
Definition is_strategy_instance_state_error (c : exn_class) : bool :=
  match c with
  | StrategyInstanceIdentityConflict | StrategyInstanceRegistrationConflict
  | StrategyInstanceStateNotFound => true
  | _ => false
  end.

(** [except ValueError]: the class and its subclasses. *)
Definition is_value_error (c : exn_class) : bool :=
  match c with
  | ValueError | JSONDecodeError | UnicodeDecodeError | StateRecordDecodeError => true
  | _ => false
  end.

(** [except OSError]: the class and its subclass. *)
Definition is_os_error (c : exn_class) : bool :=
  match c with OSError | FileExistsError => true | _ => false end.

(** [except (TypeError, ValueError, KeyError)] *)
Definition is_decode_failure (c : exn_class) : bool :=
  is_value_error c || bool_decide (c = TypeError) || bool_decide (c = KeyError).

(** [except EnabledFileChangeError] *)
Definition is_enabled_file_change_error (c : exn_class) : bool :=
  match c with
  | DeploymentNotInCatalog | DeploymentFileChanged | DeploymentIdentityWouldChange
  | DeploymentFileWriteFailed | DeploymentTrashNameTaken | DeploymentTrashMoveFailed => true
  | _ => false
  end.

(** The HTTP answer of an [EnabledControlRefused]: its class attributes [status_code]
    and [reason]; [None] for a class outside that hierarchy. *)
Definition refusal (c : exn_class) : option (Z * string) :=
  match c with
  | StrategyInstanceNotFound => Some (404, "strategy_instance_not_found")
  | InstanceBusy => Some (503, "instance_busy")
  | RecoveryPending => Some (409, "recovery_pending")
  | PositionOpen => Some (409, "position_open")
  | CycleNotSettled => Some (409, "cycle_not_settled")
  | CancelNotConfirmed => Some (409, "cancel_not_confirmed")
  | AbiUnavailable => Some (502, "abi_unavailable")
  | FileChanged => Some (409, "file_changed")
  | IdentityChanged => Some (500, "identity_changed")
  | WriteFailed => Some (500, "write_failed")
  | CatalogUnavailable => Some (503, "catalog_unavailable")
  | StillEnabled => Some (409, "still_enabled")
  | TrashNameTaken => Some (409, "trash_name_taken")
  | MoveFailed => Some (500, "move_failed")
  | NoPosition => Some (409, "no_position")
  | EngineUnavailable => Some (502, "engine_unavailable")
  | EngineRejected _ _ => Some (422, "engine_rejected")
  | _ => None
  end.

(** * Results of pure code *)

Inductive result (A : Type) : Type :=
| Ok (a : A)
| Raise (e : exn).
Arguments Ok {A} a.
Arguments Raise {A} e.

#[export] Instance result_eq_dec {A} `{EqDecision A} : EqDecision (result A).
Proof. solve_decision. Defined.

#[export] Instance result_ret : MRet result := @Ok.
#[export] Instance result_bind : MBind result := fun A B f m =>
  match m with Ok a => f a | Raise e => Raise e end.

(** [raise cls(msg)] *)
Definition raise {A} (c : exn_class) (msg : string) : result A := Raise (Exn c msg).

(** [if not b: raise cls(msg)] *)
Definition require (b : bool) (c : exn_class) (msg : string) : result unit :=
  if b then Ok tt else raise c msg.

(** [_require_non_empty_string]: the same helper is defined in most modules. *)
Definition require_non_empty_string (s name : string) : result unit :=
  require (negb (is_empty s)) ValueError (name +:+ " must be a non-empty string").

Definition is_ok {A} (r : result A) : bool := match r with Ok _ => true | Raise _ => false end.

Lemma result_bind_Ok {A B} (m : result A) (f : A -> result B) b :
  m ≫= f = Ok b <-> exists a, m = Ok a /\ f a = Ok b.
Proof. destruct m; simpl; naive_solver. Qed.

Lemma require_Ok b c msg u : require b c msg = Ok u <-> b = true.
Proof. destruct b, u; simpl; unfold raise; naive_solver. Qed.

#[export] Hint Rewrite @result_bind_Ok @require_Ok : runtime.

Lemma is_empty_false s : s <> EmptyString -> is_empty s = false.
Proof. by destruct s. Qed.

Lemma require_non_empty_true s name :
  s <> EmptyString -> require_non_empty_string s name = Ok tt.
Proof. by destruct s. Qed.

Lemma require_non_empty_Ok s name u :
  require_non_empty_string s name = Ok u -> s <> EmptyString.
Proof. unfold require_non_empty_string. intros H%require_Ok. by destruct s. Qed.

(** [ok_inv H] splits [H : (x ← m; ...) = Ok v] into the steps that succeeded. *)
Ltac ok_inv H :=
  repeat first
    [ lazymatch type of H with
      | _ ≫= _ = Ok _ =>
          apply result_bind_Ok in H; let a := fresh "a" in let Ha := fresh "Hok" in
          destruct H as (a & Ha & H)
      end
    | progress simplify_eq/=
    | lazymatch type of H with raise _ _ = Ok _ => discriminate H end ].

(** [ok_all] does so in every hypothesis, and reads the checks that passed. *)
Ltac ok_all :=
  repeat first
    [ match goal with
      | H : _ ≫= _ = Ok _ |- _ => apply result_bind_Ok in H as (? & ? & ?)
      | H : require _ _ _ = Ok _ |- _ => apply require_Ok in H
      | H : raise _ _ = Ok _ |- _ => discriminate H
      | H : bool_decide _ = true |- _ => apply bool_decide_eq_true in H
      | H : (_ <? _)%Z = true |- _ => apply Z.ltb_lt in H
      | H : (_ <=? _)%Z = true |- _ => apply Z.leb_le in H
      | H : (_ =? _)%Z = true |- _ => apply Z.eqb_eq in H
      | H : _ && _ = true |- _ => apply andb_true_iff in H as [? ?]
      | H : negb _ = true |- _ => apply negb_true_iff in H
      | H : (_ <? _)%Z = false |- _ => apply Z.ltb_ge in H
      end
    | progress simplify_eq/= ].

(** [when_some o f]: evaluate [f] only when the optional value is present. *)
Definition when_some {A B} (o : option A) (f : A -> result B) : result (option B) :=
  match o with
  | None => Ok None
  | Some a => b ← f a; Ok (Some b)
  end.

(** Left-to-right evaluation of a comprehension whose element may raise. *)
Fixpoint traverse {A B} (f : A -> result B) (l : list A) : result (list B) :=
  match l with
  | [] => Ok []
  | a :: l => b ← f a; bs ← traverse f l; Ok (b :: bs)
  end.

Lemma traverse_Ok {A B} (f : A -> result B) l bs :
  traverse f l = Ok bs <-> Forall2 (fun a b => f a = Ok b) l bs.
Proof.
  revert bs; induction l as [|a l IH]; intros bs; simpl.
  - split; intros H; [simplify_eq; constructor|by inv H].
  - split; intros H; [ok_inv H; constructor; naive_solver|].
    inversion H as [|? b ? bs' Hb Hbs]; subst. by rewrite Hb, (proj2 (IH _) Hbs).
Qed.

Lemma traverse_map {A B} (f : A -> result B) (g : A -> B) l :
  Forall (fun a => f a = Ok (g a)) l -> traverse f l = Ok (map g l).
Proof. induction 1 as [|a l Ha Hl IH]; simpl; [done|]. by rewrite Ha, IH. Qed.

(** * Which exceptions pure code raises *)

Definition raises {A} (P : exn -> Prop) (r : result A) : Prop :=
  match r with Ok _ => True | Raise e => P e end.

Section raises.
Context (P : exn -> Prop).

Lemma raises_bind {A B} (m : result A) (f : A -> result B) :
  raises P m -> (forall a, m = Ok a -> raises P (f a)) -> raises P (m ≫= f).
Proof. destruct m; simpl; auto. Qed.

Lemma raises_raise {A} c msg : P (Exn c msg) -> raises (A := A) P (raise c msg).
Proof. done. Qed.

Lemma raises_Raise {A} e : P e -> raises (A := A) P (Raise e).
Proof. done. Qed.

Lemma raises_Ok {A} (a : A) : raises P (Ok a).
Proof. done. Qed.

Lemma raises_require b c msg : P (Exn c msg) -> raises P (require b c msg).
Proof. by destruct b. Qed.

Lemma raises_weaken {A} (Q : exn -> Prop) (r : result A) :
  raises Q r -> (forall e, Q e -> P e) -> raises P r.
Proof. destruct r; simpl; auto. Qed.
End raises.

(** Walk through a chain of steps; what is left are the steps that are not known yet. *)
Ltac raises_step :=
  lazymatch goal with
  | |- raises _ (Ok _) => apply raises_Ok
  | |- raises _ (require _ _ _) => apply raises_require
  | |- raises _ (raise _ _) => apply raises_raise
  | |- raises _ (Raise _) => apply raises_Raise
  | |- raises _ (mbind _ _) => apply raises_bind; [|intros ? ?]
  | |- raises _ _ => first [solve [eauto with raises] | case_match]
  end.
Ltac raises := repeat raises_step; try done.

Create HintDb raises.
