(* ===== verification/DecimalText.v ===== *)
(** shared/decimal_text.py: the exact-decimal grammar of the runtime and the canonical
    price text.

    [decimal_of_string] and [format_f] model the two uses the module makes of Python's
    [decimal]: [Decimal(text)] (white space stripped, underscores removed, exponent
    range of a 64-bit build) and [format(number, "f")]. *)
From S2P Require Import Prelude Errors.

(** * The exact-decimal grammar *)

Definition ch (s : string) : ascii := match s with String c _ => c | EmptyString => "0"%char end.

(** [_is_digit] *)
Definition is_digit (c : ascii) : bool :=
  let n := N_of_ascii c in ((48 <=? n) && (n <=? 57))%N.

Definition is_sign (c : ascii) : bool := bool_decide (c = "+"%char) || bool_decide (c = "-"%char).
Definition is_exp_mark (c : ascii) : bool :=
  bool_decide (c = "e"%char) || bool_decide (c = "E"%char).
Definition nonzero_digit (c : ascii) : bool := negb (bool_decide (c = "0"%char)).

(** The optional sign at the head of a text: is it a minus, and what follows it. *)
Definition take_sign (l : list ascii) : bool * list ascii :=
  match l with
  | c :: l' => if is_sign c then (bool_decide (c = "-"%char), l') else (false, l)
  | [] => (false, [])
  end.

(** Digits, then optionally a point and more digits. *)
Definition take_coefficient (l : list ascii) : list ascii * list ascii * list ascii :=
  let '(int_digits, rest) := span is_digit l in
  match rest with
  | c :: rest' =>
      if decide (c = "."%char) then
        let '(frac_digits, rest'') := span is_digit rest' in (int_digits, frac_digits, rest'')
      else (int_digits, [], rest)
  | [] => (int_digits, [], [])
  end.

(** [_analyze_exact_decimal_text]: is the text in the grammar, and is it positive. *)
Definition analyze_exact_decimal_text (value : string) : bool * bool :=
  if is_empty value then (false, false) else
  let '(negative, rest) := take_sign (chars value) in
  let '(int_digits, frac_digits, rest) := take_coefficient rest in
  let digits := int_digits ++ frac_digits in
  match digits with
  | [] => (false, false)
  | _ :: _ =>
      let verdict := (true, negb negative && existsb nonzero_digit digits) in
      match rest with
      | [] => verdict
      | c :: rest' =>
          if is_exp_mark c then
            let '(_, rest') := take_sign rest' in
            let '(exp_digits, rest'') := span is_digit rest' in
            match exp_digits, rest'' with
            | _ :: _, [] => verdict
            | _, _ => (false, false)
            end
          else (false, false)
      end
  end.

Definition is_exact_decimal_text (value : string) : bool :=
  fst (analyze_exact_decimal_text value).

Definition is_positive_exact_decimal_text (value : string) : bool :=
  let '(valid, positive) := analyze_exact_decimal_text value in valid && positive.

(** * Python's [Decimal] *)

(** A finite decimal: sign, coefficient digits (no leading zero, or the digit 0 alone)
    and exponent. *)
Record decimal := Decimal { d_neg : bool; d_digits : list ascii; d_exp : Z }.

Inductive decimal_parse := DFinite (d : decimal) | DSpecial | DInvalid.

Definition digit_value (c : ascii) : Z := Z.of_N (N_of_ascii c) - 48.

Fixpoint digits_value_aux (acc : Z) (l : list ascii) : Z :=
  match l with
  | [] => acc
  | c :: l => digits_value_aux (10 * acc + digit_value c) l
  end.
Definition digits_value (l : list ascii) : Z := digits_value_aux 0 l.

Definition is_zero_char (c : ascii) : bool := bool_decide (c = "0"%char).

(** The coefficient without its leading zeros. *)
Definition strip_leading_zeros (l : list ascii) : list ascii :=
  match ldrop is_zero_char l with [] => ["0"%char] | l' => l' end.

(** [MAX_EMAX] and [MIN_ETINY] of a 64-bit build. *)
Definition max_emax : Z := 999999999999999999.
Definition min_etiny : Z := -1999999999999999997.

Definition make_decimal (neg : bool) (int_digits frac_digits : list ascii) (e : Z) :
    decimal_parse :=
  let digits := strip_leading_zeros (int_digits ++ frac_digits) in
  let exp := e - Z.of_nat (length frac_digits) in
  if (min_etiny <=? exp) && (exp + Z.of_nat (length digits) - 1 <=? max_emax)
  then DFinite (Decimal neg digits exp) else DInvalid.

Definition lower_ascii (c : ascii) : ascii :=
  let n := N_of_ascii c in
  if ((65 <=? n) && (n <=? 90))%N then ascii_of_N (n + 32) else c.

(** [inf], [infinity], [nan] and [snan] with an optional diagnostic, in any case. *)
Definition is_special (l : list ascii) : bool :=
  let l := map lower_ascii l in
  let nan l := match l with
    | a :: b :: c :: rest => bool_decide ([a; b; c] = chars "nan") && forallb is_digit rest
    | _ => false end in
  bool_decide (l = chars "inf") || bool_decide (l = chars "infinity") || nan l ||
  match l with s :: l' => bool_decide (s = "s"%char) && nan l' | [] => false end.

Definition parse_number (neg : bool) (l : list ascii) : decimal_parse :=
  let '(int_digits, frac_digits, rest) := take_coefficient l in
  match int_digits ++ frac_digits with
  | [] => DInvalid
  | _ :: _ =>
      match rest with
      | [] => make_decimal neg int_digits frac_digits 0
      | c :: rest' =>
          if is_exp_mark c then
            let '(exp_neg, rest') := take_sign rest' in
            let '(exp_digits, rest'') := span is_digit rest' in
            match exp_digits, rest'' with
            | _ :: _, [] =>
                let e := digits_value exp_digits in
                make_decimal neg int_digits frac_digits (if exp_neg then - e else e)
            | _, _ => DInvalid
            end
          else DInvalid
      end
  end.

(** [Decimal(value)]. *)
Definition decimal_of_string (value : string) : decimal_parse :=
  let stripped := rdrop is_space (ldrop is_space (chars value)) in
  let l := List.filter (fun c => negb (bool_decide (c = "_"%char))) stripped in
  let '(neg, rest) := take_sign l in
  if is_special rest then DSpecial else parse_number neg rest.

Definition zeros (n : nat) : list ascii := replicate n "0"%char.

(** [format(number, "f")]. *)
Definition format_f (d : decimal) : list ascii :=
  let digits := d_digits d in
  let exp := if bool_decide (digits = ["0"%char]) && (0 <? d_exp d) then 0 else d_exp d in
  let dotplace := exp + Z.of_nat (length digits) in
  let body :=
    if 0 <=? exp then digits ++ zeros (Z.to_nat exp)
    else if dotplace <=? 0 then
      "0"%char :: "."%char :: zeros (Z.to_nat (- dotplace)) ++ digits
    else
      take (Z.to_nat dotplace) digits ++ "."%char :: drop (Z.to_nat dotplace) digits in
  if d_neg d then "-"%char :: body else body.

Definition is_dot (c : ascii) : bool := bool_decide (c = "."%char).

(** The clean-up after [format]: drop trailing fractional zeros and a bare point, and
    write every zero as [0]. *)
Definition clean (normalized : list ascii) : list ascii :=
  let normalized :=
    if existsb is_dot normalized
    then rdrop is_dot (rdrop is_zero_char normalized) else normalized in
  if bool_decide (normalized = chars "-0") || bool_decide (normalized = [])
  then chars "0" else normalized.

Definition normalize_decimal_text (value : string) : result string :=
  if is_blank value then raise ValueError "decimal text must be a non-empty string" else
  match decimal_of_string value with
  | DInvalid => raise ValueError "invalid decimal text"
  | DSpecial => raise ValueError "decimal text must be finite"
  | DFinite number => Ok (text (clean (format_f number)))
  end.

(** [Decimal(value) <= 0], for a text [normalize_decimal_text] returned. *)
Definition decimal_le_zero (value : string) : bool :=
  match decimal_of_string value with
  | DFinite d => d_neg d || forallb is_zero_char (d_digits d)
  | _ => true
  end.
