(* ===== verification/DecimalCanonical.v ===== *)
(** The canonical decimal text of shared/decimal_text.py: [normalize_decimal_text] writes every
    finite number in exactly one way, and that text is in the exact-decimal grammar. *)
From S2P Require Import Prelude Errors DecimalText.

(** * Digits *)

Definition digits (l : list ascii) : Prop := forallb is_digit l = true.

(** Case analysis over the 256 code points. *)
Ltac by_code_point :=
  match goal with
  | c : ascii |- _ => destruct c as [[] [] [] [] [] [] [] []]; vm_compute; intros; by try lia
  end.

Lemma digit_range c : is_digit c = true -> 0 <= digit_value c <= 9.
Proof. by_code_point. Qed.

Lemma digit_zero c : is_digit c = true -> digit_value c = 0 -> c = "0"%char.
Proof. by_code_point. Qed.

Lemma digit_value_inj c c' :
  is_digit c = true -> is_digit c' = true -> digit_value c = digit_value c' -> c = c'.
Proof.
  unfold digit_value. intros _ _ Hv. assert (N_of_ascii c = N_of_ascii c') as Hn by lia.
  apply (f_equal ascii_of_N) in Hn. by rewrite !ascii_N_embedding in Hn.
Qed.

Lemma digit_plain c : is_digit c = true ->
  is_space c = false /\ is_sign c = false /\ is_dot c = false /\
  bool_decide (c = "_"%char) = false /\ lower_ascii c = c /\
  c <> "i"%char /\ c <> "n"%char /\ c <> "s"%char /\ c <> "-"%char.
Proof. by_code_point. Qed.

Lemma digits_app a b : digits (a ++ b) <-> digits a /\ digits b.
Proof. unfold digits. by rewrite forallb_app, andb_true_iff. Qed.

Lemma digits_cons c l : digits (c :: l) <-> is_digit c = true /\ digits l.
Proof. unfold digits. simpl. by rewrite andb_true_iff. Qed.

Lemma digits_zeros n : digits (zeros n).
Proof. induction n; [done|]. by apply digits_cons. Qed.

Lemma digits_take_drop n l : digits l -> digits (take n l) /\ digits (drop n l).
Proof. intros Hl. apply digits_app. by rewrite take_drop. Qed.

(** * The value of a digit list *)

Local Notation len l := (Z.of_nat (length l)).

Lemma digits_value_aux_acc acc l :
  digits_value_aux acc l = acc * 10 ^ len l + digits_value l.
Proof.
  unfold digits_value. revert acc. induction l as [|c l IH]; intros acc; [simpl; lia|].
  cbn [digits_value_aux length]. rewrite IH, (IH (10 * 0 + _)), Nat2Z.inj_succ, Z.pow_succ_r by lia.
  lia.
Qed.

Lemma digits_value_cons c l : digits_value (c :: l) = digit_value c * 10 ^ len l + digits_value l.
Proof.
  unfold digits_value at 1. cbn [digits_value_aux]. rewrite digits_value_aux_acc. lia.
Qed.

Lemma digits_value_app a b : digits_value (a ++ b) = digits_value a * 10 ^ len b + digits_value b.
Proof.
  induction a as [|c a IH]; [done|]. simpl. rewrite !digits_value_cons, IH, length_app.
  rewrite Nat2Z.inj_add, Z.pow_add_r by lia. lia.
Qed.

Lemma digits_value_bound l : digits l -> 0 <= digits_value l < 10 ^ len l.
Proof.
  induction l as [|c l IH]; [done|]. intros [Hc Hl]%digits_cons.
  specialize (IH Hl). pose proof (digit_range c Hc).
  rewrite digits_value_cons. simpl. rewrite Nat2Z.inj_succ, Z.pow_succ_r by lia. nia.
Qed.

Lemma digits_value_zeros n : digits_value (zeros n) = 0.
Proof.
  induction n as [|n IH]; [done|]. change (zeros (S n)) with ("0"%char :: zeros n).
  by rewrite digits_value_cons, IH.
Qed.

Lemma digits_value_all_zero l : forallb is_zero_char l = true -> digits_value l = 0.
Proof.
  induction l as [|c l IH]; [done|]. simpl. intros [Hc Hl]%andb_true_iff.
  apply bool_decide_eq_true in Hc as ->. by rewrite digits_value_cons, IH.
Qed.

Lemma digits_value_inj a b :
  digits a -> digits b -> length a = length b -> digits_value a = digits_value b -> a = b.
Proof.
  revert b. induction a as [|x a IH]; intros [|y b]; try done.
  intros [Hx Ha]%digits_cons [Hy Hb]%digits_cons [= Hlen] Hv.
  rewrite !digits_value_cons, Hlen in Hv.
  pose proof (digits_value_bound a Ha). pose proof (digits_value_bound b Hb). rewrite Hlen in *.
  assert (digit_value x = digit_value y) as Hxy by nia.
  f_equal; [by apply digit_value_inj|]. apply IH; try done. nia.
Qed.

(** ** Digit lists without a leading zero *)

(** The digit 0 alone, or no leading zero. *)
Definition leading (l : list ascii) : Prop :=
  digits l /\ (l = ["0"%char] \/ exists c l', l = c :: l' /\ c <> "0"%char).

Lemma leading_lower_bound c l :
  digits (c :: l) -> c <> "0"%char -> 10 ^ len l <= digits_value (c :: l).
Proof.
  intros [Hc Hl]%digits_cons Hne. rewrite digits_value_cons.
  pose proof (digits_value_bound l Hl). pose proof (digit_range c Hc).
  assert (digit_value c <> 0) by (intros ?; by apply Hne, digit_zero). nia.
Qed.

Lemma strip_leading_zeros_spec l :
  digits l ->
  leading (strip_leading_zeros l) /\ digits_value (strip_leading_zeros l) = digits_value l /\
  (length (strip_leading_zeros l) <= Nat.max 1 (length l))%nat.
Proof.
  intros Hl. unfold strip_leading_zeros.
  destruct (ldrop_spec is_zero_char l) as (pre & Heq & Hpre).
  assert (digits_value l = digits_value (ldrop is_zero_char l)) as Hv.
  { rewrite Heq at 1. by rewrite digits_value_app, (digits_value_all_zero pre). }
  destruct (ldrop is_zero_char l) as [|c l'] eqn:Hd.
  - split_and!; [by split; [|left]|by rewrite Hv|simpl; lia].
  - split_and!; [split| |].
    + rewrite Heq in Hl. by apply digits_app in Hl as [_ ?].
    + right. exists c, l'. split; [done|]. intros ->. by apply ldrop_stops in Hd.
    + done.
    + rewrite Heq, length_app. lia.
Qed.

Lemma leading_inj a b : leading a -> leading b -> digits_value a = digits_value b -> a = b.
Proof.
  assert (forall a b, leading a -> leading b -> digits_value a = digits_value b ->
    (length a <= length b)%nat) as Hle.
  { clear a b. intros a b [Ha Ha'] [Hb Hb'] Hv.
    destruct Ha' as [->|(c & l & -> & Hc)].
    { simpl. destruct Hb' as [->|(? & ? & -> & _)]; simpl; lia. }
    pose proof (leading_lower_bound c l Ha Hc). pose proof (digits_value_bound b Hb).
    destruct (Nat.le_gt_cases (length (c :: l)) (length b)) as [?|Hgt]; [done|exfalso].
    assert (10 ^ len b <= 10 ^ len l) by (apply Z.pow_le_mono_r; simpl in Hgt; lia). lia. }
  intros Ha Hb Hv. pose proof (Hle a b Ha Hb Hv). pose proof (Hle b a Hb Ha (eq_sym Hv)).
  destruct Ha, Hb. apply digits_value_inj; [done|done|lia|done].
Qed.

Lemma leading_app_inj a b u v :
  leading a -> leading b -> digits u -> digits v -> length u = length v ->
  digits_value (a ++ u) = digits_value (b ++ v) -> a = b /\ u = v.
Proof.
  intros Ha Hb Hu Hv Hlen Hval. rewrite !digits_value_app, Hlen in Hval.
  pose proof (digits_value_bound u Hu). pose proof (digits_value_bound v Hv). rewrite Hlen in *.
  assert (digits_value a = digits_value b) as Hab by nia.
  split; [by apply leading_inj|]. apply digits_value_inj; try done. rewrite Hab in Hval. lia.
Qed.

(** * Numbers *)

Definition coefficient (d : decimal) : Z :=
  if d_neg d then - digits_value (d_digits d) else digits_value (d_digits d).

(** Two decimals are the same number: their coefficients agree on a common exponent. *)
Definition same_number (d d' : decimal) : Prop :=
  let m := Z.min (d_exp d) (d_exp d') in
  coefficient d * 10 ^ (d_exp d - m) = coefficient d' * 10 ^ (d_exp d' - m).

Lemma same_number_scaled d d' m :
  m <= d_exp d -> m <= d_exp d' ->
  same_number d d' <->
    coefficient d * 10 ^ (d_exp d - m) = coefficient d' * 10 ^ (d_exp d' - m).
Proof.
  intros Hm Hm'. unfold same_number. set (n := Z.min _ _).
  assert (m <= n /\ n <= d_exp d /\ n <= d_exp d') as (? & ? & ?) by lia.
  assert (forall e, n <= e -> 10 ^ (e - m) = 10 ^ (e - n) * 10 ^ (n - m)) as Hp.
  { intros e He. rewrite <- Z.pow_add_r by lia. f_equal. lia. }
  rewrite (Hp (d_exp d)), (Hp (d_exp d')), !Z.mul_assoc by done.
  assert (10 ^ (n - m) <> 0) as Hne by (apply Z.pow_nonzero; lia).
  split; [by intros ->|]. intros Heq. by apply Z.mul_reg_r in Heq.
Qed.

#[export] Instance same_number_equivalence : Equivalence same_number.
Proof.
  split.
  - intros d. done.
  - intros d d' Hd. apply (same_number_scaled d d' (Z.min (d_exp d) (d_exp d'))) in Hd; [|lia..].
    apply (same_number_scaled d' d (Z.min (d_exp d) (d_exp d'))); [lia..|]. done.
  - intros a b c Hab Hbc. set (m := Z.min (d_exp a) (Z.min (d_exp b) (d_exp c))).
    apply (same_number_scaled a b m) in Hab; [|lia..].
    apply (same_number_scaled b c m) in Hbc; [|lia..].
    apply (same_number_scaled a c m); [lia..|]. congruence.
Qed.

(** * The canonical form *)

(** Sign, integer digits and fractional digits of a canonical text: no leading zero but the
    digit 0 alone, no trailing fractional zero, no negative zero. *)
Record canonical (neg : bool) (I F : list ascii) : Prop := {
  can_int : leading I;
  can_frac : digits F;
  can_last : F = [] \/ exists F' c, F = F' ++ [c] /\ c <> "0"%char;
  can_sign : neg = true -> ~ (I = ["0"%char] /\ F = []) }.

Definition sign (neg : bool) : list ascii := if neg then ["-"%char] else [].

Definition render (neg : bool) (I F : list ascii) : list ascii :=
  sign neg ++ I ++ match F with [] => [] | _ => "."%char :: F end.

Definition number_of (neg : bool) (I F : list ascii) : decimal := Decimal neg (I ++ F) (- len F).

Lemma leading_zero l : leading l -> digits_value l = 0 -> l = ["0"%char].
Proof. intros Hl Hv. apply leading_inj; [done|by split; [|left]|done]. Qed.

Lemma canonical_zero neg I F :
  canonical neg I F -> digits_value (I ++ F) = 0 -> neg = false /\ I = ["0"%char] /\ F = [].
Proof.
  intros [HI HF Hl Hs] Hv. assert (length F = length (zeros (length F))) as Hlen
    by (unfold zeros; by rewrite length_replicate).
  destruct (leading_app_inj I ["0"%char] F (zeros (length F))) as [-> HFz]; try done.
  - by split; [|left].
  - apply digits_zeros.
  - by rewrite Hv, digits_value_app, digits_value_zeros.
  - destruct Hl as [->|(F' & c & -> & Hc)].
    + split; [|done]. destruct neg; [|done]. by exfalso; apply Hs.
    + exfalso. rewrite length_app, Nat.add_1_r in HFz. unfold zeros in HFz.
      rewrite replicate_S_end in HFz. apply app_inj_tail in HFz as [_ ?]. done.
Qed.

Lemma canonical_unique n1 I1 F1 n2 I2 F2 :
  canonical n1 I1 F1 -> canonical n2 I2 F2 ->
  same_number (number_of n1 I1 F1) (number_of n2 I2 F2) -> n1 = n2 /\ I1 = I2 /\ F1 = F2.
Proof.
  assert (forall n1 I1 F1 n2 I2 F2, (length F1 <= length F2)%nat ->
    canonical n1 I1 F1 -> canonical n2 I2 F2 ->
    same_number (number_of n1 I1 F1) (number_of n2 I2 F2) -> n1 = n2 /\ I1 = I2 /\ F1 = F2) as Hle.
  { clear. intros n1 I1 F1 n2 I2 F2 Hlen H1 H2 Hs.
    apply (same_number_scaled _ _ (- len F2)) in Hs; simpl; [|lia..].
    unfold coefficient in Hs. simpl in Hs.
    replace (- len F2 - - len F2) with 0 in Hs by lia. rewrite Z.mul_1_r in Hs.
    set (k := (length F2 - length F1)%nat).
    replace (- len F1 - - len F2) with (Z.of_nat k) in Hs by lia.
    pose proof (digits_value_bound (I1 ++ F1)) as Hb1. rewrite digits_app in Hb1.
    specialize (Hb1 (conj (proj1 (can_int _ _ _ H1)) (can_frac _ _ _ H1))).
    pose proof (digits_value_bound (I2 ++ F2)) as Hb2. rewrite digits_app in Hb2.
    specialize (Hb2 (conj (proj1 (can_int _ _ _ H2)) (can_frac _ _ _ H2))).
    assert (0 < 10 ^ Z.of_nat k) as Hk by (apply Z.pow_pos_nonneg; lia).
    destruct (Z.eq_dec (digits_value (I2 ++ F2)) 0) as [Hz|Hnz].
    { destruct (canonical_zero _ _ _ H2 Hz) as (-> & -> & ->).
      assert (digits_value (I1 ++ F1) = 0) as Hz1 by (rewrite Hz in Hs; destruct n1; nia).
      by destruct (canonical_zero _ _ _ H1 Hz1) as (-> & -> & ->). }
    assert (n1 = n2 /\ digits_value (I1 ++ F1) * 10 ^ Z.of_nat k = digits_value (I2 ++ F2))
      as [-> Hv] by (destruct n1, n2; split; try done; nia).
    split; [done|].
    assert (digits_value (I1 ++ F1 ++ zeros k) = digits_value (I2 ++ F2)) as Hv'.
    { rewrite app_assoc, digits_value_app, digits_value_zeros. unfold zeros.
      rewrite length_replicate. lia. }
    apply leading_app_inj in Hv' as [-> HF]; try apply H1; try apply H2.
    - split; [done|]. destruct k as [|k]; [by rewrite app_nil_r in HF|exfalso].
      unfold zeros in HF. rewrite replicate_S_end, app_assoc in HF.
      destruct (can_last _ _ _ H2) as [->|(F' & c & -> & Hc)]; [by destruct (F1 ++ _)|].
      by apply app_inj_tail in HF as [_ ?].
    - apply digits_app. split; [apply H1|apply digits_zeros].
    - rewrite length_app. unfold zeros. rewrite length_replicate. lia. }
  intros H1 H2 Hs. destruct (Nat.le_gt_cases (length F1) (length F2)) as [?|?]; [by apply Hle|].
  destruct (Hle n2 I2 F2 n1 I1 F1) as (-> & -> & ->); [lia|done|done|by symmetry|done].
Qed.

(** * What [format] and the clean-up write *)

Definition norm_neg (neg : bool) (I F : list ascii) : bool :=
  neg && negb (bool_decide (I = ["0"%char] /\ F = [])).

Lemma leading_head l : leading l -> exists c l', l = c :: l' /\ is_digit c = true.
Proof.
  intros [Hd [->|(c & l' & -> & _)]]; [by exists "0"%char, []|].
  apply digits_cons in Hd as [? _]. by exists c, l'.
Qed.

Lemma write_zero neg I F :
  leading I ->
  (if bool_decide (render neg I F = chars "-0") || bool_decide (render neg I F = [])
   then chars "0" else render neg I F) = render (norm_neg neg I F) I F.
Proof.
  intros HI. destruct (leading_head I HI) as (c & I' & -> & Hc).
  apply digit_plain in Hc as (_ & _ & _ & _ & _ & _ & _ & _ & Hc).
  rewrite (bool_decide_eq_false_2 (render _ _ _ = [])), orb_false_r by (by destruct neg).
  unfold norm_neg. destruct neg; [rewrite andb_true_l|].
  - destruct (decide (c :: I' = ["0"%char] /\ F = [])) as [[[= -> ->] ->]|Hne]; [done|].
    rewrite (bool_decide_eq_false_2 (_ /\ _)) by done.
    rewrite bool_decide_eq_false_2; [done|]. unfold render. simpl. intros [= -> Heq].
    apply app_eq_nil in Heq as [-> HF]. destruct F; [by apply Hne|done].
  - rewrite bool_decide_eq_false_2; [done|]. unfold render. simpl. by intros [= ->].
Qed.

Lemma digits_no_dot l : digits l -> existsb is_dot l = false.
Proof.
  induction l as [|c l IH]; [done|]. intros [Hc Hl]%digits_cons. simpl.
  apply digit_plain in Hc as (_ & _ & -> & _). by apply IH.
Qed.

Lemma existsb_app_dot a b : existsb is_dot (a ++ b) = existsb is_dot a || existsb is_dot b.
Proof. apply existsb_app. Qed.

Lemma clean_integer neg I :
  leading I -> clean (sign neg ++ I) = render (norm_neg neg I []) I [].
Proof.
  intros HI. rewrite <- write_zero by done. unfold clean, render. rewrite app_nil_r.
  rewrite existsb_app_dot, (digits_no_dot I) by apply HI. by destruct neg.
Qed.

Lemma rdrop_zeros_fraction pre frac :
  digits frac ->
  rdrop is_dot (rdrop is_zero_char (pre ++ "."%char :: frac)) =
    rdrop is_dot (pre ++ "."%char :: rdrop is_zero_char frac).
Proof.
  intros Hf. f_equal. destruct (rdrop_spec is_zero_char frac) as (suf & Heq & Hs).
  rewrite Heq at 1. rewrite app_comm_cons, app_assoc, rdrop_app_all by done.
  destruct (rdrop is_zero_char frac) as [|x r] eqn:Hr using rev_ind; [by rewrite rdrop_id|].
  rewrite app_comm_cons, app_assoc. apply rdrop_id. by eapply rdrop_stops.
Qed.

Lemma clean_fraction neg I frac :
  leading I -> digits frac ->
  let F := rdrop is_zero_char frac in
  clean (sign neg ++ I ++ "."%char :: frac) = render (norm_neg neg I F) I F.
Proof.
  intros HI Hf F. rewrite <- write_zero by done. unfold clean.
  rewrite !existsb_app_dot. simpl. rewrite !orb_true_r, app_assoc, rdrop_zeros_fraction by done.
  fold F. assert (rdrop is_dot ((sign neg ++ I) ++ "."%char :: F) = render neg I F) as ->; [|done].
  unfold render. rewrite app_assoc.
  assert (digits F) as HF.
  { destruct (rdrop_spec is_zero_char frac) as (suf & Heq & _). rewrite Heq in Hf.
    by apply digits_app in Hf as [? _]. }
  destruct F as [|x r] using rev_ind.
  - rewrite app_nil_r, rdrop_app_all by done.
    destruct (leading_head I HI) as (c & I' & HcI & _). destruct HI as [HI _].
    destruct I as [|y i] using rev_ind; [done|]. rewrite app_assoc. apply rdrop_id.
    apply digits_app in HI as [_ [Hy _]%digits_cons]. by apply digit_plain in Hy as (_ & _ & ? & _).
  - rewrite app_comm_cons, app_assoc. rewrite rdrop_id.
    + rewrite <- app_assoc. by destruct r.
    + apply digits_app in HF as [_ [Hx _]%digits_cons]. by apply digit_plain in Hx as (_ & _ & ? & _).
Qed.

Lemma norm_neg_coefficient neg I F e e' :
  coefficient (Decimal (norm_neg neg I F) (I ++ F) e) = coefficient (Decimal neg (I ++ F) e').
Proof.
  unfold norm_neg, coefficient. simpl.
  destruct (decide (I = ["0"%char] /\ F = [])) as [[-> ->]|Hne]; [by destruct neg|].
  rewrite bool_decide_eq_false_2 by done. by destruct neg.
Qed.

Lemma norm_neg_sign neg I F : norm_neg neg I F = true -> ~ (I = ["0"%char] /\ F = []).
Proof.
  unfold norm_neg. intros [_ Hb]%andb_true_iff. by apply negb_true_iff, bool_decide_eq_false in Hb.
Qed.

Lemma integer_canonical neg I D e :
  leading I -> 0 <= e -> digits_value I = digits_value D * 10 ^ e ->
  canonical (norm_neg neg I []) I [] /\
  same_number (number_of (norm_neg neg I []) I []) (Decimal neg D e).
Proof.
  intros HI He Hv. split.
  - split; [done|done|by left|apply norm_neg_sign].
  - apply (same_number_scaled _ _ 0); [simpl; lia..|]. unfold number_of. simpl.
    rewrite (norm_neg_coefficient neg I [] _ 0). unfold coefficient. simpl.
    rewrite app_nil_r, Hv, !Z.sub_0_r. change (10 ^ (- Z.of_nat 0)) with 1. destruct neg; lia.
Qed.

Lemma all_zero_zeros l : forallb is_zero_char l = true -> l = zeros (length l).
Proof.
  induction l as [|c l IH]; [done|]. simpl. intros [Hc Hl]%andb_true_iff.
  apply bool_decide_eq_true in Hc as ->. by rewrite (IH Hl) at 1.
Qed.

Lemma fraction_canonical neg I frac D :
  leading I -> digits frac -> digits_value (I ++ frac) = digits_value D ->
  let F := rdrop is_zero_char frac in
  canonical (norm_neg neg I F) I F /\ len F <= len frac /\
  same_number (number_of (norm_neg neg I F) I F) (Decimal neg D (- len frac)).
Proof.
  intros HI Hf Hv F. destruct (rdrop_spec is_zero_char frac) as (suf & Heq & Hs). fold F in Heq.
  assert (len frac = len F + len suf) as Hlen by (rewrite Heq at 1; rewrite length_app; lia).
  split_and!; [split| |].
  - done.
  - rewrite Heq in Hf. by apply digits_app in Hf as [? _].
  - destruct F as [|c F'] eqn:HF using rev_ind; [by left|right]. exists F', c.
    split; [done|]. intros ->. by apply rdrop_stops in HF.
  - apply norm_neg_sign.
  - lia.
  - apply (same_number_scaled _ _ (- len frac)); [simpl; lia..|]. unfold number_of. simpl.
    rewrite (norm_neg_coefficient neg I F _ 0). unfold coefficient. simpl.
    rewrite Z.sub_diag, Z.mul_1_r, <- Hv, Heq, app_assoc, !digits_value_app.
    rewrite (digits_value_all_zero suf), length_app by done.
    replace (- len F - - (Z.of_nat (length F + length suf))) with (len suf) by lia.
    destruct neg; lia.
Qed.

(** A decimal as [decimal_of_string] makes it. *)
Definition well_formed (d : decimal) : Prop :=
  leading (d_digits d) /\ min_etiny <= d_exp d /\ d_exp d + len (d_digits d) - 1 <= max_emax.

Definition writes (l : list ascii) (d : decimal) : Prop :=
  exists neg I F, l = render neg I F /\ canonical neg I F /\
    same_number (number_of neg I F) d /\ min_etiny <= - len F /\ len I - 1 <= max_emax.

Lemma leading_app D l : leading D -> digits l -> D <> ["0"%char] -> leading (D ++ l).
Proof.
  intros [HD [?|(c & D' & -> & Hc)]] Hl Hne; [done|].
  split; [by apply digits_app|]. right. by exists c, (D' ++ l).
Qed.

Lemma leading_take D n : leading D -> D <> ["0"%char] -> (0 < n)%nat -> leading (take n D).
Proof.
  intros [HD [?|(c & D' & -> & Hc)]] Hne Hn; [done|].
  split; [by apply digits_take_drop|]. right. destruct n; [lia|]. by exists c, (take n D').
Qed.

Lemma zero_leading : leading ["0"%char].
Proof. by split; [|left]. Qed.
#[local] Hint Resolve zero_leading : core.

Lemma writes_integer neg I D e :
  leading I -> 0 <= e -> digits_value I = digits_value D * 10 ^ e -> len I - 1 <= max_emax ->
  writes (clean (sign neg ++ I)) (Decimal neg D e).
Proof.
  intros HI He Hv Hlen. rewrite clean_integer by done. do 3 eexists. split; [done|].
  destruct (integer_canonical neg I D e) as [? ?]; [done..|]. split_and!; done.
Qed.

Lemma writes_fraction neg I frac D :
  leading I -> digits frac -> digits_value (I ++ frac) = digits_value D ->
  min_etiny <= - len frac -> len I - 1 <= max_emax ->
  writes (clean (sign neg ++ I ++ "."%char :: frac)) (Decimal neg D (- len frac)).
Proof.
  intros HI Hf Hv Hmin Hmax. rewrite clean_fraction by done. do 3 eexists. split; [done|].
  destruct (fraction_canonical neg I frac D) as (? & ? & ?); [done..|]. split_and!; try done. lia.
Qed.

Lemma format_writes d : well_formed d -> writes (clean (format_f d)) d.
Proof.
  destruct d as [neg D e]. intros (HD & Hmin & Hmax). simpl in *. unfold format_f. simpl.
  assert (forall l, (if neg then "-"%char :: l else l) = sign neg ++ l) as Hsign by (by destruct neg).
  assert (len D <> 0) as Hne by (destruct (leading_head D HD) as (? & ? & -> & _); simpl; lia).
  destruct (Z.leb_spec 0 e) as [He|He].
  - assert (exists e', (if bool_decide (D = ["0"%char]) && (0 <? e) then 0 else e) = e' /\
      0 <= e' <= e /\ leading (D ++ zeros (Z.to_nat e')) /\
      digits_value D * 10 ^ e' = digits_value D * 10 ^ e) as (e' & -> & He' & Hl & Hv).
    { destruct (decide (D = ["0"%char])) as [->|Hnz].
      - exists 0. split_and!; try done. destruct (Z.ltb_spec 0 e); [done|simpl; lia].
      - exists e. rewrite bool_decide_eq_false_2 by done. split_and!; try done.
        by apply leading_app, Hnz; [|apply digits_zeros]. }
    rewrite (proj2 (Z.leb_le 0 e')) by lia. rewrite Hsign.
    apply writes_integer; [done|done| |].
    + rewrite <- Hv, digits_value_app, digits_value_zeros. unfold zeros.
      rewrite length_replicate, Z2Nat.id by lia. lia.
    + rewrite length_app. unfold zeros. rewrite length_replicate. lia.
  - rewrite (proj2 (Z.ltb_ge 0 e)), andb_false_r, (proj2 (Z.leb_gt 0 e)) by lia.
    destruct (Z.leb_spec (e + len D) 0); rewrite Hsign.
    + set (z := zeros (Z.to_nat (- (e + len D))) ++ D).
      assert (e = - len z) as Hz.
      { unfold z. rewrite length_app. unfold zeros. rewrite length_replicate. lia. }
      rewrite Hz. change (sign neg ++ "0"%char :: "."%char :: z)
        with (sign neg ++ ["0"%char] ++ "."%char :: z).
      apply writes_fraction; try done; [|..].
      * apply digits_app. split; [apply digits_zeros|apply HD].
      * unfold z. by rewrite !digits_value_app, digits_value_zeros.
      * lia.
    + set (n := Z.to_nat (e + len D)).
      assert (e = - len (drop n D)) as Hn by (rewrite length_drop; lia).
      assert (D <> ["0"%char]) by (intros ->; simpl in *; lia).
      rewrite Hn. apply writes_fraction.
      * apply leading_take; [done|done|lia].
      * by apply digits_take_drop, HD.
      * by rewrite take_drop.
      * lia.
      * rewrite length_take. lia.
Qed.

(** * Reading a canonical text back *)

Definition body (I F : list ascii) : list ascii :=
  I ++ match F with [] => [] | _ => "."%char :: F end.

Lemma body_head I F : leading I -> exists c l, body I F = c :: l /\ is_digit c = true.
Proof.
  intros (c & I' & -> & Hc)%leading_head. by eexists c, (I' ++ _).
Qed.

Lemma body_last I F : leading I -> digits F -> exists l c, body I F = l ++ [c] /\ is_digit c = true.
Proof.
  intros HI HF. unfold body. destruct F as [|x r] using rev_ind.
  - destruct (leading_head I HI) as (c & I' & Heq & _). destruct HI as [HI _].
    destruct I as [|y i] using rev_ind; [done|]. exists i, y. rewrite app_nil_r.
    split; [done|]. by apply digits_app in HI as [_ [? _]%digits_cons].
  - exists (I ++ "."%char :: r), x. apply digits_app in HF as [_ [? _]%digits_cons].
    split; [|done]. rewrite <- app_assoc. by destruct r.
Qed.

(** No white space at the ends, and no underscore: [Decimal] reads the text as it is. *)
Lemma strip_render neg I F :
  leading I -> digits F ->
  rdrop is_space (ldrop is_space (render neg I F)) = render neg I F.
Proof.
  intros HI HF. assert (ldrop is_space (render neg I F) = render neg I F) as ->.
  { destruct (body_head I F HI) as (c & l & Hb & Hc). unfold render. fold (body I F). rewrite Hb.
    apply digit_plain in Hc as (Hc & _). destruct neg; [by apply ldrop_id|].
    by apply (ldrop_id is_space c). }
  destruct (body_last I F HI HF) as (l & c & Hb & Hc). unfold render. fold (body I F).
  rewrite Hb, app_assoc. apply rdrop_id. by apply digit_plain in Hc as (? & _).
Qed.

Lemma digits_no_underscore l :
  digits l -> forallb (fun c => negb (bool_decide (c = "_"%char))) l = true.
Proof.
  induction l as [|c l IH]; [done|]. intros [Hc Hl]%digits_cons. simpl.
  apply digit_plain in Hc as (_ & _ & _ & -> & _). by apply IH.
Qed.

Lemma filter_all {A} (p : A -> bool) l : forallb p l = true -> List.filter p l = l.
Proof.
  induction l as [|x l IH]; [done|]. simpl. intros [-> Hl]%andb_true_iff. by rewrite IH.
Qed.

Lemma filter_render neg I F :
  leading I -> digits F ->
  List.filter (fun c => negb (bool_decide (c = "_"%char))) (render neg I F) = render neg I F.
Proof.
  intros [HI _] HF. apply filter_all. unfold render. rewrite !forallb_app.
  rewrite (digits_no_underscore I) by done.
  assert (forallb (fun c => negb (bool_decide (c = "_"%char)))
    match F with [] => [] | _ => "."%char :: F end = true) as ->; [|by destruct neg].
  destruct F; [done|]. by apply digits_no_underscore in HF.
Qed.

Lemma take_sign_render neg I F : leading I -> take_sign (render neg I F) = (neg, body I F).
Proof.
  intros HI. destruct (body_head I F HI) as (c & l & Hb & Hc). unfold render. fold (body I F).
  rewrite Hb. apply digit_plain in Hc as (_ & Hc & _). destruct neg; [done|]. simpl.
  by rewrite Hc.
Qed.

Lemma special_render I F : leading I -> is_special (body I F) = false.
Proof.
  intros HI. destruct (body_head I F HI) as (c & l & -> & Hc). unfold is_special. cbn [map].
  apply digit_plain in Hc as (_ & _ & _ & _ & -> & Hi & Hn & Hs & _).
  rewrite !bool_decide_eq_false_2 by (by intros [= ?]).
  destruct (map lower_ascii l) as [|b [|d r]]; try done. simpl.
  rewrite bool_decide_eq_false_2; [done|]. by intros [= ?].
Qed.

Lemma take_coefficient_render I F : leading I -> digits F -> take_coefficient (body I F) = (I, F, []).
Proof.
  intros [HI _] HF. unfold take_coefficient, body. destruct F as [|x r].
  - by rewrite span_full.
  - rewrite span_full, decide_True by done.
    pose proof (span_full is_digit (x :: r) [] HF Logic.I) as Hspan.
    rewrite app_nil_r in Hspan. by rewrite Hspan.
Qed.

Lemma decimal_of_render neg I F :
  leading I -> digits F -> min_etiny <= - len F -> len I - 1 <= max_emax ->
  decimal_of_string (text (render neg I F)) =
    DFinite (Decimal neg (strip_leading_zeros (I ++ F)) (- len F)).
Proof.
  intros HI HF Hmin Hmax. unfold decimal_of_string.
  rewrite chars_text, strip_render, filter_render, take_sign_render, special_render by done.
  unfold parse_number. rewrite take_coefficient_render by done.
  assert (digits (I ++ F)) as HIF by (apply digits_app; split; [apply HI|done]).
  pose proof (strip_leading_zeros_spec _ HIF) as (_ & _ & Hlen).
  destruct (leading_head I HI) as (c & I' & -> & _). cbn [app]. unfold make_decimal.
  rewrite Z.sub_0_l. cbn [app length] in *. rewrite length_app in Hlen.
  rewrite (proj2 (Z.leb_le _ _) Hmin). rewrite (proj2 (Z.leb_le _ max_emax)); [done|].
  unfold max_emax in *. lia.
Qed.

Lemma exact_render neg I F :
  leading I -> digits F -> is_exact_decimal_text (text (render neg I F)) = true.
Proof.
  intros HI HF. unfold is_exact_decimal_text, analyze_exact_decimal_text.
  assert (is_empty (text (render neg I F)) = false) as ->.
  { destruct (body_head I F HI) as (c & l & Hb & _). unfold render. fold (body I F).
    rewrite Hb. by destruct neg. }
  rewrite chars_text, take_sign_render, take_coefficient_render by done.
  by destruct (leading_head I HI) as (c & I' & -> & _).
Qed.

Lemma take_coefficient_digits l a b r : take_coefficient l = (a, b, r) -> digits a /\ digits b.
Proof.
  unfold take_coefficient. destruct (span is_digit l) as [i rest] eqn:Hi. intros Heq.
  apply span_prefix_forall in Hi. destruct rest as [|c rest]; [by inv Heq|].
  case_decide; [|by inv Heq]. destruct (span is_digit rest) as [f r'] eqn:Hf.
  apply span_prefix_forall in Hf. by inv Heq.
Qed.

Lemma make_decimal_well_formed neg a b e d :
  digits a -> digits b -> make_decimal neg a b e = DFinite d -> well_formed d.
Proof.
  intros Ha Hb. unfold make_decimal. destruct (_ && _) eqn:Hr; [|done]. intros [= <-].
  apply andb_true_iff in Hr as [Hr1%Z.leb_le Hr2%Z.leb_le].
  destruct (strip_leading_zeros_spec (a ++ b)) as [? _]; [by apply digits_app|].
  by split_and!.
Qed.

Lemma decimal_of_string_well_formed v d : decimal_of_string v = DFinite d -> well_formed d.
Proof.
  unfold decimal_of_string, parse_number. destruct (take_sign _) as [neg l].
  destruct (is_special l); [done|]. destruct (take_coefficient l) as [[a b] r] eqn:Hc.
  apply take_coefficient_digits in Hc as [Ha Hb]. intros Hd.
  destruct (a ++ b); [done|]. destruct r as [|x r].
  - by eapply make_decimal_well_formed in Hd.
  - destruct (is_exp_mark x); [|done]. destruct (take_sign r) as [exp_neg r'].
    destruct (span is_digit r') as [[|y u] [|z w]]; try done.
    by eapply make_decimal_well_formed in Hd.
Qed.

Lemma stripped_same neg l e :
  digits l -> same_number (Decimal neg (strip_leading_zeros l) e) (Decimal neg l e).
Proof.
  intros Hl. destruct (strip_leading_zeros_spec l Hl) as (_ & Hv & _).
  unfold same_number, coefficient. simpl. by rewrite Hv.
Qed.

(** What the text of a written number reads as. *)
Lemma writes_reads l d :
  writes l d -> is_exact_decimal_text (text l) = true /\ is_blank (text l) = false /\
  exists d', decimal_of_string (text l) = DFinite d' /\ same_number d' d.
Proof.
  intros (neg & I & F & -> & [HI HF Hl Hs] & Hsame & Hmin & Hmax). split_and!.
  - by apply exact_render.
  - destruct (body_head I F HI) as (c & r & Hb & Hc). unfold render. fold (body I F). rewrite Hb.
    apply digit_plain in Hc as (Hc & _). destruct neg; [done|]. simpl. by rewrite Hc.
  - eexists. split; [by apply decimal_of_render|]. rewrite <- Hsame. apply stripped_same.
    apply digits_app. by split; [apply HI|].
Qed.

Lemma writes_unique l l' d d' : writes l d -> writes l' d' -> same_number d d' -> l = l'.
Proof.
  intros (n & I & F & -> & Hc & Hs & _) (n' & I' & F' & -> & Hc' & Hs' & _) Hd.
  destruct (canonical_unique n I F n' I' F') as (-> & -> & ->); [done|done| |done].
  by rewrite Hs, Hs'.
Qed.

Lemma normalize_writes v d : decimal_of_string v = DFinite d -> is_blank v = false ->
  normalize_decimal_text v = Ok (text (clean (format_f d))) /\ writes (clean (format_f d)) d.
Proof.
  intros Hd Hb. unfold normalize_decimal_text. rewrite Hb, Hd.
  split; [done|]. by eapply format_writes, decimal_of_string_well_formed.
Qed.

Lemma normalize_Ok v t : normalize_decimal_text v = Ok t ->
  exists d, decimal_of_string v = DFinite d /\ is_blank v = false /\
    t = text (clean (format_f d)) /\ writes (clean (format_f d)) d.
Proof.
  intros Hn. assert (exists d, decimal_of_string v = DFinite d /\ is_blank v = false)
    as (d & Hd & Hb).
  { unfold normalize_decimal_text in Hn. destruct (is_blank v); [done|].
    destruct (decimal_of_string v) as [d| |]; try done. by exists d. }
  exists d. destruct (normalize_writes v d Hd Hb) as [Hn' Hw]. rewrite Hn in Hn'.
  injection Hn' as <-. done.
Qed.

(** * Properties *)

(** The canonical text is unique: two texts that Python's [Decimal] reads as finite
    numbers get the same canonical text exactly when they are the same number, and the
    canonical text is exact-decimal text that is its own canonical text. *)
Theorem normalize_decimal_text_canonical v v' t t' d d' :
  normalize_decimal_text v = Ok t -> normalize_decimal_text v' = Ok t' ->
  decimal_of_string v = DFinite d -> decimal_of_string v' = DFinite d' ->
  (t = t' <-> same_number d d') /\
  is_exact_decimal_text t = true /\ normalize_decimal_text t = Ok t.
Proof.
  intros (e & He & _ & -> & Hw)%normalize_Ok (e' & He' & _ & -> & Hw')%normalize_Ok Hd Hd'.
  assert (e = d) as -> by congruence. assert (e' = d') as -> by congruence.
  destruct (writes_reads _ _ Hw) as (Hx & Hb & r & Hr & Hrd).
  destruct (writes_reads _ _ Hw') as (_ & _ & r' & Hr' & Hrd'). split_and!; [|done|].
  - split.
    + intros Heq. rewrite Heq, Hr' in Hr. injection Hr as <-. by rewrite <- Hrd, Hrd'.
    + intros Hs. by rewrite (writes_unique _ _ _ _ Hw Hw' Hs).
  - destruct (normalize_writes _ r Hr Hb) as [-> Hwr].
    by rewrite (writes_unique _ _ _ _ Hwr Hw Hrd).
Qed.

Lemma normalize_decimal_text_canonical_witness :
  normalize_decimal_text " +1_0.50" = Ok "10.5" /\ normalize_decimal_text "1050e-2" = Ok "10.5" /\
  normalize_decimal_text "10.5" = Ok "10.5".
Proof.
  assert (normalize_decimal_text " +1_0.50" = Ok "10.5" /\
    normalize_decimal_text "1050e-2" = Ok "10.5") as [H1 H2] by (split; vm_compute; reflexivity).
  split; [exact H1|split; [exact H2|]].
  exact (proj2 (proj2 (normalize_decimal_text_canonical " +1_0.50" "1050e-2" "10.5" "10.5" _ _
    H1 H2 eq_refl eq_refl))).
Defined.
