(* ===== verification/DecimalScanner.v ===== *)
(** shared/decimal_text.py: the character scanner of exact-decimal text agrees with Python's
    [Decimal]. A text in the grammar is read, sign, coefficient and exponent alike, by
    [Decimal]; it is positive for the scanner exactly when the number is; and it fails to
    normalise only through an exponent that leaves the range of a 64-bit build. *)
From S2P Require Import Prelude Errors DecimalText DecimalCanonical.

(** * Characters of the grammar *)

(** Neither stripped nor dropped by [Decimal]. *)
Definition plain (c : ascii) : bool := negb (is_space c) && negb (bool_decide (c = "_"%char)).

Lemma digit_is_plain c : is_digit c = true -> plain c = true.
Proof. by_code_point. Qed.

Lemma sign_is_plain c : is_sign c = true -> plain c = true.
Proof. by_code_point. Qed.

Lemma exp_mark_is_plain c : is_exp_mark c = true -> plain c = true.
Proof. by_code_point. Qed.

Lemma digits_plain l : digits l -> forallb plain l = true.
Proof.
  induction l as [|c l IH]; [done|]. intros [Hc Hl]%digits_cons. simpl.
  by rewrite digit_is_plain, IH.
Qed.

Lemma span_plain l a r : span is_digit l = (a, r) -> forallb plain r = true -> forallb plain l = true.
Proof.
  intros Hs Hr. rewrite (span_app _ _ _ _ Hs), forallb_app, Hr, andb_true_r.
  apply digits_plain. by apply span_prefix_forall in Hs.
Qed.

Lemma take_sign_plain l neg r : take_sign l = (neg, r) -> forallb plain r = true ->
  forallb plain l = true.
Proof.
  destruct l as [|c l]; [done|]. simpl. destruct (is_sign c) eqn:Hc; intros [= _ <-]; [|done].
  simpl. by rewrite sign_is_plain.
Qed.

Lemma take_coefficient_plain l a b r : take_coefficient l = (a, b, r) -> forallb plain r = true ->
  forallb plain l = true.
Proof.
  unfold take_coefficient. destruct (span is_digit l) as [i rest] eqn:Hi. intros H Hr.
  apply (span_plain _ _ _ Hi). destruct rest as [|c rest]; [done|].
  destruct (decide (c = "."%char)) as [->|]; [|by simplify_eq].
  destruct (span is_digit rest) as [f r'] eqn:Hf. simplify_eq. simpl. by apply (span_plain _ _ _ Hf).
Qed.

Lemma ldrop_plain l : forallb plain l = true -> ldrop is_space l = l.
Proof.
  destruct l as [|c l]; [done|]. simpl. unfold plain. rewrite !andb_true_iff, negb_true_iff.
  by intros [[-> _] _].
Qed.

Lemma plain_reverse l : forallb plain l = true -> forallb plain (reverse l) = true.
Proof. rewrite !forallb_forall. intros H x Hx. apply H. by rewrite <- (reverse_Permutation l). Qed.

(** [Decimal] sees the characters of such a text as they are. *)
Lemma plain_unchanged l : forallb plain l = true ->
  List.filter (fun c => negb (bool_decide (c = "_"%char))) (rdrop is_space (ldrop is_space l)) = l.
Proof.
  intros Hl. rewrite ldrop_plain by done. unfold rdrop.
  rewrite ldrop_plain, reverse_involutive by by apply plain_reverse. apply filter_all.
  induction l as [|c l IH]; [done|]. simpl in *. apply andb_true_iff in Hl as [Hc Hl].
  unfold plain in Hc. apply andb_true_iff in Hc as [_ ->]. by apply IH.
Qed.

(** A text that starts with a digit or a point is not a special value. *)
Lemma numeric_not_special l a b r : take_coefficient l = (a, b, r) -> a ++ b <> [] ->
  is_special l = false.
Proof.
  intros Hc Hab. assert (exists c l', l = c :: l' /\ (is_digit c = true \/ c = "."%char))
    as (c & l' & -> & Hhead).
  { unfold take_coefficient in Hc. destruct l as [|c l]; [simpl in Hc; by simplify_eq|].
    exists c, l. split; [done|]. simpl in Hc. destruct (is_digit c); [by left|].
    destruct (decide (c = "."%char)); [by right|by simplify_eq]. }
  assert (lower_ascii c = c /\ c <> "i"%char /\ c <> "n"%char /\ c <> "s"%char) as (Hl & Hi & Hn & Hs)
    by (destruct Hhead as [Hd| ->]; [apply digit_plain in Hd; tauto|by split_and!]).
  unfold is_special. cbn [map]. rewrite Hl.
  rewrite !bool_decide_eq_false_2 by (by intros [= ?]).
  destruct (map lower_ascii l') as [|x [|y w]]; try done. simpl.
  rewrite bool_decide_eq_false_2; [done|]. by intros [= ?].
Qed.

(** ** Where the parts are *)

Lemma take_sign_suffix l neg r : take_sign l = (neg, r) -> exists pre, l = pre ++ r.
Proof.
  destruct l as [|c l]; simpl; [intros [= _ <-]; by exists []|].
  destruct (is_sign c); intros [= _ <-]; [by exists [c]|by exists []].
Qed.

Lemma take_coefficient_suffix l a b r : take_coefficient l = (a, b, r) ->
  exists pre, l = pre ++ r /\ (length a + length b <= length pre)%nat.
Proof.
  unfold take_coefficient. destruct (span is_digit l) as [i rest] eqn:Hi.
  apply span_app in Hi as ->. destruct rest as [|c rest].
  - intros [= <- <- <-]. exists i. split; [done|simpl; lia].
  - destruct (decide (c = "."%char)) as [->|].
    + destruct (span is_digit rest) as [f r'] eqn:Hf. apply span_app in Hf as ->.
      intros [= <- <- <-]. exists (i ++ "."%char :: f). rewrite <- app_assoc.
      split; [done|]. rewrite length_app. simpl. lia.
    + intros [= <- <- <-]. exists i. split; [done|simpl; lia].
Qed.

(** * The scanner and [Decimal] *)

(** What follows the coefficient of a text in the grammar: nothing, or an exponent. *)
Definition exponent_of (tail : list ascii) : option Z :=
  match tail with
  | [] => Some 0
  | c :: tail =>
      if is_exp_mark c then
        let '(exp_neg, tail) := take_sign tail in
        match span is_digit tail with
        | ((_ :: _) as exp_digits, []) =>
            Some (if exp_neg then - digits_value exp_digits else digits_value exp_digits)
        | _ => None
        end
      else None
  end.

Lemma exponent_plain tail e : exponent_of tail = Some e -> forallb plain tail = true.
Proof.
  destruct tail as [|c tail]; [done|]. simpl. destruct (is_exp_mark c) eqn:Hc; [|done].
  destruct (take_sign tail) as [n t] eqn:Ht. destruct (span is_digit t) as [[|x a] [|y b]] eqn:Hs;
    try done. intros _. rewrite (exp_mark_is_plain _ Hc). simpl.
  by apply (take_sign_plain _ _ _ Ht), (span_plain _ _ _ Hs).
Qed.

(** Both readers, on the parts. *)
Lemma analyze_parts v neg rest I F tail : take_sign (chars v) = (neg, rest) ->
  take_coefficient rest = (I, F, tail) ->
  analyze_exact_decimal_text v =
    if bool_decide (I ++ F = []) then (false, false)
    else match exponent_of tail with
         | Some _ => (true, negb neg && existsb nonzero_digit (I ++ F))
         | None => (false, false)
         end.
Proof.
  intros Hs Hc. unfold analyze_exact_decimal_text. destruct v as [|c v].
  { injection Hs as <- <-. injection Hc as <- <- <-. reflexivity. }
  cbn [is_empty]. rewrite Hs, Hc. destruct (I ++ F) as [|x l]; [done|]. simpl.
  destruct tail as [|m tail]; [done|]. simpl. destruct (is_exp_mark m); [|done].
  destruct (take_sign tail) as [n t]. by destruct (span is_digit t) as [[] []].
Qed.

Lemma parse_parts neg l I F tail e : take_coefficient l = (I, F, tail) -> I ++ F <> [] ->
  exponent_of tail = Some e -> parse_number neg l = make_decimal neg I F e.
Proof.
  intros Hc Hn. unfold parse_number. rewrite Hc. destruct (I ++ F) as [|x d]; [done|].
  destruct tail as [|m tail]; simpl; [by intros [= <-]|]. destruct (is_exp_mark m); [|done].
  destruct (take_sign tail) as [n t]. destruct (span is_digit t) as [[] []]; try done.
  by intros [= <-].
Qed.

(** Sign, integer and fractional digits, and exponent of a text. *)
Definition text_parts (v : string) : bool * list ascii * list ascii * option Z :=
  let '(neg, rest) := take_sign (chars v) in
  let '(int_digits, frac_digits, tail) := take_coefficient rest in
  (neg, int_digits, frac_digits, exponent_of tail).

Lemma scanner_reads v positive : analyze_exact_decimal_text v = (true, positive) ->
  exists neg I F e, text_parts v = (neg, I, F, Some e) /\
    digits I /\ digits F /\ is_blank v = false /\
    decimal_of_string v = make_decimal neg I F e /\
    positive = negb neg && existsb nonzero_digit (I ++ F) /\
    (existsb is_exp_mark (chars v) = false -> e = 0) /\
    (length I + length F <= length (chars v))%nat.
Proof.
  destruct (take_sign (chars v)) as [neg rest] eqn:Hsign.
  destruct (take_coefficient rest) as [[I F] tail] eqn:Hcoef.
  rewrite (analyze_parts v neg rest I F tail) by done. case_bool_decide as Hn; [done|].
  destruct (exponent_of tail) as [e|] eqn:He; [|done]. intros [= Hp].
  destruct (take_coefficient_digits _ _ _ _ Hcoef) as [HI HF]. exists neg, I, F, e.
  assert (forallb plain (chars v) = true) as Hplain
    by (apply (take_sign_plain _ _ _ Hsign), (take_coefficient_plain _ _ _ _ Hcoef);
        by eapply exponent_plain).
  destruct (take_sign_suffix _ _ _ Hsign) as [pre Hpre].
  destruct (take_coefficient_suffix _ _ _ _ Hcoef) as (pre' & Hpre' & Hlen).
  split_and!; [by unfold text_parts; rewrite Hsign, Hcoef, He|done|done| | |done| |].
  - destruct v as [|c v]; [by injection Hsign as <- <-; injection Hcoef as <- <- <-|].
    apply andb_true_iff in Hplain as [Hc _]. unfold plain in Hc. simpl. by destruct (is_space c).
  - unfold decimal_of_string. rewrite plain_unchanged, Hsign by done.
    rewrite (numeric_not_special _ _ _ _ Hcoef Hn). by apply (parse_parts _ _ _ _ tail).
  - rewrite Hpre, Hpre'. rewrite !existsb_app, !orb_false_iff. intros (_ & _ & Hm).
    destruct tail as [|c tail]; [simpl in He; congruence|]. simpl in He, Hm.
    by destruct (is_exp_mark c).
  - rewrite Hpre, Hpre', !length_app. lia.
Qed.

(** The digits of the coefficient decide the sign. *)
Lemma nonzero_digits l : digits l -> existsb nonzero_digit l = negb (forallb is_zero_char l).
Proof.
  induction l as [|c l IH]; [done|]. intros [_ Hl]%digits_cons. simpl. rewrite (IH Hl).
  unfold nonzero_digit, is_zero_char. by destruct (bool_decide _).
Qed.

Lemma stripped_zero l : forallb is_zero_char (strip_leading_zeros l) = forallb is_zero_char l.
Proof.
  unfold strip_leading_zeros. destruct (ldrop_spec is_zero_char l) as (pre & Heq & Hpre).
  rewrite Heq at 2. rewrite forallb_app, Hpre. by destruct (ldrop is_zero_char l).
Qed.

Lemma make_decimal_finite neg I F e d : make_decimal neg I F e = DFinite d ->
  d_neg d = neg /\ forallb is_zero_char (d_digits d) = forallb is_zero_char (I ++ F).
Proof.
  unfold make_decimal. destruct (_ && _); [|done]. intros [= <-]. simpl. by rewrite stripped_zero.
Qed.

(** C20. The scanner agrees with [Decimal]: of a text in the exact-decimal grammar [Decimal] reads
    the same parts, so it is never one of the special values; and when they are a number, the
    scanner calls it positive exactly when that number is greater than zero. *)
Theorem scanner_agrees_with_Decimal v : is_exact_decimal_text v = true ->
  exists neg int_digits frac_digits e, text_parts v = (neg, int_digits, frac_digits, Some e) /\
  decimal_of_string v = make_decimal neg int_digits frac_digits e /\
  forall d, decimal_of_string v = DFinite d ->
    is_positive_exact_decimal_text v = negb (decimal_le_zero v) /\
    (is_positive_exact_decimal_text v = true <-> d_neg d = false /\ 0 < digits_value (d_digits d)).
Proof.
  unfold is_exact_decimal_text, is_positive_exact_decimal_text.
  destruct (analyze_exact_decimal_text v) as [valid positive] eqn:Ha. simpl. intros ->.
  apply scanner_reads in Ha as (neg & I & F & e & Hp & HI & HF & _ & Hv & -> & _).
  exists neg, I, F, e. split; [done|]. split; [done|]. intros d Hd.
  pose proof (decimal_of_string_well_formed v d Hd) as [Hw _].
  pose proof Hd as Hm. rewrite Hv in Hm. apply make_decimal_finite in Hm as [<- Hz].
  unfold decimal_le_zero. rewrite Hd, nonzero_digits, <- Hz by by apply digits_app.
  simpl. rewrite negb_orb. split; [done|]. rewrite andb_true_iff, !negb_true_iff.
  apply and_iff_compat_l. split.
  - intros Hnz. pose proof (digits_value_bound (d_digits d) (proj1 Hw)).
    destruct (Z.eq_dec (digits_value (d_digits d)) 0) as [E|]; [|lia].
    apply leading_zero in E; [|done]. by rewrite E in Hnz.
  - intros Hpos. apply not_true_is_false. intros E. rewrite digits_value_all_zero in Hpos by done. lia.
Qed.

(** C21. A text in the grammar normalises exactly when the exponents of its first and of its
    last digit are in the range of a 64-bit build of [Decimal]; without an exponent mark, and
    with fewer characters than that range is wide, it always does. *)
Theorem exact_text_normalises v neg I F e :
  is_exact_decimal_text v = true -> text_parts v = (neg, I, F, Some e) ->
  let exponent := e - Z.of_nat (length F) in
  ((exists t, normalize_decimal_text v = Ok t) <->
   min_etiny <= exponent /\
   exponent + Z.of_nat (length (strip_leading_zeros (I ++ F))) - 1 <= max_emax) /\
  (existsb is_exp_mark (chars v) = false -> Z.of_nat (length (chars v)) <= max_emax ->
   exists t, normalize_decimal_text v = Ok t).
Proof.
  unfold is_exact_decimal_text.
  destruct (analyze_exact_decimal_text v) as [valid positive] eqn:Ha. simpl. intros -> Hparts.
  apply scanner_reads in Ha as (? & ? & ? & ? & Hp & HI & HF & Hb & Hv & _ & He & Hlen).
  rewrite Hparts in Hp. injection Hp as <- <- <- <-.
  assert (digits (I ++ F)) as HIF by by apply digits_app.
  destruct (strip_leading_zeros_spec (I ++ F) HIF) as (_ & _ & Hl).
  assert ((exists t, normalize_decimal_text v = Ok t) <->
    min_etiny <= e - Z.of_nat (length F) /\
    e - Z.of_nat (length F) + Z.of_nat (length (strip_leading_zeros (I ++ F))) - 1 <= max_emax) as Hiff.
  { unfold normalize_decimal_text. rewrite Hb, Hv. unfold make_decimal.
    rewrite <- !Z.leb_le, <- andb_true_iff. destruct (_ && _); split; try done; [by eexists|].
    by intros [t Ht]. }
  split; [exact Hiff|]. intros Hm Hmax. apply Hiff. rewrite (He Hm). rewrite length_app in Hl.
  unfold min_etiny, max_emax in *. lia.
Qed.

(** ** Examples *)

Lemma scanner_agrees_with_Decimal_witness :
  is_positive_exact_decimal_text "+0.50e-3" = true /\ decimal_le_zero "+0.50e-3" = false.
Proof.
  destruct (decimal_of_string "+0.50e-3") as [d| |] eqn:Hd; [|vm_compute in Hd; discriminate Hd..].
  destruct (scanner_agrees_with_Decimal "+0.50e-3" eq_refl) as (_ & _ & _ & _ & _ & _ & Hs).
  destruct (Hs d Hd) as [Hp _].
  split; [vm_compute; reflexivity|]. vm_compute in Hp. vm_compute. reflexivity.
Defined.

Lemma exact_text_normalises_witness : exists t, normalize_decimal_text "0001.50" = Ok t.
Proof.
  destruct (exact_text_normalises "0001.50" false (chars "0001") (chars "50") 0 eq_refl eq_refl)
    as [_ Hn].
  apply Hn; [reflexivity|]. vm_compute. discriminate.
Defined.

(** A positive text of the grammar that does not normalise. *)
Example exact_text_out_of_range :
  is_positive_exact_decimal_text "1e1000000000000000000" = true /\
  normalize_decimal_text "1e1000000000000000000" = raise ValueError "invalid decimal text".
Proof. split; vm_compute; reflexivity. Qed.
