(* ===== verification/Models.v ===== *)
(** Domain values the runtime keeps: JSON values, the recipes the Strategy Engine returns
    (runtime/recipes), candle durations and the entry-order lifetime (runtime/timeframe.py,
    runtime/entry_order_lifetime.py), the ABI-proven closure (runtime/trade_cycle_closure)
    and the strategy-instance aggregate (runtime/state/models.py).

    A frozen dataclass is a [Record]; its [__post_init__] is the function
    [<Class>_post_init], which validates a candidate record and returns the normalised
    one. Constructing a dataclass and [dataclasses.replace] both run it, so both are
    written as a record passed to that function. Checks of the form [type(x) is T] hold
    by typing and have no counterpart here. *)
From S2P Require Import Prelude Errors DecimalText.

(** * JSON values

    [JFloat] carries the literal text of a float. *)
Inductive json : Type :=
| JNull
| JBool (b : bool)
| JInt (z : Z)
| JFloat (literal : string)
| JStr (s : string)
| JList (items : list json)
| JObj (fields : list (string * json)).

Lemma json_eq_dec_fix (a b : json) : {a = b} + {a <> b}.
Proof.
  revert a b. fix IH 1. intros [] []; try (right; discriminate).
  - by left.
  - destruct (decide (b = b0)); [left; congruence|right; congruence].
  - destruct (decide (z = z0)); [left; congruence|right; congruence].
  - destruct (decide (literal = literal0)); [left; congruence|right; congruence].
  - destruct (decide (s = s0)); [left; congruence|right; congruence].
  - destruct (List.list_eq_dec IH items items0); [left; congruence|right; congruence].
  - assert ({fields = fields0} + {fields <> fields0}) as [|].
    { revert fields0. induction fields as [|[k v] l IHl]; intros [|[k' v'] l'];
        try (right; discriminate); [by left|].
      destruct (decide (k = k')); [|right; congruence].
      destruct (IH v v'); [|right; congruence].
      destruct (IHl l'); [left|right]; congruence. }
    + left; congruence.
    + right; congruence.
Defined.

#[export] Instance json_eq_dec : EqDecision json := json_eq_dec_fix.

(** Python's [==] on JSON values: objects compare regardless of key order, booleans are
    the integers 0 and 1, and an identical value is always equal to itself. *)
Fixpoint py_eqb_deep (a b : json) {struct a} : bool :=
  match a, b with
  | JNull, JNull => true
  | JBool x, JBool y => Bool.eqb x y
  | JBool x, JInt y | JInt y, JBool x => Z.b2z x =? y
  | JInt x, JInt y => x =? y
  | JFloat x, JFloat y => bool_decide (x = y)
  | JStr x, JStr y => bool_decide (x = y)
  | JList x, JList y =>
      (fix go x y := match x, y with
        | [], [] => true
        | v :: x, w :: y => py_eqb_deep v w && go x y
        | _, _ => false
        end) x y
  | JObj x, JObj y =>
      (length x =? length y)%nat &&
      (fix go x := match x with
        | [] => true
        | (k, v) :: x =>
            match dget k y with Some w => py_eqb_deep v w | None => false end && go x
        end) x
  | _, _ => false
  end.

Definition py_eqb (a b : json) : bool := bool_decide (a = b) || py_eqb_deep a b.

Lemma py_eqb_refl a : py_eqb a a = true.
Proof. unfold py_eqb. by rewrite bool_decide_true. Qed.

#[export] Hint Rewrite py_eqb_refl : runtime.

(** * Recipes *)

Inductive side := long | short.
#[export] Instance side_eq_dec : EqDecision side.
Proof. solve_decision. Defined.

Definition side_text (s : side) : string :=
  match s with long => "long" | short => "short" end.

(** runtime/recipes/entry.py *)
Record DesiredEntry := {
  de_side : side;
  de_source_plan_bar_open_time_ms : Z;
  de_planned_entry_price : string;
  de_initial_stop_price : string;
  de_initial_take_price : string;
  de_locked_exit_profile : string }.

#[export] Instance DesiredEntry_eq_dec : EqDecision DesiredEntry.
Proof. solve_decision. Defined.

Definition DesiredEntry_post_init (e : DesiredEntry) : result DesiredEntry :=
  _ ← require (0 <=? de_source_plan_bar_open_time_ms e) ValueError
    "source_plan_bar_open_time_ms must be non-negative";
  planned ← normalize_decimal_text (de_planned_entry_price e);
  stop ← normalize_decimal_text (de_initial_stop_price e);
  take ← normalize_decimal_text (de_initial_take_price e);
  _ ← require (negb (decimal_le_zero take)) ValueError "initial_take_price must be positive";
  _ ← require (negb (is_blank (de_locked_exit_profile e))) ValueError
    "locked_exit_profile must be non-empty";
  Ok {| de_side := de_side e;
        de_source_plan_bar_open_time_ms := de_source_plan_bar_open_time_ms e;
        de_planned_entry_price := planned;
        de_initial_stop_price := stop;
        de_initial_take_price := take;
        de_locked_exit_profile := de_locked_exit_profile e |}.

(** runtime/recipes/position_management.py *)
Record DesiredProtection := { dp_stop_price : string; dp_take_price : option string }.

#[export] Instance DesiredProtection_eq_dec : EqDecision DesiredProtection.
Proof. solve_decision. Defined.

Definition DesiredProtection_post_init (p : DesiredProtection) : result DesiredProtection :=
  stop ← normalize_decimal_text (dp_stop_price p);
  take ← when_some (dp_take_price p) normalize_decimal_text;
  Ok {| dp_stop_price := stop; dp_take_price := take |}.

Record EngineDesiredProtectionText := {
  et_stop_price : string; et_take_price : option string }.

Record CloseSignal := {
  cs_active : bool;
  cs_reason : option string;
  cs_component_id : option string;
  cs_layer : option string }.

Record PositionManagementRecipe := {
  pr_desired_protection : DesiredProtection;
  pr_close_signal : CloseSignal;
  pr_diagnostics : dict json;
  pr_engine_desired_protection_text : EngineDesiredProtectionText }.

(** * Candles and the entry-order lifetime *)

(** runtime/timeframe.py *)
Definition SUPPORTED_TIMEFRAME_DURATIONS_MS : dict Z :=
  [("1m", 60000);
   ("5m", 5 * 60000);
   ("15m", 15 * 60000);
   ("1h", 60 * 60000);
   ("4h", 4 * 60 * 60000);
   ("1d", 24 * 60 * 60000)].

Definition timeframe_duration_ms (base_timeframe : string) : result Z :=
  match dget base_timeframe SUPPORTED_TIMEFRAME_DURATIONS_MS with
  | Some duration_ms => Ok duration_ms
  | None => raise ValueError "unsupported base_timeframe: "
  end.

(** runtime/entry_order_lifetime.py *)
Definition entry_order_expiration_ms
    (source_plan_bar_open_time_ms timeframe_ms order_lifetime_bars : Z) : result Z :=
  _ ← require (0 <=? source_plan_bar_open_time_ms) ValueError
    "source_plan_bar_open_time_ms must be a non-negative integer";
  _ ← require (0 <? timeframe_ms) ValueError "timeframe_ms must be a positive integer";
  _ ← require (0 <=? order_lifetime_bars) ValueError
    "order_lifetime_bars must be an integer >= 0";
  Ok (source_plan_bar_open_time_ms + (order_lifetime_bars + 2) * timeframe_ms).

Definition is_entry_order_expired
    (current_bar_open_time_ms timeframe_ms expiration_ms : Z) : bool :=
  expiration_ms <=? current_bar_open_time_ms + timeframe_ms.

(** * The trade-cycle closure (runtime/trade_cycle_closure/models.py) *)

Definition STOP_LOSS := "stop_loss".
Definition TAKE_PROFIT := "take_profit".
Definition RUNTIME_SIGNAL := "runtime_signal".
Definition TRADE_CYCLE_CLOSURE_REASONS : list string :=
  [STOP_LOSS; TAKE_PROFIT; RUNTIME_SIGNAL].

Record TradeCycleClosure := {
  cl_strategy_instance_id : string;
  cl_trade_cycle_id : string;
  cl_reason : string;
  cl_order_id : string;
  cl_order_link_id : option string;
  cl_parent_order_link_id : option string }.

#[export] Instance TradeCycleClosure_eq_dec : EqDecision TradeCycleClosure.
Proof. solve_decision. Defined.

(** [_require_non_empty_string] on a value that may be [None]. *)
Definition require_non_empty_optional (o : option string) (name : string) : result unit :=
  match o with
  | Some s => require_non_empty_string s name
  | None => raise ValueError (name +:+ " must be a non-empty string")
  end.

Definition is_none {A} (o : option A) : bool := match o with None => true | Some _ => false end.
Definition is_some {A} (o : option A) : bool := negb (is_none o).

Definition TradeCycleClosure_post_init (c : TradeCycleClosure) : result TradeCycleClosure :=
  _ ← require_non_empty_string (cl_strategy_instance_id c) "strategy_instance_id";
  _ ← require_non_empty_string (cl_trade_cycle_id c) "trade_cycle_id";
  _ ← require_non_empty_string (cl_order_id c) "order_id";
  _ ← require (bool_decide (cl_reason c ∈ TRADE_CYCLE_CLOSURE_REASONS)) ValueError
    "unsupported closure reason: ";
  if decide (cl_reason c = RUNTIME_SIGNAL) then
    _ ← require_non_empty_optional (cl_order_link_id c) "order_link_id";
    _ ← require (is_none (cl_parent_order_link_id c)) ValueError
      "runtime_signal closure must not carry parent_order_link_id";
    Ok c
  else
    _ ← require_non_empty_optional (cl_parent_order_link_id c) "parent_order_link_id";
    _ ← require (is_none (cl_order_link_id c)) ValueError
      "protection closure must not carry order_link_id";
    Ok c.

(** * The strategy-instance aggregate (runtime/state/models.py) *)

Record RegisteredSpecSnapshot := {
  rs_instrument : string;
  rs_base_timeframe : string;
  rs_raw_spec : dict json;
  rs_source_path : string }.

#[export] Instance RegisteredSpecSnapshot_eq_dec : EqDecision RegisteredSpecSnapshot.
Proof. solve_decision. Defined.

(** [==] of two snapshots. *)
Definition snapshot_eqb (a b : RegisteredSpecSnapshot) : bool :=
  bool_decide (rs_instrument a = rs_instrument b)
  && bool_decide (rs_base_timeframe a = rs_base_timeframe b)
  && py_eqb (JObj (rs_raw_spec a)) (JObj (rs_raw_spec b))
  && bool_decide (rs_source_path a = rs_source_path b).

Lemma snapshot_eqb_refl a : snapshot_eqb a a = true.
Proof. unfold snapshot_eqb. by rewrite py_eqb_refl, !bool_decide_true. Qed.

Definition RegisteredSpecSnapshot_post_init (s : RegisteredSpecSnapshot) :
    result RegisteredSpecSnapshot :=
  _ ← require (negb (is_blank (rs_instrument s))) ValueError "instrument must be non-empty";
  _ ← require (negb (is_blank (rs_base_timeframe s))) ValueError
    "base_timeframe must be non-empty";
  _ ← require (negb (is_blank (rs_source_path s))) ValueError "source_path must be non-empty";
  Ok s.

Record AppliedEntryPackage := {
  ap_applied_desired_entry : DesiredEntry;
  ap_calculated_quantity : string }.

#[export] Instance AppliedEntryPackage_eq_dec : EqDecision AppliedEntryPackage.
Proof. solve_decision. Defined.

Definition AppliedEntryPackage_post_init (p : AppliedEntryPackage) : result AppliedEntryPackage :=
  _ ← require (is_exact_decimal_text (ap_calculated_quantity p)) ValueError
    "calculated_quantity must be exact-decimal text";
  Ok p.

Record FrozenExecutedEntryContext := {
  fc_desired_entry : DesiredEntry;
  fc_first_fill_at_ms : Z;
  fc_entry_bar_open_time_ms : Z;
  fc_entry_order_expires_at_bar : option Z }.

#[export] Instance FrozenExecutedEntryContext_eq_dec : EqDecision FrozenExecutedEntryContext.
Proof. solve_decision. Defined.

Definition FrozenExecutedEntryContext_post_init (c : FrozenExecutedEntryContext) :
    result FrozenExecutedEntryContext :=
  _ ← require (0 <? fc_first_fill_at_ms c) ValueError
    "first_fill_at_ms must be a strictly positive integer";
  _ ← require (0 <=? fc_entry_bar_open_time_ms c) ValueError
    "entry_bar_open_time_ms must be a non-negative integer";
  _ ← require (fc_entry_bar_open_time_ms c <=? fc_first_fill_at_ms c) ValueError
    "entry_bar_open_time_ms must not be after first_fill_at_ms";
  _ ← require (match fc_entry_order_expires_at_bar c with
               | Some e => 0 <? e | None => true end) ValueError
    "entry_order_expires_at_bar must be a strictly positive integer or None";
  Ok c.

Record CurrentTradeCycle := {
  tc_trade_cycle_id : string;
  tc_applied_entry_package : AppliedEntryPackage;
  tc_frozen_entry_context : option FrozenExecutedEntryContext;
  tc_latest_confirmed_management_protection : option DesiredProtection;
  tc_entry_remainder_cancelled : bool }.

#[export] Instance CurrentTradeCycle_eq_dec : EqDecision CurrentTradeCycle.
Proof. solve_decision. Defined.

Definition CurrentTradeCycle_post_init (c : CurrentTradeCycle) : result CurrentTradeCycle :=
  _ ← require_non_empty_string (tc_trade_cycle_id c) "trade_cycle_id";
  Ok c.

(** The property [desired_entry]. *)
Definition tc_desired_entry (c : CurrentTradeCycle) : DesiredEntry :=
  ap_applied_desired_entry (tc_applied_entry_package c).

Record PendingEntryRecovery := { pe_trade_cycle_id : string }.
Record PendingCloseRecovery := { pc_trade_cycle_id : string }.

#[export] Instance PendingEntryRecovery_eq_dec : EqDecision PendingEntryRecovery.
Proof. solve_decision. Defined.
#[export] Instance PendingCloseRecovery_eq_dec : EqDecision PendingCloseRecovery.
Proof. solve_decision. Defined.

Definition PendingEntryRecovery_post_init (p : PendingEntryRecovery) :
    result PendingEntryRecovery :=
  _ ← require_non_empty_string (pe_trade_cycle_id p) "trade_cycle_id"; Ok p.

Definition PendingCloseRecovery_post_init (p : PendingCloseRecovery) :
    result PendingCloseRecovery :=
  _ ← require_non_empty_string (pc_trade_cycle_id p) "trade_cycle_id"; Ok p.

Record StrategyInstanceRuntimeState := {
  st_strategy_instance_id : string;
  st_strategy_id : string;
  st_registered_spec_snapshot : RegisteredSpecSnapshot;
  st_risk_multiplier : string;
  st_current_trade_cycle : option CurrentTradeCycle;
  st_pending_entry_recovery : option PendingEntryRecovery;
  st_pending_close_recovery : option PendingCloseRecovery }.

#[export] Instance StrategyInstanceRuntimeState_eq_dec :
  EqDecision StrategyInstanceRuntimeState.
Proof. solve_decision. Defined.

Definition StrategyInstanceRuntimeState_post_init (s : StrategyInstanceRuntimeState) :
    result StrategyInstanceRuntimeState :=
  _ ← require (negb (is_blank (st_strategy_instance_id s))
               && negb (is_blank (st_strategy_id s))) ValueError
    "strategy identity fields must be non-empty";
  _ ← require (is_positive_exact_decimal_text (st_risk_multiplier s)) ValueError
    "risk_multiplier must be positive exact-decimal text";
  _ ← require (match st_pending_entry_recovery s, st_current_trade_cycle s with
               | Some pe, Some c =>
                   bool_decide (pe_trade_cycle_id pe = tc_trade_cycle_id c)
               | _, _ => true end) ValueError
    "pending_entry_recovery.trade_cycle_id must match current_trade_cycle.trade_cycle_id";
  _ ← require (match st_pending_close_recovery s, st_current_trade_cycle s with
               | Some _, None => false | _, _ => true end) ValueError
    "pending_close_recovery requires a non-null current_trade_cycle";
  _ ← require (match st_pending_close_recovery s, st_current_trade_cycle s with
               | Some pc, Some c =>
                   bool_decide (pc_trade_cycle_id pc = tc_trade_cycle_id c)
               | _, _ => true end) ValueError
    "pending_close_recovery.trade_cycle_id must match current_trade_cycle.trade_cycle_id";
  _ ← require (is_none (st_pending_entry_recovery s) || is_none (st_pending_close_recovery s))
    ValueError "pending_entry_recovery and pending_close_recovery must not both be set";
  Ok s.

(** [replace(state, current_trade_cycle=c, pending_entry_recovery=pe,
    pending_close_recovery=pc)]; a field the code does not name is passed unchanged. *)
Definition replace_state (s : StrategyInstanceRuntimeState)
    (c : option CurrentTradeCycle) (pe : option PendingEntryRecovery)
    (pc : option PendingCloseRecovery) : result StrategyInstanceRuntimeState :=
  StrategyInstanceRuntimeState_post_init
    {| st_strategy_instance_id := st_strategy_instance_id s;
       st_strategy_id := st_strategy_id s;
       st_registered_spec_snapshot := st_registered_spec_snapshot s;
       st_risk_multiplier := st_risk_multiplier s;
       st_current_trade_cycle := c;
       st_pending_entry_recovery := pe;
       st_pending_close_recovery := pc |}.

(** [replace(state, current_trade_cycle=c)] *)
Definition replace_current_trade_cycle s c :=
  replace_state s c (st_pending_entry_recovery s) (st_pending_close_recovery s).

(** [replace(state, pending_entry_recovery=pe)] *)
Definition replace_pending_entry_recovery s pe :=
  replace_state s (st_current_trade_cycle s) pe (st_pending_close_recovery s).

(** [replace(state, pending_close_recovery=pc)] *)
Definition replace_pending_close_recovery s pc :=
  replace_state s (st_current_trade_cycle s) (st_pending_entry_recovery s) pc.

(** [replace(state, current_trade_cycle=None, pending_entry_recovery=None)] *)
Definition clear_cycle_and_entry_recovery s :=
  replace_state s None None (st_pending_close_recovery s).

(** [replace(state, current_trade_cycle=None, pending_close_recovery=None)] *)
Definition clear_cycle_and_close_recovery s :=
  replace_state s None (st_pending_entry_recovery s) None.

Record GetOrCreateStrategyInstanceRuntimeStateRequest := {
  gc_strategy_instance_id : string;
  gc_strategy_id : string;
  gc_instrument : string;
  gc_base_timeframe : string;
  gc_raw_spec : dict json;
  gc_source_path : string }.

(** * Facts about the aggregate's constructor *)

(** The invariant [__post_init__] enforces, as a proposition. *)
Definition valid_state (s : StrategyInstanceRuntimeState) : Prop :=
  StrategyInstanceRuntimeState_post_init s = Ok s.

Lemma state_post_init_Ok s s' :
  StrategyInstanceRuntimeState_post_init s = Ok s' -> s' = s /\ valid_state s.
Proof.
  intros H. unfold valid_state. pose proof H as H0.
  unfold StrategyInstanceRuntimeState_post_init in H. ok_inv H. done.
Qed.

(** What [__post_init__] says of the recovery markers. *)
Lemma valid_markers s :
  valid_state s ->
  (forall m c, st_pending_entry_recovery s = Some m -> st_current_trade_cycle s = Some c ->
     pe_trade_cycle_id m = tc_trade_cycle_id c) /\
  (forall m, st_pending_close_recovery s = Some m ->
     st_pending_entry_recovery s = None /\
     exists c, st_current_trade_cycle s = Some c /\
       pc_trade_cycle_id m = tc_trade_cycle_id c).
Proof.
  unfold valid_state, StrategyInstanceRuntimeState_post_init. intros Hv.
  repeat (apply result_bind_Ok in Hv as (? & ? & Hv)).
  rewrite !require_Ok in *. split.
  - intros m c Hm Hc. rewrite Hm, Hc in *. ok_all. done.
  - intros m Hm. rewrite Hm in *. destruct (st_current_trade_cycle s) as [c|]; [|done].
    destruct (st_pending_entry_recovery s); [done|]. split; [done|]. exists c. ok_all. done.
Qed.

Lemma valid_close_marker s m c :
  valid_state s -> st_current_trade_cycle s = Some c ->
  st_pending_close_recovery s = Some m -> tc_trade_cycle_id c = pc_trade_cycle_id m.
Proof.
  intros Hv Hc Hm. apply valid_markers in Hv as [_ Hv].
  destruct (Hv m Hm) as (_ & c' & Hc' & ->). congruence.
Qed.

Lemma replace_state_Ok s c pe pc s' :
  replace_state s c pe pc = Ok s' ->
  valid_state s' /\
  s' = {| st_strategy_instance_id := st_strategy_instance_id s;
          st_strategy_id := st_strategy_id s;
          st_registered_spec_snapshot := st_registered_spec_snapshot s;
          st_risk_multiplier := st_risk_multiplier s;
          st_current_trade_cycle := c;
          st_pending_entry_recovery := pe;
          st_pending_close_recovery := pc |}.
Proof. unfold replace_state. intros [-> ?]%state_post_init_Ok. done. Qed.

(** A valid state takes any consistent cycle and markers. *)
Lemma replace_state_total s c pe pc :
  valid_state s ->
  (forall m c', pe = Some m -> c = Some c' -> pe_trade_cycle_id m = tc_trade_cycle_id c') ->
  (forall m, pc = Some m -> pe = None /\
     exists c', c = Some c' /\ pc_trade_cycle_id m = tc_trade_cycle_id c') ->
  replace_state s c pe pc =
    Ok {| st_strategy_instance_id := st_strategy_instance_id s;
          st_strategy_id := st_strategy_id s;
          st_registered_spec_snapshot := st_registered_spec_snapshot s;
          st_risk_multiplier := st_risk_multiplier s;
          st_current_trade_cycle := c;
          st_pending_entry_recovery := pe;
          st_pending_close_recovery := pc |}.
Proof.
  unfold valid_state, replace_state, StrategyInstanceRuntimeState_post_init. simpl.
  intros Hv Hpe Hpc. apply result_bind_Ok in Hv as ([] & Hid & Hv).
  apply result_bind_Ok in Hv as ([] & Hrisk & _). rewrite Hid, Hrisk. simpl.
  destruct pc as [m|].
  - destruct (Hpc m eq_refl) as (-> & c' & -> & Hm). simpl. by rewrite Hm, bool_decide_true.
  - destruct pe as [m|], c as [c'|]; try done. simpl.
    by rewrite (Hpe m c' eq_refl eq_refl), bool_decide_true.
Qed.

Lemma timeframe_duration_pos tf d : timeframe_duration_ms tf = Ok d -> 0 < d.
Proof.
  unfold timeframe_duration_ms, SUPPORTED_TIMEFRAME_DURATIONS_MS. simpl.
  repeat case_decide; intros; simplify_eq/=; lia.
Qed.

#[export] Hint Resolve timeframe_duration_pos : runtime.

Lemma entry_order_expiration_ms_Ok source tf bars e :
  entry_order_expiration_ms source tf bars = Ok e ->
  e = source + (bars + 2) * tf /\ 0 <= source /\ 0 < tf /\ 0 <= bars.
Proof. unfold entry_order_expiration_ms. intros H. by ok_all. Qed.

#[global] Arguments entry_order_expiration_ms : simpl never.
#[global] Arguments timeframe_duration_ms : simpl never.
#[global] Arguments replace_state : simpl never.

(** [==] of two aggregates. *)
Definition state_eqb (a b : StrategyInstanceRuntimeState) : bool :=
  bool_decide (st_strategy_instance_id a = st_strategy_instance_id b)
  && bool_decide (st_strategy_id a = st_strategy_id b)
  && snapshot_eqb (st_registered_spec_snapshot a) (st_registered_spec_snapshot b)
  && bool_decide (st_risk_multiplier a = st_risk_multiplier b)
  && bool_decide (st_current_trade_cycle a = st_current_trade_cycle b)
  && bool_decide (st_pending_entry_recovery a = st_pending_entry_recovery b)
  && bool_decide (st_pending_close_recovery a = st_pending_close_recovery b).

Lemma state_eqb_refl a : state_eqb a a = true.
Proof. unfold state_eqb. by rewrite snapshot_eqb_refl, !bool_decide_true. Qed.

Lemma state_eqb_cycle a b :
  state_eqb a b = true ->
  st_current_trade_cycle a = st_current_trade_cycle b /\
  st_pending_entry_recovery a = st_pending_entry_recovery b /\
  st_pending_close_recovery a = st_pending_close_recovery b.
Proof.
  unfold state_eqb. rewrite !andb_true_iff, !bool_decide_eq_true. tauto.
Qed.
