(* ===== verification/Json.v ===== *)
(** Python's [json] module, as far as the codecs of the repository use it: [dumps] with
    [ensure_ascii=False], compact separators and [sort_keys=True], and [loads] with its
    [object_pairs_hook] and [parse_constant].

    A text is a list of code points below 256; an escape of a larger code point stops the
    reader with [outside_model]. A float is its literal text. The conversion between
    integers and decimal text is limited to 4300 digits, as in CPython; the limit on the
    nesting depth is not modelled. *)
From S2P Require Import Prelude Errors DecimalText DecimalCanonical Models.

(** * JSON trees *)

(** Induction over a tree whose children are lists. *)
Definition json_nested_ind (P : json -> Prop)
    (Hnull : P JNull) (Hbool : forall b, P (JBool b)) (Hint : forall z, P (JInt z))
    (Hfloat : forall s, P (JFloat s)) (Hstr : forall s, P (JStr s))
    (Hlist : forall l, Forall P l -> P (JList l))
    (Hobj : forall fs, Forall (fun f => P f.2) fs -> P (JObj fs)) : forall j, P j :=
  fix go j : P j :=
    match j with
    | JNull => Hnull | JBool b => Hbool b | JInt z => Hint z
    | JFloat s => Hfloat s | JStr s => Hstr s
    | JList l => Hlist l ((fix gol l : Forall P l :=
        match l with [] => Forall_nil_2 _ | v :: l => Forall_cons_2 _ _ _ (go v) (gol l) end) l)
    | JObj fs => Hobj fs ((fix gof fs : Forall (fun f => P f.2) fs :=
        match fs with
        | [] => Forall_nil_2 _
        | f :: fs => Forall_cons_2 _ _ _ (go f.2) (gof fs) end) fs)
    end.

(** [sort_keys=True], at every level. *)
Fixpoint sort_json (j : json) : json :=
  match j with
  | JList l => JList (map sort_json l)
  | JObj fs => JObj (sort_by fst (map (fun f => (f.1, sort_json f.2)) fs))
  | _ => j
  end.

(** [dict(pairs)]: a repeated key keeps its place and takes the last value. *)
Definition dict_of {V} (pairs : list (string * V)) : dict V :=
  foldl (fun d p => dset p.1 p.2 d) [] pairs.

(** [x if x is not None else None], encoded. *)
Definition encode_optional {A} (encode : A -> json) (o : option A) : json :=
  match o with Some a => encode a | None => JNull end.

(** * Characters *)

Definition quotation_mark : ascii := "034"%char.
Definition backslash : ascii := "\"%char.

(** The white space of the JSON grammar. *)
Definition is_json_space (c : ascii) : bool :=
  bool_decide (c ∈ [" "; "009"; "010"; "013"]%char).

Definition skip_space (l : list ascii) : list ascii := ldrop is_json_space l.

Definition is_control (c : ascii) : bool := (N_of_ascii c <? 32)%N.

(** The short escapes: the letter and the character it stands for. *)
Definition short_escapes : list (ascii * ascii) :=
  [(quotation_mark, quotation_mark); (backslash, backslash); ("/", "/");
   ("b", "008"); ("f", "012"); ("n", "010"); ("r", "013"); ("t", "009")]%char.

Definition unescape (e : ascii) : option ascii :=
  snd <$> List.find (fun p => bool_decide (p.1 = e)) short_escapes.

(** The letter [dumps] uses for a character; the solidus is written as it is. *)
Definition escape_letter (c : ascii) : option ascii :=
  if decide (c = "/"%char) then None
  else fst <$> List.find (fun p => bool_decide (p.2 = c)) short_escapes.

Definition hex_digit (n : N) : ascii :=
  ascii_of_N (if (n <? 10)%N then 48 + n else 87 + n).

Definition hex_value (c : ascii) : option N :=
  let n := N_of_ascii c in
  if ((48 <=? n) && (n <=? 57))%N then Some (n - 48)%N
  else if ((97 <=? n) && (n <=? 102))%N then Some (n - 87)%N
  else if ((65 <=? n) && (n <=? 70))%N then Some (n - 55)%N
  else None.

Definition hex_code (a b c d : ascii) : option N :=
  a ← hex_value a; b ← hex_value b; c ← hex_value c; d ← hex_value d;
  Some (((a * 16 + b) * 16 + c) * 16 + d)%N.

(** * Writing *)

Definition escape (c : ascii) : list ascii :=
  match escape_letter c with
  | Some e => [backslash; e]
  | None =>
      if is_control c then
        [backslash; "u"%char; "0"%char; "0"%char; hex_digit (N_of_ascii c / 16);
         hex_digit (N_of_ascii c mod 16)]
      else [c]
  end.

Fixpoint escaped (l : list ascii) : list ascii :=
  match l with [] => [quotation_mark] | c :: l => escape c ++ escaped l end.

Definition quoted (s : string) : list ascii := quotation_mark :: escaped (chars s).

Definition digit_char (z : Z) : ascii := ascii_of_N (Z.to_N (48 + z)).

(** The decimal digits of a number below [2 ^ n], before those already written. *)
Fixpoint digits_before (n : nat) (z : Z) (acc : list ascii) : list ascii :=
  match n with
  | O => acc
  | S n =>
      let acc := digit_char (z mod 10) :: acc in
      if z <? 10 then acc else digits_before n (z / 10) acc
  end.

Definition natural_text (z : Z) : list ascii := digits_before (S (Z.to_nat (Z.log2 z))) z [].

(** [int.__repr__]. *)
Definition int_text (z : Z) : list ascii :=
  if z <? 0 then "-"%char :: natural_text (- z) else natural_text z.

(** [sys.int_info.default_max_str_digits] *)
Definition max_int_digits : Z := 4300.

Fixpoint write (j : json) : list ascii :=
  match j with
  | JNull => chars "null"
  | JBool true => chars "true"
  | JBool false => chars "false"
  | JInt z => int_text z
  | JFloat literal => chars literal
  | JStr s => quoted s
  | JList [] => chars "[]"
  | JList (v :: items) =>
      "["%char :: write v ++ flat_map (fun v => ","%char :: write v) items ++ ["]"%char]
  | JObj [] => chars "{}"
  | JObj (f :: fields) =>
      let member f := quoted f.1 ++ ":"%char :: write f.2 in
      "{"%char :: member f ++ flat_map (fun f => ","%char :: member f) fields ++ ["}"%char]
  end.

(** Every integer of the tree can be written. *)
Fixpoint ints_printable (j : json) : bool :=
  match j with
  | JInt z => Z.of_nat (length (natural_text (Z.abs z))) <=? max_int_digits
  | JList l => forallb ints_printable l
  | JObj fs => forallb (fun f => ints_printable f.2) fs
  | _ => true
  end.

(** [json.dumps(j, ensure_ascii=False, separators=(",", ":"), sort_keys=True)]. *)
Definition dumps (j : json) : result string :=
  _ ← require (ints_printable j) ValueError "Exceeds the limit for integer string conversion";
  Ok (text (write (sort_json j))).

(** * Reading *)

Definition decode_error {A} (msg : string) : result A := raise JSONDecodeError msg.

(** An escape of a code point the model has no character for. *)
Definition outside_model : exn := Exn (OtherException "code point above 255") "".

(** Every call of the reader consumes a character or is followed by one that does, so twice
    the length of the text bounds its recursion, and this is never reached ([scan_more_fuel]). *)
Definition out_of_fuel {A} : result A := Raise (Exn (OtherException "out of fuel") "").

(** The text after the character [c]. *)
Definition eat (c : ascii) (l : list ascii) : option (list ascii) :=
  match l with x :: l => if decide (x = c) then Some l else None | [] => None end.

(** The text after the word [w]. *)
Fixpoint eat_word (w l : list ascii) : option (list ascii) :=
  match w with [] => Some l | c :: w => l ← eat c l; eat_word w l end.

(** [scanstring], after the opening quotation mark. *)
Fixpoint scan_string (l : list ascii) : result (list ascii * list ascii) :=
  match l with
  | [] => decode_error "Unterminated string starting at"
  | c :: l =>
      if decide (c = quotation_mark) then Ok ([], l)
      else if decide (c = backslash) then
        match l with
        | [] => decode_error "Unterminated string starting at"
        | e :: l =>
            if decide (e = "u"%char) then
              match l with
              | h1 :: h2 :: h3 :: h4 :: l =>
                  match hex_code h1 h2 h3 h4 with
                  | None => decode_error "Invalid \uXXXX escape"
                  | Some n =>
                      if (n <? 256)%N then
                        '(s, r) ← scan_string l; Ok (ascii_of_N n :: s, r)
                      else Raise outside_model
                  end
              | _ => decode_error "Invalid \uXXXX escape"
              end
            else
              match unescape e with
              | Some x => '(s, r) ← scan_string l; Ok (x :: s, r)
              | None => decode_error "Invalid \escape: "
              end
        end
      else if is_control c then decode_error "Invalid control character at"
      else '(s, r) ← scan_string l; Ok (c :: s, r)
  end.

(** One or more digits after what was already matched, or nothing. *)
Definition take_digits (mark : list ascii) (l : list ascii) : option (list ascii * list ascii) :=
  match span is_digit l with
  | ([], _) => None
  | (ds, r) => Some (mark ++ ds, r)
  end.

Definition take_fraction (l : list ascii) : list ascii * list ascii :=
  default ([], l) (r ← eat "."%char l; take_digits ["."%char] r).

Definition take_exponent (l : list ascii) : list ascii * list ascii :=
  match l with
  | e :: r =>
      if is_exp_mark e then
        default ([], l)
          (match r with
           | s :: r' => if is_sign s then take_digits [e; s] r' else take_digits [e] r
           | [] => None
           end)
      else ([], l)
  | [] => ([], [])
  end.

(** The integer part of a number: 0 or digits that do not begin with 0. *)
Definition take_integer (l : list ascii) : option (list ascii * list ascii) :=
  match eat "0"%char l with
  | Some r => Some (["0"%char], r)
  | None => take_digits [] l
  end.

(** [NUMBER_RE]: sign, integer part, fraction and exponent, and the rest of the text. *)
Definition match_number (l : list ascii) :
    option (bool * list ascii * list ascii * list ascii) :=
  let '(neg, l) := match eat "-"%char l with Some l => (true, l) | None => (false, l) end in
  '(i, l) ← take_integer l;
  let '(f, l) := take_fraction l in
  let '(e, l) := take_exponent l in
  Some (neg, i, f ++ e, l).

Definition number_value (neg : bool) (i fe : list ascii) : result json :=
  match fe with
  | [] =>
      _ ← require (Z.of_nat (length i) <=? max_int_digits) ValueError
        "Exceeds the limit for integer string conversion";
      Ok (JInt (if neg then - digits_value i else digits_value i))
  | _ => Ok (JFloat (text ((if neg then ["-"%char] else []) ++ i ++ fe)))
  end.

(** The names of the non-finite floats. *)
Definition constants : list string := ["NaN"; "Infinity"; "-Infinity"].

Fixpoint match_constant (names : list string) (l : list ascii) : option (string * list ascii) :=
  match names with
  | [] => None
  | n :: names =>
      match eat_word (chars n) l with Some r => Some (n, r) | None => match_constant names l end
  end.

Definition literals : list (string * json) :=
  [("null", JNull); ("true", JBool true); ("false", JBool false)].

Fixpoint match_literal (words : list (string * json)) (l : list ascii) :
    option (json * list ascii) :=
  match words with
  | [] => None
  | (w, v) :: words =>
      match eat_word (chars w) l with Some r => Some (v, r) | None => match_literal words l end
  end.

(** * UTF-8 *)

(** UTF-8, for code points below 256. *)
Definition utf8_char (c : ascii) : list ascii :=
  let n := N_of_ascii c in
  if (n <? 128)%N then [c] else [ascii_of_N (192 + n / 64); ascii_of_N (128 + n mod 64)].

Definition utf8 (l : list ascii) : list ascii := flat_map utf8_char l.

Definition unicode_decode_error {A} : result A :=
  raise UnicodeDecodeError "invalid byte".

Definition is_continuation (c : ascii) : bool :=
  let n := N_of_ascii c in ((128 <=? n) && (n <? 192))%N.

(** The strict decoder; a sequence that encodes a code point above 255 stops it with
    [outside_model]. *)
Fixpoint utf8_decode (l : list ascii) : result (list ascii) :=
  match l with
  | [] => Ok []
  | b :: l =>
      let n := N_of_ascii b in
      if (n <? 128)%N then r ← utf8_decode l; Ok (b :: r)
      else if ((194 <=? n) && (n <? 196))%N then
        match l with
        | c :: l =>
            if is_continuation c then
              r ← utf8_decode l;
              Ok (ascii_of_N ((n - 192) * 64 + (N_of_ascii c - 128)) :: r)
            else unicode_decode_error
        | [] => unicode_decode_error
        end
      else if ((196 <=? n) && (n <? 245))%N then
        match l with [] => unicode_decode_error | _ => Raise outside_model end
      else unicode_decode_error
  end.

Section reader.
(** [object_pairs_hook] and [parse_constant]. *)
Context (object_pairs : list (string * json) -> result json)
        (parse_constant : string -> result json).

(** A number, a literal or a constant. *)
Definition scan_plain (l : list ascii) : result (json * list ascii) :=
  match match_literal literals l with
  | Some vr => Ok vr
  | None =>
      match match_number l with
      | Some (neg, i, fe, r) => v ← number_value neg i fe; Ok (v, r)
      | None =>
          match match_constant constants l with
          | Some (name, r) => v ← parse_constant name; Ok (v, r)
          | None => decode_error "Expecting value"
          end
      end
  end.

(** [scan_once], [JSONObject] from the first key and [JSONArray] from the first item. *)
Fixpoint scan_once (n : nat) (l : list ascii) {struct n} : result (json * list ascii) :=
  match n with
  | O => out_of_fuel
  | S n =>
      match l with
      | [] => decode_error "Expecting value"
      | c :: l' =>
          if decide (c = quotation_mark) then
            '(s, r) ← scan_string l'; Ok (JStr (text s), r)
          else if decide (c = "{"%char) then
            match eat "}"%char (skip_space l') with
            | Some r => v ← object_pairs []; Ok (v, r)
            | None =>
                '(pairs, r) ← scan_members n (skip_space l');
                v ← object_pairs pairs; Ok (v, r)
            end
          else if decide (c = "["%char) then
            match eat "]"%char (skip_space l') with
            | Some r => Ok (JList [], r)
            | None => '(items, r) ← scan_items n (skip_space l'); Ok (JList items, r)
            end
          else scan_plain l
      end
  end
with scan_members (n : nat) (l : list ascii) {struct n} :
    result (list (string * json) * list ascii) :=
  match n with
  | O => out_of_fuel
  | S n =>
      match eat quotation_mark l with
      | None => decode_error "Expecting property name enclosed in double quotes"
      | Some l =>
          '(k, l) ← scan_string l;
          match eat ":"%char (skip_space l) with
          | None => decode_error "Expecting ':' delimiter"
          | Some l =>
              '(v, l) ← scan_once n (skip_space l);
              match eat "}"%char (skip_space l) with
              | Some r => Ok ([(text k, v)], r)
              | None =>
                  match eat ","%char (skip_space l) with
                  | None => decode_error "Expecting ',' delimiter"
                  | Some l =>
                      '(pairs, r) ← scan_members n (skip_space l); Ok ((text k, v) :: pairs, r)
                  end
              end
          end
      end
  end
with scan_items (n : nat) (l : list ascii) {struct n} : result (list json * list ascii) :=
  match n with
  | O => out_of_fuel
  | S n =>
      '(v, l) ← scan_once n l;
      match eat "]"%char (skip_space l) with
      | Some r => Ok ([v], r)
      | None =>
          match eat ","%char (skip_space l) with
          | None => decode_error "Expecting ',' delimiter"
          | Some l => '(items, r) ← scan_items n (skip_space l); Ok (v :: items, r)
          end
      end
  end.

(** [json.loads]. *)
Definition loads_with (s : string) : result json :=
  let l := skip_space (chars s) in
  '(v, r) ← scan_once (S (2 * length l)) l;
  match skip_space r with [] => Ok v | _ => decode_error "Extra data" end.
End reader.

Definition default_object (pairs : list (string * json)) : result json :=
  Ok (JObj (dict_of pairs)).
Definition default_constant (name : string) : result json := Ok (JFloat name).

(** [json.loads(s)], without hooks. *)
Definition loads (s : string) : result json := loads_with default_object default_constant s.
