(* ===== verification/JsonFacts.v ===== *)
(** What Python's [json] writes, it reads: [loads (dumps j)] is [j] with sorted keys, and no
    proper prefix of a written object is a JSON text. *)
From S2P Require Import Prelude Errors DecimalText DecimalCanonical Models Json.

(** Compute the lengths of concatenations. *)
Ltac lengths := repeat first [progress rewrite ?length_app in * | progress cbn [length] in *].

(** * Strings *)

Lemma scan_escape c l :
  scan_string (escape c ++ l) = ('(s, r) ← scan_string l; Ok (c :: s, r)).
Proof. destruct c as [[] [] [] [] [] [] [] []]; reflexivity. Qed.

Lemma scan_escaped s r : scan_string (escaped s ++ r) = Ok (s, r).
Proof.
  induction s as [|c s IH]; [reflexivity|]. simpl.
  rewrite <- app_assoc, scan_escape, IH. reflexivity.
Qed.

(** * Integers *)

Lemma digit_char_digit z : 0 <= z <= 9 -> is_digit (digit_char z) = true /\
  digit_value (digit_char z) = z /\ (z <> 0 -> digit_char z <> "0"%char).
Proof.
  intros Hz. assert (z = 0 \/ z = 1 \/ z = 2 \/ z = 3 \/ z = 4 \/ z = 5 \/ z = 6 \/ z = 7 \/
    z = 8 \/ z = 9) as H by lia.
  repeat destruct H as [->|H]; try subst z; by vm_compute.
Qed.

Lemma digits_before_spec n z acc :
  0 <= z -> z < 2 ^ Z.of_nat n -> exists ds, digits_before n z acc = ds ++ acc /\
    (n <> 0%nat -> leading ds /\ digits_value ds = z /\ (z <> 0 -> ds <> ["0"%char])).
Proof.
  revert z acc. induction n as [|n IH]; intros z acc Hz Hn; [by exists []|]. cbn [digits_before].
  pose proof (Z.mod_pos_bound z 10 ltac:(lia)) as Hm.
  destruct (digit_char_digit (z mod 10)) as (Hd & Hv & Hnz); [lia|].
  destruct (Z.ltb_spec z 10) as [Hlt|Hge].
  - exists [digit_char (z mod 10)]. split; [done|]. intros _. rewrite Z.mod_small in * by lia.
    split_and!; [|by rewrite digits_value_cons, Hv; simpl; unfold digits_value; simpl; lia|].
    + split; [by apply digits_cons|]. destruct (decide (z = 0)) as [->|Hne]; [by left|].
      right. exists (digit_char z), []. auto.
    + intros Hne [= Heq]. by apply Hnz.
  - assert (n <> 0%nat) as Hn0 by (intros ->; simpl in Hn; lia).
    rewrite Nat2Z.inj_succ, Z.pow_succ_r in Hn by lia.
    assert (0 < z / 10) by (apply Z.div_str_pos; lia).
    destruct (IH (z / 10) (digit_char (z mod 10) :: acc)) as (ds & -> & Hds);
      [lia|apply Z.div_lt_upper_bound; lia|].
    destruct (Hds Hn0) as ([Hdig Hlead] & Hval & Hne0). specialize (Hne0 ltac:(lia)).
    exists (ds ++ [digit_char (z mod 10)]). rewrite <- app_assoc. split; [done|]. intros _.
    destruct Hlead as [?|(c & l & -> & Hc)]; [done|]. split_and!.
    + split; [apply digits_app; split; [done|by apply digits_cons]|]. right. eauto.
    + rewrite digits_value_app, Hval, digits_value_cons, Hv.
      pose proof (Z.div_mod z 10). simpl. unfold digits_value. simpl. lia.
    + by intros _ [= -> ?].
Qed.

Lemma natural_text_spec z : 0 <= z -> leading (natural_text z) /\ digits_value (natural_text z) = z.
Proof.
  intros Hz. unfold natural_text.
  destruct (digits_before_spec (S (Z.to_nat (Z.log2 z))) z []) as (ds & -> & H); [done| |].
  - rewrite Nat2Z.inj_succ, Z2Nat.id by apply Z.log2_nonneg.
    destruct (decide (z = 0)) as [->|]; [done|]. apply Z.log2_spec. lia.
  - rewrite app_nil_r. destruct H as (? & ? & _); done.
Qed.

(** * Numbers *)

(** A character that may continue a number. *)
Definition continues (c : ascii) : bool :=
  is_digit c || bool_decide (c = "."%char) || is_exp_mark c.

(** A text that does not continue a number before it. *)
Definition delimited (r : list ascii) : Prop :=
  match r with [] => True | c :: _ => continues c = false end.

Lemma delimited_digit r : delimited r -> match r with [] => True | c :: _ => is_digit c = false end.
Proof. destruct r as [|c r]; [done|]. unfold delimited, continues. by intros [[? _]%orb_false_iff _]%orb_false_iff. Qed.

Lemma eat_Some c l r : eat c l = Some r -> l = c :: r.
Proof. destruct l as [|x l]; simpl; [done|]. case_decide; naive_solver. Qed.

Lemma eat_same c l : eat c (c :: l) = Some l.
Proof. simpl. by rewrite decide_True. Qed.

Lemma eat_other c x l : x <> c -> eat c (x :: l) = None.
Proof. intros. simpl. by rewrite decide_False. Qed.

Lemma take_digits_app mark l ds l' r :
  take_digits mark l = Some (ds, l') -> (l' = [] -> delimited r) ->
  take_digits mark (l ++ r) = Some (ds, l' ++ r).
Proof.
  unfold take_digits. destruct (span is_digit l) as [a b] eqn:Hs. intros Ha Hr.
  pose proof (span_app _ _ _ _ Hs) as ->. pose proof (span_prefix_forall _ _ _ _ Hs) as Hp.
  rewrite <- app_assoc, span_full; [by destruct a; simplify_eq|done|].
  destruct b as [|x b]; simpl.
  - destruct a; simplify_eq. by apply delimited_digit, Hr.
  - by apply span_stops in Hs.
Qed.

Lemma take_digits_none mark l r :
  take_digits mark l = None -> (l = [] -> delimited r) -> take_digits mark (l ++ r) = None.
Proof.
  unfold take_digits. destruct l as [|c l]; intros Hl Hr.
  - simpl. specialize (Hr eq_refl). apply delimited_digit in Hr. destruct r as [|x r]; [done|].
    simpl. by rewrite Hr.
  - simpl in *. destruct (is_digit c); [|done].
    by destruct (span is_digit l).
Qed.

Lemma take_exponent_app l e r :
  take_exponent l = (e, []) -> delimited r -> take_exponent (l ++ r) = (e, r).
Proof.
  intros Hl Hr. destruct l as [|x l].
  { simpl in Hl. simplify_eq. simpl. destruct r as [|y r]; [done|]. simpl.
    unfold delimited, continues in Hr. by apply orb_false_iff in Hr as [_ ->]. }
  simpl in *. destruct (is_exp_mark x); [|done].
  destruct l as [|s l]; [done|]. simpl. destruct (is_sign s); simpl in *.
  all: destruct (take_digits _ _) as [[ds l']|] eqn:Hd; simpl in Hl; simplify_eq.
  all: eapply take_digits_app in Hd; [|by intros]; simpl in Hd; by rewrite Hd.
Qed.

Lemma take_fraction_app l f l' r :
  take_fraction l = (f, l') -> (l' = [] -> delimited r) -> eat "."%char l' = None ->
  take_fraction (l ++ r) = (f, l' ++ r).
Proof.
  unfold take_fraction. intros Hl Hr Hdot.
  destruct (eat "."%char l) as [l1|] eqn:He.
  - apply eat_Some in He as ->. rewrite <- app_comm_cons, eat_same. simpl in *.
    destruct (take_digits _ l1) as [[ds l2]|] eqn:Hd; simpl in Hl; simplify_eq.
    by rewrite (take_digits_app _ _ _ _ _ Hd Hr).
  - simpl in Hl. simplify_eq. assert (eat "."%char (l' ++ r) = None) as ->; [|done].
    destruct l' as [|x l']; simpl in *; [|by case_decide].
    specialize (Hr eq_refl). destruct r as [|y r]; [done|]. simpl. rewrite decide_False; [done|].
    intros ->. by vm_compute in Hr.
Qed.

Lemma take_integer_app l i l' r :
  take_integer l = Some (i, l') -> (l' = [] -> delimited r) ->
  take_integer (l ++ r) = Some (i, l' ++ r).
Proof.
  unfold take_integer. intros Hl Hr. destruct l as [|x l]; [done|]. simpl in *.
  case_decide; [by simplify_eq|]. by apply (take_digits_app _ (x :: l)).
Qed.

Lemma take_exponent_end l e : take_exponent l = (e, []) -> eat "."%char l = None.
Proof.
  destruct l as [|x l]; [done|]. simpl. destruct (is_exp_mark x) eqn:Hx; [|done]. intros _.
  rewrite decide_False; [done|]. by intros ->.
Qed.

(** A complete match of the number grammar is not changed by a text that does not continue
    a number. *)
Lemma match_number_app l neg i fe r :
  match_number l = Some (neg, i, fe, []) -> delimited r ->
  match_number (l ++ r) = Some (neg, i, fe, r).
Proof.
  intros Hl Hr. unfold match_number in *.
  assert (exists l1, (match eat "-"%char l with Some l => (true, l) | None => (false, l) end =
      (match eat "-"%char l with Some _ => true | None => false end, l1)) /\
    match eat "-"%char (l ++ r) with Some l => (true, l) | None => (false, l ++ r) end =
      (match eat "-"%char l with Some _ => true | None => false end, l1 ++ r) /\ l <> [])
    as (l1 & E1 & E2 & _).
  { destruct l as [|x l]; [done|]. simpl. case_decide; eauto. }
  rewrite E1 in Hl. rewrite E2. simpl in *.
  destruct (take_integer l1) as [[i' l2]|] eqn:Hi; simpl in Hl; [|done].
  destruct (take_fraction l2) as [f l3] eqn:Hf. destruct (take_exponent l3) as [e l4] eqn:He.
  simplify_eq. rewrite (take_integer_app _ _ _ r Hi) by done. simpl.
  rewrite (take_fraction_app _ _ _ r Hf); [|done|by eapply take_exponent_end].
  by rewrite (take_exponent_app _ _ r He).
Qed.

Lemma match_number_natural i : leading i ->
  match_number i = Some (false, i, [], []) /\ match_number ("-"%char :: i) = Some (true, i, [], []).
Proof.
  intros [Hi Hl]. assert (take_integer i = Some (i, [])) as Ht.
  { unfold take_integer. destruct Hl as [->|(c & l & -> & Hc)]; [done|].
    rewrite eat_other by done. unfold take_digits.
    pose proof (span_full is_digit (c :: l) [] Hi Logic.I) as Hs. rewrite app_nil_r in Hs.
    by rewrite Hs. }
  unfold match_number. rewrite eat_same. simpl. rewrite Ht. simpl. split; [|done].
  assert (eat "-"%char i = None) as ->; [|by rewrite Ht].
  destruct Hl as [->|(c & l & -> & Hc)]; [done|]. apply eat_other.
  apply digits_cons in Hi as [Hd _]. by apply digit_plain in Hd as (_&_&_&_&_&_&_&_&?).
Qed.

(** The literal of a float: what a number with a fraction or an exponent, or a constant,
    looks like. *)
Definition float_literal (allowed : list string) (s : string) : bool :=
  bool_decide (s ∈ constants /\ s ∈ allowed) ||
  ((length (chars s) <=? 40)%nat &&
   match match_number (chars s) with Some (_, _, _ :: _, []) => true | _ => false end).

Lemma take_digits_text mark l ds r :
  take_digits mark l = Some (ds, r) ->
  exists d, digits d /\ d <> [] /\ ds = mark ++ d /\ l = d ++ r.
Proof.
  unfold take_digits. destruct (span is_digit l) as [a b] eqn:Hs. intros Ha.
  pose proof (span_app _ _ _ _ Hs) as ->. apply span_prefix_forall in Hs.
  destruct a as [|x a]; [done|]. simplify_eq. by exists (x :: a).
Qed.

Lemma take_integer_text l i r :
  take_integer l = Some (i, r) -> l = i ++ r /\ exists c i', i = c :: i' /\ is_digit c = true.
Proof.
  unfold take_integer. destruct (eat _ l) eqn:He; intros H; simplify_eq.
  - apply eat_Some in He as ->. split; [done|]. by exists "0"%char, [].
  - apply take_digits_text in H as ([|c d] & Hd & ? & -> & ->); [done|]. split; [done|].
    apply digits_cons in Hd as [? _]. by exists c, d.
Qed.

Lemma take_fraction_text l f r : take_fraction l = (f, r) -> l = f ++ r.
Proof.
  unfold take_fraction. destruct (eat _ l) as [l1|] eqn:He; simpl; [|by intros [= <- <-]].
  apply eat_Some in He as ->. destruct (take_digits _ l1) as [[ds r']|] eqn:Hd; simpl;
    intros [= <- <-]; [|done].
  by apply take_digits_text in Hd as (d & _ & _ & -> & ->).
Qed.

Lemma take_exponent_text l e r : take_exponent l = (e, r) -> l = e ++ r.
Proof.
  destruct l as [|x l]; simpl; [by intros [= <- <-]|]. destruct (is_exp_mark x);
    [|by intros [= <- <-]].
  destruct l as [|s l]; simpl; [by intros [= <- <-]|]. destruct (is_sign s).
  all: destruct (take_digits _ _) as [[ds r']|] eqn:Hd; simpl; intros [= <- <-]; [|done].
  all: by apply take_digits_text in Hd as (d & _ & _ & -> & ->).
Qed.

Lemma match_number_text l neg i fe r :
  match_number l = Some (neg, i, fe, r) ->
  l = (if neg then ["-"%char] else []) ++ i ++ fe ++ r /\
  exists c i', i = c :: i' /\ is_digit c = true.
Proof.
  unfold match_number. destruct (match eat "-"%char l with Some _ => _ | None => _ end)
    as [neg' l1] eqn:Hneg. intros H.
  assert (l = (if neg' then ["-"%char] else []) ++ l1) as ->.
  { destruct (eat "-"%char l) eqn:He; simplify_eq; [by apply eat_Some in He|done]. }
  destruct (take_integer l1) as [[i' l2]|] eqn:Hi; simpl in H; [|done].
  apply take_integer_text in Hi as [-> Hc].
  destruct (take_fraction l2) as [f l3] eqn:Hf. apply take_fraction_text in Hf as ->.
  destruct (take_exponent l3) as [e l4] eqn:He. apply take_exponent_text in He as ->.
  simplify_eq. by rewrite <- (app_assoc f).
Qed.

(** The first character of a number, and what it is not. *)
Definition number_head (c : ascii) : bool := is_digit c || bool_decide (c = "-"%char).

Lemma number_head_plain c : number_head c = true ->
  is_json_space c = false /\ c <> quotation_mark /\ c <> "{"%char /\ c <> "["%char /\
  c <> "n"%char /\ c <> "t"%char /\ c <> "f"%char.
Proof. by_code_point. Qed.

Lemma match_number_head l neg i fe r :
  match_number l = Some (neg, i, fe, r) -> exists c l', l = c :: l' /\ number_head c = true.
Proof.
  intros (-> & c & i' & -> & Hc)%match_number_text. unfold number_head.
  destruct neg; simpl; [by exists "-"%char; eauto|]. exists c. rewrite Hc. eauto.
Qed.

Lemma scan_plain_number const l neg i fe r :
  match_number l = Some (neg, i, fe, r) ->
  scan_plain const l = (v ← number_value neg i fe; Ok (v, r)).
Proof.
  intros Hl. unfold scan_plain. rewrite Hl.
  destruct (match_number_head _ _ _ _ _ Hl) as (c & l' & -> & Hc).
  apply number_head_plain in Hc as (_ & _ & _ & _ & ? & ? & ?). simpl.
  by rewrite !decide_False by done.
Qed.

Lemma int_text_match z :
  match_number (int_text z) = Some (z <? 0, natural_text (Z.abs z), [], []) /\
  number_value (z <? 0) (natural_text (Z.abs z)) [] =
    (_ ← require (Z.of_nat (length (natural_text (Z.abs z))) <=? max_int_digits) ValueError
      "Exceeds the limit for integer string conversion"; Ok (JInt z)).
Proof.
  destruct (natural_text_spec (Z.abs z)) as [Hl Hv]; [lia|].
  destruct (match_number_natural _ Hl) as [Hp Hn]. unfold int_text, number_value. rewrite Hv.
  destruct (Z.ltb_spec z 0).
  - by replace (- z) with (Z.abs z) by lia; replace (- Z.abs z) with z by lia.
  - by replace (Z.abs z) with z in * by lia.
Qed.


(** * Trees that can be written *)

(** The keys of an object differ, and the floats are float literals; [allowed] lists the
    constants that may occur. *)
Fixpoint json_ok_in (allowed : list string) (j : json) : bool :=
  match j with
  | JFloat s => float_literal allowed s
  | JList l => forallb (json_ok_in allowed) l
  | JObj fs => bool_decide (NoDup (dkeys fs)) && forallb (fun f => json_ok_in allowed f.2) fs
  | _ => true
  end.

Definition printable_in (allowed : list string) (j : json) : bool :=
  json_ok_in allowed j && ints_printable j.

Lemma printable_list allowed l : printable_in allowed (JList l) = true ->
  Forall (fun j => printable_in allowed j = true) l.
Proof.
  unfold printable_in. simpl. rewrite andb_true_iff. induction l as [|v l IH]; simpl; [done|].
  rewrite !andb_true_iff. intros [[? ?] [? ?]]. constructor; [by apply andb_true_iff|].
  by apply IH.
Qed.

Lemma printable_object allowed fs : printable_in allowed (JObj fs) = true ->
  NoDup (dkeys fs) /\ Forall (fun f => printable_in allowed f.2 = true) fs.
Proof.
  unfold printable_in. simpl. rewrite !andb_true_iff, bool_decide_eq_true. intros [[? H1] H2].
  split; [done|]. clear H. revert H1 H2. induction fs as [|f fs IH]; simpl; [done|].
  rewrite !andb_true_iff. intros [? ?] [? ?]. constructor; [by apply andb_true_iff|].
  by apply IH.
Qed.

Lemma float_literal_cases allowed s :
  float_literal allowed s = true ->
  (s ∈ constants /\ s ∈ allowed) \/
  exists neg i x fe, match_number (chars s) = Some (neg, i, x :: fe, []) /\
    (length (chars s) <= 40)%nat.
Proof.
  unfold float_literal. rewrite orb_true_iff, andb_true_iff, bool_decide_eq_true.
  intros [?|[Hl Hm]]; [by left|right]. apply Nat.leb_le in Hl.
  destruct (match_number _) as [[[[neg i] [|x fe]] [|]]|]; try done. eauto 10.
Qed.

(** ** The first character written *)

Definition head_in (p : ascii -> bool) (l : list ascii) : Prop :=
  exists c l', l = c :: l' /\ p c = true.

Lemma head_in_app p l r : head_in p l -> head_in p (l ++ r).
Proof. intros (c & l' & -> & Hc). by exists c, (l' ++ r). Qed.

(** How a value may begin: not with white space or a closing bracket. *)
Definition value_head (c : ascii) : bool :=
  negb (is_json_space c) && negb (bool_decide (c = "]"%char)).

Lemma number_head_value c : number_head c = true -> value_head c = true.
Proof. by_code_point. Qed.

Lemma write_head allowed j : printable_in allowed j = true -> head_in value_head (write j).
Proof.
  intros Hj. destruct j as [|[]|z|s|s|[|v l]|[|f l]]; try by do 2 eexists.
  - destruct (int_text_match z) as [Hm _].
    apply match_number_head in Hm as (c & l & Heq & Hc). exists c, l. split; [done|].
    by apply number_head_value.
  - apply andb_true_iff in Hj as [Hj _]. simpl in Hj. apply float_literal_cases in Hj
      as [[Hs _]|(neg & i & x & fe & Hm & _)].
    + unfold constants in Hs. simpl. by set_unfold; destruct Hs as [->|[->|[->|[]]]]; do 2 eexists.
    + apply match_number_head in Hm as (c & l & Heq & Hc). simpl. rewrite Heq. exists c, l.
      split; [done|]. by apply number_head_value.
Qed.

Lemma skip_space_id l : head_in value_head l -> skip_space l = l.
Proof.
  intros (c & l' & -> & [Hc _]%andb_true_iff). apply negb_true_iff in Hc. by apply ldrop_id.
Qed.

Lemma skip_space_cons c l : is_json_space c = false -> skip_space (c :: l) = c :: l.
Proof. apply ldrop_id. Qed.

(** * Reading what was written *)

Section reading.
Context (allowed : list string)
        (object_pairs : list (string * json) -> result json)
        (parse_constant : string -> result json)
        (Hobject : forall ps, NoDup (dkeys ps) -> object_pairs ps = Ok (JObj ps))
        (Hconstant : forall s, s ∈ allowed -> parse_constant s = Ok (JFloat s)).

Notation printable := (printable_in allowed).
Notation scan_once := (scan_once object_pairs parse_constant).
Notation scan_members := (scan_members object_pairs parse_constant).
Notation scan_items := (scan_items object_pairs parse_constant).

(** The reader gives the written tree back, and leaves what follows it. *)
Definition reads_back (j : json) : Prop := forall n r,
  (2 * length (write j ++ r) < n)%nat -> delimited r -> printable j = true ->
  scan_once n (write j ++ r) = Ok (j, r).

Lemma scan_once_plain n l :
  head_in (fun c => negb (bool_decide (c ∈ [quotation_mark; "{"; "["]%char))) l ->
  scan_once (S n) l = scan_plain parse_constant l.
Proof.
  intros (c & l' & -> & Hc). simpl. apply negb_true_iff, bool_decide_eq_false in Hc.
  rewrite !decide_False; [done|..]; intros ->; apply Hc; set_solver.
Qed.

Lemma number_head_not_container l neg i fe r :
  match_number l = Some (neg, i, fe, r) ->
  head_in (fun c => negb (bool_decide (c ∈ [quotation_mark; "{"; "["]%char))) l.
Proof.
  intros (c & l' & -> & Hc)%match_number_head. exists c, l'. split; [done|].
  apply number_head_plain in Hc as (_ & ? & ? & ? & _).
  apply negb_true_iff, bool_decide_eq_false. set_solver.
Qed.

Lemma scan_number n l neg i fe r :
  match_number l = Some (neg, i, fe, []) -> delimited r ->
  scan_once (S n) (l ++ r) = (v ← number_value neg i fe; Ok (v, r)).
Proof.
  intros Hl Hr. apply (match_number_app _ _ _ _ r) in Hl; [|done].
  rewrite scan_once_plain by (by eapply number_head_not_container). by apply scan_plain_number.
Qed.

Lemma reads_back_int z : reads_back (JInt z).
Proof.
  intros [|n] r Hn Hr Hz; [simpl in Hn; lia|]. destruct (int_text_match z) as [Hm Hv].
  apply andb_true_iff in Hz as [_ Hz]. simpl in Hz.
  by rewrite (scan_number _ _ _ _ _ _ Hm Hr), Hv, Hz.
Qed.

Lemma reads_back_float s : reads_back (JFloat s).
Proof.
  intros [|n] r Hn Hr Hs; [simpl in Hn; lia|]. apply andb_true_iff in Hs as [Hs _].
  apply float_literal_cases in Hs as [[Hs Hin]|(neg & i & x & fe & Hm & _)].
  - change (write (JFloat s)) with (chars s).
    assert (scan_plain parse_constant (chars s ++ r) =
      (v ← parse_constant s; Ok (v, r)) /\
      head_in (fun c => negb (bool_decide (c ∈ [quotation_mark; "{"; "["]%char))) (chars s ++ r))
      as [Hp Hh].
    { clear -Hs. unfold constants in Hs. set_unfold.
      destruct Hs as [->|[->|[->|[]]]]; (split; [reflexivity|by do 2 eexists]). }
    by rewrite scan_once_plain, Hp, Hconstant.
  - change (write (JFloat s)) with (chars s). rewrite (scan_number _ _ _ _ _ _ Hm Hr).
    apply match_number_text in Hm as [Hm _]. rewrite app_nil_r in Hm. unfold number_value.
    by rewrite <- Hm, text_chars.
Qed.

Lemma reads_back_string s : reads_back (JStr s).
Proof.
  intros [|n] r Hn Hr _; [simpl in Hn; lia|]. simpl.
  rewrite scan_escaped. simpl. by rewrite text_chars.
Qed.

Definition member (f : string * json) : list ascii := quoted f.1 ++ ":"%char :: write f.2.

Lemma members_length (fs : list (string * json)) (r : list ascii) :
  (0 < length (flat_map (fun f => ","%char :: member f) fs ++ "}"%char :: r))%nat.
Proof. rewrite length_app. simpl. lia. Qed.

Lemma members_delimited (fs : list (string * json)) r :
  delimited (flat_map (fun f => ","%char :: member f) fs ++ "}"%char :: r).
Proof. by destruct fs. Qed.

Lemma scan_members_writes f fs n r :
  Forall (fun f => reads_back f.2 /\ printable f.2 = true) (f :: fs) ->
  (2 * length (member f ++ flat_map (fun f => ","%char :: member f) fs ++ "}"%char :: r) < n)%nat ->
  scan_members n (member f ++ flat_map (fun f => ","%char :: member f) fs ++ "}"%char :: r)
    = Ok (f :: fs, r).
Proof.
  revert f n. induction fs as [|f' fs IH]; intros [k v] [|n] Hall Hn; try (simpl in Hn; lia).
  all: apply Forall_cons in Hall as [[Hv Hpv] Hall]; simpl in Hv, Hpv.
  all: unfold member in *; simpl in *; rewrite <- app_assoc in Hn |- *; rewrite scan_escaped.
  all: pose proof (write_head _ v Hpv) as Hh; simpl; lengths.
  all: rewrite skip_space_id by (by apply head_in_app).
  - rewrite Hv by (done || lengths; lia). simpl. by rewrite text_chars.
  - rewrite Hv; [|lengths; lia|done|done]. simpl. rewrite text_chars.
    rewrite <- app_assoc. rewrite skip_space_cons by done.
    rewrite app_comm_cons, (IH f'); [done|done|]. lengths. lia.
Qed.

Lemma scan_items_writes v vs n r :
  Forall (fun v => reads_back v /\ printable v = true) (v :: vs) ->
  (1 + 2 * length (write v ++ flat_map (fun v => ","%char :: write v) vs ++ "]"%char :: r) < n)%nat ->
  scan_items n (write v ++ flat_map (fun v => ","%char :: write v) vs ++ "]"%char :: r)
    = Ok (v :: vs, r).
Proof.
  revert v n. induction vs as [|v' vs IH]; intros v [|n] Hall Hn; try (simpl in Hn; lia).
  all: apply Forall_cons in Hall as [[Hv Hpv] Hall]; simpl in *.
  - rewrite Hv; [done|lengths; lia|done|done].
  - rewrite Hv; [|lengths; lia|done|done]. simpl.
    apply Forall_cons in Hall as Hh. destruct Hh as [[_ Hh%write_head] _].
    rewrite <- app_assoc, skip_space_id by (by apply head_in_app).
    rewrite IH; [done|done|]. lengths. lia.
Qed.

Lemma Forall_reads_back {A} (g : A -> json) l :
  Forall (fun x => reads_back (g x)) l -> Forall (fun x => printable (g x) = true) l ->
  Forall (fun x => reads_back (g x) /\ printable (g x) = true) l.
Proof. rewrite !Forall_forall. naive_solver. Qed.

Lemma value_head_eat l : head_in value_head l -> eat "]"%char l = None.
Proof.
  intros (c & l' & -> & [_ Hc]%andb_true_iff). apply eat_other. intros ->. by vm_compute in Hc.
Qed.

Lemma reads_back_list l : Forall reads_back l -> reads_back (JList l).
Proof.
  intros Hl [|n] r Hn Hr Hp; [lia|]. apply printable_list in Hp.
  destruct l as [|v l]; [done|]. pose proof (Forall_reads_back id _ Hl Hp) as Hall.
  apply Forall_cons in Hp as Hh. destruct Hh as [Hh%write_head _].
  pose proof (scan_items_writes v l n r Hall) as Hm. simpl in *.
  rewrite <- !app_assoc in *. simpl. rewrite skip_space_id by (by apply head_in_app).
  rewrite value_head_eat by (by apply head_in_app). rewrite Hm; [done|]. simpl in *. lia.
Qed.

Lemma reads_back_object fs : Forall (fun f => reads_back f.2) fs -> reads_back (JObj fs).
Proof.
  intros Hl [|n] r Hn Hr Hp; [lia|]. apply printable_object in Hp as [Hk Hp].
  destruct fs as [|f fs]; [simpl; by rewrite Hobject|].
  pose proof (Forall_reads_back snd _ Hl Hp) as Hall.
  pose proof (scan_members_writes f fs n r Hall) as Hm. unfold member in Hm.
  repeat first [progress rewrite <- !app_assoc in * | progress simpl in *].
  rewrite skip_space_cons by done. rewrite Hm by lia. simpl. by rewrite Hobject.
Qed.

Lemma write_reads_back j : reads_back j.
Proof.
  induction j as [|[]| | | | |] using json_nested_ind; eauto using reads_back_int,
    reads_back_float, reads_back_string, reads_back_list, reads_back_object.
  all: by intros [|n] r Hn; [simpl in Hn; lia|].
Qed.

(** * A text that was cut *)

Lemma prefix_app_cases {A} (p a b : list A) :
  p `prefix_of` a ++ b -> (exists q, p = a ++ q /\ q `prefix_of` b) \/ (p `prefix_of` a /\ p <> a).
Proof.
  revert p. induction a as [|x a IH]; intros p; [intros H; left; by exists p|].
  destruct p as [|y p]; [intros _; right; split; [apply prefix_nil|done]|].
  intros H. pose proof (prefix_cons_inv_1 _ _ _ _ H) as ->. apply prefix_cons_inv_2 in H.
  destruct (IH p H) as [(q & -> & Hq)|[Hp Hne]]; [left; by exists q|right].
  split; [by apply prefix_cons|congruence].
Qed.

(** A proper prefix. *)
Definition cut {A} (p l : list A) : Prop := p `prefix_of` l /\ p <> l.

Lemma cut_app {A} (p a b : list A) : cut p (a ++ b) -> cut p a \/ exists q, p = a ++ q /\ cut q b.
Proof.
  intros [[(q & -> & Hq)|Hp]%prefix_app_cases Hne]; [right|by left].
  exists q. split; [done|split; [done|congruence]].
Qed.

Lemma cut_cons {A} (p : list A) x l : cut p (x :: l) -> p = [] \/ exists q, p = x :: q /\ cut q l.
Proof.
  intros [Hp Hne]. destruct p as [|y p]; [by left|right].
  pose proof (prefix_cons_inv_1 _ _ _ _ Hp) as ->. apply prefix_cons_inv_2 in Hp.
  exists p. split; [done|split; [done|congruence]].
Qed.

Lemma cut_nil {A} (p : list A) : ~ cut p [].
Proof. intros [H%prefix_nil_inv Hne]. done. Qed.

Definition syntax_error {A} (r : result A) : Prop := exists msg, r = decode_error msg.

Lemma syntax_error_bind {A B} (r : result A) (f : A -> result B) :
  syntax_error r -> syntax_error (r ≫= f).
Proof. intros [msg ->]. by exists msg. Qed.

Lemma decode_error_syntax {A} msg : syntax_error (A := A) (decode_error msg).
Proof. by exists msg. Qed.

Hint Resolve decode_error_syntax syntax_error_bind : core.

Definition is_syntax_error {A} (r : result A) : bool :=
  match r with Raise (Exn JSONDecodeError _) => true | _ => false end.

Lemma is_syntax_error_spec {A} (r : result A) : is_syntax_error r = true -> syntax_error r.
Proof. destruct r as [|[[] msg]]; try done. by exists msg. Qed.

Lemma cut_take {A} (p l : list A) : cut p l -> exists k, (k < length l)%nat /\ p = take k l.
Proof.
  intros [[q ->] Hne]. exists (length p). rewrite take_app_length, length_app. split; [|done].
  destruct q; [by rewrite app_nil_r in Hne|simpl; lia].
Qed.

Lemma cut_escape c p : cut p (escape c) -> syntax_error (scan_string p).
Proof.
  intros (k & Hk & ->)%cut_take. apply is_syntax_error_spec. revert k Hk.
  assert (forallb (fun k => is_syntax_error (scan_string (take k (escape c))))
    (seq 0 (length (escape c))) = true) as H
    by (destruct c as [[] [] [] [] [] [] [] []]; vm_compute; reflexivity).
  intros k Hk. rewrite forallb_forall in H. apply H, in_seq. lia.
Qed.

Lemma cut_escaped l p : cut p (escaped l) -> syntax_error (scan_string p).
Proof.
  revert p. induction l as [|c l IH]; simpl; intros p Hp.
  - apply cut_cons in Hp as [->|(q & _ & []%cut_nil)]. by eexists.
  - apply cut_app in Hp as [Hp|(q & -> & Hq)]; [by eapply cut_escape|].
    rewrite scan_escape. by apply syntax_error_bind, IH.
Qed.

(** What a reader makes of a value that was cut: a syntax error, or a shorter number. *)
Definition number_char (c : ascii) : bool := continues c || is_sign c.

Definition broken (r : result (json * list ascii)) : Prop :=
  syntax_error r \/ exists v rest, r = Ok (v, rest) /\ forallb number_char rest = true.

Lemma number_char_plain c : number_char c = true ->
  c ∉ [quotation_mark; "{"; "["; "n"; "t"; "f"; "N"; "I"; "}"; "]"; ","; ":"]%char /\
  is_json_space c = false.
Proof.
  intros Hc. split; [|by revert Hc; by_code_point].
  intros Hin. unfold quotation_mark in Hin. set_unfold in Hin.
  repeat destruct Hin as [->|Hin]; by vm_compute in Hc.
Qed.

(** A comma or a bracket after a value that was cut is missing. *)
Lemma number_rest rest : forallb number_char rest = true ->
  skip_space rest = rest /\ eat "}"%char rest = None /\ eat "]"%char rest = None /\
  eat ","%char rest = None.
Proof.
  destruct rest as [|c rest]; [done|]. simpl. intros [Hc _]%andb_true_iff.
  apply number_char_plain in Hc as [Hc Hs]. unfold quotation_mark in Hc. set_unfold in Hc.
  rewrite !decide_False by naive_solver. split_and!; try done. by apply skip_space_cons.
Qed.

Lemma number_head_char c : number_head c = true -> number_char c = true.
Proof. by_code_point. Qed.

Lemma scan_cut_number n p :
  forallb number_char p = true -> Z.of_nat (length p) <= max_int_digits ->
  broken (scan_once (S n) p).
Proof.
  intros Hp Hlen. destruct p as [|c p]; [by left; eexists|].
  pose proof Hp as Hc. simpl in Hc. apply andb_true_iff in Hc as [Hc Hp'].
  apply number_char_plain in Hc as [Hc _]. unfold quotation_mark in Hc. set_unfold in Hc.
  rewrite scan_once_plain by (exists c, p; split; [done|]; apply negb_true_iff,
    bool_decide_eq_false; unfold quotation_mark; set_solver).
  unfold scan_plain. assert (match_literal literals (c :: p) = None) as ->
    by (simpl; by rewrite !decide_False by naive_solver).
  destruct (match_number (c :: p)) as [[[[neg i] fe] r]|] eqn:Hm.
  - apply match_number_text in Hm as [Heq _].
    assert (forallb number_char r = true) as Hr
      by (rewrite Heq, !forallb_app, !andb_true_iff in Hp; tauto).
    assert (length i <= length (c :: p))%nat by (rewrite Heq, !length_app; lia).
    right. unfold number_value. destruct fe; [|by eauto].
    assert (Z.of_nat (length i) <=? max_int_digits = true) as -> by (apply Z.leb_le; lia).
    simpl. eauto.
  - left. assert (match_constant constants (c :: p) = None) as ->; [|done]. simpl.
    rewrite (decide_False (P := c = "N"%char)), (decide_False (P := c = "I"%char)) by naive_solver.
    simpl. case_decide; [|done]. simpl. destruct p as [|d p]; [done|]. simpl in *.
    apply andb_true_iff in Hp' as [Hd _]. apply number_char_plain in Hd as [Hd _].
    unfold quotation_mark in Hd. set_unfold in Hd. by rewrite decide_False by naive_solver.
Qed.
(** ** Cut values *)

Definition breaks_when_cut (j : json) : Prop := forall n p,
  cut p (write j) -> printable j = true -> (2 * length p < n)%nat -> broken (scan_once n p).

Lemma forallb_cut (f : ascii -> bool) p l : forallb f l = true -> cut p l -> forallb f p = true.
Proof. intros Hl [[q ->] _]. rewrite forallb_app in Hl. by apply andb_true_iff in Hl as [? _]. Qed.

Lemma cut_length {A} (p l : list A) : cut p l -> (length p < length l)%nat.
Proof. intros (k & Hk & ->)%cut_take. rewrite length_take. lia. Qed.

Lemma digits_number_chars l : digits l -> forallb number_char l = true.
Proof.
  unfold digits. rewrite !forallb_forall. intros Hl c Hc. apply Hl in Hc.
  apply number_head_char. unfold number_head. by rewrite Hc.
Qed.

Lemma int_text_chars z : forallb number_char (int_text z) = true /\
  (length (int_text z) <= S (length (natural_text (Z.abs z))))%nat.
Proof.
  destruct (natural_text_spec (Z.abs z)) as [[Hd%digits_number_chars _] _]; [lia|].
  unfold int_text. destruct (Z.ltb_spec z 0).
  - replace (- z) with (Z.abs z) by lia. simpl. by rewrite Hd.
  - replace (Z.abs z) with z in * by lia. split; [done|lia].
Qed.

Lemma take_digits_chars mark l ds r :
  take_digits mark l = Some (ds, r) -> forallb number_char mark = true ->
  forallb number_char ds = true.
Proof.
  intros (d & Hd%digits_number_chars & _ & -> & _)%take_digits_text Hm.
  by rewrite forallb_app, Hm, Hd.
Qed.

Lemma match_number_chars l neg i fe :
  match_number l = Some (neg, i, fe, []) -> forallb number_char l = true.
Proof.
  intros Hl. pose proof (match_number_text _ _ _ _ _ Hl) as [Heq _].
  assert (forallb number_char i = true /\ forallb number_char fe = true) as [Hi Hfe].
  { unfold match_number in Hl. destruct (match eat "-"%char l with Some _ => _ | None => _ end)
      as [neg' l1].
    destruct (take_integer l1) as [[i' l2]|] eqn:Hi; simpl in Hl; [|done].
    destruct (take_fraction l2) as [f l3] eqn:Hf. destruct (take_exponent l3) as [e l4] eqn:He.
    simplify_eq. rewrite forallb_app, andb_true_iff. split_and!.
    - unfold take_integer in Hi. destruct (eat _ l1); simplify_eq; [done|].
      by eapply take_digits_chars.
    - unfold take_fraction in Hf. destruct (eat _ l2) as [l5|]; simpl in Hf; [|by simplify_eq].
      destruct (take_digits _ l5) as [[ds r]|] eqn:Hd; simpl in Hf; simplify_eq; [|done].
      by eapply take_digits_chars.
    - destruct l3 as [|x l3]; simpl in He; [by simplify_eq|].
      destruct (is_exp_mark x) eqn:Hx; [|by simplify_eq].
      assert (number_char x = true) as Hx' by (unfold number_char, continues; by rewrite Hx, !orb_true_r).
      destruct l3 as [|s l3]; simpl in He; [by simplify_eq|]. destruct (is_sign s) eqn:Hs.
      all: destruct (take_digits _ _) as [[ds r]|] eqn:Hd; simpl in He; simplify_eq.
      all: eapply take_digits_chars; [done|]; simpl; rewrite Hx'; try done.
      unfold number_char. by rewrite Hs, orb_true_r. }
  rewrite Heq, !forallb_app, Hi, Hfe. by destruct neg.
Qed.

Lemma breaks_int z : breaks_when_cut (JInt z).
Proof.
  intros [|n] p Hp Hz Hn; [lia|]. destruct (int_text_chars z) as [Hc Hl].
  apply andb_true_iff in Hz as [_ Hz]. simpl in Hz. apply Z.leb_le in Hz.
  pose proof (cut_length _ _ Hp). simpl in *. apply scan_cut_number; [by eapply forallb_cut|lia].
Qed.

Lemma breaks_float s : breaks_when_cut (JFloat s).
Proof.
  intros [|n] p Hp Hs Hn; [lia|]. apply andb_true_iff in Hs as [Hs _]. simpl in Hp.
  apply float_literal_cases in Hs as [[Hs _]|(neg & i & x & fe & Hm & Hl)].
  - apply cut_take in Hp as (k & Hk & ->). left. apply is_syntax_error_spec. revert k Hk Hn.
    clear -Hs. unfold constants in Hs. set_unfold in Hs.
    destruct Hs as [->|[->|[->|[]]]]; intros k Hk _; simpl in Hk;
      do 10 (destruct k as [|k]; [vm_compute; reflexivity|try lia]).
  - pose proof (cut_length _ _ Hp). apply match_number_chars in Hm.
    apply scan_cut_number; [by eapply forallb_cut|]. unfold max_int_digits. lia.
Qed.

Lemma breaks_word n l p : l ∈ [chars "null"; chars "true"; chars "false"] -> cut p l ->
  syntax_error (scan_once (S n) p).
Proof.
  intros Hl (k & Hk & ->)%cut_take. apply is_syntax_error_spec. set_unfold in Hl.
  destruct Hl as [->|[->|[->|[]]]]; simpl in Hk;
    do 6 (destruct k as [|k]; [vm_compute; reflexivity|try lia]).
Qed.

Lemma breaks_string s : breaks_when_cut (JStr s).
Proof.
  intros [|n] p Hp _ Hn; [lia|]. left. simpl in Hp.
  apply cut_cons in Hp as [->|(q & -> & Hq%cut_escaped)]; simpl; auto.
Qed.

(** After a value that was cut nothing of the container follows. *)
Lemma broken_bind {B} (r : result (json * list ascii)) (f : json * list ascii -> result B) :
  broken r ->
  (forall v rest, forallb number_char rest = true -> syntax_error (f (v, rest))) ->
  syntax_error (r ≫= f).
Proof. intros [Hr|(v & rest & -> & Hr)] Hf; [auto|]. by apply Hf. Qed.

Lemma cut_head p l : cut p l -> head_in value_head l -> p = [] \/ head_in value_head p.
Proof.
  intros Hp (c & l' & -> & Hc). apply cut_cons in Hp as [->|(q & -> & _)]; [by left|right].
  by exists c, q.
Qed.

Lemma cut_skip p l : cut p l -> head_in value_head l -> skip_space p = p /\ eat "]"%char p = None.
Proof.
  intros Hp Hl. destruct (cut_head _ _ Hp Hl) as [->|Hh]; [done|].
  split; [by apply skip_space_id|by apply value_head_eat].
Qed.

Lemma scan_items_cut v vs n p :
  Forall breaks_when_cut (v :: vs) -> Forall (fun v => printable v = true) (v :: vs) ->
  (1 + 2 * length p < n)%nat ->
  cut p (write v ++ flat_map (fun v => ","%char :: write v) vs ++ ["]"%char]) ->
  syntax_error (scan_items n p).
Proof.
  revert v n p. induction vs as [|v' vs IH]; intros v [|n] p Hb Hpr Hn Hp; try lia.
  all: apply Forall_cons in Hb as [Hb Hbs]; apply Forall_cons in Hpr as [Hv Hvs]; simpl in *.
  all: apply cut_app in Hp as [Hp|(q & -> & Hq)]; [apply broken_bind; [apply Hb; (done || lia)|];
    intros w rest (-> & _ & -> & ->)%number_rest; auto|].
  - apply cut_cons in Hq as [->|(? & _ & []%cut_nil)].
    rewrite write_reads_back; [simpl; auto|lia|done|done].
  - apply cut_cons in Hq as [->|(q' & -> & Hq)].
    { rewrite write_reads_back; [simpl; auto|lia|done|done]. }
    rewrite write_reads_back; [|lia|done|done]. simpl. apply Forall_cons in Hvs as Hh.
    destruct Hh as [Hh%write_head _]. rewrite <- app_assoc in Hq.
    destruct (cut_skip _ _ Hq) as [-> _]; [by apply head_in_app|].
    apply syntax_error_bind. rewrite length_app in Hn. simpl in Hn. eapply IH; [done..|lia|done].
Qed.

Lemma scan_members_cut f fs n p :
  Forall (fun f => breaks_when_cut f.2) (f :: fs) ->
  Forall (fun f => printable f.2 = true) (f :: fs) -> (2 * length p < n)%nat ->
  cut p (member f ++ flat_map (fun f => ","%char :: member f) fs ++ ["}"%char]) ->
  syntax_error (scan_members n p).
Proof.
  revert f n p. induction fs as [|f' fs IH]; intros [k v] [|n] p Hb Hpr Hn Hp; try lia.
  all: apply Forall_cons in Hb as [Hb Hbs]; apply Forall_cons in Hpr as [Hv Hvs].
  all: unfold member in Hp; simpl in Hp, Hb, Hv; rewrite <- app_assoc in Hp.
  all: apply cut_cons in Hp as [->|(q & -> & Hp)]; [simpl; auto|].
  all: apply cut_app in Hp as [Hp%cut_escaped|(p1 & -> & Hp)]; [simpl; auto|].
  all: simpl; rewrite scan_escaped; simpl.
  all: apply cut_cons in Hp as [->|(p & -> & Hp)]; [simpl; auto|]; lengths.
  all: simpl; destruct (cut_skip _ _ Hp) as [-> _]; [by eapply head_in_app, write_head|].
  all: apply cut_app in Hp as [Hp|(q & -> & Hq)]; [apply broken_bind; [apply Hb; (done || lia)|];
    intros w rest (-> & -> & _ & ->)%number_rest; auto|].
  - apply cut_cons in Hq as [->|(? & _ & []%cut_nil)].
    rewrite write_reads_back; [simpl; auto|lia|done|done].
  - apply cut_cons in Hq as [->|(q' & -> & Hq)].
    { rewrite write_reads_back; [simpl; auto|lia|done|done]. }
    rewrite write_reads_back; [|lia|done|done]. simpl. lengths.
    rewrite <- app_assoc in Hq.
    change (cut q' (member f' ++ flat_map (fun f => ","%char :: member f) fs ++ ["}"%char])) in Hq.
    destruct (cut_skip _ _ Hq) as [-> _]; [by do 2 eexists|].
    apply syntax_error_bind. eapply IH; [done..|lia|done].
Qed.

Lemma breaks_list l : Forall breaks_when_cut l -> breaks_when_cut (JList l).
Proof.
  intros Hl [|n] p Hp Hpr Hn; [lia|]. apply printable_list in Hpr. left.
  destruct l as [|v l].
  { apply cut_cons in Hp as [->|(q & -> & Hp)]; [simpl; auto|].
    apply cut_cons in Hp as [->|(? & _ & []%cut_nil)]. simpl.
    destruct n as [|[|n]]; [simpl in Hn; lia..|]. by eexists. }
  simpl in Hp. apply cut_cons in Hp as [->|(q & -> & Hq)]; [simpl; auto|].
  simpl. apply Forall_cons in Hpr as Hh. destruct Hh as [Hh%write_head _].
  destruct (cut_skip _ _ Hq) as [-> ->]; [by apply head_in_app|].
  apply syntax_error_bind. simpl in Hn. eapply scan_items_cut; [done..|lia|done].
Qed.

Lemma scan_object_cut fs n p : Forall (fun f => breaks_when_cut f.2) fs ->
  cut p (write (JObj fs)) -> printable (JObj fs) = true -> (2 * length p < n)%nat ->
  syntax_error (scan_once n p).
Proof.
  intros Hl Hp Hpr Hn. destruct n as [|n]; [lia|]. apply printable_object in Hpr as [_ Hpr].
  destruct fs as [|f fs].
  { apply cut_cons in Hp as [->|(q & -> & Hp)]; [simpl; auto|].
    apply cut_cons in Hp as [->|(? & _ & []%cut_nil)]. simpl.
    destruct n; [simpl in Hn; lia|]. by eexists. }
  change (cut p ("{"%char :: member f ++ flat_map (fun f => ","%char :: member f) fs ++ ["}"%char]))
    in Hp.
  apply cut_cons in Hp as [->|(q & -> & Hq)]; [simpl; auto|]. simpl.
  destruct (cut_skip _ _ Hq) as [-> _]; [by do 2 eexists|].
  assert (eat "}"%char q = None) as ->.
  { apply cut_cons in Hq as [->|(? & -> & _)]; done. }
  apply syntax_error_bind. simpl in Hn. eapply scan_members_cut; [done..|lia|done].
Qed.

Lemma breaks_object fs : Forall (fun f => breaks_when_cut f.2) fs -> breaks_when_cut (JObj fs).
Proof. intros Hl n p Hp Hpr Hn. left. by eapply scan_object_cut. Qed.

Lemma write_breaks_when_cut j : breaks_when_cut j.
Proof.
  induction j as [|b| | | | |] using json_nested_ind; eauto using breaks_int,
    breaks_float, breaks_string, breaks_list, breaks_object.
  all: intros [|n] p Hp _ Hn; [lia|]; left; eapply breaks_word; [|exact Hp].
  - set_solver.
  - destruct b; simpl; set_solver.
Qed.
(** ** Whole texts *)

Lemma loads_with_write j : printable j = true ->
  loads_with object_pairs parse_constant (text (write j)) = Ok j.
Proof.
  intros Hj. unfold loads_with. rewrite chars_text, skip_space_id by by eapply write_head.
  pose proof (write_reads_back j (S (2 * length (write j))) []) as Hr.
  rewrite app_nil_r in Hr. rewrite Hr; [done|lia|done|done].
Qed.

Lemma loads_with_cut fs p : printable (JObj fs) = true -> cut p (write (JObj fs)) ->
  syntax_error (loads_with object_pairs parse_constant (text p)).
Proof.
  intros Hj Hp. unfold loads_with. rewrite chars_text.
  destruct (cut_skip _ _ Hp) as [-> _]; [by eapply write_head|].
  apply syntax_error_bind. eapply scan_object_cut; [|exact Hp|exact Hj|lia].
  apply Forall_forall. intros f _. apply write_breaks_when_cut.
Qed.
End reading.

Notation json_ok := (json_ok_in constants).
Notation printable := (printable_in constants).

(** * [sort_keys] and the default hooks *)

Lemma dict_of_NoDup {V} (ps : list (string * V)) : NoDup (dkeys ps) -> dict_of ps = ps.
Proof.
  assert (forall (d : dict V), NoDup (dkeys (d ++ ps)) ->
    foldl (fun d p => dset p.1 p.2 d) d ps = d ++ ps) as Hgen; [|intros Hps; by apply (Hgen [])].
  induction ps as [|[k v] ps IH]; intros d Hd; [by rewrite app_nil_r|]. simpl.
  assert (k ∉ dkeys d) as Hk.
  { unfold dkeys in Hd. rewrite map_app in Hd. apply NoDup_app in Hd as (_ & Hd & _).
    intros Hin. apply (Hd k Hin). simpl. left. }
  assert (dset k v d = d ++ [(k, v)]) as ->.
  { clear -Hk. induction d as [|[k' v'] d IH]; [done|]. simpl in *.
    apply not_elem_of_cons in Hk as [? ?]. rewrite decide_False by done. by rewrite IH. }
  rewrite IH; rewrite <- app_assoc; done.
Qed.

Lemma default_object_NoDup ps : NoDup (dkeys ps) -> default_object ps = Ok (JObj ps).
Proof. intros Hps. unfold default_object. by rewrite dict_of_NoDup. Qed.

Lemma dkeys_sorted (g : string * json -> json) fs :
  dkeys (sort_by fst (map (fun f => (f.1, g f)) fs)) ≡ₚ dkeys fs.
Proof.
  unfold dkeys. rewrite (sort_by_perm fst). rewrite map_map. by rewrite (map_ext _ fst).
Qed.

Lemma forallb_perm {A} (f : A -> bool) l l' : l ≡ₚ l' -> forallb f l = forallb f l'.
Proof.
  induction 1; simpl; [done|congruence| |congruence]. by destruct (f x), (f y).
Qed.

Lemma forallb_map {A B} (g : A -> B) (f : B -> bool) l :
  forallb f (map g l) = forallb (fun x => f (g x)) l.
Proof. induction l as [|x l IH]; simpl; [done|]. by rewrite IH. Qed.

Lemma printable_sort j : printable j = true -> printable (sort_json j) = true.
Proof.
  induction j as [| | | | |l IH|fs IH] using json_nested_ind; try done.
  - intros Hp%printable_list. unfold printable_in. simpl. rewrite !forallb_map.
    apply andb_true_iff. rewrite !forallb_forall. rewrite Forall_forall in *.
    split; intros v Hv%list_elem_of_In; specialize (IH v Hv (Hp v Hv));
      by apply andb_true_iff in IH as [? ?].
  - intros [Hk Hp]%printable_object. unfold printable_in. simpl.
    rewrite !(forallb_perm _ _ _ (sort_by_perm fst _)), !forallb_map, !andb_true_iff.
    rewrite bool_decide_eq_true, (dkeys_sorted (fun f => sort_json f.2)).
    rewrite !forallb_forall. rewrite Forall_forall in *.
    split_and!; [done|..]; intros f Hf%list_elem_of_In; specialize (IH f Hf (Hp f Hf));
      by apply andb_true_iff in IH as [? ?].
Qed.

Lemma dumps_Ok j t : dumps j = Ok t -> json_ok j = true ->
  t = text (write (sort_json j)) /\ printable (sort_json j) = true.
Proof.
  unfold dumps. intros H Hj. ok_all. split; [done|]. apply printable_sort.
  unfold printable_in. by rewrite Hj.
Qed.

(** [loads] reads what [dumps] wrote, with the keys in the order they were written. *)
Lemma loads_dumps j t : dumps j = Ok t -> json_ok j = true -> loads t = Ok (sort_json j).
Proof.
  intros Hd Hj. destruct (dumps_Ok _ _ Hd Hj) as [-> Hp].
  by apply (loads_with_write constants); [apply default_object_NoDup| |].
Qed.

(** A written object that was cut is not JSON. *)
Lemma loads_cut fs t p : dumps (JObj fs) = Ok t -> json_ok (JObj fs) = true ->
  cut p (chars t) -> syntax_error (loads (text p)).
Proof.
  intros Hd Hj Hp. destruct (dumps_Ok _ _ Hd Hj) as [-> Hpr]. rewrite chars_text in Hp.
  by eapply (loads_with_cut constants); [apply default_object_NoDup| | |].
Qed.

(** Sorting the keys does not change the value, for Python's [==]. *)
Lemma py_eqb_deep_fields x y :
  length x = length y ->
  Forall (fun f => exists w, dget f.1 y = Some w /\ py_eqb_deep f.2 w = true) x ->
  py_eqb_deep (JObj x) (JObj y) = true.
Proof.
  intros Hlen Hx. simpl. rewrite Hlen, Nat.eqb_refl. simpl. clear Hlen.
  induction Hx as [|[k v] x (w & Hw & Hv) _ IH]; [done|]. simpl in *. by rewrite Hw, Hv.
Qed.

Lemma py_eqb_deep_sort j : json_ok j = true -> py_eqb_deep (sort_json j) j = true.
Proof.
  induction j as [|b|z|s|s|l IH|fs IH] using json_nested_ind; simpl; intros Hj; try done.
  - by destruct b.
  - by rewrite Z.eqb_refl.
  - by rewrite bool_decide_true.
  - by rewrite bool_decide_true.
  - induction IH as [|v l Hv _ IH]; simpl in *; [done|].
    apply andb_true_iff in Hj as [? ?]. rewrite Hv by done. by apply IH.
  - apply andb_true_iff in Hj as [Hk Hj]. apply bool_decide_eq_true in Hk.
    apply py_eqb_deep_fields.
    + pose proof (sort_by_perm fst (map (fun f => (f.1, sort_json f.2)) fs)) as Hp.
      apply Permutation_length in Hp. by rewrite Hp, length_map.
    + apply Forall_forall. intros f Hf. rewrite (sort_by_perm fst) in Hf.
      apply list_elem_of_fmap in Hf as ([k v] & -> & Hin). simpl. exists v.
      split; [by apply elem_dget|]. rewrite Forall_forall in IH. apply (IH _ Hin).
      rewrite forallb_forall in Hj. by apply (Hj (k, v)), list_elem_of_In.
Qed.

(** * The fuel of the reader is enough *)

Section fuel.
Context (object_pairs : list (string * json) -> result json)
        (parse_constant : string -> result json).

Notation scan_plain := (scan_plain parse_constant).
Notation scan_once := (scan_once object_pairs parse_constant).
Notation scan_members := (scan_members object_pairs parse_constant).
Notation scan_items := (scan_items object_pairs parse_constant).

Lemma eat_shorter c l r : eat c l = Some r -> (length r < length l)%nat.
Proof. intros ->%eat_Some. simpl. lia. Qed.

Lemma eat_word_shorter w l r : eat_word w l = Some r -> (length r <= length l)%nat.
Proof.
  revert l. induction w as [|c w IH]; simpl; intros l H; [by simplify_eq|].
  destruct (eat c l) as [l'|] eqn:He; simpl in H; [|done]. apply eat_shorter in He.
  apply IH in H. lia.
Qed.

Lemma skip_space_shorter l : (length (skip_space l) <= length l)%nat.
Proof.
  unfold skip_space. induction l as [|c l IH]; simpl; [done|]. destruct (is_json_space c); simpl; lia.
Qed.

Lemma scan_string_shorter l s r : scan_string l = Ok (s, r) -> (length r < length l)%nat.
Proof.
  revert s r. induction l as [l IH] using (induction_ltof1 _ (@length ascii)); unfold ltof in IH.
  intros s r H. destruct l as [|c l]; [done|]. simpl in H.
  assert (forall l' x, (length l' < length (c :: l))%nat ->
    ('(s, r) ← scan_string l'; Ok (x :: s, r)) = Ok (s, r) -> (length r < length (c :: l))%nat) as Hrec.
  { intros l' x Hl' Hb. destruct (scan_string l') as [[s' r']|] eqn:Hs; simpl in Hb; [|done].
    apply IH in Hs; [|done]. simplify_eq. lia. }
  repeat case_decide; simplify_eq/=; try lia; try (by eapply Hrec, H; simpl; lia).
  all: repeat (case_match; simplify_eq/=); try (by eapply Hrec, H; simpl; lia).
Qed.

Lemma match_literal_shorter ws l v r : Forall (fun w => w.1 <> EmptyString) ws ->
  match_literal ws l = Some (v, r) -> (length r < length l)%nat.
Proof.
  induction 1 as [|[w v'] ws Hw _ IH]; [done|]. simpl in *.
  destruct (eat_word (chars w) l) as [l'|] eqn:He; [|done]. intros [= <- <-].
  destruct w as [|c w]; [done|]. simpl in He. destruct (eat c l) as [l1|] eqn:H1; [|done].
  apply eat_shorter in H1. simpl in He. apply eat_word_shorter in He. lia.
Qed.

Lemma match_constant_shorter ns l n r : Forall (fun w => w <> EmptyString) ns ->
  match_constant ns l = Some (n, r) -> (length r < length l)%nat.
Proof.
  induction 1 as [|w ns Hw _ IH]; [done|]. simpl in *.
  destruct (eat_word (chars w) l) as [l'|] eqn:He; [|done]. intros [= <- <-].
  destruct w as [|c w]; [done|]. simpl in He. destruct (eat c l) as [l1|] eqn:H1; [|done].
  apply eat_shorter in H1. simpl in He. apply eat_word_shorter in He. lia.
Qed.

Lemma scan_plain_shorter l v r : scan_plain l = Ok (v, r) -> (length r < length l)%nat.
Proof.
  unfold scan_plain. destruct (match_literal literals l) as [[v' r']|] eqn:Hl.
  { intros [= <- <-]. eapply match_literal_shorter; [|done]. by repeat constructor. }
  destruct (match_number l) as [[[[neg i] fe] r']|] eqn:Hm.
  - intros (? & _ & [= _ <-])%result_bind_Ok. apply match_number_text in Hm as (-> & c & i' & -> & _).
    lengths. lia.
  - destruct (match_constant constants l) as [[n r']|] eqn:Hc; [|done].
    intros (? & _ & [= _ <-])%result_bind_Ok. eapply match_constant_shorter; [|done].
    by repeat constructor.
Qed.

Lemma scan_shorter n :
  (forall l v r, scan_once n l = Ok (v, r) -> (length r < length l)%nat) /\
  (forall l v r, scan_members n l = Ok (v, r) -> (length r < length l)%nat) /\
  (forall l v r, scan_items n l = Ok (v, r) -> (length r < length l)%nat).
Proof.
  induction n as [|n (IHo & IHm & IHi)]; [done|].
  split_and!; intros l v r H.
  - destruct l as [|c l]; [done|]. simpl in H. pose proof (skip_space_shorter l) as Hl.
    repeat case_decide.
    + apply result_bind_Ok in H as ([s r'] & Hs%scan_string_shorter & [= _ <-]). simpl. lia.
    + destruct (eat _ _) as [r'|] eqn:He; [apply eat_shorter in He|].
      * apply result_bind_Ok in H as (? & _ & [= _ <-]). simpl. lia.
      * apply result_bind_Ok in H as ([ps r'] & Hm%IHm & H).
        apply result_bind_Ok in H as (? & _ & [= _ <-]). simpl. lia.
    + destruct (eat _ _) as [r'|] eqn:He; [apply eat_shorter in He|].
      * simplify_eq. simpl. lia.
      * apply result_bind_Ok in H as ([ps r'] & Hm%IHi & [= _ <-]). simpl. lia.
    + by apply scan_plain_shorter in H.
  - simpl in H. destruct (eat quotation_mark l) as [l1|] eqn:He; [apply eat_shorter in He|done].
    apply result_bind_Ok in H as ([s l2] & Hs%scan_string_shorter & H).
    destruct (eat ":"%char _) as [l3|] eqn:He3; [apply eat_shorter in He3|done].
    apply result_bind_Ok in H as ([w l4] & Hw%IHo & H).
    pose proof (skip_space_shorter l2). pose proof (skip_space_shorter l3).
    pose proof (skip_space_shorter l4).
    destruct (eat "}"%char _) as [l5|] eqn:He5; [apply eat_shorter in He5; simplify_eq; lia|].
    destruct (eat ","%char _) as [l6|] eqn:He6; [apply eat_shorter in He6|done].
    apply result_bind_Ok in H as ([ps r'] & Hm%IHm & [= _ <-]).
    pose proof (skip_space_shorter l6). lia.
  - simpl in H. apply result_bind_Ok in H as ([w l4] & Hw%IHo & H).
    pose proof (skip_space_shorter l4).
    destruct (eat "]"%char _) as [l5|] eqn:He5; [apply eat_shorter in He5; simplify_eq; lia|].
    destruct (eat ","%char _) as [l6|] eqn:He6; [apply eat_shorter in He6|done].
    apply result_bind_Ok in H as ([ps r'] & Hm%IHi & [= _ <-]).
    pose proof (skip_space_shorter l6). lia.
Qed.

(** More fuel than the text is long gives the same result. *)
Lemma scan_more_fuel n :
  (forall l m, (2 * length l < n)%nat -> (n <= m)%nat -> scan_once m l = scan_once n l) /\
  (forall l m, (2 * length l < n)%nat -> (n <= m)%nat -> scan_members m l = scan_members n l) /\
  (forall l m, (1 + 2 * length l < n)%nat -> (n <= m)%nat -> scan_items m l = scan_items n l).
Proof.
  induction n as [|n (IHo & IHm & IHi)]; [split_and!; intros; lia|].
  split_and!; intros l [|m] Hl Hm; try lia; simpl.
  - destruct l as [|c l]; [done|]. simpl in Hl. pose proof (skip_space_shorter l).
    rewrite (IHm (skip_space l)), (IHi (skip_space l)) by lia. done.
  - destruct (eat quotation_mark l) as [l1|] eqn:He; [apply eat_shorter in He|done].
    destruct (scan_string l1) as [[s l2]|] eqn:Hs; [apply scan_string_shorter in Hs|done]. simpl.
    destruct (eat ":"%char _) as [l3|] eqn:He3; [apply eat_shorter in He3|done].
    pose proof (skip_space_shorter l2). pose proof (skip_space_shorter l3).
    rewrite (IHo (skip_space l3)) by lia.
    destruct (scan_once n (skip_space l3)) as [[w l4]|] eqn:Hw; [|done]. simpl.
    apply (proj1 (scan_shorter n)) in Hw. pose proof (skip_space_shorter l4).
    destruct (eat "}"%char _); [done|].
    destruct (eat ","%char _) as [l6|] eqn:He6; [apply eat_shorter in He6|done].
    pose proof (skip_space_shorter l6). by rewrite (IHm (skip_space l6)) by lia.
  - rewrite (IHo l) by lia. destruct (scan_once n l) as [[w l4]|] eqn:Hw; [|done]. simpl.
    apply (proj1 (scan_shorter n)) in Hw. pose proof (skip_space_shorter l4).
    destruct (eat "]"%char _); [done|].
    destruct (eat ","%char _) as [l6|] eqn:He6; [apply eat_shorter in He6|done].
    pose proof (skip_space_shorter l6). by rewrite (IHi (skip_space l6)) by lia.
Qed.
End fuel.

(** * What the reader raises *)

(** A syntax error, an integer with too many digits, or an escape outside the model; in
    particular the reader never runs out of fuel. *)
Definition load_error (e : exn) : Prop :=
  exn_cls e = JSONDecodeError \/ exn_cls e = ValueError \/ e = outside_model.

Lemma scan_string_raises l : raises load_error (scan_string l).
Proof.
  induction l as [l IH] using (induction_ltof1 _ (@length ascii)); unfold ltof in IH.
  destruct l as [|c l]; [by left|]. simpl.
  repeat first [case_decide | case_match; simplify_eq/=].
  all: try done; try (by left); try (by right; right).
  all: try (apply raises_bind; [apply IH; simpl; lia|by intros [] ?]).
Qed.

Lemma number_value_raises neg i fe : raises load_error (number_value neg i fe).
Proof.
  unfold number_value. destruct fe; [|done].
  apply raises_bind; [|done]. apply raises_require. right. by left.
Qed.

Section load_errors.
Context (P : exn -> Prop) (HP : forall e, load_error e -> P e)
        (object_pairs : list (string * json) -> result json)
        (parse_constant : string -> result json)
        (Hobject : forall ps, raises P (object_pairs ps))
        (Hconstant : forall s, raises P (parse_constant s)).

Lemma decode_error_raises {A} msg : raises (A := A) P (decode_error msg).
Proof. apply HP. by left. Qed.

Lemma scan_plain_raises l : raises P (scan_plain parse_constant l).
Proof.
  unfold scan_plain. raises; try apply decode_error_raises; try apply Hconstant.
  eapply raises_weaken; [apply number_value_raises|done].
Qed.

Hint Resolve decode_error_raises scan_plain_raises Hobject Hconstant : raises.

Lemma scan_raises n :
  (forall l, (2 * length l < n)%nat -> raises P (scan_once object_pairs parse_constant n l)) /\
  (forall l, (2 * length l < n)%nat -> raises P (scan_members object_pairs parse_constant n l)) /\
  (forall l, (1 + 2 * length l < n)%nat -> raises P (scan_items object_pairs parse_constant n l)).
Proof.
  assert (forall l, raises P (scan_string l)) as Hstr.
  { intros l. eapply raises_weaken; [apply scan_string_raises|done]. }
  induction n as [|n (IHo & IHm & IHi)]; [split_and!; intros; lia|].
  split_and!; intros l Hl; simpl.
  - destruct l as [|c l]; [auto with raises|]. pose proof (skip_space_shorter l). simpl in Hl.
    raises; [apply IHm; lia|apply IHi; lia].
  - destruct (eat quotation_mark l) as [l1|] eqn:He; [apply eat_shorter in He|auto with raises].
    apply raises_bind; [done|]. intros [s l2] Hs%scan_string_shorter.
    destruct (eat ":"%char _) as [l3|] eqn:He3; [apply eat_shorter in He3|auto with raises].
    pose proof (skip_space_shorter l2). pose proof (skip_space_shorter l3).
    apply raises_bind; [apply IHo; lia|]. intros [w l4] Hw%(proj1 (scan_shorter _ _ n)).
    pose proof (skip_space_shorter l4). destruct (eat "}"%char _); [done|].
    destruct (eat ","%char _) as [l6|] eqn:He6; [apply eat_shorter in He6|auto with raises].
    pose proof (skip_space_shorter l6). apply raises_bind; [apply IHm; lia|by intros [] ?].
  - apply raises_bind; [apply IHo; lia|]. intros [w l4] Hw%(proj1 (scan_shorter _ _ n)).
    pose proof (skip_space_shorter l4). destruct (eat "]"%char _); [done|].
    destruct (eat ","%char _) as [l6|] eqn:He6; [apply eat_shorter in He6|auto with raises].
    pose proof (skip_space_shorter l6). apply raises_bind; [apply IHi; lia|by intros [] ?].
Qed.

Lemma loads_with_raises s : raises P (loads_with object_pairs parse_constant s).
Proof.
  unfold loads_with. apply raises_bind; [apply scan_raises; lia|]. intros [v r] _.
  destruct (skip_space r); [done|auto with raises].
Qed.
End load_errors.

Lemma loads_raises s : raises load_error (loads s).
Proof. by apply loads_with_raises. Qed.

(** * Sorting twice *)

Lemma sort_by_id {A} (key : A -> string) l : Sorted (key_le key) l -> sort_by key l = l.
Proof.
  induction 1 as [|x l _ IH Hx]; [done|]. simpl. rewrite IH.
  destruct l as [|y l]; [done|]. simpl. inversion Hx as [|? ? Hle]; subst.
  unfold key_le in Hle. by rewrite Hle.
Qed.

Lemma sort_json_idempotent j : sort_json (sort_json j) = sort_json j.
Proof.
  induction j as [| | | | |l IH|fs IH] using json_nested_ind; try done; simpl; f_equal.
  - rewrite map_map. induction IH as [|v l Hv _ IH]; simpl; [done|]. by rewrite Hv, IH.
  - set (g := fun f : string * json => (f.1, sort_json f.2)).
    assert (map g (sort_by fst (map g fs)) = sort_by fst (map g fs)) as ->.
    { rewrite <- (map_id (sort_by fst (map g fs))) at 2. apply map_ext_in. intros f Hf.
      apply list_elem_of_In in Hf. rewrite (sort_by_perm fst) in Hf.
      apply list_elem_of_fmap in Hf as ([k v] & -> & Hin). unfold g. simpl. f_equal.
      rewrite Forall_forall in IH. apply (IH _ Hin). }
    apply sort_by_id, sort_by_sorted.
Qed.

(** * The characters that are written *)

(** Every text of the tree, the keys included, satisfies [p]. *)
Fixpoint all_chars (p : ascii -> bool) (j : json) : bool :=
  match j with
  | JFloat s | JStr s => forallb p (chars s)
  | JList l => forallb (all_chars p) l
  | JObj fs => forallb (fun f => forallb p (chars f.1) && all_chars p f.2) fs
  | _ => true
  end.

Definition is_ascii (c : ascii) : bool := (N_of_ascii c <? 128)%N.

(** What a written ASCII text is made of: neither controls nor code points above 127. *)
Definition is_printed (c : ascii) : bool := (32 <=? N_of_ascii c)%N && is_ascii c.

Lemma all_chars_sort_eq p j : all_chars p (sort_json j) = all_chars p j.
Proof.
  induction j as [| | | | |l IH|fs IH] using json_nested_ind; try done; simpl.
  - rewrite forallb_map. induction IH as [|v l Hv _ IH]; simpl; [done|]. by rewrite Hv, IH.
  - rewrite (forallb_perm _ _ _ (sort_by_perm fst _)), forallb_map. simpl.
    induction IH as [|v l Hv _ IH]; simpl; [done|]. by rewrite Hv, IH.
Qed.

Lemma all_chars_sort p j : all_chars p j = true -> all_chars p (sort_json j) = true.
Proof. by rewrite all_chars_sort_eq. Qed.

Lemma utf8_ascii l : forallb is_ascii l = true -> utf8 l = l.
Proof.
  induction l as [|c l IH]; [done|]. simpl. intros [Hc Hl]%andb_true_iff.
  unfold utf8_char. unfold is_ascii in Hc. by rewrite Hc, IH.
Qed.

Lemma utf8_decode_ascii l : forallb is_ascii l = true -> utf8_decode l = Ok l.
Proof.
  induction l as [|c l IH]; [done|]. simpl. intros [Hc Hl]%andb_true_iff.
  unfold is_ascii in Hc. by rewrite Hc, IH.
Qed.

Lemma utf8_decode_char c l : utf8_decode (utf8_char c ++ l) = (r ← utf8_decode l; Ok (c :: r)).
Proof. destruct c as [[] [] [] [] [] [] [] []]; reflexivity. Qed.

(** Decoding undoes encoding. *)
Lemma utf8_decode_utf8 l : utf8_decode (utf8 l) = Ok l.
Proof.
  induction l as [|c l IH]; [done|]. change (utf8 (c :: l)) with (utf8_char c ++ utf8 l).
  by rewrite utf8_decode_char, IH.
Qed.

Lemma utf8_decode_raises l : raises (fun e => exn_cls e = UnicodeDecodeError \/ e = outside_model)
  (utf8_decode l).
Proof.
  induction l as [l IH] using (induction_ltof1 _ (@length ascii)); unfold ltof in IH.
  destruct l as [|b l]; [done|]. simpl.
  repeat first [case_match; simplify_eq/=]; try done; try (by left); try (by right).
  all: apply raises_bind; [apply IH; simpl; lia|done].
Qed.

Lemma number_char_printed c : number_char c = true -> is_printed c = true.
Proof. by_code_point. Qed.

Section written.
(** The characters of the texts satisfy [q]; those that are written for them satisfy [p]. *)
Context (q p : ascii -> bool)
        (Hplain : forall c, is_printed c = true -> p c = true)
        (Hescape : forall c, q c = true -> forallb p (escape c) = true).

Lemma quoted_chars s : forallb q (chars s) = true -> forallb p (quoted s) = true.
Proof.
  unfold quoted. simpl. rewrite Hplain by done. simpl.
  generalize (chars s). intros l. induction l as [|c l IH]; simpl; [by rewrite Hplain|].
  intros [Hc Hl]%andb_true_iff. rewrite forallb_app, Hescape by done. by apply IH.
Qed.

Lemma plain_chars l : forallb is_printed l = true -> forallb p l = true.
Proof. rewrite !forallb_forall. auto. Qed.

Lemma number_chars_written l : forallb number_char l = true -> forallb p l = true.
Proof. rewrite !forallb_forall. intros H c Hc. by apply Hplain, number_char_printed, H. Qed.

Lemma flat_map_chars {A} (g : A -> list ascii) l :
  Forall (fun x => forallb p (g x) = true) l ->
  forallb p (flat_map (fun x => ","%char :: g x) l) = true.
Proof.
  induction 1 as [|x l Hx _ IH]; simpl; [done|]. by rewrite Hplain, forallb_app, Hx, IH.
Qed.

Lemma write_chars j : all_chars q j = true -> json_ok j = true -> forallb p (write j) = true.
Proof.
  induction j as [|[]|z|s|s|l IH|fs IH] using json_nested_ind; simpl; intros Ha Hj;
    try by rewrite !Hplain.
  - apply number_chars_written. apply int_text_chars.
  - apply float_literal_cases in Hj as [[Hs _]|(neg & i & x & fe & Hm & _)].
    + unfold constants in Hs. set_unfold in Hs. by destruct Hs as [->|[->|[->|[]]]]; apply plain_chars.
    + by eapply number_chars_written, match_number_chars.
  - by apply quoted_chars.
  - assert (Forall (fun v => forallb p (write v) = true) l) as Hl.
    { rewrite forallb_forall in Ha, Hj. rewrite Forall_forall in IH |- *.
      intros v Hv. apply IH; [done|by apply Ha, list_elem_of_In|by apply Hj, list_elem_of_In]. }
    destruct l as [|v l]; [by apply plain_chars|]. apply Forall_cons in Hl as [Hv Hl]. simpl.
    by rewrite !forallb_app, Hv, flat_map_chars, Hplain by done; simpl; rewrite Hplain.
  - apply andb_true_iff in Hj as [_ Hj].
    assert (Forall (fun f => forallb p (member f) = true) fs) as Hl.
    { rewrite forallb_forall in Ha, Hj. rewrite Forall_forall in IH |- *. intros f Hf.
      specialize (Ha f (proj1 (list_elem_of_In _ _) Hf)). apply andb_true_iff in Ha as [Hk Hv].
      unfold member. rewrite forallb_app, quoted_chars by done. simpl. rewrite Hplain by done.
      apply IH; [done..|]. by apply Hj, list_elem_of_In. }
    destruct fs as [|f fs]; [by apply plain_chars|]. apply Forall_cons in Hl as [Hf Hl].
    change (forallb p ("{"%char :: member f ++
      flat_map (fun f => ","%char :: member f) fs ++ ["}"%char]) = true).
    cbn [forallb]. rewrite !forallb_app, Hf, (flat_map_chars member) by done. simpl.
    by rewrite !Hplain.
Qed.
End written.

Lemma escape_printed c : is_ascii c = true -> forallb is_printed (escape c) = true.
Proof. by_code_point. Qed.

Lemma write_printed j : all_chars is_ascii j = true -> json_ok j = true ->
  forallb is_printed (write j) = true.
Proof. apply write_chars; [done|exact escape_printed]. Qed.

(** Whatever the texts are, no control character is written: a value is one line. *)
Lemma escape_no_control c : true = true -> forallb (fun c => negb (is_control c)) (escape c) = true.
Proof. by_code_point. Qed.

Lemma write_no_control j : json_ok j = true -> forallb (fun c => negb (is_control c)) (write j) = true.
Proof.
  apply write_chars with (q := fun _ => true); [intros c; by_code_point|exact escape_no_control|].
  assert (forall l : list ascii, forallb (fun _ => true) l = true) as Hl by by induction l.
  induction j as [| | | | |l IH|fs IH] using json_nested_ind; try done; simpl; try apply Hl.
  - induction IH as [|v l Hv _ IH]; [done|]. cbn [forallb]. by rewrite Hv.
  - induction IH as [|f fs Hf _ IH]; [done|]. simpl. by rewrite Hl, Hf, IH.
Qed.

Lemma ints_printable_sort j : ints_printable (sort_json j) = ints_printable j.
Proof.
  induction j as [| | | | |l IH|fs IH] using json_nested_ind; try done; simpl.
  - rewrite forallb_map. induction IH as [|v l Hv _ IH]; simpl; [done|]. by rewrite Hv, IH.
  - rewrite (forallb_perm _ _ _ (sort_by_perm fst _)), forallb_map. simpl.
    induction IH as [|v l Hv _ IH]; simpl; [done|]. by rewrite Hv, IH.
Qed.

(** Sorting does not change what is written. *)
Lemma dumps_sort j j' : sort_json j = sort_json j' -> dumps j = dumps j'.
Proof.
  intros H. unfold dumps. rewrite <- (ints_printable_sort j), <- (ints_printable_sort j'). by rewrite H.
Qed.
