(* ===== verification/JsonPretty.v ===== *)
(** Python's [json.dumps] as the writer of deployment files uses it: the default separators or
    an indentation, [ensure_ascii=False], [allow_nan=False], the keys in their order; and the
    proof that [json.loads] reads back what it wrote. *)
From S2P Require Import Prelude Errors DecimalText DecimalCanonical Models Json JsonFacts.

(** * Writing *)

Section writer.
Context (indent : option nat).

(** The line break before an item at this nesting depth; none without an indentation. *)
Definition newline (level : nat) : list ascii :=
  match indent with Some n => "010"%char :: replicate (n * level) " "%char | None => [] end.

Definition separator (level : nat) : list ascii :=
  ","%char :: match indent with Some _ => newline level | None => [" "%char] end.

Fixpoint render (level : nat) (j : json) : list ascii :=
  match j with
  | JList (v :: items) =>
      "["%char :: newline (S level) ++ render (S level) v
      ++ flat_map (fun v => separator (S level) ++ render (S level) v) items
      ++ newline level ++ ["]"%char]
  | JObj (f :: fields) =>
      let member f := quoted f.1 ++ ":"%char :: " "%char :: render (S level) f.2 in
      "{"%char :: newline (S level) ++ member f
      ++ flat_map (fun f => separator (S level) ++ member f) fields
      ++ newline level ++ ["}"%char]
  | _ => write j
  end.
End writer.

(** A float the encoder refuses with [allow_nan=False]. *)
Fixpoint all_finite (j : json) : bool :=
  match j with
  | JFloat s => negb (bool_decide (s ∈ constants))
  | JList l => forallb all_finite l
  | JObj fs => forallb (fun f => all_finite f.2) fs
  | _ => true
  end.

(** [json.dumps(j, indent=indent, ensure_ascii=False, allow_nan=False)] *)
Definition dumps_indented (indent : option nat) (j : json) : result (list ascii) :=
  _ ← require (all_finite j) ValueError "Out of range float values are not JSON compliant";
  _ ← require (ints_printable j) ValueError "Exceeds the limit for integer string conversion";
  Ok (render indent 0 j).

(** * Reading what was written *)

Section reading.
Context (allowed : list string)
        (object_pairs : list (string * json) -> result json)
        (parse_constant : string -> result json)
        (Hobject : forall ps, NoDup (dkeys ps) -> object_pairs ps = Ok (JObj ps))
        (Hconstant : forall s, s ∈ allowed -> parse_constant s = Ok (JFloat s))
        (indent : option nat).

Notation printable := (printable_in allowed).
Notation scan_once := (scan_once object_pairs parse_constant).
Notation scan_members := (scan_members object_pairs parse_constant).
Notation scan_items := (scan_items object_pairs parse_constant).
Notation newline := (newline indent).
Notation separator := (separator indent).
Notation render := (render indent).

Lemma spaces_skipped n l : skip_space (replicate n " "%char ++ l) = skip_space l.
Proof. induction n as [|n IH]; [done|]. exact IH. Qed.

Lemma newline_skipped level l : skip_space (newline level ++ l) = skip_space l.
Proof.
  unfold JsonPretty.newline. destruct indent as [n|]; [|done]. apply (spaces_skipped (n * level)).
Qed.

(** What follows a comma is read as if the white space were not there. *)
Lemma separator_comma level : exists ws, separator level = ","%char :: ws /\
  forall l, skip_space (ws ++ l) = skip_space l.
Proof.
  unfold JsonPretty.separator. destruct indent as [n|]; eexists; (split; [reflexivity|]); [|done].
  apply (spaces_skipped (n * level)).
Qed.

Lemma newline_delimited level c l : continues c = false -> delimited (newline level ++ c :: l).
Proof. unfold JsonPretty.newline. by destruct indent. Qed.

Lemma separator_delimited level l : delimited (separator level ++ l).
Proof. by destruct (separator_comma level) as (ws & -> & _). Qed.

Lemma render_head level j : printable j = true -> head_in value_head (render level j).
Proof.
  intros Hj. destruct j as [| | | | |[|v l]|[|f l]]; try exact (write_head _ _ Hj);
    by do 2 eexists.
Qed.

(** The reader gives the written tree back, and leaves what follows it. *)
Definition renders_back (j : json) : Prop := forall level n r,
  (2 * length (render level j ++ r) < n)%nat -> delimited r -> printable j = true ->
  scan_once n (render level j ++ r) = Ok (j, r).

Definition rendered_member (level : nat) (f : string * json) : list ascii :=
  quoted f.1 ++ ":"%char :: " "%char :: render (S level) f.2.

Definition rendered_members (level : nat) (fs : list (string * json)) (r : list ascii) : list ascii :=
  flat_map (fun f => separator (S level) ++ rendered_member level f) fs
  ++ newline level ++ "}"%char :: r.

Definition rendered_items (level : nat) (vs : list json) (r : list ascii) : list ascii :=
  flat_map (fun v => separator (S level) ++ render (S level) v) vs
  ++ newline level ++ "]"%char :: r.

Arguments rendered_member : simpl never.
Arguments rendered_members : simpl never.
Arguments rendered_items : simpl never.

Lemma members_rest_delimited level fs r : delimited (rendered_members level fs r).
Proof.
  destruct fs as [|f fs]; [by apply newline_delimited|]. unfold rendered_members. cbn [flat_map].
  rewrite <- !app_assoc. apply separator_delimited.
Qed.

Lemma items_rest_delimited level vs r : delimited (rendered_items level vs r).
Proof.
  destruct vs as [|v vs]; [by apply newline_delimited|]. unfold rendered_items. cbn [flat_map].
  rewrite <- !app_assoc. apply separator_delimited.
Qed.

(** What follows the first member, or the first item, when there is a second one. *)
Lemma members_rest level f fs r : exists ws,
  rendered_members level (f :: fs) r =
    ","%char :: ws ++ rendered_member level f ++ rendered_members level fs r /\
  forall l, skip_space (ws ++ l) = skip_space l.
Proof.
  destruct (separator_comma (S level)) as (ws & Hws & Hskip). exists ws. split; [|done].
  unfold rendered_members. cbn [flat_map]. rewrite Hws, <- !app_assoc. done.
Qed.

Lemma items_rest level v vs r : exists ws,
  rendered_items level (v :: vs) r =
    ","%char :: ws ++ render (S level) v ++ rendered_items level vs r /\
  forall l, skip_space (ws ++ l) = skip_space l.
Proof.
  destruct (separator_comma (S level)) as (ws & Hws & Hskip). exists ws. split; [|done].
  unfold rendered_items. cbn [flat_map]. rewrite Hws, <- !app_assoc. done.
Qed.

Lemma scan_members_renders level f fs n r :
  Forall (fun f => renders_back f.2 /\ printable f.2 = true) (f :: fs) ->
  (2 * length (rendered_member level f ++ rendered_members level fs r) < n)%nat ->
  scan_members n (rendered_member level f ++ rendered_members level fs r) = Ok (f :: fs, r).
Proof.
  revert f n. induction fs as [|f' fs IH]; intros [k v] [|n] Hall Hn; try (simpl in Hn; lia).
  all: apply Forall_cons in Hall as [[Hv Hpv] Hall]; simpl in Hv, Hpv.
  all: unfold rendered_member at 1 in Hn; unfold rendered_member at 1; simpl in Hn |- *.
  all: unfold quoted in *; simpl in Hn |- *; rewrite <- app_assoc in Hn |- *; rewrite scan_escaped; simpl.
  all: change (skip_space (" "%char :: ?l)) with (skip_space l).
  all: rewrite skip_space_id by (by apply head_in_app, render_head).
  all: rewrite Hv by (try apply members_rest_delimited; try done; lengths; lia).
  - unfold rendered_members. simpl. rewrite newline_skipped, skip_space_cons by done. simpl.
    by rewrite text_chars.
  - destruct (members_rest level f' fs r) as (ws & Hrest & Hskip). rewrite Hrest in Hn |- *.
    cbn [mbind result_bind]. rewrite skip_space_cons by done. simpl. rewrite Hskip.
    assert (scan_members n (rendered_member level f' ++ rendered_members level fs r) =
      Ok (f' :: fs, r)) as Hr by (apply IH; [done|lengths; lia]).
    simpl in Hr. rewrite skip_space_cons, Hr by done. simpl. by rewrite text_chars.
Qed.

Lemma scan_items_renders level v vs n r :
  Forall (fun v => renders_back v /\ printable v = true) (v :: vs) ->
  (1 + 2 * length (render (S level) v ++ rendered_items level vs r) < n)%nat ->
  scan_items n (render (S level) v ++ rendered_items level vs r) = Ok (v :: vs, r).
Proof.
  revert v n. induction vs as [|v' vs IH]; intros v [|n] Hall Hn; try (simpl in Hn; lia).
  all: apply Forall_cons in Hall as [[Hv Hpv] Hall]; simpl.
  all: rewrite Hv by (try apply items_rest_delimited; try done; lengths; lia).
  - unfold rendered_items. simpl. by rewrite newline_skipped, skip_space_cons.
  - destruct (items_rest level v' vs r) as (ws & Hrest & Hskip). rewrite Hrest in Hn |- *.
    cbn [mbind result_bind]. rewrite skip_space_cons by done. simpl. rewrite Hskip.
    apply Forall_cons in Hall as Hh. destruct Hh as [[_ Hh] _].
    rewrite skip_space_id by (by apply head_in_app, render_head).
    rewrite IH; [done|done|]. lengths. lia.
Qed.

Lemma Forall_renders_back {A} (g : A -> json) l :
  Forall (fun x => renders_back (g x)) l -> Forall (fun x => printable (g x) = true) l ->
  Forall (fun x => renders_back (g x) /\ printable (g x) = true) l.
Proof. rewrite !Forall_forall. naive_solver. Qed.

Lemma renders_back_list l : Forall renders_back l -> renders_back (JList l).
Proof.
  intros Hl level [|n] r Hn Hr Hp; [lia|]. destruct l as [|v l].
  { by apply (write_reads_back allowed object_pairs parse_constant Hobject Hconstant (JList [])). }
  apply printable_list in Hp. pose proof (Forall_renders_back id _ Hl Hp) as Hall.
  apply Forall_cons in Hp as Hh. destruct Hh as [Hh _].
  assert (render level (JList (v :: l)) ++ r =
    "["%char :: newline (S level) ++ render (S level) v ++ rendered_items level l r) as Heq.
  { simpl. unfold rendered_items. by rewrite <- !app_assoc. }
  rewrite Heq in Hn |- *. simpl. rewrite newline_skipped.
  rewrite skip_space_id by (by apply head_in_app, render_head).
  rewrite value_head_eat by (by apply head_in_app, render_head).
  rewrite (scan_items_renders level v l n r Hall); [done|]. lengths. lia.
Qed.

Lemma renders_back_object fs : Forall (fun f => renders_back f.2) fs -> renders_back (JObj fs).
Proof.
  intros Hl level [|n] r Hn Hr Hp; [lia|]. destruct fs as [|f fs].
  { by apply (write_reads_back allowed object_pairs parse_constant Hobject Hconstant (JObj [])). }
  apply printable_object in Hp as [Hk Hp]. pose proof (Forall_renders_back snd _ Hl Hp) as Hall.
  assert (render level (JObj (f :: fs)) ++ r =
    "{"%char :: newline (S level) ++ rendered_member level f ++ rendered_members level fs r) as Heq.
  { unfold rendered_members, rendered_member. simpl. rewrite <- app_assoc. simpl.
    by rewrite <- !app_assoc. }
  rewrite Heq in Hn |- *. simpl. rewrite newline_skipped.
  assert (scan_members n (rendered_member level f ++ rendered_members level fs r) =
    Ok (f :: fs, r)) as Hm by (apply scan_members_renders; [done|lengths; lia]).
  simpl in Hm. rewrite skip_space_cons by done. simpl. rewrite Hm. simpl. by rewrite Hobject.
Qed.

Lemma render_reads_back j : renders_back j.
Proof.
  induction j as [| | | | | |] using json_nested_ind;
    try (intros level n r; by apply write_reads_back); [by apply renders_back_list|].
  by apply renders_back_object.
Qed.

(** [json.loads] of a rendered text, with a line break after it or not. *)
Lemma loads_with_render j (last : list ascii) : printable j = true -> skip_space last = [] ->
  delimited last ->
  loads_with object_pairs parse_constant (text (render 0 j ++ last)) = Ok j.
Proof.
  intros Hj Hs Hl. unfold loads_with.
  rewrite chars_text, skip_space_id by (by apply head_in_app, render_head).
  rewrite render_reads_back by (done || lia). simpl. by rewrite Hs.
Qed.
End reading.
