(* ===== verification/JsonLoad.v ===== *)
(** What [json.loads] returns: an induction principle for the values the reader builds, the
    floats of a document as Python's [float] has them, and the universal newlines of a text
    file, which the reader does not see. *)
From S2P Require Import Prelude Errors DecimalText DecimalCanonical Models Json JsonFacts JsonPretty.

(** * A property of every value the reader builds *)

Section built.
Context (object_pairs : list (string * json) -> result json)
        (parse_constant : string -> result json) (P : json -> Prop)
        (Hobject : forall ps v, Forall (fun p => P p.2) ps -> object_pairs ps = Ok v -> P v)
        (Hconstant : forall s v, parse_constant s = Ok v -> P v)
        (Hliteral : Forall (fun w => P w.2) literals)
        (Hnumber : forall l neg i fe r v, match_number l = Some (neg, i, fe, r) ->
          number_value neg i fe = Ok v -> P v)
        (Hstring : forall s, P (JStr s))
        (Hlist : forall l, Forall P l -> P (JList l)).

Lemma match_literal_built words l v r :
  Forall (fun w => P w.2) words -> match_literal words l = Some (v, r) -> P v.
Proof.
  induction 1 as [|[w v'] words Hw _ IH]; [done|]. simpl. destruct (eat_word _ l); [|done].
  by intros [= <- <-].
Qed.

Lemma scan_plain_built l v r : scan_plain parse_constant l = Ok (v, r) -> P v.
Proof.
  unfold scan_plain. destruct (match_literal literals l) as [[v' r']|] eqn:Hl.
  { intros [= <- <-]. by eapply match_literal_built. }
  destruct (match_number l) as [[[[neg i] fe] r']|] eqn:Hm.
  - intros (v' & Hv & [= <- <-])%result_bind_Ok. eauto.
  - destruct (match_constant constants l) as [[n r']|]; [|done].
    intros (v' & Hv & [= <- <-])%result_bind_Ok. eauto.
Qed.

Lemma scan_built n :
  (forall l v r, scan_once object_pairs parse_constant n l = Ok (v, r) -> P v) /\
  (forall l ps r, scan_members object_pairs parse_constant n l = Ok (ps, r) ->
    Forall (fun p => P p.2) ps) /\
  (forall l vs r, scan_items object_pairs parse_constant n l = Ok (vs, r) -> Forall P vs).
Proof.
  induction n as [|n (IHo & IHm & IHi)]; [by split_and!; intros l v r H; simpl in H|].
  split_and!; intros l v r H.
  - destruct l as [|c l]; [done|]. simpl in H. repeat case_decide.
    + by apply result_bind_Ok in H as ([s r'] & _ & [= <- _]).
    + destruct (eat _ _) as [r'|].
      * apply result_bind_Ok in H as (v' & Hv & [= <- _]). eapply Hobject; [|exact Hv]. constructor.
      * apply result_bind_Ok in H as ([ps r'] & Hm%IHm & H).
        apply result_bind_Ok in H as (v' & Hv & [= <- _]). by eapply Hobject.
    + destruct (eat _ _) as [r'|]; [simplify_eq; by apply Hlist; constructor|].
      apply result_bind_Ok in H as ([ps r'] & Hm%IHi & [= <- _]). by apply Hlist.
    + by eapply scan_plain_built.
  - simpl in H. destruct (eat quotation_mark l) as [l1|]; [|done].
    apply result_bind_Ok in H as ([s l2] & _ & H). destruct (eat ":"%char _) as [l3|]; [|done].
    apply result_bind_Ok in H as ([w l4] & Hw%IHo & H).
    destruct (eat "}"%char _); [simplify_eq; by repeat constructor|].
    destruct (eat ","%char _) as [l6|]; [|done].
    apply result_bind_Ok in H as ([ps r'] & Hm%IHm & [= <- _]). by constructor.
  - simpl in H. apply result_bind_Ok in H as ([w l4] & Hw%IHo & H).
    destruct (eat "]"%char _); [simplify_eq; by repeat constructor|].
    destruct (eat ","%char _) as [l6|]; [|done].
    apply result_bind_Ok in H as ([ps r'] & Hm%IHi & [= <- _]). by constructor.
Qed.

Lemma loads_with_built s v : loads_with object_pairs parse_constant s = Ok v -> P v.
Proof.
  unfold loads_with. intros ([w r] & Hw%scan_built & H)%result_bind_Ok.
  by destruct (skip_space r); simplify_eq.
Qed.
End built.

(** * Universal newlines *)

Definition carriage_return : ascii := "013"%char.
Definition line_feed : ascii := "010"%char.

(** A text file opened without [newline=]: every line ending is read as a line feed. *)
Fixpoint universal_newlines (l : list ascii) : list ascii :=
  match l with
  | [] => []
  | c :: l =>
      if decide (c = carriage_return) then
        line_feed :: match l with
                     | d :: l' => if decide (d = line_feed) then universal_newlines l'
                                  else universal_newlines l
                     | [] => []
                     end
      else c :: universal_newlines l
  end.

(** [text.split] at the line feeds. *)
Fixpoint split_lines (l : list ascii) : list (list ascii) :=
  match l with
  | [] => [[]]
  | c :: l =>
      if decide (c = line_feed) then [] :: split_lines l
      else match split_lines l with
           | line :: lines => (c :: line) :: lines
           | [] => [[c]]
           end
  end.

Lemma split_lines_line x l : line_feed ∉ x -> split_lines (x ++ line_feed :: l) = x :: split_lines l.
Proof.
  induction x as [|c x IH]; simpl; [done|]. intros [Hc Hx]%not_elem_of_cons.
  rewrite decide_False by congruence. by rewrite IH.
Qed.

(** Lines that end with a line feed each are split into themselves. *)
Lemma split_lines_lines lines : Forall (fun x => line_feed ∉ x) lines ->
  split_lines (flat_map (fun x => x ++ [line_feed]) lines) = lines ++ [[]].
Proof.
  induction 1 as [|x lines Hx _ IH]; [done|]. simpl. rewrite <- app_assoc. cbn [app].
  by rewrite split_lines_line, IH.
Qed.

Section newlines.
Context (object_pairs : list (string * json) -> result json)
        (parse_constant : string -> result json).

Notation U := universal_newlines.

(** Translate what is left of the text. *)
Definition translated {A} (r : result (A * list ascii)) : result (A * list ascii) :=
  '(a, l) ← r; Ok (a, U l).

Lemma newlines_cons c l : c <> carriage_return -> U (c :: l) = c :: U l.
Proof. intros Hc. simpl. by rewrite decide_False. Qed.

Lemma newlines_return l : exists l', (length l' <= length l)%nat /\
  U (carriage_return :: l) = line_feed :: U l' /\ skip_space l' = skip_space l.
Proof.
  destruct l as [|d l]; [by exists []|]. simpl.
  destruct (decide (d = line_feed)) as [->|]; [exists l|exists (d :: l)]; simpl; auto.
Qed.

Arguments universal_newlines : simpl never.

Lemma newlines_shorter l : (length (U l) <= length l)%nat.
Proof.
  induction l as [l IH] using (induction_ltof1 _ (@length ascii)); unfold ltof in IH.
  destruct l as [|c l]; [done|]. destruct (decide (c = carriage_return)) as [->|Hc].
  - destruct (newlines_return l) as (l' & Hl & -> & _). simpl.
    specialize (IH l'). simpl in IH. lia.
  - rewrite newlines_cons by done. simpl. specialize (IH l). simpl in IH. lia.
Qed.

Lemma skip_space_newlines l : skip_space (U l) = U (skip_space l).
Proof.
  induction l as [l IH] using (induction_ltof1 _ (@length ascii)); unfold ltof in IH.
  destruct l as [|c l]; [done|]. destruct (decide (c = carriage_return)) as [->|Hc].
  - destruct (newlines_return l) as (l' & Hl & -> & Hs).
    change (skip_space (carriage_return :: l)) with (skip_space l). rewrite <- Hs.
    change (skip_space (line_feed :: U l')) with (skip_space (U l')). apply IH. simpl. lia.
  - rewrite newlines_cons by done. unfold skip_space. simpl.
    destruct (is_json_space c); [apply IH; simpl; lia|]. by rewrite newlines_cons.
Qed.

Lemma eat_newlines c l : c <> carriage_return -> c <> line_feed ->
  eat c (U l) = U <$> eat c l.
Proof.
  intros Hr Hf. destruct l as [|d l]; [done|].
  destruct (decide (d = carriage_return)) as [->|Hd].
  - destruct (newlines_return l) as (l' & _ & -> & _). by rewrite !eat_other.
  - rewrite newlines_cons by done. simpl. by case_decide.
Qed.

Lemma span_newlines p l : p carriage_return = false -> p line_feed = false ->
  span p (U l) = let '(a, b) := span p l in (a, U b).
Proof.
  intros Hr Hf. induction l as [|c l IH]; [done|].
  destruct (decide (c = carriage_return)) as [->|Hc].
  - destruct (newlines_return l) as (l' & _ & Heq & _). rewrite Heq. simpl. rewrite Hr, Hf.
    by rewrite Heq.
  - rewrite newlines_cons by done. simpl. rewrite IH. destruct (p c).
    + by destruct (span p l).
    + by rewrite newlines_cons.
Qed.

Lemma take_digits_newlines mark l :
  take_digits mark (U l) = prod_map id U <$> take_digits mark l.
Proof.
  unfold take_digits. rewrite span_newlines by done. destruct (span is_digit l) as [[|d ds] r]; done.
Qed.

Lemma take_integer_newlines l : take_integer (U l) = prod_map id U <$> take_integer l.
Proof.
  unfold take_integer. rewrite eat_newlines by done. destruct (eat _ l); [done|].
  apply take_digits_newlines.
Qed.

Lemma take_fraction_newlines l : take_fraction (U l) = prod_map id U (take_fraction l).
Proof.
  unfold take_fraction. rewrite eat_newlines by done. destruct (eat _ l) as [r|]; simpl; [|done].
  rewrite take_digits_newlines. by destruct (take_digits _ r).
Qed.

Lemma take_exponent_newlines l : take_exponent (U l) = prod_map id U (take_exponent l).
Proof.
  destruct l as [|c l]; [done|]. destruct (decide (c = carriage_return)) as [->|Hc].
  { simpl. by destruct (newlines_return l) as (l' & _ & -> & _). }
  rewrite newlines_cons by done. simpl. destruct (is_exp_mark c); [|by rewrite <- newlines_cons].
  destruct l as [|d l]; [by simpl; rewrite <- newlines_cons|].
  destruct (decide (d = carriage_return)) as [->|Hd].
  { simpl. by rewrite <- newlines_cons. }
  rewrite (newlines_cons d) by done. destruct (is_sign d).
  - rewrite take_digits_newlines. destruct (take_digits _ l); simpl; [done|].
    by rewrite <- !newlines_cons.
  - rewrite <- newlines_cons by done. rewrite take_digits_newlines.
    destruct (take_digits _ _); simpl; [done|]. by rewrite <- newlines_cons.
Qed.

Lemma match_number_newlines l :
  match_number (U l) =
    (fun '(neg, i, fe, r) => (neg, i, fe, U r)) <$> match_number l.
Proof.
  unfold match_number. rewrite eat_newlines by done.
  assert (forall neg l, (
    '(i, l) ← take_integer (U l); let '(f, l) := take_fraction l in
    let '(e, l) := take_exponent l in Some (neg, i, f ++ e, l)) =
    (fun '(neg, i, fe, r) => (neg, i, fe, U r)) <$> (
    '(i, l) ← take_integer l; let '(f, l) := take_fraction l in
    let '(e, l) := take_exponent l in Some (neg : bool, i, f ++ e, l))) as Hrest.
  { clear. intros neg l. rewrite take_integer_newlines.
    destruct (take_integer l) as [[i l1]|]; simpl; [|done]. rewrite take_fraction_newlines.
    destruct (take_fraction l1) as [f l2]. simpl. rewrite take_exponent_newlines.
    by destruct (take_exponent l2). }
  destruct (eat _ l); apply Hrest.
Qed.

Lemma eat_word_newlines w l :
  forallb (fun c => negb (bool_decide (c = carriage_return \/ c = line_feed))) w = true ->
  eat_word w (U l) = U <$> eat_word w l.
Proof.
  revert l. induction w as [|c w IH]; intros l; [done|]. simpl.
  intros [Hc%negb_true_iff%bool_decide_eq_false Hw]%andb_true_iff.
  rewrite eat_newlines by naive_solver. destruct (eat c l); simpl; auto.
Qed.

Lemma match_literal_newlines l :
  match_literal literals (U l) = prod_map id U <$> match_literal literals l.
Proof.
  unfold literals. cbn [match_literal]. rewrite !eat_word_newlines by done.
  by repeat (destruct (eat_word _ l); [done|]; cbn [fmap option_fmap option_map]).
Qed.

Lemma match_constant_newlines l :
  match_constant constants (U l) = prod_map id U <$> match_constant constants l.
Proof.
  unfold constants. cbn [match_constant]. rewrite !eat_word_newlines by done.
  by repeat (destruct (eat_word _ l); [done|]; cbn [fmap option_fmap option_map]).
Qed.

Lemma scan_plain_newlines l :
  scan_plain parse_constant (U l) = translated (scan_plain parse_constant l).
Proof.
  unfold scan_plain.
  rewrite match_literal_newlines, match_number_newlines, match_constant_newlines.
  destruct (match_literal _ l) as [[]|], (match_number l) as [[[[neg i] fe] r]|],
    (match_constant _ l) as [[n r']|]; cbn; try done.
  1-2: by destruct (number_value neg i fe).
  by destruct (parse_constant n).
Qed.

(** A line ending inside a string is an error, whichever it is. *)
Lemma hex_code_newlines a b c d :
  carriage_return ∈ [a; b; c; d] \/ line_feed ∈ [a; b; c; d] -> hex_code a b c d = None.
Proof.
  intros H. assert (forall x, x = carriage_return \/ x = line_feed ->
    hex_value x = None) as Hx by (intros x [-> | ->]; done).
  unfold hex_code. set_unfold.
  assert (hex_value a = None \/ hex_value b = None \/ hex_value c = None \/ hex_value d = None)
    as Hn by (destruct H; naive_solver).
  by destruct (hex_value a), (hex_value b), (hex_value c), (hex_value d); naive_solver.
Qed.

Lemma scan_hex_newlines l :
  Forall (fun c => c <> carriage_return) (take 4 l) \/
  (match l with
   | h1 :: h2 :: h3 :: h4 :: _ => hex_code h1 h2 h3 h4 = None
   | _ => True
   end /\
   match U l with
   | h1 :: h2 :: h3 :: h4 :: _ => hex_code h1 h2 h3 h4 = None
   | _ => True
   end).
Proof.
  destruct l as [|a l]; [left; by constructor|].
  destruct (decide (a = carriage_return)) as [->|Ha].
  { right. destruct (newlines_return l) as (l' & _ & -> & _).
    split; repeat case_match; try done; apply hex_code_newlines; set_solver. }
  rewrite newlines_cons by done. destruct l as [|b l]; [left; by repeat constructor|].
  destruct (decide (b = carriage_return)) as [->|Hb].
  { right. destruct (newlines_return l) as (l' & _ & -> & _).
    split; repeat case_match; try done; apply hex_code_newlines; set_solver. }
  rewrite newlines_cons by done. destruct l as [|c l]; [left; by repeat constructor|].
  destruct (decide (c = carriage_return)) as [->|Hc].
  { right. destruct (newlines_return l) as (l' & _ & -> & _).
    split; repeat case_match; try done; apply hex_code_newlines; set_solver. }
  rewrite newlines_cons by done. destruct l as [|d l]; [left; by repeat constructor|].
  destruct (decide (d = carriage_return)) as [->|Hd].
  { right. destruct (newlines_return l) as (l' & _ & -> & _).
    split; apply hex_code_newlines; set_solver. }
  left. by repeat constructor.
Qed.

Lemma scan_string_newlines l : scan_string (U l) = translated (scan_string l).
Proof.
  induction l as [l IH] using (induction_ltof1 _ (@length ascii)); unfold ltof in IH.
  assert (forall l' x, (length l' < length l)%nat ->
    ('(s, r) ← scan_string (U l'); Ok (x :: s, r)) =
      translated ('(s, r) ← scan_string l'; Ok (x :: s, r))) as Hrec.
  { intros l' x Hl. rewrite IH by done. by destruct (scan_string l') as [[]|]. }
  destruct l as [|c l]; [done|]. destruct (decide (c = carriage_return)) as [->|Hc].
  { by destruct (newlines_return l) as (l' & _ & -> & _). }
  rewrite newlines_cons by done. simpl. repeat case_decide; [done| |].
  - destruct l as [|e l]; [done|]. destruct (decide (e = carriage_return)) as [->|He].
    { by destruct (newlines_return l) as (l' & _ & -> & _). }
    rewrite newlines_cons by done. case_decide.
    + destruct (scan_hex_newlines l) as [Hl|[Hx Hy]].
      * destruct l as [|h1 [|h2 [|h3 [|h4 l]]]]; simpl in Hl; decompose_Forall_hyps;
          rewrite ?newlines_cons by done; try done.
        destruct (hex_code h1 h2 h3 h4); [|done]. case_match; [|done].
        apply Hrec. simpl. lia.
      * destruct l as [|? [|? [|? [|? ?]]]], (U _) as [|? [|? [|? [|? ?]]]];
          by rewrite ?Hx, ?Hy.
    + destruct (unescape e); [|done]. apply Hrec. simpl. lia.
  - destruct (is_control c); [done|]. apply Hrec. simpl. lia.
Qed.

Notation scan_once := (scan_once object_pairs parse_constant).
Notation scan_members := (scan_members object_pairs parse_constant).
Notation scan_items := (scan_items object_pairs parse_constant).

Lemma scan_newlines n :
  (forall l, scan_once n (U l) = translated (scan_once n l)) /\
  (forall l, scan_members n (U l) = translated (scan_members n l)) /\
  (forall l, scan_items n (U l) = translated (scan_items n l)).
Proof.
  induction n as [|n (IHo & IHm & IHi)]; [done|]. split_and!; intros l.
  - destruct l as [|c l]; [done|]. destruct (decide (c = carriage_return)) as [->|Hc].
    { by destruct (newlines_return l) as (l' & _ & -> & _). }
    rewrite newlines_cons by done. simpl.
    rewrite skip_space_newlines, !eat_newlines, IHm, IHi, scan_string_newlines by done.
    case_decide; [by destruct (scan_string l) as [[]|]|].
    case_decide; [|case_decide].
    + destruct (eat _ _) as [r|]; cbn; [by destruct (object_pairs [])|].
      destruct (scan_members n _) as [[ps r]|]; cbn; [|done]. by destruct (object_pairs ps).
    + destruct (eat _ _) as [r|]; cbn; [done|]. by destruct (scan_items n _) as [[vs r]|].
    + rewrite <- newlines_cons by done. apply scan_plain_newlines.
  - simpl. rewrite eat_newlines by done.
    destruct (eat quotation_mark l) as [l1|]; cbn; [|done]. rewrite scan_string_newlines.
    destruct (scan_string l1) as [[k l2]|]; cbn; [|done].
    rewrite skip_space_newlines, eat_newlines by done.
    destruct (eat ":"%char _) as [l3|]; cbn; [|done]. rewrite skip_space_newlines, IHo.
    destruct (scan_once n _) as [[v l4]|]; cbn; [|done].
    rewrite skip_space_newlines, !eat_newlines by done.
    destruct (eat "}"%char _); cbn; [done|]. destruct (eat ","%char _) as [l5|]; cbn; [|done].
    rewrite skip_space_newlines, IHm. by destruct (scan_members n _) as [[]|].
  - simpl. rewrite IHo. destruct (scan_once n _) as [[v l4]|]; cbn; [|done].
    rewrite skip_space_newlines, !eat_newlines by done.
    destruct (eat "]"%char _); cbn; [done|]. destruct (eat ","%char _) as [l5|]; cbn; [|done].
    rewrite skip_space_newlines, IHi. by destruct (scan_items n _) as [[]|].
Qed.

(** [json.loads] does not see which line endings the file has. *)
Lemma loads_with_newlines l :
  loads_with object_pairs parse_constant (text (U l)) =
  loads_with object_pairs parse_constant (text l).
Proof.
  unfold loads_with. rewrite !chars_text, skip_space_newlines.
  pose proof (newlines_shorter (skip_space l)) as Hl.
  rewrite <- (proj1 (scan_more_fuel object_pairs parse_constant _) _
    (S (2 * length (skip_space l)))) by lia.
  rewrite (proj1 (scan_newlines _)). destruct (scan_once _ _) as [[v r]|]; cbn; [|done].
  rewrite skip_space_newlines. destruct (skip_space r) as [|c r']; [done|].
  destruct (decide (c = carriage_return)) as [->|Hc]; [|by rewrite newlines_cons].
  by destruct (newlines_return r') as (l' & _ & -> & _).
Qed.
End newlines.

(** * Floats

    A document is read with [float] as [parse_float]: what is kept of a number is the
    shortest text that reads back as the same double, which [float.__repr__] gives, and a
    number whose magnitude is too large becomes an infinity. *)

Section floats.
(** [repr(float(literal))]; [None] for an infinity. *)
Context (float_repr : string -> option string).

Definition float_value (literal : string) : string :=
  if decide (literal ∈ constants) then literal
  else
    match float_repr literal with
    | Some shortest => shortest
    | None => if String.prefix "-" literal then "-Infinity" else "Infinity"
    end.

Fixpoint python_floats (j : json) : json :=
  match j with
  | JFloat literal => JFloat (float_value literal)
  | JList l => JList (map python_floats l)
  | JObj fs => JObj (map (fun f => (f.1, python_floats f.2)) fs)
  | _ => j
  end.

(** The shortest text of a finite double is a JSON number of at most 24 characters, and it
    is its own shortest text. *)
Definition float_repr_law : Prop := forall literal shortest,
  float_repr literal = Some shortest ->
  float_literal [] shortest = true /\ float_repr shortest = Some shortest.

Context (Hrepr : float_repr_law).

Lemma float_literal_weaken allowed s : float_literal [] s = true -> float_literal allowed s = true.
Proof.
  unfold float_literal. rewrite !orb_true_iff, bool_decide_eq_true. intros [[_ H]|H]; [|by right].
  by apply elem_of_nil in H.
Qed.

Lemma float_value_literal s : float_literal constants (float_value s) = true.
Proof.
  unfold float_value. case_decide.
  { unfold float_literal. by rewrite bool_decide_true. }
  destruct (float_repr s) eqn:Hs; [by apply float_literal_weaken, (Hrepr _ _ Hs)|].
  by destruct (String.prefix _ _).
Qed.

Lemma float_value_idempotent s : float_value (float_value s) = float_value s.
Proof.
  unfold float_value. destruct (decide (s ∈ constants)); [by rewrite decide_True|].
  destruct (float_repr s) as [t|] eqn:Hs.
  - case_decide; [done|]. by rewrite (proj2 (Hrepr _ _ Hs)).
  - by destruct (String.prefix _ _).
Qed.

Lemma python_floats_idempotent j : python_floats (python_floats j) = python_floats j.
Proof.
  induction j as [| | |s| |l IH|fs IH] using json_nested_ind; try done; simpl.
  - by rewrite float_value_idempotent.
  - f_equal. rewrite map_map. apply map_ext_in. intros v Hv%list_elem_of_In.
    by rewrite Forall_forall in IH; apply IH.
  - f_equal. rewrite map_map. apply map_ext_in. intros f Hf%list_elem_of_In. simpl. f_equal.
    by rewrite Forall_forall in IH; apply IH.
Qed.

Lemma python_floats_keys fs : dkeys (map (fun f => (f.1, python_floats f.2)) fs) = dkeys fs.
Proof. unfold dkeys. by rewrite map_map. Qed.

Lemma dget_python_floats k fs :
  dget k (map (fun f => (f.1, python_floats f.2)) fs) = python_floats <$> dget k fs.
Proof. induction fs as [|[k' v] fs IH]; [done|]. simpl. by case_decide. Qed.
End floats.

(** * What was read can be written *)

Lemma number_value_printable l neg i fe r v :
  match_number l = Some (neg, i, fe, r) -> number_value neg i fe = Ok v ->
  ints_printable v = true.
Proof.
  unfold match_number. intros Hl. destruct (match eat "-"%char l with Some _ => _ | None => _ end)
    as [neg' l1].
  destruct (take_integer l1) as [[i' l2]|] eqn:Hi; [|done]. simpl in Hl.
  destruct (take_fraction l2) as [f l3], (take_exponent l3) as [e l4]. simplify_eq.
  unfold number_value. destruct (f ++ e); [|by intros [= <-]]. intros H. ok_all.
  assert (leading i) as Hlead.
  { unfold take_integer in Hi. destruct (eat "0"%char l1) eqn:He.
    { simplify_eq. split; [done|by left]. }
    apply take_digits_text in Hi as (d & Hd & Hne & -> & ->). split; [done|]. right.
    destruct d as [|c d]; [done|]. exists c, d. split; [done|].
    by intros ->. }
  simpl. destruct (digits_value_bound i) as [? _]; [apply Hlead|].
  replace (Z.abs _) with (digits_value i) by (destruct neg; lia).
  destruct (natural_text_spec (digits_value i)) as [Hn Hv]; [lia|].
  apply Z.leb_le. by rewrite (leading_inj _ _ Hn Hlead Hv).
Qed.

Lemma dict_of_keys {V} (ps : list (string * V)) : NoDup (dkeys (dict_of ps)).
Proof.
  unfold dict_of. assert (NoDup (dkeys ([] : dict V))) as H by constructor. revert H.
  generalize ([] : dict V). induction ps as [|p ps IH]; simpl; eauto with runtime.
Qed.

Lemma dset_Forall {V} (P : V -> Prop) k v (d : dict V) :
  P v -> Forall (fun f => P f.2) d -> Forall (fun f => P f.2) (dset k v d).
Proof.
  intros Hv. induction 1 as [|[k' v'] d Hf Hd IH]; simpl; [by repeat constructor|].
  case_decide; by constructor.
Qed.

Lemma dict_of_Forall {V} (P : V -> Prop) (ps : list (string * V)) :
  Forall (fun f => P f.2) ps -> Forall (fun f => P f.2) (dict_of ps).
Proof.
  intros Hps. unfold dict_of. assert (Forall (fun f => P f.2) ([] : dict V)) as H by constructor.
  revert H. generalize ([] : dict V).
  induction Hps as [|p ps Hp _ IH]; simpl; [done|]. intros d Hd. by apply IH, dset_Forall.
Qed.

Section loaded.
Context (float_repr : string -> option string) (Hrepr : float_repr_law float_repr)
        (parse_constant : string -> result json)
        (Hconstant : forall s, is_ok (parse_constant s) = false).

Notation python_floats := (python_floats float_repr).

Lemma printable_list_intro allowed l :
  Forall (fun j => printable_in allowed j = true) l -> printable_in allowed (JList l) = true.
Proof.
  unfold printable_in. simpl. induction 1 as [|v l Hv _ IH]; [done|]. simpl.
  apply andb_true_iff in Hv as [-> ->], IH as [-> ->]. done.
Qed.

Lemma printable_object_intro allowed fs : NoDup (dkeys fs) ->
  Forall (fun f => printable_in allowed f.2 = true) fs -> printable_in allowed (JObj fs) = true.
Proof.
  intros Hk Hf. unfold printable_in. simpl. rewrite (bool_decide_true _ Hk). simpl. clear Hk.
  induction Hf as [|f fs Hv _ IH]; [done|]. simpl.
  apply andb_true_iff in Hv as [-> ->], IH as [-> ->]. done.
Qed.

(** Only the nesting of what was read is not written as it was read. *)
Lemma loaded_printable s v : loads_with default_object parse_constant s = Ok v ->
  printable_in constants (python_floats v) = true.
Proof.
  revert s v. apply loads_with_built.
  - intros ps v Hps [= <-]. simpl. apply printable_object_intro.
    + rewrite python_floats_keys. apply dict_of_keys.
    + apply Forall_map. simpl.
      exact (dict_of_Forall (fun v => printable_in constants (python_floats v) = true) _ Hps).
  - intros s v Hs. specialize (Hconstant s). by rewrite Hs in Hconstant.
  - by repeat constructor.
  - intros l neg i fe r v Hm Hv. unfold printable_in.
    pose proof (number_value_printable _ _ _ _ _ _ Hm Hv) as Hp.
    unfold number_value in Hv. destruct fe; ok_all; [by apply Z.leb_le in Hp|].
    by rewrite float_value_literal.
  - done.
  - intros l Hl. simpl. apply printable_list_intro. by apply Forall_map.
Qed.
End loaded.

(** Without the infinities, no constant is written. *)
Lemma finite_printable j : printable_in constants j = true -> all_finite j = true ->
  printable_in [] j = true.
Proof.
  induction j as [| | |s| |l IH|fs IH] using json_nested_ind; try done.
  - intros [Hs _]%andb_true_iff Hf%negb_true_iff%bool_decide_eq_false.
    apply andb_true_iff. split; [|done]. simpl in *. unfold float_literal in *.
    apply orb_true_iff. apply orb_true_iff in Hs as [Hs%bool_decide_eq_true|Hs]; [|by right].
    by destruct Hs.
  - intros Hl%printable_list Hf. apply printable_list_intro. simpl in Hf.
    rewrite forallb_forall in Hf. rewrite Forall_forall in *. intros v Hv.
    apply IH; [done|by apply Hl|]. by apply Hf, list_elem_of_In.
  - intros [Hk Hl]%printable_object Hf. apply printable_object_intro; [done|]. simpl in Hf.
    rewrite forallb_forall in Hf. rewrite Forall_forall in *. intros v Hv.
    apply IH; [done|by apply Hl|]. by apply (Hf v), list_elem_of_In.
Qed.
