(* ===== verification/Contracts.v ===== *)
(** The values exchanged with the services around the runtime: deployments and committed
    bars (utility/deployment_catalog/models.py, utility/committed_bar/models.py), the ABI
    open-position lookup (runtime/open_position/models.py), the Strategy Engine
    projections (runtime/engine), the ABI entry-package and recovery-state contracts
    (runtime/abi) and the position-management commands and confirmations
    (runtime/position_management_execution/models.py). *)
From S2P Require Import Prelude Errors DecimalText Models.

(** * Deployments and committed bars *)

Record DeploymentSpecification := {
  ds_strategy_instance_id : string;
  ds_enabled : bool;
  ds_instrument : string;
  ds_base_timeframe : string;
  ds_strategy_id : string;
  ds_raw_spec : dict json;
  ds_source_path : string }.

#[export] Instance DeploymentSpecification_eq_dec : EqDecision DeploymentSpecification.
Proof. solve_decision. Defined.

Definition DeploymentSpecification_post_init (d : DeploymentSpecification) :
    result DeploymentSpecification :=
  let non_blank s name :=
    require (negb (is_blank s)) ValueError (name +:+ " must be a non-empty string") in
  _ ← non_blank (ds_strategy_instance_id d) "strategy_instance_id";
  _ ← non_blank (ds_instrument d) "instrument";
  _ ← non_blank (ds_base_timeframe d) "base_timeframe";
  _ ← non_blank (ds_strategy_id d) "strategy_id";
  _ ← non_blank (ds_source_path d) "source_path";
  Ok d.

Record InvalidDeploymentFile := {
  iv_source_path : string; iv_error_code : string; iv_error_message : option string }.

Record DuplicateDeploymentIdentity := {
  dd_strategy_instance_id : string; dd_source_paths : list string }.

Record DeploymentCatalogSnapshot := {
  sn_scanned_file_count : Z;
  sn_accepted_deployments : list DeploymentSpecification;
  sn_invalid_files : list InvalidDeploymentFile;
  sn_duplicate_identities : list DuplicateDeploymentIdentity }.

(** The index [_by_strategy_instance_id]: a dict comprehension over the deployments. *)
Definition snapshot_index (l : list DeploymentSpecification) : dict DeploymentSpecification :=
  fold_left (fun index d => dset (ds_strategy_instance_id d) d index) l [].

Definition DeploymentCatalogSnapshot_post_init (s : DeploymentCatalogSnapshot) :
    result DeploymentCatalogSnapshot :=
  _ ← require (0 <=? sn_scanned_file_count s) ValueError
    "scanned_file_count must be non-negative";
  _ ← require (length (snapshot_index (sn_accepted_deployments s))
               =? length (sn_accepted_deployments s))%nat ValueError
    "accepted deployments must have unique stable identities";
  Ok s.

Definition get_by_strategy_instance_id (s : DeploymentCatalogSnapshot)
    (strategy_instance_id : string) : option DeploymentSpecification :=
  dget strategy_instance_id (snapshot_index (sn_accepted_deployments s)).

(** What the catalog promises to its clients. *)
Definition well_formed_catalog (snapshot : DeploymentCatalogSnapshot) : Prop :=
  DeploymentCatalogSnapshot_post_init snapshot = Ok snapshot /\
  Forall (fun d => DeploymentSpecification_post_init d = Ok d)
    (sn_accepted_deployments snapshot).

Lemma snapshot_index_length l acc :
  (length (fold_left (fun index d => dset (ds_strategy_instance_id d) d index) l acc)
   <= length acc + length l)%nat.
Proof.
  revert acc; induction l as [|d l IH]; intros acc; simpl; [lia|].
  specialize (IH (dset (ds_strategy_instance_id d) d acc)).
  assert (length (dset (ds_strategy_instance_id d) d acc) <= S (length acc))%nat as Hlen.
  { clear. induction acc as [|[k v] acc IHa]; simpl; [lia|]. case_decide; simpl; lia. }
  lia.
Qed.

Lemma dset_length_fresh {V} k (v : V) d :
  (length (dset k v d) = S (length d))%nat -> k ∉ dkeys d.
Proof.
  induction d as [|[k1 v1] d IH]; simpl; [by intros _ ?%elem_of_nil|].
  case_decide; simpl; [lia|]. intros [= Hlen]. rewrite not_elem_of_cons. auto.
Qed.

(** The check of [DeploymentCatalogSnapshot] is that no identity occurs twice. *)
Lemma snapshot_index_NoDup l acc :
  (length (fold_left (fun index d => dset (ds_strategy_instance_id d) d index) l acc)
   = length acc + length l)%nat ->
  NoDup (map ds_strategy_instance_id l) /\
  forall d, d ∈ l -> ds_strategy_instance_id d ∉ dkeys acc.
Proof.
  revert acc; induction l as [|d l IH]; intros acc; simpl.
  - intros _. split; [constructor|]. by intros d ?%elem_of_nil.
  - intros Hlen.
    pose proof (snapshot_index_length l (dset (ds_strategy_instance_id d) d acc)) as Hle.
    assert (length (dset (ds_strategy_instance_id d) d acc) <= S (length acc))%nat as Hle'.
    { clear. induction acc as [|[k v] acc IHa]; simpl; [lia|]. case_decide; simpl; lia. }
    assert (length (dset (ds_strategy_instance_id d) d acc) = S (length acc)) as Heq by lia.
    pose proof (dset_length_fresh _ _ _ Heq) as Hfresh.
    destruct (IH (dset (ds_strategy_instance_id d) d acc)) as [Hnd Hout]; [lia|].
    assert (dkeys (dset (ds_strategy_instance_id d) d acc)
            = dkeys acc ++ [ds_strategy_instance_id d]) as Hkeys.
    { rewrite dkeys_dset. by rewrite decide_False. }
    split.
    + apply NoDup_cons. split; [|done]. intros Hin.
      apply list_elem_of_fmap in Hin as (d' & Hid & Hin). specialize (Hout d' Hin).
      rewrite Hkeys, elem_of_app, list_elem_of_singleton in Hout. naive_solver.
    + intros d' [->|Hin]%elem_of_cons; [done|]. specialize (Hout d' Hin).
      rewrite Hkeys, elem_of_app in Hout. naive_solver.
Qed.

Lemma catalog_ids_NoDup snapshot :
  well_formed_catalog snapshot ->
  NoDup (map ds_strategy_instance_id (sn_accepted_deployments snapshot)).
Proof.
  intros [Hs _]. unfold DeploymentCatalogSnapshot_post_init in Hs. ok_inv Hs.
  rewrite require_Ok, Nat.eqb_eq in Hok0. by apply (snapshot_index_NoDup _ []).
Qed.

Lemma snapshot_index_map l acc :
  NoDup (map ds_strategy_instance_id l) ->
  (forall d, d ∈ l -> ds_strategy_instance_id d ∉ dkeys acc) ->
  fold_left (fun index d => dset (ds_strategy_instance_id d) d index) l acc =
    acc ++ map (fun d => (ds_strategy_instance_id d, d)) l.
Proof.
  revert acc. induction l as [|d l IH]; intros acc; simpl; [by rewrite app_nil_r|].
  intros [Hd Hl]%NoDup_cons Hacc.
  assert (forall acc : dict DeploymentSpecification, ds_strategy_instance_id d ∉ dkeys acc ->
    dset (ds_strategy_instance_id d) d acc = acc ++ [(ds_strategy_instance_id d, d)]) as Hset.
  { clear. induction acc as [|[k v] acc IH]; [done|]. simpl. rewrite not_elem_of_cons.
    intros [? ?]. rewrite decide_False by done. by rewrite IH. }
  rewrite Hset by (apply Hacc; left). rewrite IH; [by rewrite <- app_assoc|done|].
  intros d' Hin. unfold dkeys. rewrite map_app, elem_of_app. simpl.
  rewrite list_elem_of_singleton. intros [Hk|Hk].
  - apply (Hacc d'); [by right|done].
  - apply Hd. rewrite <- Hk. by apply list_elem_of_fmap_2.
Qed.

Lemma snapshot_post_init_NoDup s :
  NoDup (map ds_strategy_instance_id (sn_accepted_deployments s)) ->
  0 <= sn_scanned_file_count s -> DeploymentCatalogSnapshot_post_init s = Ok s.
Proof.
  intros Hs Hc. unfold DeploymentCatalogSnapshot_post_init, snapshot_index.
  rewrite snapshot_index_map; [|done|by intros d _ ?%elem_of_nil].
  apply Z.leb_le in Hc as ->. simpl. by rewrite length_map, Nat.eqb_refl.
Qed.

(** The index finds a deployment by its identity. *)
Lemma get_by_id_Some s id d :
  NoDup (map ds_strategy_instance_id (sn_accepted_deployments s)) ->
  get_by_strategy_instance_id s id = Some d <->
  d ∈ sn_accepted_deployments s /\ ds_strategy_instance_id d = id.
Proof.
  intros Hs. unfold get_by_strategy_instance_id, snapshot_index.
  rewrite snapshot_index_map; [simpl|done|by intros d' _ ?%elem_of_nil]. split.
  - intros Hd%dget_Some_elem. apply list_elem_of_fmap in Hd as (d' & [= -> ->] & ?). done.
  - intros [Hin <-]. apply elem_dget; [unfold dkeys; by rewrite map_map|].
    by apply (list_elem_of_fmap_2 (fun d => (ds_strategy_instance_id d, d))).
Qed.

Record CommittedBarEvent := {
  cb_instrument : string; cb_timeframe : string; cb_open_time_ms : Z }.

#[export] Instance CommittedBarEvent_eq_dec : EqDecision CommittedBarEvent.
Proof. solve_decision. Defined.

Definition CommittedBarEvent_post_init (e : CommittedBarEvent) : result CommittedBarEvent :=
  _ ← require (negb (is_blank (cb_instrument e))) ValueError
    "instrument must be a non-empty string";
  _ ← require (negb (is_blank (cb_timeframe e))) ValueError
    "timeframe must be a non-empty string";
  _ ← require (0 <=? cb_open_time_ms e) ValueError "open_time_ms must be non-negative";
  Ok e.

Record StrategyBarProcessingUnit := {
  pu_strategy_instance_id : string;
  pu_deployment : DeploymentSpecification;
  pu_committed_bar : CommittedBarEvent }.

(** * The ABI open-position lookup *)

Record OpenPositionLookupRequest := {
  lq_strategy_instance_id : string; lq_trade_cycle_id : string }.

Definition OpenPositionLookupRequest_post_init (r : OpenPositionLookupRequest) :
    result OpenPositionLookupRequest :=
  _ ← require (negb (is_blank (lq_strategy_instance_id r))) ValueError
    "strategy_instance_id must be non-empty";
  _ ← require (negb (is_blank (lq_trade_cycle_id r))) ValueError
    "trade_cycle_id must be non-empty";
  Ok r.

Record OpenPositionLookupResponse := {
  lr_position_open : bool;
  lr_first_fill_at_ms : option Z;
  lr_average_entry_price : option string;
  lr_closure : option TradeCycleClosure;
  lr_entry_order_link_id : option string;
  lr_entry_order_id : option string }.

(** [_validate_open_entry_order_identity] *)
Definition validate_open_entry_order_identity (link_id order_id : option string) :
    result unit :=
  _ ← require (match link_id with Some s => negb (is_empty s) | None => false end) ValueError
    "open position requires a non-empty entry_order_link_id";
  require (match order_id with Some s => negb (is_empty s) | None => true end) ValueError
    "entry_order_id must be a non-empty string or null".

Definition OpenPositionLookupResponse_post_init (r : OpenPositionLookupResponse) :
    result OpenPositionLookupResponse :=
  if lr_position_open r then
    _ ← require (is_none (lr_closure r)) ValueError "open position cannot carry a closure";
    match lr_first_fill_at_ms r, lr_average_entry_price r with
    | Some first_fill_at_ms, Some average_entry_price =>
        _ ← require (0 <? first_fill_at_ms) ValueError
          "first_fill_at_ms must be strictly positive";
        _ ← require (is_positive_exact_decimal_text average_entry_price) ValueError
          "average_entry_price must be positive exact-decimal text";
        _ ← validate_open_entry_order_identity (lr_entry_order_link_id r)
          (lr_entry_order_id r);
        price ← normalize_decimal_text average_entry_price;
        Ok {| lr_position_open := lr_position_open r;
              lr_first_fill_at_ms := lr_first_fill_at_ms r;
              lr_average_entry_price := Some price;
              lr_closure := lr_closure r;
              lr_entry_order_link_id := lr_entry_order_link_id r;
              lr_entry_order_id := lr_entry_order_id r |}
    | _, _ =>
        raise ValueError "open position requires first fill time and average entry price"
    end
  else
    _ ← require (is_none (lr_first_fill_at_ms r) && is_none (lr_average_entry_price r))
      ValueError "closed position cannot contain fill facts";
    _ ← require (is_none (lr_entry_order_link_id r) && is_none (lr_entry_order_id r))
      ValueError "closed position cannot identify an entry order";
    Ok r.

Record PositionResolvedStrategyInstanceRuntimeState := {
  ps_runtime_state : StrategyInstanceRuntimeState;
  ps_position_open : bool;
  ps_first_fill_at_ms : option Z;
  ps_average_entry_price : option string;
  ps_closure : option TradeCycleClosure;
  ps_entry_order_link_id : option string;
  ps_entry_order_id : option string }.

(** [replace(resolved, runtime_state=s)] *)
Definition with_runtime_state (p : PositionResolvedStrategyInstanceRuntimeState)
    (s : StrategyInstanceRuntimeState) : PositionResolvedStrategyInstanceRuntimeState :=
  {| ps_runtime_state := s;
     ps_position_open := ps_position_open p;
     ps_first_fill_at_ms := ps_first_fill_at_ms p;
     ps_average_entry_price := ps_average_entry_price p;
     ps_closure := ps_closure p;
     ps_entry_order_link_id := ps_entry_order_link_id p;
     ps_entry_order_id := ps_entry_order_id p |}.

(** * Strategy Engine projections *)

Record LiveEntryProjectionRequest := {
  lp_strategy_id : string;
  lp_raw_spec : dict json;
  lp_ticker : string;
  lp_base_timeframe : string;
  lp_target_bar_open_time_ms : Z }.

Record LiveEntryProjectionResponse := { lpr_desired_entry : option DesiredEntry }.

Record OpenTradeProjectionRequest := {
  op_strategy_id : string;
  op_raw_spec : dict json;
  op_ticker : string;
  op_base_timeframe : string;
  op_target_bar_open_time_ms : Z;
  op_desired_entry : DesiredEntry;
  op_entry_bar_open_time_ms : Z }.

Record OpenTradeProjectionResponse := {
  opr_desired_protection : DesiredProtection;
  opr_close_signal : CloseSignal;
  opr_diagnostics : dict json;
  opr_engine_desired_protection_text : EngineDesiredProtectionText }.

(** * The ABI entry-package contract (runtime/abi/entry_package_models.py) *)

Record EntryPackageWireDesiredEntry := {
  we_side : side;
  we_source_plan_bar_open_time_ms : Z;
  we_planned_entry_price : string;
  we_initial_stop_price : string;
  we_initial_take_price : string;
  we_locked_exit_profile : string }.

(** [_require_exact_decimal_text] and [_require_positive_exact_decimal_text] *)
Definition require_exact_decimal_text (value name : string) : result unit :=
  require (is_exact_decimal_text value) ValueError (name +:+ " must be exact-decimal text").
Definition require_positive_exact_decimal_text (value name : string) : result unit :=
  require (is_positive_exact_decimal_text value) ValueError
    (name +:+ " must be positive exact-decimal text").

(** [if value is not None: check(value)] *)
Definition if_present {A} (o : option A) (check : A -> result unit) : result unit :=
  match o with Some a => check a | None => Ok tt end.

Definition EntryPackageWireDesiredEntry_post_init (e : EntryPackageWireDesiredEntry) :
    result EntryPackageWireDesiredEntry :=
  _ ← require_exact_decimal_text (we_planned_entry_price e) "planned_entry_price";
  _ ← require_exact_decimal_text (we_initial_stop_price e) "initial_stop_price";
  _ ← require_positive_exact_decimal_text (we_initial_take_price e) "initial_take_price";
  Ok e.

Record EntryPackageRequest := {
  er_strategy_instance_id : string;
  er_trade_cycle_id : string;
  er_ticker : string;
  er_desired_entry : option EntryPackageWireDesiredEntry;
  er_risk_multiplier : string }.

Definition EntryPackageRequest_post_init (r : EntryPackageRequest) :
    result EntryPackageRequest :=
  _ ← require_non_empty_string (er_strategy_instance_id r) "strategy_instance_id";
  _ ← require_non_empty_string (er_trade_cycle_id r) "trade_cycle_id";
  _ ← require_non_empty_string (er_ticker r) "ticker";
  _ ← require_positive_exact_decimal_text (er_risk_multiplier r) "risk_multiplier";
  Ok r.

Record EntryPackageApplied := {
  ea_strategy_instance_id : string;
  ea_trade_cycle_id : string;
  ea_applied_desired_entry : EntryPackageWireDesiredEntry;
  ea_calculated_quantity : string;
  ea_trigger_price : option string;
  ea_stop_loss : option string;
  ea_take_profit : option string;
  ea_quantity : option string;
  ea_order_link_id : option string;
  ea_order_id : option string }.

Definition EntryPackageApplied_post_init (a : EntryPackageApplied) :
    result EntryPackageApplied :=
  _ ← require_non_empty_string (ea_strategy_instance_id a) "strategy_instance_id";
  _ ← require_non_empty_string (ea_trade_cycle_id a) "trade_cycle_id";
  _ ← require_exact_decimal_text (ea_calculated_quantity a) "calculated_quantity";
  let exact name o := if_present o (fun v => require_exact_decimal_text v name) in
  _ ← exact "trigger_price" (ea_trigger_price a);
  _ ← exact "stop_loss" (ea_stop_loss a);
  _ ← exact "take_profit" (ea_take_profit a);
  _ ← exact "quantity" (ea_quantity a);
  let non_empty name o := if_present o (fun v => require_non_empty_string v name) in
  _ ← non_empty "order_link_id" (ea_order_link_id a);
  _ ← non_empty "order_id" (ea_order_id a);
  Ok a.

Record EntryPackageAbsent := {
  eb_strategy_instance_id : string; eb_trade_cycle_id : string }.

Definition EntryPackageAbsent_post_init (a : EntryPackageAbsent) : result EntryPackageAbsent :=
  _ ← require_non_empty_string (eb_strategy_instance_id a) "strategy_instance_id";
  _ ← require_non_empty_string (eb_trade_cycle_id a) "trade_cycle_id";
  Ok a.

Record EntryPackageDeclined := {
  ec_strategy_instance_id : string;
  ec_trade_cycle_id : string;
  ec_decline_reason : string;
  ec_decline_message : string }.

(** [_DECLINE_REASON.fullmatch]: [[a-z][a-z0-9_]{0,63}]. *)
Definition is_lower (c : ascii) : bool :=
  let n := N_of_ascii c in ((97 <=? n) && (n <=? 122))%N.
Definition is_decline_reason (s : string) : bool :=
  match chars s with
  | c :: l =>
      is_lower c && (length l <=? 63)%nat
      && forallb (fun c => is_lower c || is_digit c || bool_decide (c = "_"%char)) l
  | [] => false
  end.

Definition EntryPackageDeclined_post_init (d : EntryPackageDeclined) :
    result EntryPackageDeclined :=
  _ ← require_non_empty_string (ec_strategy_instance_id d) "strategy_instance_id";
  _ ← require_non_empty_string (ec_trade_cycle_id d) "trade_cycle_id";
  _ ← require (is_decline_reason (ec_decline_reason d)) ValueError
    "decline_reason must be a snake_case code of at most 64 characters";
  _ ← require_non_empty_string (ec_decline_message d) "decline_message";
  Ok d.

Record EntryPackageValidationDetail := { vd_path : string; vd_message : string }.

(** [EntryPackageResult]: the acknowledgements and the public errors. *)
Inductive EntryPackageResult :=
| EpApplied (a : EntryPackageApplied)
| EpAbsent (a : EntryPackageAbsent)
| EpDeclined (d : EntryPackageDeclined)
| EpMalformedJson (message : string)
| EpUnsupportedMediaType (message : string)
| EpValidationFailed (message : string) (details : list EntryPackageValidationDetail)
| EpInternalError (message : string)
| EpExecutionNotReady (message : string).

(** The class attribute [code] of the public errors. *)
Definition entry_package_error_code (r : EntryPackageResult) : option string :=
  match r with
  | EpMalformedJson _ => Some "malformed_json"
  | EpUnsupportedMediaType _ => Some "unsupported_media_type"
  | EpValidationFailed _ _ => Some "validation_failed"
  | EpInternalError _ => Some "internal_error"
  | EpExecutionNotReady _ => Some "execution_not_ready"
  | EpApplied _ | EpAbsent _ | EpDeclined _ => None
  end.

(** * The ABI recovery-state contract (runtime/abi/entry_cycle_recovery_models.py) *)

Record RecoveryStateAppliedEntryPackage := {
  ra_applied_desired_entry : EntryPackageWireDesiredEntry;
  ra_calculated_quantity : string }.

Definition RecoveryStateAppliedEntryPackage_post_init
    (p : RecoveryStateAppliedEntryPackage) : result RecoveryStateAppliedEntryPackage :=
  _ ← require (is_exact_decimal_text (ra_calculated_quantity p)) ValueError
    "calculated_quantity must be exact-decimal text";
  Ok p.

Record PositionOpenRecoveryState := {
  po_applied_entry_package : RecoveryStateAppliedEntryPackage;
  po_first_fill_at_ms : Z;
  po_average_entry_price : string;
  po_entry_order_link_id : string;
  po_entry_order_id : option string }.

Definition PositionOpenRecoveryState_post_init (p : PositionOpenRecoveryState) :
    result PositionOpenRecoveryState :=
  _ ← require (0 <? po_first_fill_at_ms p) ValueError
    "first_fill_at_ms must be a strictly positive integer";
  _ ← require (is_positive_exact_decimal_text (po_average_entry_price p)) ValueError
    "average_entry_price must be positive exact-decimal text";
  _ ← require (negb (is_empty (po_entry_order_link_id p))) ValueError
    "entry_order_link_id must be a non-empty string";
  _ ← require (match po_entry_order_id p with Some s => negb (is_empty s) | None => true end)
    ValueError "entry_order_id must be a non-empty string or None";
  Ok p.

Inductive RecoveryStateResponse :=
| EntryOrderLive (p : RecoveryStateAppliedEntryPackage)
| EntryOrderNotFound
| RecoveryPositionOpen (p : PositionOpenRecoveryState)
| TerminalWithoutFill
| TerminalAfterFill.

(** * Position-management commands and confirmations *)

Record ApplyProtectionCommand := {
  apc_strategy_instance_id : string;
  apc_trade_cycle_id : string;
  apc_desired_protection : DesiredProtection }.

Definition ApplyProtectionCommand_post_init (c : ApplyProtectionCommand) :
    result ApplyProtectionCommand :=
  _ ← require_non_empty_string (apc_strategy_instance_id c) "strategy_instance_id";
  _ ← require_non_empty_string (apc_trade_cycle_id c) "trade_cycle_id";
  Ok c.

Definition CANONICAL_CLOSE_EXPOSURE_FRACTION := "1".

Record ClosePositionCommand := {
  cpc_strategy_instance_id : string;
  cpc_trade_cycle_id : string;
  cpc_exposure_fraction : string }.

Definition ClosePositionCommand_post_init (c : ClosePositionCommand) :
    result ClosePositionCommand :=
  _ ← require_non_empty_string (cpc_strategy_instance_id c) "strategy_instance_id";
  _ ← require_non_empty_string (cpc_trade_cycle_id c) "trade_cycle_id";
  _ ← require (bool_decide (cpc_exposure_fraction c = CANONICAL_CLOSE_EXPOSURE_FRACTION))
    ValueError "exposure_fraction must be the canonical value ";
  Ok c.

Record ProtectionOrder := { pro_order_id : string; pro_trigger_price : string }.

Definition ProtectionOrder_post_init (o : ProtectionOrder) : result ProtectionOrder :=
  _ ← require_non_empty_string (pro_order_id o) "order_id";
  _ ← require_positive_exact_decimal_text (pro_trigger_price o) "trigger_price";
  Ok o.

Record ProtectionOrders := {
  pos_quantity : string; pos_stop : ProtectionOrder; pos_take : ProtectionOrder }.

Definition ProtectionOrders_post_init (o : ProtectionOrders) : result ProtectionOrders :=
  _ ← require_positive_exact_decimal_text (pos_quantity o) "quantity"; Ok o.

Record ProtectionAppliedConfirmation := {
  pac_strategy_instance_id : string;
  pac_trade_cycle_id : string;
  pac_confirmed_protection : DesiredProtection;
  pac_protection_orders : ProtectionOrders }.

Definition ProtectionAppliedConfirmation_post_init (c : ProtectionAppliedConfirmation) :
    result ProtectionAppliedConfirmation :=
  _ ← require_non_empty_string (pac_strategy_instance_id c) "strategy_instance_id";
  _ ← require_non_empty_string (pac_trade_cycle_id c) "trade_cycle_id";
  Ok c.

Record PositionClosedConfirmation := {
  pcc_strategy_instance_id : string;
  pcc_trade_cycle_id : string;
  pcc_closure : option TradeCycleClosure }.

Definition PositionClosedConfirmation_post_init (c : PositionClosedConfirmation) :
    result PositionClosedConfirmation :=
  _ ← require_non_empty_string (pcc_strategy_instance_id c) "strategy_instance_id";
  _ ← require_non_empty_string (pcc_trade_cycle_id c) "trade_cycle_id";
  _ ← if_present (pcc_closure c) (fun closure =>
    require (bool_decide (cl_strategy_instance_id closure = pcc_strategy_instance_id c)
             && bool_decide (cl_trade_cycle_id closure = pcc_trade_cycle_id c)) ValueError
      "closure identity does not match the confirmation");
  Ok c.

Definition ENTRY_REMAINDER_CANCELLED := "entry_remainder_cancelled".
Definition ENTRY_ORDER_ALREADY_TERMINAL := "entry_order_already_terminal".
Definition ENTRY_REMAINDER_CANCEL_STATUSES : list string :=
  [ENTRY_REMAINDER_CANCELLED; ENTRY_ORDER_ALREADY_TERMINAL].

Record EntryRemainderCancelConfirmation := {
  rcc_strategy_instance_id : string;
  rcc_trade_cycle_id : string;
  rcc_status : string;
  rcc_executed_quantity : option string }.

Definition EntryRemainderCancelConfirmation_post_init (c : EntryRemainderCancelConfirmation) :
    result EntryRemainderCancelConfirmation :=
  _ ← require_non_empty_string (rcc_strategy_instance_id c) "strategy_instance_id";
  _ ← require_non_empty_string (rcc_trade_cycle_id c) "trade_cycle_id";
  _ ← require (bool_decide (rcc_status c ∈ ENTRY_REMAINDER_CANCEL_STATUSES)) ValueError
    "status must be an entry-remainder cancel status";
  _ ← if_present (rcc_executed_quantity c) (fun q =>
    require_positive_exact_decimal_text q "executed_quantity");
  Ok c.

(** * Committed-bar outcomes (utility/committed_bar/models.py) *)

Inductive StrategyCycleDispatchStatus := SUCCEEDED | FAILED.
#[export] Instance StrategyCycleDispatchStatus_eq_dec : EqDecision StrategyCycleDispatchStatus.
Proof. solve_decision. Defined.

Record StrategyCycleDispatchOutcome := {
  so_strategy_instance_id : string;
  so_status : StrategyCycleDispatchStatus;
  so_error_code : option string;
  so_error_message : option string }.

Definition StrategyCycleDispatchOutcome_post_init (o : StrategyCycleDispatchOutcome) :
    result StrategyCycleDispatchOutcome :=
  _ ← require (negb (is_blank (so_strategy_instance_id o))) ValueError
    "strategy_instance_id must be a non-empty string";
  match so_status o with
  | SUCCEEDED =>
      _ ← require (is_none (so_error_code o) && is_none (so_error_message o)) ValueError
        "successful outcome cannot contain error details";
      Ok o
  | FAILED =>
      _ ← require (is_some (so_error_code o)) ValueError "failed outcome requires error_code";
      Ok o
  end.

Definition outcome_succeeded (strategy_instance_id : string) :
    result StrategyCycleDispatchOutcome :=
  StrategyCycleDispatchOutcome_post_init
    {| so_strategy_instance_id := strategy_instance_id; so_status := SUCCEEDED;
       so_error_code := None; so_error_message := None |}.

Definition outcome_failed (strategy_instance_id error_code : string)
    (error_message : option string) : result StrategyCycleDispatchOutcome :=
  StrategyCycleDispatchOutcome_post_init
    {| so_strategy_instance_id := strategy_instance_id; so_status := FAILED;
       so_error_code := Some error_code; so_error_message := error_message |}.

Record CommittedBarOrchestrationResult := {
  or_selected_count : Z;
  or_attempted_count : Z;
  or_succeeded_count : Z;
  or_failed_count : Z;
  or_outcomes : list StrategyCycleDispatchOutcome }.

Definition CommittedBarOrchestrationResult_post_init (r : CommittedBarOrchestrationResult) :
    result CommittedBarOrchestrationResult :=
  _ ← require (negb (existsb (fun count => count <? 0)
      [or_selected_count r; or_attempted_count r; or_succeeded_count r; or_failed_count r]))
    ValueError "orchestration counts must be non-negative";
  _ ← require (or_attempted_count r =? Z.of_nat (length (or_outcomes r))) ValueError
    "attempted_count must equal the number of outcomes";
  _ ← require (or_succeeded_count r + or_failed_count r =? or_attempted_count r) ValueError
    "success and failure counts must equal attempted_count";
  _ ← require (or_attempted_count r =? or_selected_count r) ValueError
    "every selected deployment must be attempted exactly once";
  Ok r.
