(* ===== verification/DeploymentCatalog.v ===== *)
(** The deployment catalog (utility/deployment_catalog/identity.py, filesystem_adapter.py):
    the deployment files of one directory, the identity derived from what a deployment
    trades, and the snapshot the rest of the runtime selects from.

    A directory maps names to entries; what reading an entry gives, its bytes or the text of
    an [OSError], is part of the entry. *)
From stdpp Require Import sorting.
From S2P Require Import Prelude Errors DecimalText DecimalCanonical Models Json JsonFacts JsonPretty JsonLoad Contracts.

(** * Directories *)

Inductive entry :=
| File (mode : Z) (content : list ascii)
| Unreadable (mode : Z) (error : string)
| Folder (files : gmap string (Z * (list ascii + string)))
| Special.

Notation directory := (gmap string entry).

Definition no_such_file {A} : result A := raise OSError "No such file or directory".

(** [path.read_bytes()] *)
Definition read_bytes (e : option entry) : result (list ascii) :=
  match e with
  | Some (File _ content) => Ok content
  | Some (Unreadable _ error) => raise OSError error
  | Some (Folder _) => raise OSError "Is a directory"
  | Some Special => raise OSError "No such device or address"
  | None => no_such_file
  end.

(** [path.is_file()] *)
Definition is_file (e : entry) : bool :=
  match e with File _ _ | Unreadable _ _ => true | _ => false end.

Definition is_dot (c : ascii) : bool := bool_decide (c = "."%char).

Definition hidden (name : string) : bool :=
  match name with String c _ => is_dot c | EmptyString => false end.

(** [path.stem] and [path.suffix]: cut at the last dot, when it is neither the first nor the
    last character of the name. *)
Definition stem_suffix (name : string) : list ascii * list ascii :=
  let '(extension, rest) := span (fun c => negb (is_dot c)) (reverse (chars name)) in
  match extension, rest with
  | _ :: _, dot :: (_ :: _) as before => (reverse (tail rest), dot :: reverse extension)
  | _, _ => (chars name, [])
  end.

Definition is_candidate (file : string * entry) : bool :=
  is_file file.2 && negb (hidden file.1)
  && bool_decide ((stem_suffix file.1).2 = chars ".json").

(** [_enumerate_candidates] *)
Definition candidates (dir : directory) : list (string * entry) :=
  sort_by fst (filter (fun file => is_candidate file = true) (map_to_list dir)).

(** * Identities *)

(** [str] of a decoded value, as an f-string formats it; a float has its shortest text. *)
Section formatting.

Definition hex_escape (c : ascii) : list ascii :=
  [backslash; "x"%char; hex_digit (N_of_ascii c / 16); hex_digit (N_of_ascii c mod 16)].

Definition is_unprintable (c : ascii) : bool :=
  let n := N_of_ascii c in ((n <? 32) || (127 <=? n) && (n <=? 160) || (n =? 173))%N.

Definition repr_char (quote c : ascii) : list ascii :=
  if decide (c = quote \/ c = backslash) then [backslash; c]
  else if decide (c = "009"%char) then [backslash; "t"%char]
  else if decide (c = "010"%char) then [backslash; "n"%char]
  else if decide (c = "013"%char) then [backslash; "r"%char]
  else if is_unprintable c then hex_escape c
  else [c].

(** [repr] of a text: single quotes, unless only they occur in it. *)
Definition repr_string (s : string) : list ascii :=
  let quote :=
    if decide ("'"%char ∈ chars s /\ quotation_mark ∉ chars s) then quotation_mark else "'"%char in
  quote :: flat_map (repr_char quote) (chars s) ++ [quote].

Fixpoint repr_json (j : json) : list ascii :=
  match j with
  | JNull => chars "None"
  | JBool true => chars "True"
  | JBool false => chars "False"
  | JInt z => int_text z
  | JFloat literal => chars literal
  | JStr s => repr_string s
  | JList [] => chars "[]"
  | JList (v :: items) =>
      "["%char :: repr_json v ++ flat_map (fun v => chars ", " ++ repr_json v) items ++ ["]"%char]
  | JObj [] => chars "{}"
  | JObj (f :: fields) =>
      let member f := repr_string f.1 ++ chars ": " ++ repr_json f.2 in
      "{"%char :: member f ++ flat_map (fun f => chars ", " ++ member f) fields ++ ["}"%char]
  end.

Definition format_value (j : json) : string :=
  match j with JStr s => s | _ => text (repr_json j) end.
End formatting.

Definition DIGEST_HEX_LENGTH : nat := 24.

Definition identity_payload (strategy_id ticker base_timeframe raw_spec : json) : json :=
  JObj [("strategy_id", strategy_id); ("ticker", ticker);
        ("base_timeframe", base_timeframe); ("raw_spec", raw_spec)].

Section catalog.
(** [hashlib.sha256(b).hexdigest()] and [repr(float(s))]. *)
Context (sha256_hexdigest : list ascii -> string) (float_repr : string -> option string).

Definition canonical_payload (payload : json) : result (list ascii) :=
  _ ← require (all_finite payload) ValueError "Out of range float values are not JSON compliant";
  canonical ← dumps payload;
  Ok (utf8 (chars canonical)).

Definition derive_strategy_instance_id (strategy_id ticker base_timeframe raw_spec : json) :
    result string :=
  canonical ← canonical_payload (identity_payload strategy_id ticker base_timeframe raw_spec);
  let digest := text (take DIGEST_HEX_LENGTH (chars (sha256_hexdigest canonical))) in
  Ok (format_value strategy_id +:+ ":" +:+ digest).

(** * Deployment documents *)

Definition invalid_deployment {A} (code : string) (message : option string) : result A :=
  raise (InvalidDeployment code message) code.

Definition reject_non_finite_number (value : string) : result json :=
  raise ValueError "non-finite JSON number is not allowed: ".

(** [json.loads(text, parse_constant=_reject_non_finite_number)] *)
Definition loads_document (t : list ascii) : result json :=
  document ← loads_with default_object reject_non_finite_number (text t);
  Ok (python_floats float_repr document).

Definition read_document (e : entry) : result json :=
  content ← match read_bytes (Some e) with
            | Raise exc =>
                if is_os_error (exn_cls exc)
                then invalid_deployment "file_read_failed" (Some (exn_msg exc)) else Raise exc
            | Ok content => Ok content
            end;
  t ← utf8_decode content;
  match loads_document (universal_newlines t) with
  | Raise exc =>
      if is_value_error (exn_cls exc)
      then invalid_deployment "invalid_json" (Some (exn_msg exc)) else Raise exc
  | Ok document => Ok document
  end.

Definition FORBIDDEN_OBSOLETE_FIELDS : list string :=
  ["strategy_instance_id"; "strategy_version"; "compatibility_profile"].

Fixpoint forbid_fields (names : list string) (document : dict json) : result unit :=
  match names with
  | [] => Ok tt
  | field_name :: names =>
      match dget field_name document with
      | Some _ => invalid_deployment "forbidden_obsolete_field" (Some field_name)
      | None => forbid_fields names document
      end
  end.

Definition required_field (document : dict json) (field_name : string) : result json :=
  match dget field_name document with
  | Some value => Ok value
  | None => invalid_deployment "missing_required_field" (Some field_name)
  end.

(** The body of the loop over [_REQUIRED_STRINGS]. *)
Definition required_string (document : dict json) (field_name : string) : result string :=
  value ← required_field document field_name;
  match value with
  | JStr s =>
      if is_blank s then invalid_deployment "empty_required_field" (Some field_name) else Ok s
  | _ => invalid_deployment "invalid_field_type" (Some field_name)
  end.

Definition parse_deployment (filename : string) (document : json) :
    result DeploymentSpecification :=
  document ← match document with
             | JObj document => Ok document
             | _ => invalid_deployment "invalid_root" None
             end;
  _ ← forbid_fields FORBIDDEN_OBSOLETE_FIELDS document;
  enabled ← required_field document "enabled";
  enabled ← match enabled with
            | JBool enabled => Ok enabled
            | _ => invalid_deployment "invalid_field_type" (Some "enabled")
            end;
  ticker ← required_string document "ticker";
  base_timeframe ← required_string document "base_timeframe";
  strategy_id ← required_string document "strategy_id";
  raw_spec ← required_field document "raw_spec";
  raw_spec ← match raw_spec with
             | JObj raw_spec => Ok raw_spec
             | _ => invalid_deployment "invalid_raw_spec" None
             end;
  strategy_instance_id ← derive_strategy_instance_id (JStr strategy_id) (JStr ticker)
    (JStr base_timeframe) (JObj raw_spec);
  DeploymentSpecification_post_init
    {| ds_strategy_instance_id := strategy_instance_id; ds_enabled := enabled;
       ds_instrument := ticker; ds_base_timeframe := base_timeframe;
       ds_strategy_id := strategy_id; ds_raw_spec := raw_spec; ds_source_path := filename |}.

(** * The snapshot *)

Definition read_deployment (file : string * entry) : result DeploymentSpecification :=
  document ← read_document file.2;
  parse_deployment file.1 document.

(** The loop over the candidates. *)
Fixpoint scan_candidates (files : list (string * entry)) :
    result (list DeploymentSpecification * list InvalidDeploymentFile) :=
  match files with
  | [] => Ok ([], [])
  | file :: files =>
      match read_deployment file with
      | Ok deployment =>
          '(accepted, invalid) ← scan_candidates files; Ok (deployment :: accepted, invalid)
      | Raise (Exn (InvalidDeployment code message) _) =>
          '(accepted, invalid) ← scan_candidates files;
          Ok (accepted,
              {| iv_source_path := file.1; iv_error_code := code; iv_error_message := message |}
              :: invalid)
      | Raise exc => Raise exc
      end
  end.

(** [grouped[deployment.strategy_instance_id].append(deployment)] *)
Definition grouped (deployments : list DeploymentSpecification) :
    dict (list DeploymentSpecification) :=
  foldl (fun groups deployment =>
      let id := ds_strategy_instance_id deployment in
      dset id (default [] (dget id groups) ++ [deployment]) groups) [] deployments.

Definition duplicate_identities (deployments : list DeploymentSpecification) :
    list DuplicateDeploymentIdentity :=
  map (fun group => {|
      dd_strategy_instance_id := group.1;
      dd_source_paths := sort_by id (map ds_source_path group.2) |})
    (filter (fun group => 1 < length group.2)%nat (sort_by fst (grouped deployments))).

Definition accepted_deployments (deployments : list DeploymentSpecification) :
    list DeploymentSpecification :=
  let duplicate_ids := map dd_strategy_instance_id (duplicate_identities deployments) in
  filter (fun deployment => ds_strategy_instance_id deployment ∉ duplicate_ids) deployments.

(** [FilesystemDeploymentCatalog.load_snapshot]; no directory when it cannot be scanned. *)
Definition load_snapshot (root : option directory) : result DeploymentCatalogSnapshot :=
  match root with
  | None => raise DeploymentCatalogUnavailableError "deployment catalog directory scan failed"
  | Some dir =>
      let files := candidates dir in
      '(accepted_candidates, invalid_files) ← scan_candidates files;
      DeploymentCatalogSnapshot_post_init
        {| sn_scanned_file_count := Z.of_nat (length files);
           sn_accepted_deployments := accepted_deployments accepted_candidates;
           sn_invalid_files := invalid_files;
           sn_duplicate_identities := duplicate_identities accepted_candidates |}
  end.
End catalog.

(** * The candidates of a directory *)

Lemma elem_of_candidates dir file :
  file ∈ candidates dir <-> dir !! file.1 = Some file.2 /\ is_candidate file = true.
Proof.
  unfold candidates. rewrite (sort_by_perm fst), list_elem_of_filter.
  destruct file as [name e]. rewrite elem_of_map_to_list. tauto.
Qed.

Lemma visible_NoDup dir : NoDup (map fst (filter (fun file => is_candidate file = true) (map_to_list dir))).
Proof.
  eapply sublist_NoDup; [apply (NoDup_fst_map_to_list dir)|]. apply fmap_sublist, sublist_filter.
Qed.

Lemma candidates_NoDup dir : NoDup (map fst (candidates dir)).
Proof.
  unfold candidates. rewrite (sort_by_perm fst). apply visible_NoDup.
Qed.

Lemma string_leb_antisymm a b : string_leb a b = true -> string_leb b a = true -> a = b.
Proof.
  revert b. induction a as [|x a IH]; intros [|y b]; simpl; try done.
  rewrite !orb_true_iff, !andb_true_iff, !N.ltb_lt, !N.eqb_eq.
  intros [?|[Hx Ha]] [?|[Hy Hb]]; try lia.
  rewrite (IH b) by done. f_equal. by rewrite <- (ascii_N_embedding x), Hx, ascii_N_embedding.
Qed.

Lemma sorted_strongly {A} (key : A -> string) l :
  Sorted (key_le key) l -> StronglySorted (key_le key) l.
Proof. apply Sorted_StronglySorted. intros x y z. apply string_leb_trans. Qed.

Lemma NoDup_map_inj {A B} (key : A -> B) l x y :
  NoDup (map key l) -> x ∈ l -> y ∈ l -> key x = key y -> x = y.
Proof.
  induction l as [|z l IH]; simpl; [by intros _ ?%elem_of_nil|].
  intros [Hz Hl]%NoDup_cons [->|Hx]%elem_of_cons [->|Hy]%elem_of_cons Heq; auto.
  - destruct Hz. rewrite Heq. by apply list_elem_of_fmap_2.
  - destruct Hz. rewrite <- Heq. by apply list_elem_of_fmap_2.
Qed.

(** A list with different keys has one sorted order. *)
Lemma sort_by_unique {A} (key : A -> string) l l' :
  NoDup (map key l) -> l ≡ₚ l' -> sort_by key l = sort_by key l'.
Proof.
  intros Hl Hp. eapply StronglySorted_unique_strong; [|apply sorted_strongly, sort_by_sorted..|].
  - intros x y Hx Hy Hxy Hyx. rewrite (sort_by_perm key) in Hx, Hy. rewrite <- Hp in Hy.
    apply (NoDup_map_inj key l); [done..|]. by apply string_leb_antisymm.
  - by rewrite !(sort_by_perm key).
Qed.

(** What is not a candidate is not seen. *)
Lemma candidates_insert_other dir name e :
  is_candidate (name, e) = false ->
  (forall e', dir !! name = Some e' -> is_candidate (name, e') = false) ->
  candidates (<[name := e]> dir) = candidates dir.
Proof.
  intros He Hold. apply sort_by_unique; [apply visible_NoDup|].
  apply NoDup_Permutation.
  1-2: apply NoDup_filter, NoDup_map_to_list.
  intros [n x]. rewrite !list_elem_of_filter, !elem_of_map_to_list.
  destruct (decide (n = name)) as [->|Hn]; [|by rewrite lookup_insert_ne].
  rewrite lookup_insert_eq. split; [naive_solver congruence|].
  intros [Hc Hx]. by rewrite (Hold _ Hx) in Hc.
Qed.

(** * Grouping *)

Notation id_of := ds_strategy_instance_id.

Definition with_id (i : string) (l : list DeploymentSpecification) :=
  filter (fun d => id_of d = i) l.

Lemma with_id_app i l l' : with_id i (l ++ l') = with_id i l ++ with_id i l'.
Proof. apply filter_app. Qed.

(** The group of an identity is the deployments that have it, in their order. *)
Lemma grouped_spec l : NoDup (dkeys (grouped l)) /\
  forall i, dget i (grouped l) = match with_id i l with [] => None | ds => Some ds end.
Proof.
  induction l as [|d l [IHk IHg]] using rev_ind; [by split; [constructor|]|].
  unfold grouped. rewrite foldl_app. simpl. fold (grouped l). split; [by apply dset_NoDup|].
  intros i. rewrite dget_dset, with_id_app, !IHg.
  assert (with_id i [d] = if decide (id_of d = i) then [d] else []) as -> by done.
  destruct (decide (i = id_of d)) as [->|Hi].
  - rewrite decide_True by done. by destruct (with_id _ l) as [|d' ds].
  - by rewrite decide_False, app_nil_r by done.
Qed.

Lemma elem_of_duplicates i l :
  i ∈ map dd_strategy_instance_id (duplicate_identities l) <-> (1 < length (with_id i l))%nat.
Proof.
  destruct (grouped_spec l) as [Hk Hg]. unfold duplicate_identities. rewrite map_map. simpl.
  rewrite list_elem_of_fmap. setoid_rewrite list_elem_of_filter.
  setoid_rewrite (sort_by_perm fst). split.
  - intros ([j ds] & -> & Hlen & Hin). simpl in *. apply (elem_dget _ _ _ Hk) in Hin.
    rewrite Hg in Hin. by destruct (with_id j l); simplify_eq.
  - intros Hlen. exists (i, with_id i l). split_and!; [done..|].
    apply dget_Some_elem. rewrite Hg. by destruct (with_id i l); [simpl in Hlen; lia|].
Qed.

Lemma with_id_unique d l : d ∈ l ->
  ~ (1 < length (with_id (id_of d) l))%nat <-> with_id (id_of d) l = [d].
Proof.
  intros Hd. assert (d ∈ with_id (id_of d) l) as Hin by (by apply list_elem_of_filter).
  destruct (with_id (id_of d) l) as [|d1 [|d2 ds]]; simpl; [by apply elem_of_nil in Hin| |].
  - apply list_elem_of_singleton in Hin as ->. split; [done|lia].
  - split; [lia|done].
Qed.

(** A deployment is accepted when no other one has its identity. *)
Lemma elem_of_accepted d l :
  d ∈ accepted_deployments l <-> d ∈ l /\ with_id (id_of d) l = [d].
Proof.
  unfold accepted_deployments. rewrite list_elem_of_filter, elem_of_duplicates.
  split; intros [H1 H2].
  - split; [done|]. by apply with_id_unique.
  - split; [by apply with_id_unique|done].
Qed.

Lemma unique_ids_NoDup (p : DeploymentSpecification -> Prop) `{forall d, Decision (p d)} l :
  (forall d, p d -> (length (with_id (id_of d) l) <= 1)%nat) -> NoDup (map id_of (filter p l)).
Proof.
  induction l as [|d l IH]; intros Hall; [constructor|].
  assert (forall i, (length (with_id i l) <= length (with_id i (d :: l)))%nat) as Hle.
  { intros i. unfold with_id. rewrite filter_cons. case_decide; simpl; lia. }
  assert (NoDup (map id_of (filter p l))) as Hl.
  { apply IH. intros d' Hd'. specialize (Hall _ Hd'). specialize (Hle (id_of d')). lia. }
  rewrite filter_cons. case_decide as Hd; [|done]. simpl. apply NoDup_cons. split; [|done].
  intros Hin. apply list_elem_of_fmap in Hin as (d' & Heq & [_ Hin]%list_elem_of_filter).
  specialize (Hall d Hd). unfold with_id in Hall. rewrite filter_cons_True in Hall by done.
  assert (d' ∈ filter (fun x => id_of x = id_of d) l) as Hd' by (by apply list_elem_of_filter).
  destruct (filter (fun x => id_of x = id_of d) l); [by apply elem_of_nil in Hd'|].
  simpl in Hall. lia.
Qed.

Lemma accepted_NoDup l : NoDup (map id_of (accepted_deployments l)).
Proof.
  apply unique_ids_NoDup. intros d Hd. rewrite elem_of_duplicates in Hd. lia.
Qed.

(** ** Every group, flattened *)

Lemma dset_group_flat (g : dict (list DeploymentSpecification)) i d :
  flat_map snd (dset i (default [] (dget i g) ++ [d]) g) ≡ₚ flat_map snd g ++ [d].
Proof.
  induction g as [|[j ds] g IH]; [done|]. simpl. case_decide as Hij; simpl.
  - rewrite <- !app_assoc. f_equiv. apply Permutation_app_comm.
  - rewrite IH. by rewrite app_assoc.
Qed.

Lemma grouped_flat l : flat_map snd (grouped l) ≡ₚ l.
Proof.
  induction l as [|d l IH] using rev_ind; [done|]. unfold grouped. rewrite foldl_app. simpl.
  fold (grouped l). by rewrite dset_group_flat, IH.
Qed.

Lemma flat_map_filter {A B} (f : A -> list B) (P : A -> Prop) (Q : B -> Prop)
    `{forall a, Decision (P a)} `{forall b, Decision (Q b)} l :
  Forall (fun a => Forall (fun b => Q b <-> P a) (f a)) l ->
  flat_map f (filter P l) = filter Q (flat_map f l).
Proof.
  induction 1 as [|a l Ha _ IH]; [done|]. simpl. rewrite filter_app, filter_cons, <- IH.
  case_decide as Hp; simpl; f_equal.
  - clear -Ha Hp. induction Ha as [|b bs Hb _ IH]; [done|].
    rewrite filter_cons_True by tauto. by f_equal.
  - clear -Ha Hp. induction Ha as [|b bs Hb _ IH]; [done|].
    by rewrite filter_cons_False by tauto.
Qed.

Lemma filter_partition {A} (P Q : A -> Prop)
    `{forall a, Decision (P a)} `{forall a, Decision (Q a)} l :
  Forall (fun a => P a \/ Q a) l -> (forall a, P a -> ~ Q a) -> filter P l ++ filter Q l ≡ₚ l.
Proof.
  intros Hl Hpq. induction Hl as [|a l Ha _ IH]; [done|]. rewrite !filter_cons.
  destruct (decide (P a)) as [Hp|Hp].
  - rewrite decide_False by auto. simpl. by f_equiv.
  - rewrite decide_True by tauto. by rewrite <- Permutation_middle, IH.
Qed.

(** The files named by the duplicate diagnostics are those of the deployments left out. *)
Lemma duplicate_paths_perm l :
  flat_map dd_source_paths (duplicate_identities l) ≡ₚ
  map ds_source_path (filter (fun d =>
    id_of d ∈ map dd_strategy_instance_id (duplicate_identities l)) l).
Proof.
  set (dup := map dd_strategy_instance_id (duplicate_identities l)).
  assert (flat_map dd_source_paths (duplicate_identities l) ≡ₚ
    map ds_source_path (flat_map snd (filter (fun g => 1 < length g.2)%nat
      (sort_by fst (grouped l))))) as ->.
  { unfold duplicate_identities. generalize (filter (fun g => 1 < length g.2)%nat
      (sort_by fst (grouped l))). intros gs. induction gs as [|g gs IH]; [done|]. simpl.
    by rewrite (sort_by_perm id), IH, map_app. }
  destruct (grouped_spec l) as [Hk Hg].
  rewrite (flat_map_filter _ _ (fun d => id_of d ∈ dup)).
  - apply fmap_Permutation, filter_Permutation. rewrite <- (grouped_flat l) at 2.
    by rewrite (sort_by_perm fst).
  - apply Forall_forall. intros [i ds] Hin. rewrite (sort_by_perm fst) in Hin.
    apply (elem_dget _ _ _ Hk) in Hin. rewrite Hg in Hin. simpl.
    apply Forall_forall. intros d Hd. unfold dup. rewrite elem_of_duplicates.
    assert (id_of d = i /\ with_id i l = ds) as [-> ->]; [|done].
    destruct (with_id i l) as [|d1 ds'] eqn:Hw; simplify_eq. split; [|done].
    rewrite <- Hw in Hd. by apply list_elem_of_filter in Hd as [? _].
Qed.

(** * Scanning *)

Section scanning.
Context (sha256_hexdigest : list ascii -> string) (float_repr : string -> option string).

Notation read_deployment := (read_deployment sha256_hexdigest float_repr).
Notation scan_candidates := (scan_candidates sha256_hexdigest float_repr).
Notation load_snapshot := (load_snapshot sha256_hexdigest float_repr).

Definition deployment_of (file : string * entry) : option DeploymentSpecification :=
  match read_deployment file with Ok d => Some d | Raise _ => None end.

Definition problem_of (file : string * entry) : option InvalidDeploymentFile :=
  match read_deployment file with
  | Raise (Exn (InvalidDeployment code message) _) =>
      Some {| iv_source_path := file.1; iv_error_code := code; iv_error_message := message |}
  | _ => None
  end.

(** An exception the scan does not turn into a diagnostic. *)
Definition escapes (e : exn) : Prop := forall code message, exn_cls e <> InvalidDeployment code message.

Lemma scan_candidates_cases files :
  match scan_candidates files with
  | Ok (accepted, invalid) =>
      accepted = omap deployment_of files /\ invalid = omap problem_of files /\
      Forall (fun f => is_Some (deployment_of f) \/ is_Some (problem_of f)) files
  | Raise e => exists f, f ∈ files /\ read_deployment f = Raise e /\ escapes e
  end.
Proof.
  induction files as [|f files IH]; [by repeat constructor|]. simpl.
  unfold deployment_of at 1, problem_of at 1.
  destruct (read_deployment f) as [d|[c m]] eqn:Hf.
  - destruct (scan_candidates files) as [[a i]|e]; simpl.
    + destruct IH as (-> & -> & Hall). split_and!; [done..|]. constructor; [|done].
      left. unfold deployment_of. rewrite Hf. eauto.
    + destruct IH as (f' & ? & ?). exists f'. split; [by right|done].
  - assert (is_Some (problem_of f) \/ escapes (Exn c m)) as Hc.
    { unfold problem_of, escapes. rewrite Hf. destruct c; eauto; by right. }
    destruct c; try (exists f; split; [left|split; [done|]]; intros ? ?; simpl; congruence).
    destruct (scan_candidates files) as [[a i]|e]; simpl.
    + destruct IH as (-> & -> & Hall). split_and!; [done..|]. constructor; [|done].
      right. unfold problem_of. rewrite Hf. eauto.
    + destruct IH as (f' & ? & ?). exists f'. split; [by right|done].
Qed.

Lemma spec_post_init_same d d' : DeploymentSpecification_post_init d = Ok d' -> d' = d.
Proof. unfold DeploymentSpecification_post_init. intros H. by ok_all. Qed.

(** The document a deployment was parsed from. *)
Definition describes (fs : dict json) (d : DeploymentSpecification) : Prop :=
  forbid_fields FORBIDDEN_OBSOLETE_FIELDS fs = Ok tt /\
  dget "enabled" fs = Some (JBool (ds_enabled d)) /\
  dget "ticker" fs = Some (JStr (ds_instrument d)) /\
  dget "base_timeframe" fs = Some (JStr (ds_base_timeframe d)) /\
  dget "strategy_id" fs = Some (JStr (ds_strategy_id d)) /\
  dget "raw_spec" fs = Some (JObj (ds_raw_spec d)) /\
  derive_strategy_instance_id sha256_hexdigest (JStr (ds_strategy_id d)) (JStr (ds_instrument d))
    (JStr (ds_base_timeframe d)) (JObj (ds_raw_spec d)) = Ok (id_of d) /\
  DeploymentSpecification_post_init d = Ok d.

Lemma parse_deployment_Ok filename j d :
  parse_deployment sha256_hexdigest filename j = Ok d <->
  exists fs, j = JObj fs /\ describes fs d /\ ds_source_path d = filename.
Proof.
  unfold parse_deployment, required_string, required_field, describes. split.
  - intros H. do 10 (let x := fresh "x" in let Hx := fresh "Hx" in
      apply result_bind_Ok in H as (x & Hx & H)).
    pose proof (spec_post_init_same _ _ H). subst d.
    repeat (case_match; simplify_eq/=; ok_all; try done).
    eexists. split_and!; try done. simpl. by rewrite H8, H9, H10.
  - intros (fs & -> & (Hf & He & Ht & Hb & Hs & Hr & Hid & Hd) & <-).
    pose proof Hd as Hblank. unfold DeploymentSpecification_post_init in Hblank. ok_all.
    cbn [mbind result_bind]. rewrite Hf, He, Ht, Hb, Hs, Hr. cbn [mbind result_bind].
    repeat match goal with H : is_blank _ = false |- _ => rewrite H; clear H end.
    cbn [mbind result_bind]. rewrite Hid. by destruct d.
Qed.

Lemma deployment_of_Some f d : deployment_of f = Some d ->
  ds_source_path d = f.1 /\ DeploymentSpecification_post_init d = Ok d.
Proof.
  unfold deployment_of, DeploymentCatalog.read_deployment.
  destruct (read_document _ _) as [j|]; simpl; [|done].
  destruct (parse_deployment _ _ _) eqn:Hp; [|done]. intros [= ->].
  by apply parse_deployment_Ok in Hp as (? & _ & (_ & _ & _ & _ & _ & _ & _ & ?) & ?).
Qed.

Lemma deployments_source files :
  map ds_source_path (omap deployment_of files) =
  map fst (filter (fun f => is_Some (deployment_of f)) files).
Proof.
  induction files as [|f files IH]; [done|]. cbn [omap list_omap]. rewrite filter_cons.
  destruct (deployment_of f) as [d|] eqn:Hd.
  - rewrite decide_True by eauto. simpl. f_equal; [|done]. by apply deployment_of_Some in Hd as [? _].
  - by rewrite decide_False by by intros [].
Qed.

Lemma problems_source files :
  map iv_source_path (omap problem_of files) =
  map fst (filter (fun f => is_Some (problem_of f)) files).
Proof.
  induction files as [|f files IH]; [done|]. cbn [omap list_omap]. rewrite filter_cons.
  destruct (problem_of f) as [d|] eqn:Hd.
  - rewrite decide_True by eauto. simpl. f_equal; [|done]. unfold problem_of in Hd.
    by repeat case_match; simplify_eq.
  - by rewrite decide_False by by intros [].
Qed.

Lemma deployments_NoDup dir : NoDup (map ds_source_path (omap deployment_of (candidates dir))).
Proof.
  rewrite deployments_source. eapply sublist_NoDup; [apply (candidates_NoDup dir)|].
  apply fmap_sublist, sublist_filter.
Qed.

Lemma with_id_only l d : NoDup (map ds_source_path l) -> d ∈ l ->
  with_id (id_of d) l = [d] <-> forall d', d' ∈ l -> id_of d' = id_of d -> d' = d.
Proof.
  intros Hl Hd. split.
  - intros Hw d' Hd' Hid. assert (d' ∈ with_id (id_of d) l) as Hin by (by apply list_elem_of_filter).
    rewrite Hw in Hin. by apply list_elem_of_singleton in Hin.
  - intros Honly. apply NoDup_fmap_1 in Hl.
    assert (with_id (id_of d) l ≡ₚ [d]) as Hp; [|by apply Permutation_singleton_r in Hp].
    apply NoDup_Permutation; [by apply NoDup_filter|apply NoDup_singleton|].
    intros d'. unfold with_id. rewrite list_elem_of_filter, list_elem_of_singleton.
    split; [naive_solver|]. by intros ->.
Qed.

(** ** The diagnosis of a file *)

(** The JSON document of a file. *)
Definition document_of (e : entry) (j : json) : Prop :=
  exists content t, read_bytes (Some e) = Ok content /\ utf8_decode content = Ok t /\
    loads_document float_repr (universal_newlines t) = Ok j.

(** The deployment of a file. *)
Definition deploys (f : string * entry) (d : DeploymentSpecification) : Prop :=
  exists fs, document_of f.2 (JObj fs) /\ describes fs d /\ ds_source_path d = f.1.

Definition text_fields : list string := ["ticker"; "base_timeframe"; "strategy_id"].
Definition required_fields : list string := "enabled" :: text_fields ++ ["raw_spec"].

(** What is wrong with the value of a required field. *)
Inductive field_problem (name : string) : option json -> string -> option string -> Prop :=
| field_missing : field_problem name None "missing_required_field" (Some name)
| enabled_not_bool v : name = "enabled" -> (forall b, v <> JBool b) ->
    field_problem name (Some v) "invalid_field_type" (Some name)
| field_not_text v : name ∈ text_fields -> (forall s, v <> JStr s) ->
    field_problem name (Some v) "invalid_field_type" (Some name)
| field_blank s : name ∈ text_fields -> is_blank s = true ->
    field_problem name (Some (JStr s)) "empty_required_field" (Some name)
| spec_not_object v : name = "raw_spec" -> (forall fs, v <> JObj fs) ->
    field_problem name (Some v) "invalid_raw_spec" None.

Definition field_fine (fs : dict json) (name : string) : Prop :=
  forall code message, ~ field_problem name (dget name fs) code message.

(** The code and the message of a file that holds no deployment: of its first problem. *)
Inductive diagnosis (e : entry) : string -> option string -> Prop :=
| file_unreadable exc : read_bytes (Some e) = Raise exc ->
    diagnosis e "file_read_failed" (Some (exn_msg exc))
| file_not_json content t exc :
    read_bytes (Some e) = Ok content -> utf8_decode content = Ok t ->
    loads_document float_repr (universal_newlines t) = Raise exc ->
    is_value_error (exn_cls exc) = true -> diagnosis e "invalid_json" (Some (exn_msg exc))
| document_not_object j : document_of e j -> (forall fs, j <> JObj fs) ->
    diagnosis e "invalid_root" None
| obsolete_field fs before name after :
    document_of e (JObj fs) -> FORBIDDEN_OBSOLETE_FIELDS = before ++ name :: after ->
    Forall (fun n => dget n fs = None) before -> is_Some (dget name fs) ->
    diagnosis e "forbidden_obsolete_field" (Some name)
| wrong_field fs before name after code message :
    document_of e (JObj fs) -> Forall (fun n => dget n fs = None) FORBIDDEN_OBSOLETE_FIELDS ->
    required_fields = before ++ name :: after -> Forall (field_fine fs) before ->
    field_problem name (dget name fs) code message -> diagnosis e code message.

Lemma read_bytes_raises e : raises (fun exc => exn_cls exc = OSError) (read_bytes e).
Proof. by destruct e as [[]|]. Qed.

(** What a reader of a required field says: the value, or the problem. *)
Definition reads {A} (name : string) (wrap : A -> json) (fs : dict json) (r : result A) : Prop :=
  match r with
  | Ok a => dget name fs = Some (wrap a) /\ field_fine fs name
  | Raise exc => exists code message,
      exc = Exn (InvalidDeployment code message) code /\
      field_problem name (dget name fs) code message
  end.

Lemma reads_text name fs : name ∈ text_fields ->
  reads name JStr fs (required_string fs name).
Proof.
  intros Hn. unfold required_string, required_field, invalid_deployment, raise, reads, field_fine.
  destruct (dget name fs) as [v|]; cbn [mbind result_bind].
  2: { do 2 eexists. split; [done|constructor]. }
  destruct v as [| | | |s| |]; try (do 2 eexists; split; [done|by constructor]).
  destruct (is_blank s) eqn:Hb; [do 2 eexists; split; [done|by constructor]|].
  split; [done|]. intros c m Hp. inv Hp; first [congruence|naive_solver|unfold text_fields in *; set_solver].
Qed.

Notation read_enabled fs := (v ← required_field fs "enabled";
  match v with JBool b => Ok b | _ => invalid_deployment "invalid_field_type" (Some "enabled") end).
Notation read_spec fs := (v ← required_field fs "raw_spec";
  match v with JObj o => Ok (A := dict json) o | _ => invalid_deployment "invalid_raw_spec" None end).

Lemma reads_enabled fs : reads "enabled" JBool fs (read_enabled fs).
Proof.
  unfold required_field, invalid_deployment, raise, reads, field_fine.
  destruct (dget "enabled" fs) as [v|]; cbn [mbind result_bind].
  2: { do 2 eexists. split; [done|constructor]. }
  destruct v; try (do 2 eexists; split; [done|by constructor]).
  split; [done|]. intros c m Hp. inv Hp; first [congruence|naive_solver|unfold text_fields in *; set_solver].
Qed.

Lemma reads_spec fs : reads (A := dict json) "raw_spec" JObj fs (read_spec fs).
Proof.
  unfold required_field, invalid_deployment, raise, reads, field_fine.
  destruct (dget "raw_spec" fs) as [v|]; cbn [mbind result_bind].
  2: { do 2 eexists. split; [done|constructor]. }
  destruct v; try (do 2 eexists; split; [done|by constructor]).
  split; [done|]. intros c m Hp. inv Hp; first [congruence|naive_solver|unfold text_fields in *; set_solver].
Qed.

Lemma field_problem_unique name v code message code' message' :
  field_problem name v code message -> field_problem name v code' message' ->
  code = code' /\ message = message'.
Proof.
  intros H H'. unfold text_fields in *. inv H; inv H'; first [done|congruence|naive_solver|set_solver].
Qed.

Lemma reads_fine {A} name (wrap : A -> json) fs r :
  reads name wrap fs r -> field_fine fs name -> exists a, r = Ok a.
Proof. destruct r as [a|e]; [by exists a|]. intros (c & m & _ & Hp) Hf. by destruct (Hf c m). Qed.

Lemma reads_wrong {A} name (wrap : A -> json) fs r code message :
  reads name wrap fs r -> field_problem name (dget name fs) code message ->
  r = Raise (Exn (InvalidDeployment code message) code).
Proof.
  destruct r as [a|e]; [intros [_ Hf] Hp; by destruct (Hf code message)|].
  intros (c & m & -> & Hp) Hp'. by destruct (field_problem_unique _ _ _ _ _ _ Hp Hp') as [-> ->].
Qed.

Lemma forbid_fields_cases names fs :
  match forbid_fields names fs with
  | Ok _ => Forall (fun n => dget n fs = None) names
  | Raise exc => exists before name after,
      exc = Exn (InvalidDeployment "forbidden_obsolete_field" (Some name)) "forbidden_obsolete_field" /\
      names = before ++ name :: after /\ Forall (fun n => dget n fs = None) before /\
      is_Some (dget name fs)
  end.
Proof.
  induction names as [|n names IH]; simpl; [constructor|]. destruct (dget n fs) as [v|] eqn:Hn.
  - exists [], n, names. rewrite Hn. by split_and!; eauto.
  - destruct (forbid_fields names fs); [by constructor|].
    destruct IH as (before & name & after & -> & -> & Hb & Hs). exists (n :: before), name, after.
    split_and!; [done..|by constructor|done].
Qed.

Lemma forbid_fields_first before name after fs :
  Forall (fun n => dget n fs = None) before -> is_Some (dget name fs) ->
  forbid_fields (before ++ name :: after) fs = invalid_deployment "forbidden_obsolete_field" (Some name).
Proof. intros Hb [v Hv]. induction Hb as [|n before Hn _ IH]; simpl; [by rewrite Hv|by rewrite Hn]. Qed.

Lemma forbid_fields_none names fs :
  Forall (fun n => dget n fs = None) names -> forbid_fields names fs = Ok tt.
Proof. induction 1 as [|n names Hn _ IH]; simpl; [done|by rewrite Hn]. Qed.

(** What is made of the five fields, read one after the other. *)
Definition built (filename : string) (enabled : bool) (ticker base strategy : string)
    (spec : dict json) : result DeploymentSpecification :=
  i ← derive_strategy_instance_id sha256_hexdigest (JStr strategy) (JStr ticker) (JStr base) (JObj spec);
  DeploymentSpecification_post_init
    {| ds_strategy_instance_id := i; ds_enabled := enabled; ds_instrument := ticker;
       ds_base_timeframe := base; ds_strategy_id := strategy; ds_raw_spec := spec;
       ds_source_path := filename |}.

Lemma parse_deployment_steps filename fs :
  parse_deployment sha256_hexdigest filename (JObj fs) =
    (_ ← forbid_fields FORBIDDEN_OBSOLETE_FIELDS fs;
     enabled ← read_enabled fs;
     ticker ← required_string fs "ticker";
     base ← required_string fs "base_timeframe";
     strategy ← required_string fs "strategy_id";
     spec ← read_spec fs;
     built filename enabled ticker base strategy spec).
Proof.
  unfold parse_deployment, built. cbn [mbind result_bind].
  destruct (forbid_fields _ fs); [|done]. destruct (required_field fs "enabled") as [[]|]; try done.
  cbn [mbind result_bind]. destruct (required_string fs "ticker"); [|done].
  destruct (required_string fs "base_timeframe"); [|done].
  destruct (required_string fs "strategy_id"); [|done].
  by destruct (required_field fs "raw_spec") as [[]|].
Qed.

Lemma built_escapes filename enabled ticker base strategy spec :
  raises escapes (built filename enabled ticker base strategy spec).
Proof.
  unfold built, derive_strategy_instance_id, canonical_payload, dumps, DeploymentSpecification_post_init,
    escapes. raises.
Qed.

Lemma read_document_Ok e j : read_document float_repr e = Ok j <-> document_of e j.
Proof.
  unfold read_document, document_of, invalid_deployment. split.
  - intros H. destruct (read_bytes (Some e)) as [content|exc]; [|by destruct (is_os_error _)].
    cbn [mbind result_bind] in H. destruct (utf8_decode content) as [t|] eqn:Ht; [|done].
    cbn [mbind result_bind] in H. destruct (loads_document _ _) as [j'|exc] eqn:Hl;
      [|by destruct (is_value_error _)].
    injection H as ->. by exists content, t.
  - intros (content & t & -> & Ht & Hl). cbn [mbind result_bind]. rewrite Ht. cbn [mbind result_bind].
    by rewrite Hl.
Qed.

Lemma loads_escapes t : raises escapes (loads_document float_repr t).
Proof.
  apply raises_bind; [|by intros]. apply loads_with_raises; [|done|by intros].
  intros x Hx ? ?. destruct Hx as [Hx|[Hx|Hx]]; by rewrite Hx.
Qed.

(** A reader of a document that fails with a diagnosis. *)
Lemma read_document_invalid e code message m :
  read_document float_repr e = Raise (Exn (InvalidDeployment code message) m) ->
  diagnosis e code message.
Proof.
  unfold read_document, invalid_deployment, raise. intros H. pose proof (read_bytes_raises (Some e)) as Hb.
  destruct (read_bytes (Some e)) as [content|exc] eqn:He.
  - cbn [mbind result_bind] in H. destruct (utf8_decode content) as [t|x] eqn:Ht.
    + cbn [mbind result_bind] in H. destruct (loads_document _ _) as [j|x] eqn:Hl; [done|].
      destruct (is_value_error (exn_cls x)) eqn:Hv; injection H as H.
      * subst. by eapply file_not_json.
      * pose proof (loads_escapes (universal_newlines t)) as Hesc. rewrite Hl, H in Hesc.
        by destruct (Hesc code message).
    + pose proof (utf8_decode_raises content) as Hu. rewrite Ht in Hu. simpl in H. injection H as ->.
      by destruct Hu.
  - simpl in Hb. rewrite Hb in H. simpl in H. injection H as <- <- _. by apply file_unreadable.
Qed.

(** A field is read: it has the first problem of the document, or it is fine. *)
Lemma reads_step {A B} name (wrap : A -> json) fs (r : result A) (k : A -> result B)
    before after e code message m :
  reads name wrap fs r -> document_of e (JObj fs) ->
  Forall (fun n => dget n fs = None) FORBIDDEN_OBSOLETE_FIELDS ->
  Forall (field_fine fs) before -> required_fields = before ++ name :: after ->
  r ≫= k = Raise (Exn (InvalidDeployment code message) m) ->
  diagnosis e code message \/
  Forall (field_fine fs) (before ++ [name]) /\
    exists a, k a = Raise (Exn (InvalidDeployment code message) m).
Proof.
  intros Hr Hd Hf Hb Hn H. destruct r as [a|x].
  - right. destruct Hr as [_ Hr]. split; [|by exists a]. apply Forall_app. split; [done|].
    by constructor.
  - left. destruct Hr as (c & m' & -> & Hp). simpl in H. injection H as -> -> _.
    by eapply wrong_field.
Qed.

Lemma parse_diagnosis e filename fs code message m : document_of e (JObj fs) ->
  parse_deployment sha256_hexdigest filename (JObj fs) = Raise (Exn (InvalidDeployment code message) m) ->
  diagnosis e code message.
Proof.
  intros Hd. rewrite parse_deployment_steps.
  pose proof (forbid_fields_cases FORBIDDEN_OBSOLETE_FIELDS fs) as Hf.
  destruct (forbid_fields _ fs) as [[]|x].
  2: { destruct Hf as (before & name & after & -> & Hn & Hb & Hs). intros [= <- <- _].
       by eapply obsolete_field. }
  intros H. match type of H with _ ≫= ?k = ?x => change (k tt = x) in H end. cbv beta in H.
  destruct (reads_step "enabled" JBool fs _ _ [] _ e _ _ _ (reads_enabled fs) Hd Hf
    ltac:(constructor) eq_refl H) as [?|[H1 [enabled Hk]]]; [done|]. clear H.
  destruct (reads_step "ticker" JStr fs _ _ _ _ e _ _ _ (reads_text "ticker" fs ltac:(listed)) Hd Hf
    H1 eq_refl Hk) as [?|[H2 [ticker H]]]; [done|]. clear Hk H1.
  destruct (reads_step "base_timeframe" JStr fs _ _ _ _ e _ _ _
    (reads_text "base_timeframe" fs ltac:(listed)) Hd Hf H2 eq_refl H) as [?|[H1 [base Hk]]];
    [done|]. clear H H2.
  destruct (reads_step "strategy_id" JStr fs _ _ _ _ e _ _ _
    (reads_text "strategy_id" fs ltac:(listed)) Hd Hf H1 eq_refl Hk) as [?|[H2 [strategy H]]];
    [done|]. clear Hk H1.
  destruct (reads_step "raw_spec" JObj fs _ _ _ _ e _ _ _ (reads_spec fs) Hd Hf H2 eq_refl H)
    as [?|[_ [spec Hk]]]; [done|]. clear H H2.
  pose proof (built_escapes filename enabled ticker base strategy spec) as Hesc.
  rewrite Hk in Hesc. by destruct (Hesc code message).
Qed.

Lemma diagnosed_parse filename fs before name after code message :
  Forall (fun n => dget n fs = None) FORBIDDEN_OBSOLETE_FIELDS ->
  required_fields = before ++ name :: after -> Forall (field_fine fs) before ->
  field_problem name (dget name fs) code message ->
  parse_deployment sha256_hexdigest filename (JObj fs) =
    Raise (Exn (InvalidDeployment code message) code).
Proof.
  intros Hf Hn Hb Hp. rewrite parse_deployment_steps, forbid_fields_none by done.
  pose proof (reads_enabled fs) as H1. pose proof (reads_spec fs) as H5.
  pose proof (reads_text "ticker" fs ltac:(listed)) as H2.
  pose proof (reads_text "base_timeframe" fs ltac:(listed)) as H3.
  pose proof (reads_text "strategy_id" fs ltac:(listed)) as H4.
  unfold required_fields, text_fields in Hn. simpl in Hn.
  destruct before as [|? [|? [|? [|? [|? before]]]]]; simpl in Hn; simplify_eq;
    [..|by destruct before]; rewrite ?Forall_cons in Hb; destruct_and?.
  all: repeat match goal with
    | Hfine : field_fine _ ?n, Hr : reads ?n _ _ _ |- _ =>
        destruct (reads_fine _ _ _ _ Hr Hfine) as [? ->]; clear Hr
    end.
  all: match goal with
    | Hr : reads ?n _ _ _, Hp : field_problem ?n _ _ _ |- _ => by rewrite (reads_wrong _ _ _ _ _ _ Hr Hp)
    end.
Qed.

Lemma read_deployment_Ok f d : read_deployment f = Ok d <-> deploys f d.
Proof.
  unfold DeploymentCatalog.read_deployment, deploys. split.
  - intros H. apply result_bind_Ok in H as (j & Hj & H).
    apply parse_deployment_Ok in H as (fs & -> & Hd & Hs). exists fs. by rewrite read_document_Ok in Hj.
  - intros (fs & Hj%read_document_Ok & Hd & Hs). rewrite Hj. apply parse_deployment_Ok. by exists fs.
Qed.

Lemma read_deployment_invalid f code message :
  (exists m, read_deployment f = Raise (Exn (InvalidDeployment code message) m)) <->
  diagnosis f.2 code message.
Proof.
  unfold DeploymentCatalog.read_deployment. split.
  - intros [m H]. destruct (read_document float_repr f.2) as [j|x] eqn:Hj.
    + apply read_document_Ok in Hj. cbn [mbind result_bind] in H.
      destruct j as [| | | | | |fs]; try by (injection H as <- <- _; by eapply document_not_object).
      by eapply parse_diagnosis.
    + simpl in H. injection H as ->. by eapply read_document_invalid.
  - intros Hd. destruct Hd as [exc He|content t exc He Ht Hl Hv|j Hj Hn|fs before name after Hj Hn Hb Hs
      |fs before name after code message Hj Hf Hn Hb Hp].
    + unfold read_document. pose proof (read_bytes_raises (Some f.2)) as Hc. rewrite He in *.
      simpl in Hc. rewrite Hc. by eexists.
    + unfold read_document. rewrite He. cbn [mbind result_bind]. rewrite Ht. cbn [mbind result_bind].
      rewrite Hl, Hv. by eexists.
    + apply read_document_Ok in Hj. rewrite Hj. cbn [mbind result_bind].
      destruct j; try by eexists. naive_solver.
    + apply read_document_Ok in Hj. rewrite Hj. cbn [mbind result_bind].
      rewrite parse_deployment_steps, Hn, forbid_fields_first by done. by eexists.
    + apply read_document_Ok in Hj. rewrite Hj. cbn [mbind result_bind].
      exists code. by eapply diagnosed_parse.
Qed.

(** ** What a snapshot lists *)

(** A list of different texts in order is determined by its elements. *)
Lemma sorted_unique l l' :
  Sorted (key_le id) l -> Sorted (key_le id) l' -> NoDup l -> NoDup l' ->
  (forall x : string, x ∈ l <-> x ∈ l') -> l = l'.
Proof.
  intros Hs Hs' Hn Hn' Heq.
  eapply StronglySorted_unique_strong; [|by apply sorted_strongly..|by apply NoDup_Permutation].
  intros x y _ _. apply string_leb_antisymm.
Qed.

(** A duplicate identity: the names, in order, of the two or more deployments that have it. *)
Definition duplicated (l : list DeploymentSpecification) (g : DuplicateDeploymentIdentity) : Prop :=
  (1 < length (dd_source_paths g))%nat /\ Sorted (key_le id) (dd_source_paths g) /\
  NoDup (dd_source_paths g) /\
  forall name, name ∈ dd_source_paths g <->
    exists d, d ∈ l /\ id_of d = dd_strategy_instance_id g /\ ds_source_path d = name.

Definition group_record (i : string) (l : list DeploymentSpecification) : DuplicateDeploymentIdentity :=
  {| dd_strategy_instance_id := i; dd_source_paths := sort_by id (map ds_source_path (with_id i l)) |}.

Lemma elem_of_duplicate_records g l : g ∈ duplicate_identities l <->
  (1 < length (with_id (dd_strategy_instance_id g) l))%nat /\
  g = group_record (dd_strategy_instance_id g) l.
Proof.
  destruct (grouped_spec l) as [Hk Hg]. unfold duplicate_identities. rewrite list_elem_of_fmap. split.
  - intros ([i ds] & -> & [Hlen Hin]%list_elem_of_filter). rewrite (sort_by_perm fst) in Hin.
    apply (elem_dget _ _ _ Hk) in Hin. rewrite Hg in Hin. unfold group_record. simpl in *.
    by destruct (with_id i l); simplify_eq.
  - intros [Hlen ->]. exists (dd_strategy_instance_id g, with_id (dd_strategy_instance_id g) l).
    split; [done|]. apply list_elem_of_filter. split; [done|]. rewrite (sort_by_perm fst).
    apply dget_Some_elem. rewrite Hg. by destruct (with_id _ l); [simpl in Hlen; lia|].
Qed.

Lemma group_record_duplicated i l : NoDup (map ds_source_path l) ->
  (1 < length (with_id i l))%nat -> duplicated l (group_record i l).
Proof.
  intros Hn Hlen. unfold duplicated, group_record. simpl.
  split_and!; [|apply sort_by_sorted| |].
  - by rewrite (sort_by_perm id), length_map.
  - rewrite (sort_by_perm id). eapply sublist_NoDup; [exact Hn|]. apply fmap_sublist, sublist_filter.
  - intros name. rewrite (sort_by_perm id), list_elem_of_fmap. unfold with_id.
    setoid_rewrite list_elem_of_filter. naive_solver.
Qed.

Lemma elem_of_duplicate_identities g l : NoDup (map ds_source_path l) ->
  g ∈ duplicate_identities l <-> duplicated l g.
Proof.
  intros Hn. rewrite elem_of_duplicate_records. split.
  - intros [Hlen ->]. by apply group_record_duplicated.
  - destruct g as [i paths]. intros (Hlen & Hs & Hnd & Hin). simpl in *.
    assert (paths = sort_by id (map ds_source_path (with_id i l))) as Hp.
    { apply sorted_unique; [done|apply sort_by_sorted|done| |].
      - rewrite (sort_by_perm id). eapply sublist_NoDup; [exact Hn|]. apply fmap_sublist, sublist_filter.
      - intros name. rewrite Hin, (sort_by_perm id), list_elem_of_fmap. unfold with_id.
        setoid_rewrite list_elem_of_filter. naive_solver. }
    split; [|by rewrite Hp]. rewrite Hp, (sort_by_perm id), length_map in Hlen. exact Hlen.
Qed.

Lemma elem_of_deployments (files : list (string * entry)) d :
  d ∈ omap deployment_of files <-> exists f, f ∈ files /\ deploys f d.
Proof.
  rewrite list_elem_of_omap. setoid_rewrite <- read_deployment_Ok. unfold deployment_of.
  split; intros (f & Hf & Hd); exists f; (split; [done|]).
  - by destruct (read_deployment f); simplify_eq.
  - by rewrite Hd.
Qed.

Lemma elem_of_problems (files : list (string * entry)) p :
  p ∈ omap problem_of files <-> exists f, f ∈ files /\ iv_source_path p = f.1 /\
    diagnosis f.2 (iv_error_code p) (iv_error_message p).
Proof.
  rewrite list_elem_of_omap. setoid_rewrite <- read_deployment_invalid. unfold problem_of.
  split; intros (f & Hf & Hp); exists f; (split; [done|]).
  - destruct (read_deployment f) as [d|[c m]]; [done|]. destruct c; simplify_eq/=. eauto.
  - destruct Hp as (Hsrc & m & Hm). rewrite Hm, <- Hsrc. by destruct p.
Qed.

(** The deployment [d] is the only one of its identity. *)
Lemma elem_of_accepted_only d l : NoDup (map ds_source_path l) ->
  d ∈ accepted_deployments l <->
  d ∈ l /\ forall d', d' ∈ l -> id_of d' = id_of d -> ds_source_path d' = ds_source_path d.
Proof.
  intros Hn. rewrite elem_of_accepted. split; intros [Hd Hw]; (split; [done|]).
  - intros d' Hd' Hid. f_equal. by apply (proj1 (with_id_only l d Hn Hd) Hw).
  - apply with_id_only; [done..|]. intros d' Hd' Hid. apply (NoDup_map_inj ds_source_path l); auto.
Qed.

(** The accepted deployments, the invalid files and the duplicates share out the files. *)
Lemma files_shared_out (files : list (string * entry)) :
  Forall (fun f => is_Some (deployment_of f) \/ is_Some (problem_of f)) files ->
  let l := omap deployment_of files in
  map ds_source_path (accepted_deployments l) ++ map iv_source_path (omap problem_of files)
    ++ flat_map dd_source_paths (duplicate_identities l) ≡ₚ map fst files.
Proof.
  intros Hall l. rewrite duplicate_paths_perm. unfold accepted_deployments.
  set (dup := map dd_strategy_instance_id (duplicate_identities l)).
  rewrite (Permutation_app_comm (map iv_source_path _)), app_assoc, <- map_app.
  assert (filter (fun d => id_of d ∉ dup) l ++ filter (fun d => id_of d ∈ dup) l ≡ₚ l) as ->.
  { rewrite Permutation_app_comm. apply filter_app_complement. }
  unfold l. rewrite deployments_source, problems_source, <- map_app. apply fmap_Permutation.
  apply filter_partition; [done|]. intros f [d Hd] [p Hp].
  unfold deployment_of, problem_of in *. by destruct (read_deployment f).
Qed.

(** C30. A scan that succeeds loses no candidate file, accepts exactly the deployments it
    should and says exactly what is wrong with every other file: the snapshot meets the contract
    of the catalog and counts every candidate; a deployment is accepted when some candidate
    describes it ([deploys]) and no other candidate describes one with the same identity; a file
    is listed as invalid, with a code and a message, exactly when they are those of its first
    problem in the table [diagnosis]; an identity is listed as a duplicate, with file names,
    exactly when these are the names, in order, of the two or more candidates that describe a
    deployment with it; the accepted deployments and the invalid files are in the order of the
    candidates; and the file names of the three lists are together the candidates, each once. A
    scan that fails does so with an exception that reading or parsing one of the candidates
    raised and that is not a diagnostic. *)
Theorem load_snapshot_complete dir :
  match load_snapshot (Some dir) with
  | Ok s =>
      well_formed_catalog s /\
      sn_scanned_file_count s = Z.of_nat (length (candidates dir)) /\
      (forall d, d ∈ sn_accepted_deployments s <->
        (exists f, f ∈ candidates dir /\ deploys f d) /\
        forall f' d', f' ∈ candidates dir -> deploys f' d' ->
          id_of d' = id_of d -> f'.1 = ds_source_path d) /\
      (forall p, p ∈ sn_invalid_files s <->
        exists f, f ∈ candidates dir /\ iv_source_path p = f.1 /\
          diagnosis f.2 (iv_error_code p) (iv_error_message p)) /\
      (forall g, g ∈ sn_duplicate_identities s <->
        (1 < length (dd_source_paths g))%nat /\ Sorted (key_le id) (dd_source_paths g) /\
        NoDup (dd_source_paths g) /\
        forall name, name ∈ dd_source_paths g <->
          exists f d, f ∈ candidates dir /\ deploys f d /\
            id_of d = dd_strategy_instance_id g /\ f.1 = name) /\
      sublist (map ds_source_path (sn_accepted_deployments s)) (map fst (candidates dir)) /\
      sublist (map iv_source_path (sn_invalid_files s)) (map fst (candidates dir)) /\
      map ds_source_path (sn_accepted_deployments s) ++ map iv_source_path (sn_invalid_files s)
        ++ flat_map dd_source_paths (sn_duplicate_identities s) ≡ₚ map fst (candidates dir)
  | Raise e => exists f, f ∈ candidates dir /\ read_deployment f = Raise e /\ escapes e
  end.
Proof.
  unfold DeploymentCatalog.load_snapshot. pose proof (scan_candidates_cases (candidates dir)) as Hscan.
  destruct (scan_candidates (candidates dir)) as [[accepted invalid]|e]; [|exact Hscan].
  destruct Hscan as (-> & -> & Hall). simpl.
  pose proof (files_shared_out _ Hall) as Hshare. cbv zeta in Hshare.
  pose proof (deployments_NoDup dir) as Hsrc. pose proof (elem_of_deployments (candidates dir)) as Hl.
  pose proof (deployments_source (candidates dir)) as Hfiles.
  set (l := omap deployment_of (candidates dir)) in *.
  rewrite snapshot_post_init_NoDup by (simpl; apply accepted_NoDup || lia).
  split_and!; simpl; [|done| |apply elem_of_problems| | | |done].
  - split; [by apply snapshot_post_init_NoDup; [apply accepted_NoDup|simpl; lia]|]. simpl.
    apply Forall_forall. intros d [Hd _]%elem_of_accepted.
    apply Hl in Hd as (f & _ & fs & _ & (_ & _ & _ & _ & _ & _ & _ & Hok) & _). exact Hok.
  - intros d. rewrite elem_of_accepted_only, Hl by done. apply and_iff_compat_l. setoid_rewrite Hl. split.
    + intros Hu f' d' Hf' Hd' Hid. rewrite <- (Hu d') by eauto. by destruct Hd' as (fs & _ & _ & ->).
    + intros Hu d' (f' & Hf' & Hd') Hid. rewrite <- (Hu f' d') by done.
      by destruct Hd' as (fs & _ & _ & ->).
  - intros g. rewrite elem_of_duplicate_identities by done. unfold duplicated.
    do 3 apply and_iff_compat_l. apply forall_proper. intros name. setoid_rewrite Hl.
    match goal with |- (?P <-> ?Q) <-> (?P <-> ?Q') => assert (Q <-> Q') as ->; [|done] end. split.
    + intros (d & (f & Hf & Hd) & Hid & Hn). exists f, d. split_and!; try done.
      by destruct Hd as (fs & _ & _ & <-).
    + intros (f & d & Hf & Hd & Hid & Hn). exists d. split; [by exists f|]. split; [done|].
      by destruct Hd as (fs & _ & _ & ->).
  - etransitivity; [apply fmap_sublist, sublist_filter|]. change (fmap ds_source_path l) with (map ds_source_path l).
    rewrite Hfiles. apply fmap_sublist, sublist_filter.
  - rewrite problems_source. apply fmap_sublist, sublist_filter.
Qed.

(** ** Failures stay with their file *)

Context (Hrepr : float_repr_law float_repr).

Lemma reject_non_finite_never s : is_ok (reject_non_finite_number s) = false.
Proof. done. Qed.

Lemma document_printable t j : loads_document float_repr t = Ok j ->
  printable_in constants j = true /\ python_floats float_repr j = j.
Proof.
  unfold loads_document. intros H. ok_inv H. split.
  - by eapply loaded_printable, Hok; [|apply reject_non_finite_never].
  - by apply python_floats_idempotent.
Qed.

Lemma printable_payload s t b raw :
  ints_printable raw = true -> ints_printable (identity_payload (JStr s) (JStr t) (JStr b) raw) = true.
Proof. intros Hr. simpl. by rewrite Hr. Qed.

Lemma derive_succeeds s t b raw : all_finite raw = true -> ints_printable raw = true ->
  exists i, derive_strategy_instance_id sha256_hexdigest (JStr s) (JStr t) (JStr b) raw =
    Ok (s +:+ ":" +:+ i).
Proof.
  intros Hf Hi. unfold derive_strategy_instance_id, canonical_payload, dumps.
  rewrite printable_payload by done. simpl. rewrite Hf. simpl. eauto.
Qed.

(** A file whose failure, if it has one, is a diagnostic: its content is UTF-8, within the
    characters of the model, and no number of its strategy is too large for a double. *)
Definition contained (e : entry) : Prop :=
  forall mode content, e = File mode content ->
    exists t, utf8_decode content = Ok t /\
    raises (fun exc => is_value_error (exn_cls exc) = true)
      (loads_document float_repr (universal_newlines t)) /\
    forall fs raw, loads_document float_repr (universal_newlines t) = Ok (JObj fs) ->
      dget "raw_spec" fs = Some raw -> all_finite raw = true.

Lemma ids_not_blank s i : is_blank s = false -> is_blank (s +:+ ":" +:+ i) = false.
Proof.
  induction s as [|c s IH]; simpl; [done|]. destruct (is_space c); simpl; auto.
Qed.

Lemma candidate_not_blank f : is_candidate f = true -> is_blank f.1 = false.
Proof.
  unfold is_candidate. rewrite !andb_true_iff, bool_decide_eq_true. intros [_ Hs].
  unfold stem_suffix in Hs. destruct (span _ _) as [ext rest] eqn:Hspan.
  destruct ext as [|x ext]; [done|]. destruct rest as [|dot [|c rest]]; try done.
  apply span_app in Hspan. injection Hs as -> Hs.
  assert ("."%char ∈ chars f.1) as Hin.
  { apply elem_of_reverse. rewrite Hspan. rewrite elem_of_app. right. left. }
  clear -Hin. induction f.1 as [|c s IH]; simpl in *; [by apply elem_of_nil in Hin|].
  apply elem_of_cons in Hin as [<-|Hin]; [done|]. rewrite IH by done. apply andb_false_r.
Qed.

Definition diagnosed (e : exn) : Prop := exists code message, exn_cls e = InvalidDeployment code message.

Lemma invalid_diagnosed {A} code message : raises (A := A) diagnosed (invalid_deployment code message).
Proof. by do 2 eexists. Qed.

Lemma required_field_diagnosed fs name : raises diagnosed (required_field fs name).
Proof. unfold required_field. case_match; [done|apply invalid_diagnosed]. Qed.

Lemma required_string_diagnosed fs name : raises diagnosed (required_string fs name).
Proof.
  apply raises_bind; [apply required_field_diagnosed|]. intros v _.
  repeat case_match; try apply invalid_diagnosed. done.
Qed.

Lemma forbid_fields_diagnosed names fs : raises diagnosed (forbid_fields names fs).
Proof. induction names as [|n names IH]; simpl; [done|]. case_match; [apply invalid_diagnosed|done]. Qed.

Lemma required_string_not_blank fs name s : required_string fs name = Ok s -> is_blank s = false.
Proof. unfold required_string. intros H. ok_inv H. repeat case_match; by simplify_eq. Qed.

Lemma parse_deployment_diagnosed filename j :
  is_blank filename = false -> ints_printable j = true ->
  (forall fs raw, j = JObj fs -> dget "raw_spec" fs = Some raw -> all_finite raw = true) ->
  raises diagnosed (parse_deployment sha256_hexdigest filename j).
Proof.
  intros Hname Hints Hfin. unfold parse_deployment.
  apply raises_bind; [destruct j; try apply invalid_diagnosed; done|]. intros fs Hfs.
  apply raises_bind; [apply forbid_fields_diagnosed|]. intros _ _.
  apply raises_bind; [apply required_field_diagnosed|]. intros enabled _.
  apply raises_bind; [destruct enabled; try apply invalid_diagnosed; done|]. intros en _.
  apply raises_bind; [apply required_string_diagnosed|].
  intros ticker Ht%required_string_not_blank.
  apply raises_bind; [apply required_string_diagnosed|].
  intros base Hb%required_string_not_blank.
  apply raises_bind; [apply required_string_diagnosed|].
  intros strategy Hs%required_string_not_blank.
  apply raises_bind; [apply required_field_diagnosed|]. intros raw Hraw.
  apply raises_bind; [destruct raw; try apply invalid_diagnosed; done|]. intros spec Hspec.
  destruct j as [| | | | | |fs0]; simplify_eq/=. destruct raw; simplify_eq/=.
  unfold required_field in Hraw. destruct (dget "raw_spec" fs) as [raw|] eqn:Hg; simplify_eq.
  destruct (derive_succeeds strategy ticker base (JObj spec)) as (i & Hi).
  - by eapply Hfin.
  - apply dget_Some_elem in Hg. rewrite forallb_forall in Hints.
    by apply (Hints ("raw_spec", JObj spec)), list_elem_of_In.
  - rewrite Hi. cbn [mbind result_bind]. unfold DeploymentSpecification_post_init.
    cbn [id_of ds_instrument ds_base_timeframe ds_strategy_id ds_source_path].
    by rewrite ids_not_blank, Ht, Hb, Hs, Hname by done.
Qed.

Lemma contained_candidate f : is_candidate f = true -> contained f.2 ->
  is_Some (deployment_of f) \/ is_Some (problem_of f).
Proof.
  intros Hc Hf. unfold deployment_of, problem_of, DeploymentCatalog.read_deployment, read_document.
  pose proof (candidate_not_blank f Hc) as Hname.
  destruct f as [name [mode content| | |]]; simpl in *; try (right; eauto; fail).
  destruct (Hf mode content) as (t & -> & Hload & Hfin); [done|]. cbn [mbind result_bind].
  destruct (loads_document _ _) as [j|e] eqn:Hj; cbn [mbind result_bind];
    [|simpl in Hload; rewrite Hload; right; eauto].
  assert (raises diagnosed (parse_deployment sha256_hexdigest name j)) as Hp.
  { apply parse_deployment_diagnosed; [done| |intros fs raw ->; by apply Hfin].
    apply document_printable in Hj as [Hj _]. by apply andb_true_iff in Hj as [_ ?]. }
  destruct (parse_deployment _ _ _) as [d|[c m]]; [left; eauto|]. right.
  destruct Hp as (code & message & Hp). simpl in Hp. subst c. eauto.
Qed.

(** A candidate that cannot be read, is not JSON, or is
    not a deployment is reported and does not keep the others from being loaded: the scan of
    a directory succeeds as soon as every candidate that can be read is UTF-8 and no number of
    its [raw_spec] is too large for a double. Only the directory itself can make it fail as a
    whole, with DeploymentCatalogUnavailableError. *)
Theorem load_snapshot_contains_failures dir :
  (forall f, f ∈ candidates dir -> contained f.2) ->
  (exists s, load_snapshot (Some dir) = Ok s) /\
  load_snapshot None =
    raise DeploymentCatalogUnavailableError "deployment catalog directory scan failed".
Proof.
  intros Hdir. split; [|done]. unfold DeploymentCatalog.load_snapshot.
  pose proof (scan_candidates_cases (candidates dir)) as Hscan.
  destruct (scan_candidates (candidates dir)) as [[accepted invalid]|e]; cbn [mbind result_bind].
  { rewrite snapshot_post_init_NoDup; [eauto|apply accepted_NoDup|simpl; lia]. }
  destruct Hscan as (f & Hf & Hr & He). exfalso.
  destruct (contained_candidate f) as [[d Hd]|[p Hp]].
  - by apply elem_of_candidates in Hf as [_ ?].
  - by apply Hdir.
  - unfold deployment_of in Hd. by rewrite Hr in Hd.
  - unfold problem_of in Hp. rewrite Hr in Hp. destruct e as [c m]. specialize (He). simpl in He.
    destruct c; try done. by eapply He.
Qed.

(** ** What a scan returns *)

Definition scanned (f : string * entry) : Prop := is_Some (deployment_of f) \/ is_Some (problem_of f).

Definition snapshot_of (files : list (string * entry)) : DeploymentCatalogSnapshot :=
  {| sn_scanned_file_count := Z.of_nat (length files);
     sn_accepted_deployments := accepted_deployments (omap deployment_of files);
     sn_invalid_files := omap problem_of files;
     sn_duplicate_identities := duplicate_identities (omap deployment_of files) |}.

Lemma load_snapshot_Ok dir s : load_snapshot (Some dir) = Ok s <->
  Forall scanned (candidates dir) /\ s = snapshot_of (candidates dir).
Proof.
  unfold DeploymentCatalog.load_snapshot. pose proof (scan_candidates_cases (candidates dir)) as Hscan.
  destruct (scan_candidates (candidates dir)) as [[accepted invalid]|e]; cbn [mbind result_bind].
  - destruct Hscan as (-> & -> & Hall).
    rewrite snapshot_post_init_NoDup; [|apply accepted_NoDup|simpl; lia]. split.
    + by intros [= <-].
    + by intros [_ ->].
  - split; [done|]. intros [Hall _]. destruct Hscan as (f & Hf & Hr & He).
    rewrite Forall_forall in Hall. destruct (Hall f Hf) as [[d Hd]|[p Hp]].
    + unfold deployment_of in Hd. by rewrite Hr in Hd.
    + unfold problem_of in Hp. rewrite Hr in Hp. destruct e as [[] m]; try done. by edestruct He.
Qed.

(** An accepted deployment is described by the candidate it names. *)
Lemma found_accepted dir s i d : load_snapshot (Some dir) = Ok s ->
  get_by_strategy_instance_id s i = Some d ->
  d ∈ sn_accepted_deployments s /\ ds_strategy_instance_id d = i.
Proof. intros [_ ->]%load_snapshot_Ok. apply get_by_id_Some, accepted_NoDup. Qed.

Lemma accepted_candidate dir s d : load_snapshot (Some dir) = Ok s ->
  d ∈ sn_accepted_deployments s ->
  exists e, dir !! ds_source_path d = Some e /\ is_candidate (ds_source_path d, e) = true /\
    read_deployment (ds_source_path d, e) = Ok d.
Proof.
  intros [_ ->]%load_snapshot_Ok [Hd _]%elem_of_accepted.
  apply list_elem_of_omap in Hd as ([n e] & [Hf Hc]%elem_of_candidates & Hd). simpl in Hf.
  pose proof (deployment_of_Some _ _ Hd) as [Hs _]. simpl in Hs. exists e. rewrite Hs.
  split_and!; [done..|]. unfold deployment_of in Hd. by destruct (read_deployment _); simplify_eq.
Qed.

Lemma sort_by_map {A} (key : A -> string) (g : A -> A) l :
  (forall a, key (g a) = key a) -> sort_by key (map g l) = map g (sort_by key l).
Proof.
  intros Hg. assert (forall a l, insert_by key (g a) (map g l) = map g (insert_by key a l)) as Hi.
  { clear l. intros a l. induction l as [|b l IH]; simpl; [done|]. rewrite !Hg.
    destruct (string_leb _ _); simpl; by rewrite ?IH. }
  induction l as [|a l IH]; simpl; [done|]. by rewrite IH, Hi.
Qed.

Lemma filter_map {A B} (g : A -> B) (P : B -> Prop) `{forall b, Decision (P b)} l :
  filter P (map g l) = map g (filter (fun a => P (g a)) l).
Proof.
  induction l as [|a l IH]; [done|]. simpl. rewrite !filter_cons. case_decide; simpl; by rewrite IH.
Qed.

(** A change that keeps what is compared. *)
Section relabelled.
Context (g : DeploymentSpecification -> DeploymentSpecification)
        (Hid : forall d, id_of (g d) = id_of d)
        (Hsource : forall d, ds_source_path (g d) = ds_source_path d).

Lemma grouped_map l : grouped (map g l) = map (fun group => (group.1, map g group.2)) (grouped l).
Proof.
  induction l as [|d l IH] using rev_ind; [done|]. unfold grouped. rewrite map_app, !foldl_app. simpl.
  fold (grouped l) (grouped (map g l)). rewrite IH, Hid.
  generalize (grouped l). intros gs. induction gs as [|[i ds] gs IHg]; [done|]. simpl.
  case_decide; simpl; [by rewrite map_app|]. by rewrite IHg.
Qed.

Lemma duplicates_map l : duplicate_identities (map g l) = duplicate_identities l.
Proof.
  unfold duplicate_identities. rewrite grouped_map, sort_by_map by done.
  rewrite filter_map, map_map. simpl.
  rewrite (list_filter_iff _ (fun group => 1 < length group.2)%nat)
    by (intros a; simpl; by rewrite length_map).
  apply map_ext. intros [i ds]. simpl. by rewrite map_map, (map_ext _ _ Hsource).
Qed.

Lemma accepted_map l : accepted_deployments (map g l) = map g (accepted_deployments l).
Proof.
  unfold accepted_deployments. rewrite duplicates_map, filter_map. f_equal.
  apply list_filter_iff. intros d. by rewrite Hid.
Qed.
End relabelled.

Definition with_enabled (enabled : bool) (d : DeploymentSpecification) : DeploymentSpecification :=
  {| ds_strategy_instance_id := id_of d; ds_enabled := enabled; ds_instrument := ds_instrument d;
     ds_base_timeframe := ds_base_timeframe d; ds_strategy_id := ds_strategy_id d;
     ds_raw_spec := ds_raw_spec d; ds_source_path := ds_source_path d |}.

(** The snapshot in which the deployment of one file has another [enabled]. *)
Definition enabled_in (name : string) (enabled : bool) (s : DeploymentCatalogSnapshot) :
    DeploymentCatalogSnapshot :=
  {| sn_scanned_file_count := sn_scanned_file_count s;
     sn_accepted_deployments :=
       map (fun d => if decide (ds_source_path d = name) then with_enabled enabled d else d)
         (sn_accepted_deployments s);
     sn_invalid_files := sn_invalid_files s;
     sn_duplicate_identities := sn_duplicate_identities s |}.

Lemma candidates_insert dir name old new :
  dir !! name = Some old -> is_candidate (name, old) = true -> is_candidate (name, new) = true ->
  candidates (<[name := new]> dir) =
    map (fun f => if decide (f.1 = name) then (name, new) else f) (candidates dir).
Proof.
  intros Hold Hco Hcn. set (g := fun f : string * entry => if decide (f.1 = name) then (name, new) else f).
  assert (forall f, (g f).1 = f.1) as Hg by (intros f; unfold g; by case_decide).
  unfold candidates. rewrite <- sort_by_map by done. apply sort_by_unique; [apply visible_NoDup|].
  apply NoDup_Permutation.
  - apply NoDup_filter, NoDup_map_to_list.
  - apply (NoDup_fmap_1 fst). change (NoDup (map fst (map g
      (filter (fun file => is_candidate file = true) (map_to_list dir))))).
    rewrite map_map, (map_ext _ _ Hg). apply visible_NoDup.
  - intros [n x]. rewrite list_elem_of_filter, elem_of_map_to_list, list_elem_of_fmap.
    setoid_rewrite list_elem_of_filter. destruct (decide (n = name)) as [->|Hn].
    + rewrite lookup_insert_eq. split.
      * intros [_ [= ->]]. exists (name, old). rewrite elem_of_map_to_list. unfold g. simpl.
        by rewrite decide_True.
      * intros ([n' x'] & Hgf & Hc & Hf). pose proof (Hg (n', x')) as Hn. rewrite <- Hgf in Hn.
        simpl in Hn. subst n'. unfold g in Hgf. simpl in Hgf. rewrite decide_True in Hgf by done.
        by simplify_eq.
    + rewrite lookup_insert_ne by done. split.
      * intros [Hc Hx]. exists (n, x). rewrite elem_of_map_to_list. unfold g. simpl.
        by rewrite decide_False.
      * intros ([n' x'] & Hgf & Hc & Hf). pose proof (Hg (n', x')) as Hn'. rewrite <- Hgf in Hn'.
        simpl in Hn'. subst n'. unfold g in Hgf. simpl in Hgf. rewrite decide_False in Hgf by done.
        simplify_eq. by apply elem_of_map_to_list in Hf.
Qed.

Lemma omap_map {A B C} (f : B -> option C) (g : A -> B) (l : list A) : omap f (map g l) = omap (fun a => f (g a)) l.
Proof. induction l as [|a l IH]; [done|]. cbn [map omap list_omap]. by rewrite IH. Qed.

Lemma omap_ext_in {A B} (f g : A -> option B) (l : list A) :
  (forall a, a ∈ l -> f a = g a) -> omap f l = omap g l.
Proof.
  induction l as [|a l IH]; intros H; [done|]. cbn [omap list_omap]. rewrite H by left.
  rewrite IH; [done|]. intros b Hb. apply H. by right.
Qed.

Lemma omap_fmap {A B C} (f : A -> option B) (g : B -> C) (l : list A) :
  map g (omap f l) = omap (fun a => g <$> f a) l.
Proof.
  induction l as [|a l IH]; [done|]. cbn [omap list_omap]. destruct (f a); simpl; by rewrite IH.
Qed.

(** Replacing the file of a deployment by one that describes the same deployment with another
    [enabled] changes the snapshot in that place only. *)
Lemma load_snapshot_replaced dir name old new d enabled s :
  dir !! name = Some old -> is_candidate (name, old) = true -> is_candidate (name, new) = true ->
  read_deployment (name, old) = Ok d ->
  read_deployment (name, new) = Ok (with_enabled enabled d) ->
  load_snapshot (Some dir) = Ok s ->
  load_snapshot (Some (<[name := new]> dir)) = Ok (enabled_in name enabled s).
Proof.
  intros Hold Hco Hcn Hro Hrn [Hall ->]%load_snapshot_Ok. apply load_snapshot_Ok.
  rewrite (candidates_insert _ _ _ _ Hold Hco Hcn).
  set (g := fun f : string * entry => if decide (f.1 = name) then (name, new) else f).
  set (sw := fun d => if decide (ds_source_path d = name) then with_enabled enabled d else d).
  assert (forall f, f ∈ candidates dir -> f.1 = name -> f = (name, old)) as Honly.
  { intros [n e] [Hf _]%elem_of_candidates Hn. simpl in *. by simplify_eq. }
  assert (forall f, f ∈ candidates dir -> deployment_of (g f) = sw <$> deployment_of f) as Hdep.
  { intros f Hf. unfold g. case_decide as Hn.
    - rewrite (Honly f Hf Hn). unfold deployment_of. rewrite Hro, Hrn. simpl. unfold sw.
      rewrite decide_True; [done|]. apply (deployment_of_Some (name, old)).
      unfold deployment_of. by rewrite Hro.
    - destruct (deployment_of f) as [d'|] eqn:Hd; [|done]. simpl. unfold sw.
      rewrite decide_False; [done|]. apply deployment_of_Some in Hd as [-> _]. done. }
  assert (forall f, f ∈ candidates dir -> problem_of (g f) = problem_of f) as Hprob.
  { intros f Hf. unfold g. case_decide as Hn; [|done]. rewrite (Honly f Hf Hn).
    unfold problem_of. by rewrite Hro, Hrn. }
  split.
  - apply Forall_map, Forall_forall. intros f Hf. rewrite Forall_forall in Hall.
    unfold scanned. fold (g f). rewrite (Hdep f Hf), (Hprob f Hf).
    destruct (Hall f Hf) as [[d' ->]|?]; [left; eauto|by right].
  - unfold snapshot_of, enabled_in. cbn [sn_accepted_deployments sn_invalid_files
      sn_duplicate_identities sn_scanned_file_count].
    rewrite length_map, !omap_map, (omap_ext_in _ _ _ Hprob), (omap_ext_in _ _ _ Hdep).
    rewrite <- (omap_fmap deployment_of sw).
    assert (forall d, id_of (sw d) = id_of d) as Hid by (intros d'; unfold sw; by case_decide).
    assert (forall d, ds_source_path (sw d) = ds_source_path d) as Hsrc
      by (intros d'; unfold sw; by case_decide).
    by rewrite duplicates_map, accepted_map.
Qed.

(** ** Removing the file of a deployment *)

Definition removed_in (name : string) (s : DeploymentCatalogSnapshot) : DeploymentCatalogSnapshot :=
  {| sn_scanned_file_count := sn_scanned_file_count s - 1;
     sn_accepted_deployments :=
       filter (fun d => ds_source_path d <> name) (sn_accepted_deployments s);
     sn_invalid_files := sn_invalid_files s;
     sn_duplicate_identities := sn_duplicate_identities s |}.

Lemma filter_sorted {A} (R : A -> A -> Prop) (P : A -> Prop) `{forall a, Decision (P a)} (l : list A) :
  StronglySorted R l -> StronglySorted R (filter P l).
Proof.
  induction 1 as [|a l Hl IH Ha]; [constructor|]. rewrite filter_cons. case_decide; [|done].
  constructor; [done|]. rewrite Forall_forall in *. intros b [_ Hb]%list_elem_of_filter. auto.
Qed.

Lemma sort_by_filter {A} (key : A -> string) (P : A -> Prop) `{forall a, Decision (P a)} l :
  NoDup (map key l) -> sort_by key (filter P l) = filter P (sort_by key l).
Proof.
  intros Hl. eapply StronglySorted_unique_strong;
    [|apply sorted_strongly, sort_by_sorted|by apply filter_sorted, sorted_strongly, sort_by_sorted|].
  - intros x y Hx Hy Hxy Hyx. rewrite (sort_by_perm key) in Hx.
    apply list_elem_of_filter in Hx as [_ Hx], Hy as [_ Hy]. rewrite (sort_by_perm key) in Hy.
    apply (NoDup_map_inj key l); [done..|]. by apply string_leb_antisymm.
  - rewrite (sort_by_perm key). apply filter_Permutation. by rewrite (sort_by_perm key).
Qed.

Lemma candidates_delete dir name :
  candidates (delete name dir) = filter (fun f => f.1 <> name) (candidates dir).
Proof.
  unfold candidates. rewrite <- sort_by_filter by apply visible_NoDup.
  apply sort_by_unique; [apply visible_NoDup|]. apply NoDup_Permutation.
  1-2: repeat apply NoDup_filter; apply NoDup_map_to_list.
  intros [n x]. rewrite !list_elem_of_filter, !elem_of_map_to_list, lookup_delete_Some. naive_solver.
Qed.

(** Without the deployments of one identity. *)
Lemma grouped_without i l :
  grouped (filter (fun d => id_of d <> i) l) = filter (fun g => g.1 <> i) (grouped l : list (string * list DeploymentSpecification)).
Proof.
  induction l as [|d l IH] using rev_ind; [done|]. rewrite filter_app. unfold grouped.
  rewrite !foldl_app. fold (grouped l) (grouped (filter (fun d => id_of d <> i) l)). rewrite IH.
  assert (forall (g : list (string * list DeploymentSpecification)) k, k <> i ->
    dget k (filter (fun g => g.1 <> i) g) = dget k g) as Hget.
  { clear. intros g k Hk. induction g as [|[j ds] g IH]; [done|]. rewrite filter_cons. simpl.
    repeat (case_decide; simpl; simplify_eq); try done. }
  assert (forall (g : list (string * list DeploymentSpecification)) k v, k <> i ->
    dset k v (filter (fun g => g.1 <> i) g) =
      filter (fun g => g.1 <> i) (dset k v g : list (string * list DeploymentSpecification))) as Hset.
  { clear. intros g k v Hk. induction g as [|[j ds] g IH]; simpl.
    - unfold filter. simpl. by rewrite decide_True.
    - destruct (decide (j = i)) as [->|Hj].
      + rewrite filter_cons_False, decide_False by (simpl; tauto).
        rewrite filter_cons_False by (simpl; tauto). exact IH.
      + rewrite filter_cons_True by done. simpl. case_decide.
        * by rewrite filter_cons_True.
        * rewrite filter_cons_True by done. by rewrite IH. }
  assert (forall (g : list (string * list DeploymentSpecification)) v,
    filter (fun g => g.1 <> i) (dset i v g : list (string * list DeploymentSpecification)) = filter (fun g => g.1 <> i) g) as Hdel.
  { clear. intros g v. induction g as [|[j ds] g IH]; simpl.
    - unfold filter. simpl. by rewrite decide_False by tauto.
    - case_decide; simplify_eq; rewrite !filter_cons; simpl; case_decide; simplify_eq; try done.
      by f_equal. }
  rewrite filter_cons. case_decide as Hd; simpl.
  - by rewrite Hget, Hset.
  - assert (id_of d = i) as -> by (destruct (decide (id_of d = i)); tauto). by rewrite Hdel.
Qed.

Lemma filter_ext_in {A} (P Q : A -> Prop) `{forall a, Decision (P a)} `{forall a, Decision (Q a)}
    (l : list A) : (forall a, a ∈ l -> P a <-> Q a) -> filter P l = filter Q l.
Proof.
  induction l as [|a l IH]; intros HPQ; [done|]. rewrite !filter_cons, IH by (intros b Hb; apply HPQ; by right).
  pose proof (HPQ a ltac:(left)). destruct (decide (P a)), (decide (Q a)); tauto.
Qed.

(** A deployment that is the only one of its identity takes no diagnostic with it. *)
Lemma duplicates_without d l : with_id (id_of d) l = [d] ->
  duplicate_identities (filter (fun x => id_of x <> id_of d) l) = duplicate_identities l.
Proof.
  intros Hw. destruct (grouped_spec l) as [Hk Hg]. unfold duplicate_identities. f_equal.
  rewrite grouped_without, sort_by_filter by done. rewrite list_filter_filter.
  apply filter_ext_in. intros [i ds] Hin. simpl. split; [by intros []|]. intros Hlen.
  split; [done|]. intros ->. rewrite (sort_by_perm fst) in Hin.
  apply (elem_dget _ _ _ Hk) in Hin. rewrite Hg, Hw in Hin. injection Hin as <-. simpl in Hlen. lia.
Qed.

Lemma accepted_without d l : with_id (id_of d) l = [d] ->
  accepted_deployments (filter (fun x => id_of x <> id_of d) l) =
    filter (fun x => id_of x <> id_of d) (accepted_deployments l).
Proof.
  intros Hw. unfold accepted_deployments. rewrite duplicates_without by done.
  rewrite !list_filter_filter. apply list_filter_iff. tauto.
Qed.

Lemma omap_filter {A B} (f : A -> option B) (P : A -> Prop) (Q : B -> Prop)
    `{forall a, Decision (P a)} `{forall b, Decision (Q b)} (l : list A) :
  (forall a b, a ∈ l -> f a = Some b -> P a <-> Q b) ->
  omap f (filter P l) = filter Q (omap f l).
Proof.
  induction l as [|a l IH]; intros HPQ; [done|]. rewrite filter_cons. cbn [omap list_omap].
  assert (omap f (filter P l) = filter Q (omap f l)) as Hl by (apply IH; intros; eapply HPQ; [by right|done]).
  destruct (f a) as [b|] eqn:Hf.
  - rewrite filter_cons. pose proof (HPQ a b ltac:(left) Hf) as Hab.
    destruct (decide (P a)); [rewrite decide_True by tauto|rewrite decide_False by tauto].
    + cbn [omap list_omap]. by rewrite Hf, Hl.
    + done.
  - case_decide; [|done]. cbn [omap list_omap]. by rewrite Hf.
Qed.

Lemma length_filter_one {A} (key : A -> string) l a : NoDup (map key l) -> a ∈ l ->
  (S (length (filter (fun b => key b <> key a) l)) = length l)%nat.
Proof.
  induction l as [|b l IH]; [by intros _ ?%elem_of_nil|]. simpl.
  intros [Hb Hl]%NoDup_cons [<-|Ha]%elem_of_cons; rewrite filter_cons.
  - rewrite decide_False by tauto. do 2 f_equal. clear -Hb.
    induction l as [|c l IH]; [done|]. simpl in Hb. apply not_elem_of_cons in Hb as [? ?].
    rewrite filter_cons_True by congruence. f_equal. by apply IH.
  - rewrite decide_True; [simpl; f_equal; by apply IH|]. intros Heq. apply Hb. rewrite Heq.
    by apply list_elem_of_fmap_2.
Qed.

Lemma enabled_in_same dir d s :
  load_snapshot (Some dir) = Ok s -> d ∈ sn_accepted_deployments s ->
  enabled_in (ds_source_path d) (ds_enabled d) s = s.
Proof.
  intros [_ ->]%load_snapshot_Ok Hd. pose proof (deployments_NoDup dir) as Hsrc.
  unfold enabled_in, snapshot_of in *.
  cbn [sn_accepted_deployments sn_invalid_files sn_duplicate_identities sn_scanned_file_count] in *.
  f_equal. rewrite <- (map_id (accepted_deployments _)) at 2. apply map_ext_in.
  intros x Hx. case_decide as Hn; [|done]. apply list_elem_of_In in Hx.
  apply elem_of_accepted in Hx as [Hx _], Hd as [Hd _].
  assert (x = d) as -> by (by apply (NoDup_map_inj ds_source_path _ _ _ Hsrc)). by destruct d.
Qed.

(** Removing the file of an accepted deployment removes that deployment from the snapshot and
    nothing else. *)
Lemma load_snapshot_removed dir d s :
  load_snapshot (Some dir) = Ok s -> d ∈ sn_accepted_deployments s ->
  load_snapshot (Some (delete (ds_source_path d) dir)) = Ok (removed_in (ds_source_path d) s).
Proof.
  intros Hs Hd. destruct (accepted_candidate _ _ _ Hs Hd) as (e & He & Hc & Hr).
  apply load_snapshot_Ok in Hs as [Hall ->]. apply load_snapshot_Ok. rewrite candidates_delete.
  split.
  { apply Forall_forall. intros f [_ Hf]%list_elem_of_filter. rewrite Forall_forall in Hall. auto. }
  set (name := ds_source_path d) in *.
  set (l := omap deployment_of (candidates dir)). pose proof (deployments_NoDup dir) as Hsrc.
  simpl in Hd. fold l in Hd, Hsrc. apply elem_of_accepted in Hd as [Hd Hw].
  assert ((name, e) ∈ candidates dir) as Hin by (by apply elem_of_candidates).
  assert (omap deployment_of (filter (fun f => f.1 <> name) (candidates dir)) =
    filter (fun x => id_of x <> id_of d) l) as Hdep.
  { apply omap_filter. intros f x Hf Hx. pose proof (deployment_of_Some _ _ Hx) as [<- _].
    assert (x ∈ l) as Hxl by (apply list_elem_of_omap; by exists f).
    split; intros Hne Heq; apply Hne.
    - unfold name. f_equal. by apply (proj1 (with_id_only l d Hsrc Hd)).
    - f_equal. by apply (NoDup_map_inj ds_source_path l). }
  assert (omap problem_of (filter (fun f => f.1 <> name) (candidates dir)) =
    omap problem_of (candidates dir)) as Hprob.
  { rewrite (omap_filter _ _ (fun _ => True)).
    - induction (omap problem_of _) as [|p ps IH]; [done|]. by rewrite filter_cons_True, IH.
    - intros f p Hf Hp. split; [done|]. intros _ Heq. destruct f as [n x]. simpl in Heq. subst n.
      apply elem_of_candidates in Hf as [Hf _]. simpl in Hf. simplify_eq.
      unfold problem_of in Hp. by rewrite Hr in Hp. }
  unfold snapshot_of, removed_in.
  cbn [sn_accepted_deployments sn_invalid_files sn_duplicate_identities sn_scanned_file_count].
  fold l. rewrite Hdep, Hprob, duplicates_without, accepted_without by done.
  pose proof (length_filter_one fst _ _ (candidates_NoDup dir) Hin) as Hlen. simpl in Hlen.
  f_equal; [rewrite <- Hlen; lia|]. apply filter_ext_in. intros x [Hx _]%elem_of_accepted.
  split; intros Hne Heq; apply Hne.
  - unfold name. f_equal. by apply (proj1 (with_id_only l d Hsrc Hd)).
  - f_equal. by apply (NoDup_map_inj ds_source_path l).
Qed.
End scanning.





(** * The identity is the content *)

Lemma all_finite_sort j : all_finite (sort_json j) = all_finite j.
Proof.
  induction j as [| | | | |l IH|fs IH] using json_nested_ind; try done; simpl.
  - rewrite forallb_map. induction IH as [|v l Hv _ IH]; simpl; [done|]. by rewrite Hv, IH.
  - rewrite (forallb_perm _ _ _ (sort_by_perm fst _)), forallb_map. simpl.
    induction IH as [|f fs Hf _ IH]; simpl; [done|]. by rewrite Hf, IH.
Qed.

Section identity.
Context (sha256_hexdigest : list ascii -> string)
        (Hlength : forall b, length (chars (sha256_hexdigest b)) = 64%nat).

Notation derive := (derive_strategy_instance_id sha256_hexdigest).

Lemma sort_payload s t b raw :
  sort_json (identity_payload (JStr s) (JStr t) (JStr b) raw) =
  JObj [("base_timeframe", JStr b); ("raw_spec", sort_json raw); ("strategy_id", JStr s);
        ("ticker", JStr t)].
Proof. reflexivity. Qed.

Lemma canonical_payload_Ok j c : canonical_payload j = Ok c -> json_ok j = true ->
  c = utf8 (write (sort_json j)) /\ loads (text (write (sort_json j))) = Ok (sort_json j).
Proof.
  unfold canonical_payload. intros H Hj. ok_inv H. pose proof (loads_dumps _ _ Hok0 Hj) as Hl.
  apply dumps_Ok in Hok0 as [-> _]; [|done]. by rewrite chars_text.
Qed.

(** The canonical text determines the value, up to the order of the keys. *)
Lemma canonical_payload_inj j j' c : json_ok j = true -> json_ok j' = true ->
  canonical_payload j = Ok c -> canonical_payload j' = Ok c -> sort_json j = sort_json j'.
Proof.
  intros Hj Hj' [-> Hl]%canonical_payload_Ok [Heq Hl']%canonical_payload_Ok; [|done..].
  apply (f_equal utf8_decode) in Heq. rewrite !utf8_decode_utf8 in Heq. injection Heq as Heq.
  rewrite Heq in Hl. rewrite Hl in Hl'. by injection Hl'.
Qed.

Lemma chars_app s t : chars (s +:+ t) = chars s ++ chars t.
Proof. induction s as [|c s IH]; [done|]. simpl. by rewrite IH. Qed.

Definition digest (c : list ascii) : string :=
  text (take DIGEST_HEX_LENGTH (chars (sha256_hexdigest c))).

Lemma digest_length c : length (chars (digest c)) = DIGEST_HEX_LENGTH.
Proof. unfold digest. rewrite chars_text, length_take, Hlength. done. Qed.

Lemma identity_text_inj s s' c c' :
  s +:+ ":" +:+ digest c = s' +:+ ":" +:+ digest c' -> s = s' /\ digest c = digest c'.
Proof.
  intros Heq. apply (f_equal chars) in Heq. rewrite !chars_app in Heq.
  rewrite !app_assoc in Heq. apply app_inj_2 in Heq as [Heq Hd]; [|by rewrite !digest_length].
  apply app_inj_tail in Heq as [Hs _]. apply (f_equal text) in Hs, Hd.
  by rewrite !text_chars in Hs, Hd.
Qed.

(** C31. The identity of a deployment is what it trades: it does not
    depend on the order of the keys of [raw_spec] at any depth (nor, since they are no
    argument of it, on the file name, the formatting, [enabled] or additional fields), and
    two documents that have the same identity agree on strategy, ticker, time frame and, up
    to the order of the keys, on [raw_spec], unless the digests of their different canonical
    texts collide. *)
Theorem identity_is_content s t b raw s' t' b' raw' :
  json_ok raw = true -> json_ok raw' = true ->
  (sort_json raw = sort_json raw' ->
   derive (JStr s) (JStr t) (JStr b) raw = derive (JStr s) (JStr t) (JStr b) raw') /\
  (forall i c c',
   derive (JStr s) (JStr t) (JStr b) raw = Ok i -> derive (JStr s') (JStr t') (JStr b') raw' = Ok i ->
   canonical_payload (identity_payload (JStr s) (JStr t) (JStr b) raw) = Ok c ->
   canonical_payload (identity_payload (JStr s') (JStr t') (JStr b') raw') = Ok c' ->
   (digest c = digest c' -> c = c') ->
   s = s' /\ t = t' /\ b = b' /\ sort_json raw = sort_json raw').
Proof.
  intros Hraw Hraw'. split.
  - intros Hs. unfold derive_strategy_instance_id, canonical_payload.
    rewrite <- all_finite_sort, sort_payload, Hs.
    rewrite (dumps_sort _ (identity_payload (JStr s) (JStr t) (JStr b) raw'))
      by by rewrite !sort_payload, Hs.
    by rewrite <- (all_finite_sort (identity_payload _ _ _ raw')), sort_payload.
  - intros i c c' Hi Hi' Hc Hc' Hcol. unfold derive_strategy_instance_id in Hi, Hi'.
    rewrite Hc in Hi. rewrite Hc' in Hi'. simpl in Hi, Hi'.
    injection Hi as <-. injection Hi' as Hi'. fold (digest c) (digest c') in Hi'.
    symmetry in Hi'. apply identity_text_inj in Hi' as [-> Hd]. rewrite <- (Hcol Hd) in Hc'.
    assert (forall s t b raw, json_ok raw = true ->
      json_ok (identity_payload (JStr s) (JStr t) (JStr b) raw) = true) as Hok
      by (clear; intros; simpl; by rewrite H).
    pose proof (canonical_payload_inj _ _ _ (Hok _ _ _ _ Hraw) (Hok _ _ _ _ Hraw') Hc Hc') as He.
    rewrite !sort_payload in He. by simplify_eq.
Qed.
End identity.

(** * Examples *)

(** A digest and a float conversion that keep the laws. *)
Definition sample_sha256 (b : list ascii) : string :=
  text (take 64 (b ++ replicate 64 "0"%char)).

Definition sample_float_repr (s : string) : option string :=
  if bool_decide (s = "1e400") then None else if float_literal [] s then Some s else None.

Lemma sample_sha256_length b : length (chars (sample_sha256 b)) = 64%nat.
Proof.
  unfold sample_sha256. rewrite chars_text, length_take, length_app, length_replicate. lia.
Qed.

Lemma sample_float_repr_law : float_repr_law sample_float_repr.
Proof.
  intros s t. unfold sample_float_repr. case_bool_decide as Hs; [done|].
  destruct (float_literal [] s) eqn:Hl; [|done]. intros [= <-].
  by rewrite bool_decide_false, Hl.
Qed.

Definition deployment_document (enabled : bool) (raw_spec : json) : json :=
  JObj [("enabled", JBool enabled); ("ticker", JStr "BTCUSDT"); ("base_timeframe", JStr "1m");
        ("strategy_id", JStr "trend"); ("raw_spec", raw_spec)].

Definition sample_spec : json := JObj [("length", JInt 20); ("factor", JFloat "1.5")].

Definition deployment_file (j : json) : entry := File 420 (utf8 (write j)).

Definition sample_directory : directory :=
  list_to_map [("trend.json", deployment_file (deployment_document true sample_spec));
               ("note.txt", File 420 (chars "not a deployment"));
               (".trend.json.tmp", Unreadable 420 "Permission denied");
               ("locked.json", Unreadable 420 "Permission denied");
               ("broken.json", File 420 (chars "{"))].

Example sample_snapshot :
  load_snapshot sample_sha256 sample_float_repr (Some sample_directory) =
  Ok {| sn_scanned_file_count := 3;
        sn_accepted_deployments := [
          {| ds_strategy_instance_id :=
               text (chars "trend:{" ++ quotation_mark :: chars "base_timeframe"
                     ++ quotation_mark :: ":"%char :: quotation_mark :: chars "1m"
                     ++ [quotation_mark; ","%char; quotation_mark]);
             ds_enabled := true; ds_instrument := "BTCUSDT"; ds_base_timeframe := "1m";
             ds_strategy_id := "trend";
             ds_raw_spec := [("length", JInt 20); ("factor", JFloat "1.5")];
             ds_source_path := "trend.json" |}];
        sn_invalid_files := [
          {| iv_source_path := "broken.json"; iv_error_code := "invalid_json";
             iv_error_message := Some "Expecting property name enclosed in double quotes" |};
          {| iv_source_path := "locked.json"; iv_error_code := "file_read_failed";
             iv_error_message := Some "Permission denied" |}];
        sn_duplicate_identities := [] |}.
Proof. vm_compute. reflexivity. Qed.

(** Two files of the same strategy, with the keys of [raw_spec] in another order: neither is
    accepted. *)
Example duplicates_fail_closed :
  (s ← load_snapshot sample_sha256 sample_float_repr (Some
    (<["copy.json" := deployment_file (deployment_document false
        (JObj [("factor", JFloat "1.5"); ("length", JInt 20)]))]> sample_directory));
   Ok (sn_accepted_deployments s)) = Ok [].
Proof. vm_compute. reflexivity. Qed.

(** A file that is not UTF-8, or whose [raw_spec] has a number too large for a double, is not
    reported: it stops the scan. *)
Example undecodable_file_stops_the_scan :
  load_snapshot sample_sha256 sample_float_repr
    (Some (<["bytes.json" := File 420 ["255"%char]]> sample_directory)) = unicode_decode_error.
Proof. vm_compute. reflexivity. Qed.

Example overflowing_number_stops_the_scan :
  load_snapshot sample_sha256 sample_float_repr
    (Some (<["huge.json" := deployment_file (deployment_document true
        (JObj [("factor", JFloat "1e400")]))]> sample_directory)) =
  raise ValueError "Out of range float values are not JSON compliant".
Proof. vm_compute. reflexivity. Qed.

Lemma load_snapshot_contains_failures_witness :
  exists s, load_snapshot sample_sha256 sample_float_repr (Some sample_directory) = Ok s.
Proof.
  apply (load_snapshot_contains_failures sample_sha256 sample_float_repr sample_float_repr_law).
  intros f Hf. unfold candidates in Hf.
  assert (candidates sample_directory = [
    ("broken.json", File 420 (chars "{")); ("locked.json", Unreadable 420 "Permission denied");
    ("trend.json", deployment_file (deployment_document true sample_spec))]) as Hc
    by (vm_compute; reflexivity).
  unfold candidates in Hc. rewrite Hc in Hf. clear Hc.
  repeat (apply elem_of_cons in Hf as [->|Hf]); [..|by apply elem_of_nil in Hf].
  all: intros mode content [= <- <-].
  - exists (chars "{"). by vm_compute.
  - exists (write (deployment_document true sample_spec)).
    split; [by vm_compute|]. split; [by vm_compute|].
    intros fs raw Hl Hd. vm_compute in Hl. injection Hl as <-. vm_compute in Hd. by simplify_eq.
Defined.

Lemma identity_is_content_witness :
  exists c, canonical_payload (identity_payload (JStr "trend") (JStr "BTCUSDT") (JStr "1m")
    sample_spec) = Ok c /\ sort_json sample_spec =
    sort_json (JObj [("factor", JFloat "1.5"); ("length", JInt 20)]).
Proof.
  eexists. split; [vm_compute; reflexivity|].
  refine (proj2 (proj2 (proj2 (proj2 (identity_is_content sample_sha256 sample_sha256_length
    "trend" "BTCUSDT" "1m" sample_spec "trend" "BTCUSDT" "1m"
    (JObj [("factor", JFloat "1.5"); ("length", JInt 20)]) _ _) _ _ _ _ _ _ _ _)))).
  all: vm_compute; reflexivity.
Defined.
