(* ===== verification/Disk.v ===== *)
(** File operations on the catalog directory: each operation of the program is one step, before
    which other processes may have changed the directory, and which may fail with [OSError].
    Used by DeploymentWriter.v and TrashMover.v. *)
From stdpp Require Import sorting.
From S2P Require Import Prelude Errors DecimalText DecimalCanonical Models Json JsonFacts JsonPretty JsonLoad Contracts DeploymentCatalog.

(** What happens at one operation: the entries other processes wrote ([None]: removed) since
    the operation before, and the text of the error it ends with. *)
Record step := {
  st_meanwhile : list (string * option entry);
  st_error : option string }.

(** The directory and what will happen at the operations to come; nothing more happens when
    the list is used up. *)
Record disk := { dk_entries : directory; dk_steps : list step }.

Definition apply_change (dir : directory) (change : string * option entry) : directory :=
  match change.2 with Some e => <[change.1 := e]> dir | None => delete change.1 dir end.

Definition apply_changes (changes : list (string * option entry)) (dir : directory) : directory :=
  foldl apply_change dir changes.

(** * Programs *)

Definition io (A : Type) : Type := disk -> result A * disk.

#[export] Instance io_ret : MRet io := fun A a d => (Ok a, d).
#[export] Instance io_bind : MBind io := fun A B f m d =>
  match m d with (Ok a, d) => f a d | (Raise e, d) => (Raise e, d) end.

Definition of_result {A} (r : result A) : io A := fun d => (r, d).
Definition raise_io {A} (c : exn_class) (msg : string) : io A := of_result (raise c msg).

(** [if not b: raise cls(msg)] *)
Definition check (b : bool) (c : exn_class) (msg : string) : io unit := of_result (require b c msg).

(** [try: m except ...: handler] *)
Definition try_with {A} (m : io A) (handler : exn -> io A) : io A := fun d =>
  match m d with (Ok a, d) => (Ok a, d) | (Raise e, d) => handler e d end.

(** [try: m except OSError as exc: raise cls(str(exc)) from exc] *)
Definition except_os_error {A} (c : exn_class) (m : io A) : io A :=
  try_with m (fun e => if is_os_error (exn_cls e) then raise_io c (exn_msg e)
                       else of_result (Raise e)).

(** [with contextlib.suppress(OSError): m] *)
Definition suppress_os_error (m : io unit) : io unit :=
  try_with m (fun e => if is_os_error (exn_cls e) then mret tt else of_result (Raise e)).

(** One file operation. *)
Definition operation {A} (f : directory -> result A * directory) : io A := fun d =>
  match dk_steps d with
  | [] =>
      let '(r, dir) := f (dk_entries d) in (r, {| dk_entries := dir; dk_steps := [] |})
  | s :: steps =>
      let dir := apply_changes (st_meanwhile s) (dk_entries d) in
      match st_error s with
      | Some error => (raise OSError error, {| dk_entries := dir; dk_steps := steps |})
      | None => let '(r, dir) := f dir in (r, {| dk_entries := dir; dk_steps := steps |})
      end
  end.

(** * Operations *)

(** [path.read_bytes()] *)
Definition read_file (name : string) : io (list ascii) :=
  operation (fun dir => (read_bytes (dir !! name), dir)).

Definition entry_mode (e : option entry) : result Z :=
  match e with
  | Some (File mode _) | Some (Unreadable mode _) => Ok mode
  | Some _ => Ok 0
  | None => no_such_file
  end.

(** [path.stat().st_mode & 0o777] *)
Definition stat_mode (name : string) : io Z :=
  operation (fun dir => (mode ← entry_mode (dir !! name); Ok (Z.land mode 511), dir)).

(** [os.open(path, O_WRONLY | O_CREAT | O_EXCL, 0o600)] *)
Definition create_exclusive (name : string) : io unit :=
  operation (fun dir =>
    match dir !! name with
    | Some _ => (raise FileExistsError "File exists", dir)
    | None => (Ok tt, <[name := File 384 []]> dir)
    end).

(** [os.fchmod], the loop over [os.write], on the file that was just created. *)
Definition change_mode (name : string) (mode : Z) : io unit :=
  operation (fun dir =>
    (Ok tt, alter (fun e => match e with File _ c => File mode c | e => e end) name dir)).

Definition write_content (name : string) (content : list ascii) : io unit :=
  operation (fun dir =>
    (Ok tt, alter (fun e => match e with File mode _ => File mode content | e => e end) name dir)).

(** [os.fsync]; opening and closing a descriptor does not change the directory either. *)
Definition sync : io unit := operation (fun dir => (Ok tt, dir)).

(** [os.unlink(path)] *)
Definition unlink (name : string) : io unit :=
  operation (fun dir =>
    match dir !! name with
    | Some (Folder _) => (raise OSError "Is a directory", dir)
    | Some _ => (Ok tt, delete name dir)
    | None => (no_such_file, dir)
    end).

(** [os.replace(source, target)] *)
Definition replace (source target : string) : io unit :=
  operation (fun dir =>
    match dir !! source, dir !! target with
    | None, _ => (no_such_file, dir)
    | Some _, Some (Folder _) => (raise OSError "Is a directory", dir)
    | Some e, _ => (Ok tt, <[target := e]> (delete source dir))
    end).

(** [_sync_directory]: a failure is logged. *)
Definition sync_directory : io unit := suppress_os_error sync.

(** * Reading a run *)

Lemma io_bind_Ok {A B} (m : io A) (f : A -> io B) d b d' :
  (m ≫= f) d = (Ok b, d') <-> exists a d1, m d = (Ok a, d1) /\ f a d1 = (Ok b, d').
Proof.
  unfold mbind, io_bind. destruct (m d) as [[a|e] d1]; naive_solver.
Qed.

Lemma try_with_Ok {A} (m : io A) handler d a d' :
  try_with m handler d = (Ok a, d') <->
  m d = (Ok a, d') \/ exists e d1, m d = (Raise e, d1) /\ handler e d1 = (Ok a, d').
Proof. unfold try_with. destruct (m d) as [[a'|e] d1]; naive_solver. Qed.

Lemma except_os_error_Ok {A} c (m : io A) d a d' :
  except_os_error c m d = (Ok a, d') <-> m d = (Ok a, d').
Proof.
  unfold except_os_error. rewrite try_with_Ok. split; [|auto].
  intros [?|(e & d1 & _ & H)]; [done|]. destruct (is_os_error _); discriminate.
Qed.

Lemma of_result_Ok {A} (r : result A) d a d' :
  of_result r d = (Ok a, d') <-> r = Ok a /\ d' = d.
Proof. unfold of_result. naive_solver. Qed.

(** Steps that end well, one after the other. *)
Lemma io_run_bind {A B} (m : io A) (f : A -> io B) d a d1 r :
  m d = (Ok a, d1) -> f a d1 = r -> (m ≫= f) d = r.
Proof. intros Hm <-. unfold mbind, io_bind. by rewrite Hm. Qed.

Lemma run_except {A} c (m : io A) d a d1 : m d = (Ok a, d1) -> except_os_error c m d = (Ok a, d1).
Proof. intros Hm. by apply except_os_error_Ok. Qed.

Lemma run_try {A} (m : io A) handler d a d1 : m d = (Ok a, d1) -> try_with m handler d = (Ok a, d1).
Proof. intros Hm. apply try_with_Ok. by left. Qed.

(** The disk on which nothing else happens. *)
Definition alone (dir : directory) : disk := {| dk_entries := dir; dk_steps := [] |}.

Lemma run_operation {A} (f : directory -> result A * directory) dir r dir' :
  f dir = (r, dir') -> operation f (alone dir) = (r, alone dir').
Proof. intros Hf. unfold operation. simpl. by rewrite Hf. Qed.

(** Nobody else writes to the directory; operations may fail. *)
Definition quiet (d : disk) : Prop := Forall (fun s => st_meanwhile s = []) (dk_steps d).

Lemma operation_quiet {A} (f : directory -> result A * directory) d r d' :
  quiet d -> operation f d = (r, d') ->
  quiet d' /\ (f (dk_entries d) = (r, dk_entries d') \/
    dk_entries d' = dk_entries d /\ exists msg, r = raise OSError msg).
Proof.
  unfold quiet, operation. intros Hq H. destruct (dk_steps d) as [|s steps] eqn:Hs.
  - destruct (f (dk_entries d)) as [r1 dir] eqn:Hf. simplify_eq. simpl. auto.
  - apply Forall_cons in Hq as [Hm Hq]. rewrite Hm in H. simpl in H.
    destruct (st_error s) as [msg|]; [simplify_eq; simpl; eauto|].
    destruct (f (dk_entries d)) as [r1 dir] eqn:Hf. simplify_eq. simpl. auto.
Qed.

Lemma operation_Ok {A} (f : directory -> result A * directory) d a d' :
  quiet d -> operation f d = (Ok a, d') -> quiet d' /\ f (dk_entries d) = (Ok a, dk_entries d').
Proof. intros Hq H. destruct (operation_quiet _ _ _ _ Hq H) as [? [?|[_ [? ?]]]]; done. Qed.

(** [io_inv H] splits a run that ended well into its steps. *)
Ltac io_inv H :=
  repeat first
    [ lazymatch type of H with
      | (_ ≫= _) _ = (Ok _, _) =>
          apply io_bind_Ok in H; let a := fresh "a" in let d := fresh "d" in
          let Ha := fresh "Hio" in destruct H as (a & d & Ha & H); io_inv Ha
      | except_os_error _ _ _ = (Ok _, _) => apply except_os_error_Ok in H
      | of_result _ _ = (Ok _, _) => apply of_result_Ok in H as [H ->]
      | check _ _ _ _ = (Ok _, _) => apply of_result_Ok in H as [H ->]
      | mret _ _ = (Ok _, _) => apply (of_result_Ok (Ok _)) in H as [H ->]
      end ].

(** A failed synchronisation is no failure. *)
Lemma sync_directory_Ok d : exists d', sync_directory d = (Ok tt, d').
Proof.
  unfold sync_directory, suppress_os_error, try_with, sync, operation, raise.
  destruct (dk_steps d) as [|s steps]; [eauto|]. destruct (st_error s); simpl; eauto.
Qed.

Lemma sync_directory_quiet d r d' : quiet d -> sync_directory d = (r, d') ->
  quiet d' /\ dk_entries d' = dk_entries d.
Proof.
  intros Hq H. unfold sync_directory, suppress_os_error, try_with in H.
  destruct (sync d) as [[a|e] d1] eqn:Hs; destruct (operation_quiet _ _ _ _ Hq Hs) as [? Hd].
  - simplify_eq. split; [done|]. by destruct Hd as [[= _ ?]|[? _]].
  - assert (d' = d1) as -> by (by destruct (is_os_error _); unfold mret, io_ret, of_result in H; simplify_eq).
    split; [done|]. by destruct Hd as [[=]|[? _]].
Qed.

(** * What a program may have changed

    The names a program uses for itself are hidden. *)

Definition visible (dir : directory) : directory := filter (fun f => hidden f.1 = false) dir.

Lemma lookup_visible dir name : visible dir !! name = if hidden name then None else dir !! name.
Proof.
  unfold visible. destruct (dir !! name) as [e|] eqn:He; destruct (hidden name) eqn:Hh.
  - apply map_lookup_filter_None. right. intros e' _. simpl. by rewrite Hh.
  - by apply map_lookup_filter_Some.
  - apply map_lookup_filter_None. by left.
  - apply map_lookup_filter_None. by left.
Qed.

Lemma visible_eq dir dir' :
  visible dir = visible dir' <-> forall name, hidden name = false -> dir !! name = dir' !! name.
Proof.
  split.
  - intros H name Hn. apply (f_equal (fun m => m !! name)) in H.
    by rewrite !lookup_visible, Hn in H.
  - intros H. apply map_eq. intros name. rewrite !lookup_visible.
    destruct (hidden name) eqn:Hn; auto.
Qed.

Lemma visible_changes changes dir dir' :
  visible dir = visible dir' ->
  visible (apply_changes changes dir) = visible (apply_changes changes dir').
Proof.
  unfold apply_changes. revert dir dir'. induction changes as [|c changes IH]; intros dir dir' H; [done|].
  simpl. apply IH. apply visible_eq. intros name Hn. rewrite visible_eq in H. specialize (H name Hn).
  unfold apply_change. destruct c.2; destruct (decide (c.1 = name)) as [->|?];
    by rewrite ?lookup_insert_eq, ?lookup_delete_eq, ?lookup_insert_ne, ?lookup_delete_ne.
Qed.

Lemma apply_changes_app changes changes' dir :
  apply_changes (changes ++ changes') dir = apply_changes changes' (apply_changes changes dir).
Proof. apply foldl_app. Qed.

(** The catalog sees the visible entries only. *)
Lemma candidates_visible dir dir' : visible dir = visible dir' -> candidates dir = candidates dir'.
Proof.
  rewrite visible_eq. intros H. apply sort_by_unique; [apply visible_NoDup|].
  apply NoDup_Permutation.
  1-2: apply NoDup_filter, NoDup_map_to_list.
  intros [n x]. rewrite !list_elem_of_filter, !elem_of_map_to_list.
  unfold is_candidate. simpl. destruct (hidden n) eqn:Hn.
  - rewrite andb_false_r. simpl. naive_solver.
  - by rewrite H.
Qed.

(** When a program ends as [P] says, the visible entries are what the others made of them. *)
Definition keeps {A} (P : result A -> Prop) (m : io A) : Prop := forall d r d',
  m d = (r, d') -> exists used, dk_steps d = used ++ dk_steps d' /\
    (P r -> visible (dk_entries d') =
       visible (apply_changes (flat_map st_meanwhile used) (dk_entries d))).

Definition always {A} (r : result A) : Prop := True.
Definition raised {A} (r : result A) : Prop := is_ok r = false.

Lemma untouched_trans used1 used2 d d1 d2 :
  visible d1 = visible (apply_changes (flat_map st_meanwhile used1) d) ->
  visible d2 = visible (apply_changes (flat_map st_meanwhile used2) d1) ->
  visible d2 = visible (apply_changes (flat_map st_meanwhile (used1 ++ used2)) d).
Proof.
  intros Hd1 ->. rewrite flat_map_app, apply_changes_app. by apply visible_changes.
Qed.

Lemma keeps_of_result {A} (P : result A -> Prop) r : keeps P (of_result r).
Proof. intros d r' d' [= <- <-]. by exists []. Qed.

Lemma keeps_mret {A} (P : result A -> Prop) a : keeps P (mret a).
Proof. apply (keeps_of_result P (Ok a)). Qed.

Lemma keeps_bind {A B} (P : result B -> Prop) (m : io A) (f : A -> io B) :
  keeps always m -> (forall a, keeps P (f a)) -> keeps P (m ≫= f).
Proof.
  intros Hm Hf d r d' H. unfold mbind, io_bind in H.
  destruct (m d) as [[a|e] d1] eqn:Hd; destruct (Hm _ _ _ Hd) as (used1 & Hs1 & He1).
  - destruct (Hf _ _ _ _ H) as (used2 & Hs2 & He2). exists (used1 ++ used2).
    rewrite Hs1, Hs2, app_assoc. split; [done|]. intros HP.
    eapply untouched_trans; [by apply He1|by apply He2].
  - simplify_eq. exists used1. split; [done|]. intros _. by apply He1.
Qed.

(** The last steps may change what they like, when they do not end as [P] says. *)
Lemma keeps_bind_last {A B} (P : result B -> Prop) (m : io A) (f : A -> io B) :
  keeps raised m -> (forall a, keeps (fun _ => False) (f a)) ->
  (forall a d, ~ P (f a d).1) -> keeps P (m ≫= f).
Proof.
  intros Hm Hf HP d r d' H. unfold mbind, io_bind in H.
  destruct (m d) as [[a|e] d1] eqn:Hd; destruct (Hm _ _ _ Hd) as (used1 & Hs1 & He1).
  - destruct (Hf _ _ _ _ H) as (used2 & Hs2 & _). exists (used1 ++ used2).
    rewrite Hs1, Hs2, app_assoc. split; [done|]. intros Hr. destruct (HP a d1). by rewrite H.
  - simplify_eq. exists used1. split; [done|]. intros _. by apply He1.
Qed.

Lemma keeps_weaken {A} (P Q : result A -> Prop) m :
  keeps Q m -> (forall r, P r -> Q r) -> keeps P m.
Proof. intros Hm HPQ d r d' H. destruct (Hm _ _ _ H) as (used & ? & ?). exists used. auto. Qed.

Lemma keeps_try {A} (P : result A -> Prop) (m : io A) handler :
  keeps (fun r => P r \/ raised r) m -> (forall e, keeps P (handler e)) -> keeps P (try_with m handler).
Proof.
  intros Hm Hh d r d' H. unfold try_with in H.
  destruct (m d) as [[a|e] d1] eqn:Hd; destruct (Hm _ _ _ Hd) as (used1 & Hs1 & He1).
  - simplify_eq. exists used1. auto.
  - destruct (Hh _ _ _ _ H) as (used2 & Hs2 & He2). exists (used1 ++ used2).
    rewrite Hs1, Hs2, app_assoc. split; [done|]. intros Hr.
    eapply untouched_trans; [apply He1; by right|by apply He2].
Qed.

Lemma keeps_operation {A} (P : result A -> Prop) (f : directory -> result A * directory) :
  (forall dir, P (f dir).1 -> visible (f dir).2 = visible dir) -> keeps P (operation f).
Proof.
  intros Hf d r d' H. unfold operation in H. destruct (dk_steps d) as [|s steps] eqn:Hs.
  - exists []. destruct (f (dk_entries d)) as [r1 dir] eqn:He. simplify_eq. simpl.
    split; [done|]. intros HP. specialize (Hf (dk_entries d)). rewrite He in Hf. by apply Hf.
  - exists [s]. simpl. rewrite app_nil_r. destruct (st_error s).
    { simplify_eq. done. }
    destruct (f _) as [r1 dir] eqn:He. simplify_eq. simpl. split; [done|]. intros HP.
    specialize (Hf (apply_changes (st_meanwhile s) (dk_entries d))). rewrite He in Hf. by apply Hf.
Qed.

Lemma visible_insert name e dir : hidden name = true -> visible (<[name := e]> dir) = visible dir.
Proof.
  intros Hh. apply visible_eq. intros n Hn. apply lookup_insert_ne. congruence.
Qed.

Lemma visible_delete name dir : hidden name = true -> visible (delete name dir) = visible dir.
Proof.
  intros Hh. apply visible_eq. intros n Hn. apply lookup_delete_ne. congruence.
Qed.

Lemma visible_alter g name dir : hidden name = true -> visible (alter g name dir) = visible dir.
Proof.
  intros Hh. apply visible_eq. intros n Hn. apply lookup_alter_ne. congruence.
Qed.

(** Operations that read, or that write a hidden file. *)
Section operations.
Context (name : string).

Lemma keeps_read_file P : keeps P (read_file name).
Proof. by apply keeps_operation. Qed.

Lemma keeps_stat_mode P : keeps P (stat_mode name).
Proof. by apply keeps_operation. Qed.

Lemma keeps_sync P : keeps P sync.
Proof. by apply keeps_operation. Qed.

Lemma keeps_except_os_error {A} (P : result A -> Prop) c (m : io A) :
  keeps (fun r => P r \/ raised r) m -> keeps P (except_os_error c m).
Proof. intros Hm. apply keeps_try; [done|]. intros e. destruct (is_os_error _); apply keeps_of_result. Qed.

Lemma keeps_suppress P m : keeps always m -> keeps P (suppress_os_error m).
Proof.
  intros Hm. apply keeps_try; [by eapply keeps_weaken|]. intros e.
  destruct (is_os_error _); apply keeps_of_result.
Qed.

Context (Hname : hidden name = true).

Lemma keeps_create P : keeps P (create_exclusive name).
Proof.
  apply keeps_operation. intros dir _. destruct (dir !! name); [done|]. by apply visible_insert.
Qed.

Lemma keeps_change_mode P mode : keeps P (change_mode name mode).
Proof. apply keeps_operation. intros dir _. by apply visible_alter. Qed.

Lemma keeps_write_content P content : keeps P (write_content name content).
Proof. apply keeps_operation. intros dir _. by apply visible_alter. Qed.

Lemma keeps_unlink P : keeps P (unlink name).
Proof.
  apply keeps_operation. intros dir _. destruct (dir !! name) as [[]|]; try done.
  all: by apply visible_delete.
Qed.
End operations.

(** A replacement or a removal that fails changes nothing. *)
Lemma keeps_replace source target : keeps raised (replace source target).
Proof.
  apply keeps_operation. intros dir. unfold raised.
  destruct (dir !! source); [|done]. by destruct (dir !! target) as [[]|].
Qed.

Lemma keeps_unlink_failed name : keeps raised (unlink name).
Proof. apply keeps_operation. intros dir. unfold raised. by destruct (dir !! name) as [[]|]. Qed.

Create HintDb keeps.
#[export] Hint Resolve keeps_of_result keeps_mret keeps_read_file keeps_stat_mode keeps_create
  keeps_change_mode keeps_write_content keeps_sync keeps_unlink keeps_replace
  keeps_unlink_failed : keeps.
