(* ===== verification/DeploymentWriter.v ===== *)
(** The managed change of the [enabled] field of a deployment file
    (utility/deployment_catalog/enabled_writer.py): what is written, and in which steps. *)
From stdpp Require Import sorting.
From S2P Require Import Prelude Errors DecimalText DecimalCanonical Models Json JsonFacts JsonPretty JsonLoad Contracts DeploymentCatalog Disk.

(** * The text *)

Definition is_blank_character (c : ascii) : bool := bool_decide (c = " "%char).

(** The loop over the lines after the first. *)
Fixpoint first_indent (lines : list (list ascii)) : option nat :=
  match lines with
  | [] => None
  | line :: lines =>
      let stripped := ldrop is_blank_character line in
      match stripped with
      | [] => first_indent lines
      | _ =>
          if decide (length stripped = length line) then None
          else Some (length line - length stripped)%nat
      end
  end.

(** [_detect_indent] *)
Definition detect_indent (t : list ascii) : option nat :=
  let lines := split_lines t in
  if (length lines <? 2)%nat then None else first_indent (tail lines).

Definition ends_with_newline (t : list ascii) : bool :=
  bool_decide (last t = Some line_feed).

(** [_serialize] *)
Definition serialize (document : dict json) (original : list ascii) : result (list ascii) :=
  t ← utf8_decode original;
  rendered ← dumps_indented (detect_indent t) (JObj document);
  Ok (utf8 (rendered ++ if ends_with_newline t then [line_feed] else [])).

(** [try: r except (...): return None] *)
Definition none_when {A} (caught : exn_class -> bool) (r : result A) : result (option A) :=
  match r with
  | Ok a => Ok (Some a)
  | Raise e => if caught (exn_cls e) then Ok None else Raise e
  end.

Section writer.
Context (sha256_hexdigest : list ascii -> string) (float_repr : string -> option string).

(** [_parse_document] *)
Definition parse_document (content : list ascii) : result (option (dict json)) :=
  document ← none_when is_value_error (t ← utf8_decode content; loads_document float_repr t);
  Ok (match document with
      | Some (JObj document) =>
          match dget "enabled" document with Some (JBool _) => Some document | _ => None end
      | _ => None
      end).

(** [document[key]] *)
Definition item (document : dict json) (key : string) : result json :=
  match dget key document with Some v => Ok v | None => raise KeyError key end.

(** [_identity_of] *)
Definition identity_of (document : dict json) : result (option string) :=
  none_when is_decode_failure
    (strategy_id ← item document "strategy_id";
     ticker ← item document "ticker";
     base_timeframe ← item document "base_timeframe";
     raw_spec ← item document "raw_spec";
     derive_strategy_instance_id sha256_hexdigest strategy_id ticker base_timeframe raw_spec).

Definition has_identity (document : option (dict json)) (strategy_instance_id : string) :
    result bool :=
  match document with
  | None => Ok false
  | Some document =>
      identity ← identity_of document;
      Ok (bool_decide (identity = Some strategy_instance_id))
  end.

(** * The steps *)

(** [catalog.load_snapshot()], of the directory as it is at that moment. *)
Definition load_catalog : io DeploymentCatalogSnapshot := fun d =>
  let '(r, d) := operation (fun dir => (Ok dir, dir)) d in
  (load_snapshot sha256_hexdigest float_repr (match r with Ok dir => Some dir | Raise _ => None end), d).

(** [_write_temporary] *)
Definition write_temporary (temporary : string) (payload : list ascii) (mode : Z) : io unit :=
  except_os_error DeploymentFileWriteFailed
    (_ ← create_exclusive temporary;
     _ ← change_mode temporary mode;
     _ ← write_content temporary payload;
     sync).

(** What the temporary file is called: hidden, with the process id and a random token. *)
Definition temporary_name (name nonce : string) : string := "." +:+ name +:+ ".tmp-" +:+ nonce.

Definition locate (unavailable : exn_class) (strategy_instance_id : string) : io string :=
  snapshot ← try_with load_catalog
    (fun e => if decide (exn_cls e = DeploymentCatalogUnavailableError)
              then raise_io unavailable "deployment catalog is unavailable"
              else of_result (Raise e));
  match get_by_strategy_instance_id snapshot strategy_instance_id with
  | None => raise_io DeploymentNotInCatalog strategy_instance_id
  | Some deployment => mret (ds_source_path deployment)
  end.

(** The bytes to write, or nothing when the file already has the value. *)
Definition changed_content (strategy_instance_id : string) (enabled : bool)
    (original : list ascii) : result (option (list ascii)) :=
  document ← parse_document original;
  known ← has_identity document strategy_instance_id;
  match document with
  | Some document =>
      _ ← require known DeploymentFileChanged strategy_instance_id;
      if decide (dget "enabled" document = Some (JBool enabled)) then Ok None
      else
        let updated := dset "enabled" (JBool enabled) document in
        kept ← has_identity (Some updated) strategy_instance_id;
        _ ← require kept DeploymentIdentityWouldChange strategy_instance_id;
        payload ← serialize updated original;
        reparsed ← parse_document payload;
        known ← has_identity reparsed strategy_instance_id;
        _ ← require (match reparsed with
                     | Some reparsed => py_eqb (JObj reparsed) (JObj updated) && known
                     | None => false
                     end) DeploymentIdentityWouldChange strategy_instance_id;
        Ok (Some payload)
  | None => raise DeploymentFileChanged strategy_instance_id
  end.

(** Write the payload beside the file and move it over the file, if that is still the one the
    payload was built from. *)
Definition replace_file (strategy_instance_id name temporary : string)
    (original payload : list ascii) (mode : Z) : io unit :=
  try_with
    (_ ← write_temporary temporary payload mode;
     current ← except_os_error DeploymentFileWriteFailed (read_file name);
     _ ← check (bool_decide (current = original)) DeploymentFileChanged strategy_instance_id;
     except_os_error DeploymentFileWriteFailed (replace temporary name))
    (fun e => _ ← suppress_os_error (unlink temporary); of_result (Raise e)).

(** [DeploymentEnabledFileWriter.set_enabled]; the name of the temporary file is chosen by
    [nonce]. *)
Definition set_enabled (nonce strategy_instance_id : string) (enabled : bool) : io bool :=
  name ← locate DeploymentFileWriteFailed strategy_instance_id;
  '(original, mode) ← except_os_error DeploymentFileWriteFailed
    (original ← read_file name; mode ← stat_mode name; mret (original, mode));
  content ← of_result (changed_content strategy_instance_id enabled original);
  match content with
  | None => mret false
  | Some payload =>
      _ ← replace_file strategy_instance_id name (temporary_name name nonce) original payload mode;
      _ ← sync_directory;
      mret true
  end.
End writer.

(** * What is written *)

Section content.
Context (sha256_hexdigest : list ascii -> string) (float_repr : string -> option string)
        (Hrepr : float_repr_law float_repr).

Notation read_deployment := (read_deployment sha256_hexdigest float_repr).
Notation parse_document := (parse_document float_repr).
Notation identity_of := (identity_of sha256_hexdigest).
Notation changed_content := (changed_content sha256_hexdigest float_repr).
Notation describes := (describes sha256_hexdigest).
Notation loads_document := (loads_document float_repr).
Notation python_floats := (python_floats float_repr).

Lemma map_dset {A B} (g : A -> B) k v (d : dict A) :
  map (fun f => (f.1, g f.2)) (dset k v d) = dset k (g v) (map (fun f => (f.1, g f.2)) d).
Proof. induction d as [|[k' v'] d IH]; [done|]. simpl. case_decide; simpl; by rewrite ?IH. Qed.

(** Documents the reader returns. *)
Definition loaded (j : json) : Prop := printable_in constants j = true /\ python_floats j = j.

Lemma loaded_dset k b fs : loaded (JObj fs) -> loaded (JObj (dset k (JBool b) fs)).
Proof.
  intros [[Hk Hp]%printable_object Hf]. split.
  - apply printable_object_intro; [by apply dset_NoDup|]. by apply (dset_Forall (fun v => printable_in constants v = true)).
  - simpl in *. injection Hf as Hf. by rewrite map_dset, Hf.
Qed.

(** What a loaded document is written as is read as the document. *)
Lemma loads_document_render indent last j : loaded j -> all_finite j = true ->
  skip_space last = [] -> delimited last ->
  loads_document (render indent 0 j ++ last) = Ok j.
Proof.
  intros [Hp Hf] Hfin Hs Hd. unfold DeploymentCatalog.loads_document.
  rewrite (loads_with_render []); try done.
  - simpl. by rewrite Hf.
  - apply default_object_NoDup.
  - by intros s ?%elem_of_nil.
  - by apply finite_printable.
Qed.

Lemma describes_identity fs d : describes fs d -> identity_of fs = Ok (Some (ds_strategy_instance_id d)).
Proof.
  intros (_ & _ & Ht & Hb & Hs & Hr & Hid & _). unfold DeploymentWriter.identity_of, item.
  rewrite Ht, Hb, Hs, Hr. cbn [mbind result_bind]. by rewrite Hid.
Qed.

Lemma describes_enabled fs d enabled : describes fs d ->
  describes (dset "enabled" (JBool enabled) fs) (with_enabled enabled d).
Proof.
  intros (Hf & He & Ht & Hb & Hs & Hr & Hid & Hd). unfold DeploymentCatalog.describes, with_enabled.
  cbn [ds_strategy_instance_id ds_enabled ds_instrument ds_base_timeframe ds_strategy_id ds_raw_spec].
  rewrite dget_dset_eq, !dget_dset_ne by done. split_and!; try done.
  - simpl in *. by rewrite !dget_dset_ne by done.
  - unfold DeploymentSpecification_post_init in *. simpl. ok_all.
    repeat match goal with H : is_blank _ = false |- _ => rewrite H; clear H end. done.
Qed.

(** The catalog and the writer read the same document. *)
Lemma catalog_document name mode content d :
  read_deployment (name, File mode content) = Ok d ->
  exists t fs, utf8_decode content = Ok t /\ loads_document t = Ok (JObj fs) /\ describes fs d /\
    ds_source_path d = name.
Proof.
  unfold DeploymentCatalog.read_deployment, read_document. simpl.
  destruct (utf8_decode content) as [t|e] eqn:Ht; cbn [mbind result_bind]; [|done].
  unfold DeploymentCatalog.loads_document. rewrite loads_with_newlines.
  destruct (loads_with _ _ _) as [j|e] eqn:Hj; cbn [mbind result_bind];
    [|by destruct (is_value_error _)].
  intros (fs & Hfs & Hd & Hs)%parse_deployment_Ok. exists t, fs. rewrite <- Hfs. by rewrite Hj.
Qed.

Lemma catalog_reads name mode content t fs d :
  utf8_decode content = Ok t -> loads_document t = Ok (JObj fs) -> describes fs d ->
  ds_source_path d = name -> read_deployment (name, File mode content) = Ok d.
Proof.
  intros Ht Hl Hd Hs. unfold DeploymentCatalog.read_deployment, read_document. simpl. rewrite Ht.
  cbn [mbind result_bind]. unfold DeploymentCatalog.loads_document in *. rewrite loads_with_newlines, Hl.
  cbn [mbind result_bind]. apply parse_deployment_Ok. by exists fs.
Qed.

Lemma parse_document_Ok content t fs d :
  utf8_decode content = Ok t -> loads_document t = Ok (JObj fs) -> describes fs d ->
  parse_document content = Ok (Some fs).
Proof.
  intros Ht Hl (_ & He & _). unfold DeploymentWriter.parse_document. rewrite Ht.
  cbn [mbind result_bind none_when]. rewrite Hl. cbn [mbind result_bind none_when]. by rewrite He.
Qed.

Lemma newline_ending t : skip_space (if ends_with_newline t then [line_feed] else []) = [] /\
  delimited (if ends_with_newline t then [line_feed] else []).
Proof. by destruct (ends_with_newline t). Qed.

(** The file keeps everything but [enabled]: the catalog reads the deployment with the new
    value from the new content. Only an infinity among the other fields keeps the document
    from being written. *)
Lemma changed_content_spec name mode original d enabled :
  read_deployment (name, File mode original) = Ok d ->
  match changed_content (ds_strategy_instance_id d) enabled original with
  | Ok None => ds_enabled d = enabled
  | Ok (Some payload) => ds_enabled d = negb enabled /\
      forall mode', read_deployment (name, File mode' payload) = Ok (with_enabled enabled d)
  | Raise e => e = Exn ValueError "Out of range float values are not JSON compliant" /\
      ds_enabled d = negb enabled /\
      exists t fs, utf8_decode original = Ok t /\ loads_document t = Ok (JObj fs) /\
        all_finite (JObj fs) = false
  end.
Proof.
  intros (t & fs & Ht & Hl & Hd & Hs)%catalog_document.
  unfold DeploymentWriter.changed_content, has_identity.
  rewrite (parse_document_Ok _ _ _ _ Ht Hl Hd). cbn [mbind result_bind].
  rewrite (describes_identity _ _ Hd). cbn [mbind result_bind]. rewrite bool_decide_true by done.
  cbn [require mbind result_bind]. pose proof Hd as (_ & He & _). rewrite He.
  case_decide as Hen; [by simplify_eq|].
  assert (ds_enabled d = negb enabled) as Hneg by (by destruct (ds_enabled d), enabled).
  pose proof (describes_enabled _ _ enabled Hd) as Hd'.
  rewrite (describes_identity _ _ Hd'). cbn [mbind result_bind].
  rewrite bool_decide_true by done. cbn [require mbind result_bind].
  unfold serialize. rewrite Ht. cbn [mbind result_bind]. unfold dumps_indented.
  assert (loaded (JObj fs)) as Hload by (by eapply document_printable).
  assert (all_finite (JObj (dset "enabled" (JBool enabled) fs)) = all_finite (JObj fs)) as Hfin.
  { clear -He. simpl. induction fs as [|[k v] fs IH]; [done|]. simpl in *.
    case_decide; simpl; [by simplify_eq|]. by rewrite IH. }
  rewrite Hfin. destruct (all_finite (JObj fs)) eqn:Hf; cbn [require mbind result_bind];
    [|split_and!; [done..|by exists t, fs]].
  pose proof (loaded_dset "enabled" enabled fs Hload) as Hload'.
  destruct Hload' as [Hp _]. pose proof Hp as [_ Hi]%andb_true_iff. rewrite Hi.
  cbn [require mbind result_bind]. destruct (newline_ending t) as [Hsp Hde].
  set (payload := utf8 _).
  assert (utf8_decode payload = Ok (render (detect_indent t) 0
    (JObj (dset "enabled" (JBool enabled) fs)) ++ if ends_with_newline t then [line_feed] else []))
    as Hpt by apply utf8_decode_utf8.
  pose proof (loads_document_render (detect_indent t) _ _ (loaded_dset "enabled" enabled fs Hload)
    Hfin Hsp Hde) as Hpl.
  rewrite (parse_document_Ok _ _ _ _ Hpt Hpl Hd'). cbn [mbind result_bind].
  rewrite (describes_identity _ _ Hd'). cbn [mbind result_bind].
  rewrite bool_decide_true, py_eqb_refl by done. cbn [andb require mbind result_bind].
  split; [done|]. intros mode'. by eapply catalog_reads.
Qed.
End content.

(** * The run *)

Section runs.
Context (sha256_hexdigest : list ascii -> string) (float_repr : string -> option string)
        (Hrepr : float_repr_law float_repr).

Notation read_deployment := (read_deployment sha256_hexdigest float_repr).
Notation load_snapshot := (load_snapshot sha256_hexdigest float_repr).
Notation locate := (locate sha256_hexdigest float_repr).
Notation changed_content := (changed_content sha256_hexdigest float_repr).
Notation set_enabled := (set_enabled sha256_hexdigest float_repr).

Lemma load_snapshot_visible dir dir' :
  visible dir = visible dir' -> load_snapshot (Some dir) = load_snapshot (Some dir').
Proof. intros Hv. unfold DeploymentCatalog.load_snapshot. by rewrite (candidates_visible _ _ Hv). Qed.

Lemma temporary_hidden name nonce : hidden (temporary_name name nonce) = true.
Proof. done. Qed.

Lemma keeps_load_catalog P : keeps P (load_catalog sha256_hexdigest float_repr).
Proof.
  intros d r d' H. unfold load_catalog in H.
  destruct (operation _ d) as [r1 d1] eqn:Hop. simplify_eq.
  by destruct (keeps_operation always (fun dir => (Ok dir, dir)) (fun dir _ => eq_refl) _ _ _ Hop)
    as (used & ? & He); exists used; split; [|intros _; apply He].
Qed.

Lemma keeps_locate P c i : keeps P (locate c i).
Proof.
  apply keeps_bind.
  - apply keeps_try; [apply keeps_load_catalog|]. intros e. case_decide; apply keeps_of_result.
  - intros s. case_match; [apply keeps_mret|apply keeps_of_result].
Qed.

Lemma keeps_write_temporary P name payload mode :
  hidden name = true -> keeps P (write_temporary name payload mode).
Proof.
  intros Hn. apply keeps_except_os_error. repeat (apply keeps_bind; [|intros _]); auto with keeps.
Qed.

Lemma keeps_replace_file i name temporary original payload mode :
  hidden temporary = true -> keeps raised (replace_file i name temporary original payload mode).
Proof.
  intros Hn. apply keeps_try.
  - eapply keeps_weaken with (Q := raised); [|by intros r [?|?]].
    repeat (apply keeps_bind; [|intros ?]); try (by apply keeps_write_temporary);
      try apply keeps_of_result.
    + apply keeps_except_os_error. auto with keeps.
    + apply keeps_except_os_error. eapply keeps_weaken; [apply keeps_replace|by intros r [?|?]].
  - intros e. apply keeps_bind; [|intros _; apply keeps_of_result].
    apply keeps_suppress. auto with keeps.
Qed.

(** C33. Unless it answers that the file was replaced, the writer
    leaves every visible entry of the directory to the other processes: whatever they write
    between its steps, whichever of its operations fail and however it ends, the visible
    entries are afterwards what the others made of them. In particular no file is truncated
    or half written, and a change another process made to the deployment file is not lost. *)
Theorem refused_change_leaves_files nonce i enabled d r d' :
  set_enabled nonce i enabled d = (r, d') -> r <> Ok true ->
  exists used, dk_steps d = used ++ dk_steps d' /\
    visible (dk_entries d') =
      visible (apply_changes (flat_map st_meanwhile used) (dk_entries d)).
Proof.
  intros Hrun Hr.
  assert (keeps (fun r => r <> Ok true) (set_enabled nonce i enabled)) as Hk.
  { apply keeps_bind; [apply keeps_locate|]. intros name. apply keeps_bind.
    { apply keeps_except_os_error. repeat (apply keeps_bind; [|intros ?]); auto with keeps. }
    intros [original mode]. apply keeps_bind; [apply keeps_of_result|].
    intros [payload|]; [|apply keeps_mret]. apply keeps_bind_last.
    - by apply keeps_replace_file.
    - intros _. apply keeps_bind; [apply keeps_suppress; auto with keeps|]. auto with keeps.
    - intros _ d1 Hd. apply Hd. destruct (sync_directory_Ok d1) as [d2 Hs].
      by rewrite (io_run_bind _ _ _ _ _ _ Hs eq_refl). }
  destruct (Hk _ _ _ Hrun) as (used & Hs & He). exists used. split; [done|by apply He].
Qed.

(** ** Nobody else writes *)

Lemma load_catalog_quiet d s d' : quiet d ->
  load_catalog sha256_hexdigest float_repr d = (Ok s, d') ->
  quiet d' /\ dk_entries d' = dk_entries d /\ load_snapshot (Some (dk_entries d)) = Ok s.
Proof.
  intros Hq H. unfold load_catalog in H. destruct (operation _ d) as [[dir|e] d1] eqn:Hop.
  - apply operation_Ok in Hop as [? [= <- He]]; [|done]. simplify_eq. by rewrite <- He.
  - by simplify_eq.
Qed.

Lemma locate_quiet c i d name d' : quiet d -> locate c i d = (Ok name, d') ->
  quiet d' /\ dk_entries d' = dk_entries d /\
  exists s dep, load_snapshot (Some (dk_entries d)) = Ok s /\
    get_by_strategy_instance_id s i = Some dep /\ ds_source_path dep = name.
Proof.
  intros Hq H. unfold DeploymentWriter.locate in H. io_inv H.
  apply try_with_Ok in Hio as [Hio|(e & d1 & _ & Hio)]; [|by case_decide].
  apply load_catalog_quiet in Hio as (Hq' & He & Hs); [|done].
  destruct (get_by_strategy_instance_id a i) as [dep|] eqn:Hg; [|done].
  io_inv H. simplify_eq. eauto 10.
Qed.

Lemma read_file_quiet name d content d' : quiet d -> read_file name d = (Ok content, d') ->
  quiet d' /\ dk_entries d' = dk_entries d /\
  exists mode, dk_entries d !! name = Some (File mode content).
Proof.
  intros Hq H. apply operation_Ok in H as [Hq' H]; [|done]. simplify_eq. split_and!; [done..|].
  unfold read_bytes in *. destruct (dk_entries d !! name) as [[]|]; simplify_eq. eauto.
Qed.

Lemma read_original_quiet c name d original mode d' : quiet d ->
  except_os_error c (original ← read_file name; mode ← stat_mode name; mret (original, mode)) d =
    (Ok (original, mode), d') ->
  quiet d' /\ dk_entries d' = dk_entries d /\
  exists m, dk_entries d !! name = Some (File m original) /\ mode = Z.land m 511.
Proof.
  intros Hq H. apply except_os_error_Ok in H. apply io_bind_Ok in H as (o & d1 & Hread & H).
  apply io_bind_Ok in H as (m & d2 & Hstat & H). injection H as -> -> ->.
  apply read_file_quiet in Hread as (Hq1 & He1 & m & Hm); [|done].
  apply operation_Ok in Hstat as [Hq2 Hstat]; [|done]. rewrite He1, Hm in Hstat. simpl in Hstat.
  injection Hstat as Hmode He2. split_and!; [done|congruence|]. by exists m.
Qed.

Lemma write_temporary_quiet temporary payload mode d d' : quiet d ->
  write_temporary temporary payload mode d = (Ok tt, d') ->
  quiet d' /\ dk_entries d !! temporary = None /\
  dk_entries d' = <[temporary := File mode payload]> (dk_entries d).
Proof.
  intros Hq H. unfold write_temporary in H. io_inv H.
  apply operation_Ok in Hio as [Hq1 Hio]; [|done].
  destruct (dk_entries d !! temporary) eqn:Hn; [done|].
  apply operation_Ok in Hio0 as [Hq2 Hio0]; [|done].
  apply operation_Ok in Hio1 as [Hq3 Hio1]; [|done].
  apply operation_Ok in H as [Hq4 H]; [|done]. injection Hio as _ He. injection Hio0 as _ He0.
  injection Hio1 as _ He1. injection H as He2.
  split_and!; [done..|]. by rewrite <- He2, <- He1, <- He0, <- He, !alter_insert_eq.
Qed.

Lemma replace_file_quiet i name temporary original payload mode d d' : quiet d ->
  replace_file i name temporary original payload mode d = (Ok tt, d') -> temporary <> name ->
  quiet d' /\ dk_entries d' = <[name := File mode payload]> (dk_entries d).
Proof.
  intros Hq H Hne. unfold replace_file in H.
  apply try_with_Ok in H as [H|(e & d1 & _ & H)]; [|by io_inv H].
  io_inv H. destruct a, a1. apply write_temporary_quiet in Hio as (Hq1 & Hn & He1); [|done].
  apply read_file_quiet in Hio0 as (Hq2 & He2 & _); [|done].
  apply operation_Ok in H as [Hq3 H]; [|done]. split; [done|].
  rewrite He2, He1, lookup_insert_eq in H.
  assert (dk_entries d' = <[name := File mode payload]>
    (delete temporary (<[temporary := File mode payload]> (dk_entries d)))) as ->.
  { repeat case_match; by simplify_eq. }
  by rewrite delete_insert_id.
Qed.

(** Nothing fails: the file is replaced. *)
Lemma replace_file_run i name temporary mode0 original payload mode dir :
  dir !! temporary = None -> temporary <> name -> dir !! name = Some (File mode0 original) ->
  replace_file i name temporary original payload mode (alone dir) =
    (Ok tt, alone (<[name := File mode payload]> dir)).
Proof.
  intros Hfree Hne Hfile. apply run_try. eapply io_run_bind.
  { apply run_except. eapply io_run_bind; [apply run_operation; by rewrite Hfree|].
    eapply io_run_bind; [by apply run_operation|]. eapply io_run_bind; [by apply run_operation|].
    by apply run_operation. }
  rewrite !alter_insert_eq. eapply io_run_bind.
  { apply run_except, run_operation. by rewrite lookup_insert_ne, Hfile. }
  eapply io_run_bind; [by apply of_result_Ok; rewrite bool_decide_true|].
  apply run_except, run_operation. rewrite lookup_insert_eq, lookup_insert_ne, Hfile by done.
  by rewrite delete_insert_id.
Qed.

Lemma candidate_visible name e : is_candidate (name, e) = true -> hidden name = false.
Proof. unfold is_candidate. simpl. rewrite !andb_true_iff, negb_true_iff. naive_solver. Qed.

Lemma catalog_file dir s i dep :
  load_snapshot (Some dir) = Ok s -> get_by_strategy_instance_id s i = Some dep ->
  ds_strategy_instance_id dep = i /\ hidden (ds_source_path dep) = false /\
  exists mode content, dir !! ds_source_path dep = Some (File mode content) /\
    is_candidate (ds_source_path dep, File mode content) = true /\
    read_deployment (ds_source_path dep, File mode content) = Ok dep.
Proof.
  intros Hs Hg. destruct (found_accepted _ _ _ _ _ _ Hs Hg) as [Hin Hid].
  destruct (accepted_candidate _ _ _ _ _ Hs Hin) as (e & He & Hc & Hr).
  split; [done|]. split; [by eapply candidate_visible|].
  destruct e as [mode content| | |]; try done. by exists mode, content.
Qed.

(** When nobody else writes to the directory and the writer answers, whichever operations
    failed on the way, the catalog loads the same snapshot with that one deployment's
    [enabled] as asked for: the file at its path is replaced by one with the same permission
    bits, or already says it and is left alone. *)
Lemma set_enabled_changes_only_enabled nonce i enabled d changed d' :
  quiet d -> set_enabled nonce i enabled d = (Ok changed, d') ->
  quiet d' /\ exists s dep mode content, load_snapshot (Some (dk_entries d)) = Ok s /\
    get_by_strategy_instance_id s i = Some dep /\
    dk_entries d !! ds_source_path dep = Some (File mode content) /\
    load_snapshot (Some (dk_entries d')) = Ok (enabled_in (ds_source_path dep) enabled s) /\
    ds_enabled dep = (if changed then negb enabled else enabled) /\
    if changed then exists payload,
      dk_entries d' = <[ds_source_path dep := File (Z.land mode 511) payload]> (dk_entries d)
    else dk_entries d' = dk_entries d.
Proof.
  intros Hq H. unfold DeploymentWriter.set_enabled in H.
  apply io_bind_Ok in H as (name & d1 & Hloc & H).
  apply io_bind_Ok in H as ([original mode'] & d2 & Hread & H).
  apply io_bind_Ok in H as (content' & d3 & Hcontent & H). apply of_result_Ok in Hcontent as [Hcontent ->].
  apply locate_quiet in Hloc as (Hq1 & He1 & s & dep & Hs & Hg & <-); [|done].
  destruct (catalog_file _ _ _ _ Hs Hg) as (Hid & Hvis & mode & content & Hfile & Hc & Hr).
  apply read_original_quiet in Hread as (Hq2 & He2 & m & Hm & ->); [|done].
  rewrite He1, Hfile in Hm. injection Hm as <- <-. rewrite He1 in He2.
  pose proof (changed_content_spec _ _ Hrepr _ _ _ _ enabled Hr) as Hspec.
  rewrite Hid, Hcontent in Hspec. destruct content' as [payload|].
  - apply io_bind_Ok in H as ([] & d4 & Hrep & H). apply io_bind_Ok in H as ([] & d5 & Hsync & H).
    injection H as <- <-. destruct Hspec as [Hneg Hpay].
    apply replace_file_quiet in Hrep as [Hq4 He4];
      [|done|intros Heq; by rewrite <- Heq, temporary_hidden in Hvis].
    apply sync_directory_quiet in Hsync as [Hq5 He5]; [|done]. rewrite He5, He4, He2.
    split; [done|]. exists s, dep, mode, content.
    split_and!; [done..| |done|by eexists]. by eapply load_snapshot_replaced.
  - injection H as <- <-. split; [done|]. exists s, dep, mode, content. rewrite He2.
    split_and!; try done. subst enabled. rewrite Hs. f_equal. symmetry.
    eapply enabled_in_same; [exact Hs|]. by eapply found_accepted.
Qed.

(** Nothing the writer checks keeps a correct change from being made. *)
Lemma set_enabled_returns nonce i enabled dir s dep :
  load_snapshot (Some dir) = Ok s -> get_by_strategy_instance_id s i = Some dep ->
  dir !! temporary_name (ds_source_path dep) nonce = None ->
  (forall mode content t fs, dir !! ds_source_path dep = Some (File mode content) ->
    utf8_decode content = Ok t -> loads_document float_repr t = Ok (JObj fs) ->
    all_finite (JObj fs) = true) ->
  exists dir', set_enabled nonce i enabled (alone dir) =
    (Ok (negb (Bool.eqb (ds_enabled dep) enabled)), alone dir').
Proof.
  intros Hs Hg Hfree Hfin.
  destruct (catalog_file _ _ _ _ Hs Hg) as (Hid & Hvis & mode & content & Hfile & Hc & Hr).
  pose proof (changed_content_spec _ _ Hrepr _ _ _ _ enabled Hr) as Hspec. rewrite Hid in Hspec.
  assert (exists o, changed_content i enabled content = Ok o) as [o Ho].
  { destruct (changed_content i enabled content) as [o|e]; [by exists o|].
    destruct Hspec as (_ & _ & t & fs & Ht & Hl & Hinf). by rewrite (Hfin _ _ _ _ Hfile Ht Hl) in Hinf. }
  rewrite Ho in Hspec.
  assert (locate DeploymentFileWriteFailed i (alone dir) = (Ok (ds_source_path dep), alone dir)) as Hloc.
  { eapply io_run_bind; [eapply run_try|].
    - unfold load_catalog. by rewrite (run_operation _ dir (Ok dir) dir), Hs.
    - cbn beta. by rewrite Hg. }
  assert (forall d (k : list ascii * Z -> io bool) r,
    k (content, Z.land mode 511) (alone dir) = r -> (except_os_error d
      (original ← read_file (ds_source_path dep); mode ← stat_mode (ds_source_path dep);
       mret (original, mode)) ≫= k) (alone dir) = r) as Hread.
  { intros c k r Hk. eapply io_run_bind; [|exact Hk]. apply run_except.
    eapply io_run_bind; [apply run_operation; by rewrite Hfile|].
    by eapply io_run_bind; [apply run_operation; by rewrite Hfile|]. }
  destruct o as [payload|].
  - destruct Hspec as [Hneg _]. exists (<[ds_source_path dep := File (Z.land mode 511) payload]> dir).
    replace (negb (Bool.eqb (ds_enabled dep) enabled)) with true by (rewrite Hneg; by destruct enabled).
    eapply io_run_bind; [exact Hloc|]. apply Hread. eapply io_run_bind; [by apply of_result_Ok|].
    eapply io_run_bind; [|eapply io_run_bind; [|done]; by apply run_try, run_operation].
    eapply replace_file_run; [done| |exact Hfile].
    intros Heq. by rewrite <- Heq, temporary_hidden in Hvis.
  - subst enabled. exists dir. rewrite Bool.eqb_reflx.
    eapply io_run_bind; [exact Hloc|]. apply Hread. by eapply io_run_bind; [by apply of_result_Ok|].
Qed.

(** C34. A correct change is made and reported: on a disk where no operation fails and that
    nobody else writes to ([alone]), when the hidden name of the temporary file is free and the
    document of the deployment has no infinity among its numbers, a change of a deployment of the
    catalog returns, says whether the file had to be replaced, and leaves a directory whose
    snapshot is the one before with that deployment's [enabled] as asked for.
    [infinity_is_not_written] below shows what an infinity does. *)
Theorem set_enabled_completes nonce i enabled dir s dep :
  load_snapshot (Some dir) = Ok s -> get_by_strategy_instance_id s i = Some dep ->
  dir !! temporary_name (ds_source_path dep) nonce = None ->
  (forall mode content t fs, dir !! ds_source_path dep = Some (File mode content) ->
    utf8_decode content = Ok t -> loads_document float_repr t = Ok (JObj fs) ->
    all_finite (JObj fs) = true) ->
  exists dir', set_enabled nonce i enabled (alone dir) =
      (Ok (negb (Bool.eqb (ds_enabled dep) enabled)), alone dir') /\
    load_snapshot (Some dir') = Ok (enabled_in (ds_source_path dep) enabled s).
Proof.
  intros Hs Hg Hfree Hfin. destruct (set_enabled_returns _ _ enabled _ _ _ Hs Hg Hfree Hfin) as [dir' Hd].
  exists dir'. split; [exact Hd|].
  destruct (set_enabled_changes_only_enabled _ _ _ (alone dir) _ _ ltac:(constructor) Hd)
    as (_ & s' & dep' & _ & _ & Hs' & Hg' & _ & Hnew & _).
  simpl in *. rewrite Hs in Hs'. injection Hs' as <-. rewrite Hg in Hg'. by injection Hg' as <-.
Qed.
End runs.





(** * Examples *)

Notation sample_set_enabled := (set_enabled sample_sha256 sample_float_repr "7-00c0ffee").

Definition sample_deployment_id : string :=
  text (chars "trend:{" ++ quotation_mark :: chars "base_timeframe"
        ++ quotation_mark :: ":"%char :: quotation_mark :: chars "1m"
        ++ [quotation_mark; ","%char; quotation_mark]).

(** An indented document with a final newline keeps its layout. *)
Definition pretty_file (enabled : bool) : entry :=
  File 420 (render (Some 2%nat) 0 (deployment_document enabled sample_spec) ++ [line_feed]).

Definition pretty_directory : directory := <["trend.json" := pretty_file true]> sample_directory.

Example layout_is_kept :
  sample_set_enabled sample_deployment_id false (alone pretty_directory) =
    (Ok true, alone (<["trend.json" := pretty_file false]> pretty_directory)).
Proof. vm_compute. reflexivity. Qed.

(** An infinity outside [raw_spec] does not keep a deployment from being accepted, but the
    writer cannot write the document: the exception is none of its own. *)
Example infinity_is_not_written :
  (sample_set_enabled sample_deployment_id false (alone (<["trend.json" := deployment_file
      (JObj (("note", JFloat "1e400") :: match deployment_document true sample_spec with
                                         | JObj fs => fs | _ => [] end))]> ∅))).1 =
    raise ValueError "Out of range float values are not JSON compliant".
Proof. vm_compute. reflexivity. Qed.

(** Another process replaces the file after the writer read it. *)
Definition edited_meanwhile : disk :=
  {| dk_entries := sample_directory;
     dk_steps := replicate 7 {| st_meanwhile := []; st_error := None |}
       ++ [{| st_meanwhile := [("trend.json", Some (pretty_file true))]; st_error := None |}] |}.

Lemma refused_change_leaves_files_witness :
  exists d', sample_set_enabled sample_deployment_id false edited_meanwhile =
      (raise DeploymentFileChanged sample_deployment_id, d') /\
    visible (dk_entries d') = visible pretty_directory.
Proof.
  eexists. split; [vm_compute; reflexivity|].
  destruct (refused_change_leaves_files sample_sha256 sample_float_repr "7-00c0ffee"
    sample_deployment_id false edited_meanwhile _ _ ltac:(vm_compute; reflexivity)
    ltac:(discriminate)) as (used & Hs & He).
  simpl in Hs. etransitivity; [exact He|]. rewrite app_nil_r in Hs. by subst used.
Defined.

Lemma set_enabled_completes_witness :
  exists dir', sample_set_enabled sample_deployment_id false (alone sample_directory) =
    (Ok true, alone dir') /\
  exists s dep, load_snapshot sample_sha256 sample_float_repr (Some sample_directory) = Ok s /\
    get_by_strategy_instance_id s sample_deployment_id = Some dep /\
    load_snapshot sample_sha256 sample_float_repr (Some dir') =
      Ok (enabled_in (ds_source_path dep) false s).
Proof.
  destruct (load_snapshot sample_sha256 sample_float_repr (Some sample_directory)) as [s|e] eqn:Hs;
    [|vm_compute in Hs; discriminate].
  destruct (get_by_strategy_instance_id s sample_deployment_id) as [dep|] eqn:Hg;
    [|vm_compute in Hs; injection Hs as <-; vm_compute in Hg; discriminate].
  assert (ds_source_path dep = "trend.json" /\ ds_enabled dep = true) as [Hsrc Hen].
  { vm_compute in Hs. injection Hs as <-. vm_compute in Hg. by injection Hg as <-. }
  destruct (set_enabled_completes sample_sha256 sample_float_repr sample_float_repr_law "7-00c0ffee"
    sample_deployment_id false sample_directory s dep Hs Hg) as [dir' [Hd' Hnew]].
  - by rewrite Hsrc.
  - intros mode content t fs Hf Ht Hl. rewrite Hsrc in Hf. vm_compute in Hf. injection Hf as _ <-.
    vm_compute in Ht. injection Ht as <-. vm_compute in Hl. by injection Hl as <-.
  - exists dir'. split; [by rewrite Hd', Hen|]. exists s, dep. split; [reflexivity|]. split; [exact Hg|exact Hnew].
Defined.
