(* ===== verification/TrashMover.v ===== *)
(** Moving a deployment file into the trash (utility/deployment_catalog/trash_mover.py): a hard
    link in the hidden directory [.deleted], then the removal of the original name. *)
From stdpp Require Import sorting.
From S2P Require Import Prelude Errors DecimalText DecimalCanonical Models Json JsonFacts JsonPretty JsonLoad Contracts DeploymentCatalog Disk DeploymentWriter.

Definition TRASH_DIRECTORY_NAME : string := ".deleted".

(** The files of the trash directory. *)
Definition trash (dir : directory) : option (gmap string (Z * (list ascii + string))) :=
  match dir !! TRASH_DIRECTORY_NAME with Some (Folder files) => Some files | _ => None end.

(** * Operations *)

(** [trash.mkdir(mode=0o755, exist_ok=True)] *)
Definition make_trash : io unit :=
  operation (fun dir =>
    match dir !! TRASH_DIRECTORY_NAME with
    | None => (Ok tt, <[TRASH_DIRECTORY_NAME := Folder ∅]> dir)
    | Some (Folder _) => (Ok tt, dir)
    | Some _ => (raise FileExistsError "File exists", dir)
    end).

(** The file a hard link shares. *)
Definition linked (e : entry) : option (Z * (list ascii + string)) :=
  match e with
  | File mode content => Some (mode, inl content)
  | Unreadable mode error => Some (mode, inr error)
  | Special => Some (0, inr "No such device or address")
  | Folder _ => None
  end.

(** [os.link(path, target)] *)
Definition link_to_trash (name target : string) : io unit :=
  operation (fun dir =>
    match dir !! name, trash dir with
    | None, _ | _, None => (no_such_file, dir)
    | Some e, Some files =>
        match files !! target, linked e with
        | Some _, _ => (raise FileExistsError "File exists", dir)
        | None, None => (raise OSError "Operation not permitted", dir)
        | None, Some file =>
            (Ok tt, <[TRASH_DIRECTORY_NAME := Folder (<[target := file]> files)]> dir)
        end
    end).

(** [target.read_bytes()] *)
Definition read_trash (target : string) : io (list ascii) :=
  operation (fun dir =>
    (match files ← trash dir; files !! target with
     | Some (_, inl content) => Ok content
     | Some (_, inr error) => raise OSError error
     | None => no_such_file
     end, dir)).

(** [target.unlink()] *)
Definition unlink_trash (target : string) : io unit :=
  operation (fun dir =>
    match trash dir with
    | Some files =>
        match files !! target with
        | Some _ => (Ok tt, <[TRASH_DIRECTORY_NAME := Folder (delete target files)]> dir)
        | None => (no_such_file, dir)
        end
    | None => (no_such_file, dir)
    end).

(** * The mover *)

Section mover.
Context (sha256_hexdigest : list ascii -> string) (float_repr : string -> option string).

Notation locate := (locate sha256_hexdigest float_repr).

(** [read_original] *)
Definition read_original (strategy_instance_id : string) : io (list ascii) :=
  name ← locate DeploymentTrashMoveFailed strategy_instance_id;
  except_os_error DeploymentTrashMoveFailed (read_file name).

(** The name in the trash; [stamp] is [now().strftime("%Y%m%dT%H%M%SZ")]. *)
Definition trash_name (name stamp : string) : string :=
  text ((stem_suffix name).1 ++ "."%char :: chars stamp ++ chars ".json").

(** [os.link], a name that is taken apart. *)
Definition link_new (name target : string) : io unit :=
  try_with (link_to_trash name target)
    (fun e => if decide (exn_cls e = FileExistsError) then raise_io DeploymentTrashNameTaken target
              else if is_os_error (exn_cls e) then raise_io DeploymentTrashMoveFailed (exn_msg e)
              else of_result (Raise e)).

(** Remove the original name, when the link has the bytes that were confirmed. *)
Definition unlink_original (strategy_instance_id name target : string) (original : list ascii) :
    io unit :=
  try_with
    (content ← read_trash target;
     if decide (content = original) then unlink name
     else _ ← unlink_trash target; raise_io DeploymentFileChanged strategy_instance_id)
    (fun e => if decide (exn_cls e = DeploymentFileChanged) then of_result (Raise e)
              else if is_os_error (exn_cls e) then
                _ ← suppress_os_error (unlink_trash target);
                raise_io DeploymentTrashMoveFailed (exn_msg e)
              else of_result (Raise e)).

(** [DeploymentTrashMover.move_to_trash] *)
Definition move_to_trash (stamp strategy_instance_id : string) (original : list ascii) : io string :=
  name ← locate DeploymentTrashMoveFailed strategy_instance_id;
  current ← except_os_error DeploymentTrashMoveFailed (read_file name);
  _ ← check (bool_decide (current = original)) DeploymentFileChanged strategy_instance_id;
  _ ← except_os_error DeploymentTrashMoveFailed make_trash;
  let target := trash_name name stamp in
  _ ← link_new name target;
  _ ← unlink_original strategy_instance_id name target original;
  _ ← sync_directory;
  _ ← sync_directory;
  mret (TRASH_DIRECTORY_NAME +:+ "/" +:+ target).
End mover.

(** * What it leaves alone *)

Lemma keeps_make_trash P : keeps P make_trash.
Proof.
  apply keeps_operation. intros dir _. destruct (dir !! _) as [[]|]; try done. by apply visible_insert.
Qed.

Lemma keeps_link_to_trash P name target : keeps P (link_to_trash name target).
Proof.
  apply keeps_operation. intros dir _. destruct (dir !! name) as [e|], (trash dir) as [files|]; try done.
  destruct (files !! target), (linked e); try done. by apply visible_insert.
Qed.

Lemma keeps_read_trash P target : keeps P (read_trash target).
Proof. by apply keeps_operation. Qed.

Lemma keeps_unlink_trash P target : keeps P (unlink_trash target).
Proof.
  apply keeps_operation. intros dir _. destruct (trash dir) as [files|]; [|done].
  destruct (files !! target); [|done]. by apply visible_insert.
Qed.

#[export] Hint Resolve keeps_make_trash keeps_link_to_trash keeps_read_trash keeps_unlink_trash : keeps.

Lemma keeps_link_new P name target : keeps P (link_new name target).
Proof.
  apply keeps_try; [auto with keeps|]. intros e. repeat case_decide; try apply keeps_of_result.
  destruct (is_os_error _); apply keeps_of_result.
Qed.

Lemma keeps_unlink_original i name target original :
  keeps raised (unlink_original i name target original).
Proof.
  apply keeps_try.
  - eapply keeps_weaken with (Q := raised); [|by intros r [?|?]].
    apply keeps_bind; [auto with keeps|]. intros content. case_decide; [auto with keeps|].
    apply keeps_bind; [auto with keeps|]. intros _. apply keeps_of_result.
  - intros e. case_decide; [apply keeps_of_result|]. destruct (is_os_error _); [|apply keeps_of_result].
    apply keeps_bind; [apply keeps_suppress; auto with keeps|]. intros _. apply keeps_of_result.
Qed.


Section runs.
Context (sha256_hexdigest : list ascii -> string) (float_repr : string -> option string).

Notation load_snapshot := (load_snapshot sha256_hexdigest float_repr).
Notation move_to_trash := (move_to_trash sha256_hexdigest float_repr).

(** When the move to the trash does not end well, whatever the
    other processes write between its steps and whichever operation fails, the visible entries
    of the directory are afterwards what the others made of them: the deployment file is still
    under its name. *)
Theorem refused_move_leaves_files stamp i original d e d' :
  move_to_trash stamp i original d = (Raise e, d') ->
  exists used, dk_steps d = used ++ dk_steps d' /\
    visible (dk_entries d') =
      visible (apply_changes (flat_map st_meanwhile used) (dk_entries d)).
Proof.
  intros Hrun. assert (keeps raised (move_to_trash stamp i original)) as Hk.
  { apply keeps_bind; [apply keeps_locate|]. intros name.
    apply keeps_bind; [apply keeps_except_os_error; auto with keeps|]. intros current.
    apply keeps_bind; [apply keeps_of_result|]. intros _.
    apply keeps_bind; [apply keeps_except_os_error; auto with keeps|]. intros _.
    apply keeps_bind; [apply keeps_link_new|]. intros _.
    apply keeps_bind_last; [apply keeps_unlink_original| |].
    - intros _. apply keeps_bind; [apply keeps_suppress; auto with keeps|]. intros _.
      apply keeps_bind; [apply keeps_suppress; auto with keeps|]. intros _. apply keeps_mret.
    - intros _ d1. destruct (sync_directory_Ok d1) as [d2 H1], (sync_directory_Ok d2) as [d3 H2].
      by rewrite (io_run_bind _ _ _ _ _ _ H1 (io_run_bind _ _ _ _ _ _ H2 eq_refl)). }
  destruct (Hk _ _ _ Hrun) as (used & Hs & He). exists used. split; [done|by apply He].
Qed.

Lemma make_trash_quiet d d' : quiet d -> make_trash d = (Ok tt, d') ->
  quiet d' /\ visible (dk_entries d') = visible (dk_entries d) /\
  exists files, trash (dk_entries d') = Some files /\
    files = default ∅ (trash (dk_entries d)).
Proof.
  intros Hq H. apply operation_Ok in H as [Hq' H]; [|done]. split; [done|]. unfold trash.
  destruct (dk_entries d !! TRASH_DIRECTORY_NAME) as [[| |files|]|] eqn:Ht; try done;
    injection H as <-.
  - split; [done|]. exists files. by rewrite Ht.
  - split; [by apply visible_insert|]. exists ∅. by rewrite lookup_insert_eq.
Qed.

Lemma link_new_quiet name target d d' : quiet d -> link_new name target d = (Ok tt, d') ->
  quiet d' /\ exists e files file, dk_entries d !! name = Some e /\
    trash (dk_entries d) = Some files /\ files !! target = None /\ linked e = Some file /\
    dk_entries d' = <[TRASH_DIRECTORY_NAME := Folder (<[target := file]> files)]> (dk_entries d).
Proof.
  intros Hq H. apply try_with_Ok in H as [H|(e & d1 & _ & H)];
    [|repeat case_decide; try done; by destruct (is_os_error _)].
  apply operation_Ok in H as [Hq' H]; [|done]. split; [done|].
  destruct (dk_entries d !! name) as [e|] eqn:Hn, (trash (dk_entries d)) as [files|] eqn:Ht; try done.
  destruct (files !! target) eqn:Hf, (linked e) as [file|] eqn:Hl; try done.
  injection H as <-. by exists e, files, file.
Qed.

Lemma unlink_original_quiet i name target original d d' :
  quiet d -> unlink_original i name target original d = (Ok tt, d') ->
  quiet d' /\ dk_entries d' = delete name (dk_entries d).
Proof.
  intros Hq H. apply try_with_Ok in H as [H|(e & d1 & _ & H)].
  - apply io_bind_Ok in H as (content & d1 & Hread & H).
    apply operation_Ok in Hread as [Hq1 Hread]; [|done]. injection Hread as _ He1.
    case_decide; [|by apply io_bind_Ok in H as (? & ? & _ & [= ?])].
    apply operation_Ok in H as [Hq' H]; [|done]. split; [done|]. rewrite <- He1 in H.
    by destruct (dk_entries d !! name) as [[]|]; simplify_eq.
  - case_decide; [done|]. destruct (is_os_error _); [|done].
    by apply io_bind_Ok in H as (? & ? & _ & [= ?]).
Qed.

Lemma trash_not_visible name : hidden name = false -> name <> TRASH_DIRECTORY_NAME.
Proof. by intros Hn ->. Qed.

(** When nobody else writes to the directory and the mover answers with a path, whichever
    operations failed on the way, the catalog loads the snapshot without that deployment, and
    its bytes are in the trash under a new name. *)
Lemma move_to_trash_moves_the_deployment stamp i original d path d' :
  quiet d -> move_to_trash stamp i original d = (Ok path, d') ->
  quiet d' /\ exists s dep mode files, load_snapshot (Some (dk_entries d)) = Ok s /\
    get_by_strategy_instance_id s i = Some dep /\
    dk_entries d !! ds_source_path dep = Some (File mode original) /\
    files = default ∅ (trash (dk_entries d)) /\
    let target := trash_name (ds_source_path dep) stamp in
    path = ".deleted/" +:+ target /\ files !! target = None /\
    trash (dk_entries d') = Some (<[target := (mode, inl original)]> files) /\
    visible (dk_entries d') = visible (delete (ds_source_path dep) (dk_entries d)) /\
    load_snapshot (Some (dk_entries d')) = Ok (removed_in (ds_source_path dep) s).
Proof.
  intros Hq H. unfold TrashMover.move_to_trash in H.
  apply io_bind_Ok in H as (name & d1 & Hloc & H).
  apply io_bind_Ok in H as (current & d2 & Hread & H).
  apply io_bind_Ok in H as ([] & d3 & Hsame & H).
  apply io_bind_Ok in H as ([] & d4 & Hmake & H).
  apply io_bind_Ok in H as ([] & d5 & Hlink & H).
  apply io_bind_Ok in H as ([] & d6 & Hun & H).
  apply io_bind_Ok in H as ([] & d7 & Hs1 & H). apply io_bind_Ok in H as ([] & d8 & Hs2 & H).
  injection H as <- <-.
  apply locate_quiet in Hloc as (Hq1 & He1 & s & dep & Hs & Hg & <-); [|done].
  destruct (catalog_file _ _ _ _ _ _ Hs Hg) as (Hid & Hvis & mode & content & Hfile & Hc & Hr).
  apply except_os_error_Ok, read_file_quiet in Hread as (Hq2 & He2 & m & Hm); [|done].
  rewrite He1, Hfile in Hm. injection Hm as -> ->.
  apply of_result_Ok in Hsame as [Hsame ->]. apply require_Ok, bool_decide_eq_true in Hsame as ->.
  apply except_os_error_Ok, make_trash_quiet in Hmake as (Hq4 & Hv4 & files & Ht4 & ->); [|done].
  apply link_new_quiet in Hlink as (Hq5 & e & files & file & Hn & Ht & Hfree & Hlinked & He5); [|done].
  apply unlink_original_quiet in Hun as [Hq6 He6]; [|done].
  apply sync_directory_quiet in Hs1 as [Hq7 He7]; [|done].
  apply sync_directory_quiet in Hs2 as [Hq8 He8]; [|done]. split; [done|].
  rewrite He2, He1 in *. rewrite Ht4 in Ht. injection Ht as <-.
  rewrite visible_eq in Hv4. rewrite (Hv4 _ Hvis), Hfile in Hn. injection Hn as <-.
  injection Hlinked as <-. pose proof (trash_not_visible _ Hvis) as Hne.
  rewrite He8, He7, He6, He5.
  assert (visible (delete (ds_source_path dep) (<[TRASH_DIRECTORY_NAME := Folder
      (<[trash_name (ds_source_path dep) stamp := (m, inl original)]>
        (default ∅ (trash (dk_entries d))))]> (dk_entries d4))) =
    visible (delete (ds_source_path dep) (dk_entries d))) as Hv.
  { apply visible_eq. intros n Hn. destruct (decide (n = ds_source_path dep)) as [->|Hd].
    - by rewrite !lookup_delete_eq.
    - rewrite !lookup_delete_ne, lookup_insert_ne by (try apply not_eq_sym; auto using trash_not_visible).
      by apply Hv4. }
  exists s, dep, m, (default ∅ (trash (dk_entries d))). do 4 (split; [done|]). intros target. split_and!; try done.
  - unfold trash at 1. rewrite lookup_delete_ne by done. by rewrite lookup_insert_eq.
  - rewrite (load_snapshot_visible _ _ _ _ Hv). apply load_snapshot_removed; [done|].
    by eapply found_accepted.
Qed.
End runs.

(** * Examples *)

Notation sample_move := (move_to_trash sample_sha256 sample_float_repr "20260101T000000Z" sample_deployment_id).

Definition trend_bytes : list ascii := utf8 (write (deployment_document true sample_spec)).

Definition trashed_name : string := "trend.20260101T000000Z.json".

(** A file of that name is already in the trash. *)
Definition taken : disk := alone
  (<[TRASH_DIRECTORY_NAME := Folder {[trashed_name := (420, inl [])]}]> sample_directory).

Lemma refused_move_leaves_files_witness :
  exists d', sample_move trend_bytes taken = (raise DeploymentTrashNameTaken trashed_name, d') /\
    visible (dk_entries d') = visible (dk_entries taken).
Proof.
  eexists. split; [vm_compute; reflexivity|].
  destruct (refused_move_leaves_files sample_sha256 sample_float_repr "20260101T000000Z"
    sample_deployment_id trend_bytes taken _ _ ltac:(vm_compute; reflexivity)) as (used & Hs & He).
  apply (f_equal length) in Hs. rewrite length_app in Hs. destruct used; [exact He|discriminate Hs].
Defined.

(** A file that another process writes after the link was checked and before the name is removed
    is lost: it is neither under its name nor in the trash. *)
Example late_replacement_is_lost :
  let new := pretty_file false in
  let '(r, d') := sample_move trend_bytes
    {| dk_entries := sample_directory;
       dk_steps := replicate 5 {| st_meanwhile := []; st_error := None |}
         ++ [{| st_meanwhile := [("trend.json", Some new)]; st_error := None |}] |} in
  r = Ok (".deleted/" +:+ trashed_name) /\ dk_entries d' !! "trend.json" = None /\
  trash (dk_entries d') = Some {[trashed_name := (420, inl trend_bytes)]}.
Proof. vm_compute. done. Qed.
