(* ===== verification/Effects.v ===== *)
(** The effects of the runtime's stateful code: a state, trace and exception monad [M]
    over the state repository, the world behind the ports, and the trace of observable
    effects; its program logic [wp]; and the interfaces the orchestrators are written
    against: [Repository] (the port of runtime/state/repository.py, with the laws its
    implementations satisfy) and [Ports] (ABI, Strategy Engine, deployment files, the
    identifier factory and the wait for a mutex). *)
From S2P Require Import Prelude Errors DecimalText Models Contracts.

(** * Observable effects *)

(** One constructor per method of the journal ports. *)
Inductive journal_event :=
| orchestration_started (event : CommittedBarEvent)
| orchestration_failed (event : CommittedBarEvent) (stage : string) (error : exn)
| strategy_cycle_outcome (event : CommittedBarEvent) (outcome : StrategyCycleDispatchOutcome)
| orchestration_completed (event : CommittedBarEvent)
    (result : CommittedBarOrchestrationResult)
| live_entry_evaluated (strategy_instance_id instrument timeframe : string)
    (bar_open_time_ms : Z) (desired_entry : option DesiredEntry)
| entry_package_applied (strategy_instance_id trade_cycle_id : string)
    (bar_open_time_ms : Z)
    (trigger_price stop_loss take_profit quantity order_link_id order_id : option string)
| entry_package_declined (strategy_instance_id trade_cycle_id : string)
    (bar_open_time_ms : Z) (risk_multiplier decline_reason decline_message : string)
| entry_cycle_ended (strategy_instance_id trade_cycle_id : string)
    (bar_open_time_ms : option Z) (reason : string)
| trade_cycle_closed (strategy_instance_id trade_cycle_id : string)
    (bar_open_time_ms : option Z) (reason order_id : string)
    (order_link_id parent_order_link_id : option string)
| trade_cycle_opened (strategy_instance_id trade_cycle_id : string)
    (bar_open_time_ms : option Z) (first_fill_at_ms : Z)
    (average_entry_price entry_order_link_id : string) (entry_order_id : option string)
| open_trade_evaluated (strategy_instance_id instrument timeframe : string)
    (bar_open_time_ms : Z) (trade_cycle_id : string) (side : side)
    (desired_protection : EngineDesiredProtectionText) (close_signal : CloseSignal)
| protection_applied (strategy_instance_id trade_cycle_id : string)
    (bar_open_time_ms : Z) (requested_protection confirmed_protection : DesiredProtection)
    (position_quantity : string) (stop_order take_order : ProtectionOrder)
| entry_remainder_cancelled (strategy_instance_id trade_cycle_id : string)
    (bar_open_time_ms : Z) (status : string) (executed_quantity : option string)
| entry_remainder_cancel_failed (strategy_instance_id trade_cycle_id : string)
    (bar_open_time_ms : Z) (error : string).

(** What an observer of the process sees, in order. The Engine requests carry no instance
    identity; the trace records for which instance they were made. *)
Inductive event :=
| EvAcquire (key : string)
| EvRelease (key : string)
| EvSave (state : StrategyInstanceRuntimeState)
| EvLookup (request : OpenPositionLookupRequest)
| EvSend (request : EntryPackageRequest)
| EvQuery (strategy_instance_id trade_cycle_id : string)
| EvApplyProtection (command : ApplyProtectionCommand)
| EvClosePosition (command : ClosePositionCommand)
| EvCancelRemainder (strategy_instance_id trade_cycle_id : string)
| EvLiveEntry (strategy_instance_id : string) (request : LiveEntryProjectionRequest)
| EvOpenTrade (strategy_instance_id : string) (request : OpenTradeProjectionRequest)
| EvSetEnabled (strategy_instance_id : string) (enabled : bool)
| EvMoveToTrash (strategy_instance_id : string)
| EvJournal (record : journal_event).

(** * Interfaces *)

Definition CANONICAL_INITIAL_RISK_MULTIPLIER := "1".

(** The state [get_or_create] builds for an unknown instance. *)
Definition initial_state (q : GetOrCreateStrategyInstanceRuntimeStateRequest) :
    result StrategyInstanceRuntimeState :=
  snapshot ← RegisteredSpecSnapshot_post_init
    {| rs_instrument := gc_instrument q;
       rs_base_timeframe := gc_base_timeframe q;
       rs_raw_spec := gc_raw_spec q;
       rs_source_path := gc_source_path q |};
  StrategyInstanceRuntimeState_post_init
    {| st_strategy_instance_id := gc_strategy_instance_id q;
       st_strategy_id := gc_strategy_id q;
       st_registered_spec_snapshot := snapshot;
       st_risk_multiplier := CANONICAL_INITIAL_RISK_MULTIPLIER;
       st_current_trade_cycle := None;
       st_pending_entry_recovery := None;
       st_pending_close_recovery := None |}.

(** The operations of [StrategyInstanceRuntimeStateRepository], and the abstract content
    [repo_lookup] of a repository value. *)
Class Repository (R : Type) := {
  repo_lookup : R -> string -> option StrategyInstanceRuntimeState;
  repo_get_or_create : GetOrCreateStrategyInstanceRuntimeStateRequest -> R ->
    R * result StrategyInstanceRuntimeState;
  repo_get : string -> R -> R * result (option StrategyInstanceRuntimeState);
  repo_save : StrategyInstanceRuntimeState -> R -> R * result StrategyInstanceRuntimeState;
  repo_list_ids_with_pending_entry_recovery : R -> R * result (list string);
  repo_list_ids_with_pending_close_recovery : R -> R * result (list string) }.

Definition same_content {R} `{Repository R} (r r' : R) : Prop :=
  forall k, repo_lookup r' k = repo_lookup r k.

Definition stored {R} `{Repository R} (r r' : R) (s : StrategyInstanceRuntimeState) : Prop :=
  forall k, repo_lookup r' k =
    if decide (k = st_strategy_instance_id s) then Some s else repo_lookup r k.

(** What every implementation of the port promises. A call that raises leaves the content
    as it was. *)
Class RepositoryLaws (R : Type) `{Repository R} := {
  get_or_create_ok q r r' s : repo_get_or_create q r = (r', Ok s) ->
    (repo_lookup r (gc_strategy_instance_id q) = Some s /\
     st_strategy_id s = gc_strategy_id q /\ same_content r r') \/
    (repo_lookup r (gc_strategy_instance_id q) = None /\
     initial_state q = Ok s /\ stored r r' s);
  get_or_create_raise q r r' e : repo_get_or_create q r = (r', Raise e) -> same_content r r';
  get_ok id r r' o : repo_get id r = (r', Ok o) ->
    o = repo_lookup r id /\ same_content r r';
  get_raise id r r' e : repo_get id r = (r', Raise e) -> same_content r r';
  save_ok s r r' s' : repo_save s r = (r', Ok s') ->
    s' = s /\ stored r r' s /\
    exists old, repo_lookup r (st_strategy_instance_id s) = Some old /\
      st_strategy_id old = st_strategy_id s /\
      snapshot_eqb (st_registered_spec_snapshot old) (st_registered_spec_snapshot s) = true;
  save_raise s r r' e : repo_save s r = (r', Raise e) -> same_content r r';
  list_entry_ok r r' ids : repo_list_ids_with_pending_entry_recovery r = (r', Ok ids) ->
    same_content r r' /\
    forall id, id ∈ ids <->
      exists s, repo_lookup r id = Some s /\ st_pending_entry_recovery s <> None;
  list_entry_raise r r' e :
    repo_list_ids_with_pending_entry_recovery r = (r', Raise e) -> same_content r r';
  list_close_ok r r' ids : repo_list_ids_with_pending_close_recovery r = (r', Ok ids) ->
    same_content r r' /\
    forall id, id ∈ ids <->
      exists s, repo_lookup r id = Some s /\ st_pending_close_recovery s <> None;
  list_close_raise r r' e :
    repo_list_ids_with_pending_close_recovery r = (r', Raise e) -> same_content r r';
  (** the content is indexed by the identity of the states it holds *)
  lookup_id r k s : repo_lookup r k = Some s -> st_strategy_instance_id s = k }.

(** The services behind the ports. A call is a function of the world: it may change it,
    and answers or raises. *)
Class Ports (W : Type) := {
  port_lookup : OpenPositionLookupRequest -> W -> W * result OpenPositionLookupResponse;
  port_send : EntryPackageRequest -> W -> W * result EntryPackageResult;
  port_query : string -> string -> W -> W * result RecoveryStateResponse;
  port_apply_protection : ApplyProtectionCommand -> W ->
    W * result ProtectionAppliedConfirmation;
  port_close_position : ClosePositionCommand -> W -> W * result PositionClosedConfirmation;
  port_cancel_entry_remainder : string -> string -> W ->
    W * result EntryRemainderCancelConfirmation;
  port_project_live_entry : LiveEntryProjectionRequest -> W ->
    W * result LiveEntryProjectionResponse;
  port_project_open_trade : OpenTradeProjectionRequest -> W ->
    W * result OpenTradeProjectionResponse;
  port_load_snapshot : W -> W * result DeploymentCatalogSnapshot;
  port_set_enabled : string -> bool -> W -> W * result bool;
  port_read_original : string -> W -> W * result string;
  port_move_to_trash : string -> string -> W -> W * result string;
  port_new_trade_cycle_id : W -> W * string;
  port_try_lock : string -> W -> W * bool }.

(** * The monad *)

Record sys (R W : Type) := Sys { sys_repo : R; sys_world : W; sys_trace : list event }.
Arguments Sys {R W} sys_repo sys_world sys_trace.
Arguments sys_repo {R W} s.
Arguments sys_world {R W} s.
Arguments sys_trace {R W} s.

(** A program: it has ended, or its next step reads and changes the system. Each step is what
    the code does without being interrupted by other threads: one call of a service or of the
    repository (which serialises its callers with a lock of its own), or one observable
    event. *)
Inductive M (R W A : Type) : Type :=
| Done (r : result A)
| Step (f : sys R W -> sys R W * M R W A).
Arguments Done {R W A} r.
Arguments Step {R W A} f.

(** The program run to its end by itself. *)
Fixpoint run {R W A} (m : M R W A) (s : sys R W) : sys R W * result A :=
  match m with
  | Done r => (s, r)
  | Step f => let '(s', m') := f s in run m' s'
  end.

Coercion run : M >-> Funclass.

Lemma M_induction {R W A} (P : M R W A -> Prop) :
  (forall r, P (Done r)) -> (forall f, (forall s, P (f s).2) -> P (Step f)) -> forall m, P m.
Proof.
  intros HD HS. fix IH 1. intros [r|f]; [apply HD|]. apply HS. intros s. by destruct (f s).
Qed.

(** [m], and then [k] of what it returned or raised. *)
Fixpoint and_then {R W A B} (m : M R W A) (k : result A -> M R W B) : M R W B :=
  match m with
  | Done r => k r
  | Step f => Step (fun s => let '(s', m') := f s in (s', and_then m' k))
  end.

Arguments and_then : simpl never.
Arguments run : simpl never.

#[export] Instance M_ret {R W} : MRet (M R W) := fun A a => Done (Ok a).
#[export] Instance M_bind {R W} : MBind (M R W) := fun A B f m =>
  and_then m (fun r => match r with Ok a => f a | Raise e => Done (Raise e) end).

Section monad.
Context {R W : Type} `{Repository R} `{Ports W}.

(** One step. *)
Definition atomic {A} (f : sys R W -> sys R W * result A) : M R W A :=
  Step (fun s => let '(s', r) := f s in (s', Done r)).

(** Pure code inside an operation. *)
Definition lift {A} (r : result A) : M R W A := Done r.

Definition throw {A} (c : exn_class) (msg : string) : M R W A := lift (raise c msg).

Definition emit (e : event) : M R W unit := atomic (fun s =>
  (Sys (sys_repo s) (sys_world s) (sys_trace s ++ [e]), Ok tt)).

(** [try: m except Exception as e: handler e]; a handler re-raises what its
    [except] clauses do not name. *)
Definition catch {A} (m : M R W A) (handler : exn -> M R W A) : M R W A :=
  and_then m (fun r => match r with Ok a => Done (Ok a) | Raise e => handler e end).

(** [try: m finally: fin] *)
Definition finally {A} (m : M R W A) (fin : M R W unit) : M R W A :=
  and_then m (fun r => and_then fin (fun r2 =>
    match r2 with Ok _ => Done r | Raise e => Done (Raise e) end)).

Definition on_repo {A} (f : R -> R * result A) : M R W A := atomic (fun s =>
  let '(r, a) := f (sys_repo s) in (Sys r (sys_world s) (sys_trace s), a)).

Definition on_world {A} (f : W -> W * result A) : M R W A := atomic (fun s =>
  let '(w, a) := f (sys_world s) in (Sys (sys_repo s) w (sys_trace s), a)).

(** A call through a port: it is observable, whatever it answers. *)
Definition call {A} (e : event) (f : W -> W * result A) : M R W A :=
  _ ← emit e; on_world f.

Definition get_or_create q : M R W StrategyInstanceRuntimeState :=
  on_repo (repo_get_or_create q).
Definition get id : M R W (option StrategyInstanceRuntimeState) := on_repo (repo_get id).

(** A save is observable once it is durable. *)
Definition save (state : StrategyInstanceRuntimeState) : M R W StrategyInstanceRuntimeState :=
  atomic (fun s =>
    match repo_save state (sys_repo s) with
    | (r, Ok saved) => (Sys r (sys_world s) (sys_trace s ++ [EvSave saved]), Ok saved)
    | (r, Raise e) => (Sys r (sys_world s) (sys_trace s), Raise e)
    end).

Definition lookup_position q : M R W OpenPositionLookupResponse :=
  call (EvLookup q) (port_lookup q).
Definition send_entry_package q : M R W EntryPackageResult :=
  call (EvSend q) (port_send q).
Definition query_recovery_state id cycle : M R W RecoveryStateResponse :=
  call (EvQuery id cycle) (port_query id cycle).
Definition apply_protection c : M R W ProtectionAppliedConfirmation :=
  call (EvApplyProtection c) (port_apply_protection c).
Definition close_position c : M R W PositionClosedConfirmation :=
  call (EvClosePosition c) (port_close_position c).
Definition cancel_entry_remainder id cycle : M R W EntryRemainderCancelConfirmation :=
  call (EvCancelRemainder id cycle) (port_cancel_entry_remainder id cycle).
Definition project_live_entry id q : M R W LiveEntryProjectionResponse :=
  call (EvLiveEntry id q) (port_project_live_entry q).
Definition project_open_trade id q : M R W OpenTradeProjectionResponse :=
  call (EvOpenTrade id q) (port_project_open_trade q).
Definition load_snapshot : M R W DeploymentCatalogSnapshot := on_world port_load_snapshot.
Definition set_enabled_file id enabled : M R W bool :=
  call (EvSetEnabled id enabled) (port_set_enabled id enabled).
Definition read_original id : M R W string := on_world (port_read_original id).
Definition move_to_trash id original : M R W string :=
  call (EvMoveToTrash id) (port_move_to_trash id original).

(** [new_trade_cycle_id()] *)
Definition new_trade_cycle_id : M R W string :=
  on_world (fun w => let '(w, id) := port_new_trade_cycle_id w in (w, Ok id)).

Definition try_lock key : M R W bool :=
  on_world (fun w => let '(w, b) := port_try_lock key w in (w, Ok b)).

(** A journal port that may be absent ([None]). The port contract is best effort:
    a call never raises. *)
Definition journal (present : bool) (j : journal_event) : M R W unit :=
  if present then emit (EvJournal j) else mret tt.

Definition acquire (key : string) (with_timeout : bool) : M R W bool :=
  if with_timeout then try_lock key else mret true.

(** runtime/coordination/keyed_mutex.py, [hold]: without a timeout the call waits until
    the section is obtained; with one, the world decides whether it is obtained in
    time. The section is released however the body ends. *)
Definition hold {A} (strategy_instance_id : string) (with_timeout : bool) (body : M R W A) :
    M R W A :=
  _ ← lift (require_non_empty_string strategy_instance_id "strategy_instance_id");
  acquired ← acquire strategy_instance_id with_timeout;
  match acquired with
  | true =>
      _ ← emit (EvAcquire strategy_instance_id);
      finally body (emit (EvRelease strategy_instance_id))
  | false => throw StrategyInstanceBusy strategy_instance_id
  end.

(** [assert o is not None] *)
Definition assert_some {A} (o : option A) : M R W A :=
  match o with Some a => mret a | None => throw AssertionError EmptyString end.
End monad.

Arguments M_bind : simpl never.
Arguments atomic : simpl never.
Arguments emit : simpl never.
Arguments catch : simpl never.
Arguments finally : simpl never.
Arguments on_repo : simpl never.
Arguments on_world : simpl never.

(** * Running *)

Lemma run_Done {R W A} (r : result A) (s : sys R W) : Done r s = (s, r).
Proof. done. Qed.

Lemma run_lift {R W A} (r : result A) (s : sys R W) : lift r s = (s, r).
Proof. done. Qed.

Lemma run_ret {R W A} (a : A) (s : sys R W) : (mret a : M R W A) s = (s, Ok a).
Proof. done. Qed.

Lemma run_Step {R W A} (f : sys R W -> sys R W * M R W A) s :
  Step f s = let '(s', m') := f s in m' s'.
Proof. done. Qed.

Lemma run_and_then {R W A B} (m : M R W A) (k : result A -> M R W B) s :
  and_then m k s = let '(s', r) := m s in k r s'.
Proof.
  revert s; induction m as [r|f IH] using M_induction; intros s; [done|].
  change (and_then (Step f) k) with (Step (fun s => let '(s', m') := f s in (s', and_then m' k))).
  rewrite !run_Step. specialize (IH s). destruct (f s) as [s' m']. apply IH.
Qed.

Lemma run_bind {R W A B} (m : M R W A) (f : A -> M R W B) s :
  (m ≫= f) s = match m s with (s', Ok a) => f a s' | (s', Raise e) => (s', Raise e) end.
Proof. unfold mbind, M_bind. rewrite run_and_then. by destruct (m s) as [s' []]. Qed.

Lemma run_catch {R W A} (m : M R W A) h s :
  catch m h s = match m s with (s', Ok a) => (s', Ok a) | (s', Raise e) => h e s' end.
Proof. unfold catch. rewrite run_and_then. by destruct (m s) as [s' []]. Qed.

Lemma run_finally {R W A} (m : M R W A) fin s :
  finally m fin s = let '(s1, r) := m s in
    let '(s2, r2) := fin s1 in (s2, match r2 with Ok _ => r | Raise e => Raise e end).
Proof.
  unfold finally. rewrite run_and_then. destruct (m s) as [s1 r]. rewrite run_and_then.
  by destruct (fin s1) as [s2 []].
Qed.

Lemma run_atomic {R W A} (f : sys R W -> sys R W * result A) s : atomic f s = f s.
Proof. cbv [atomic run]. by destruct (f s). Qed.

Lemma run_on_repo {R W A} (f : R -> R * result A) (s : sys R W) :
  on_repo f s = let '(r, a) := f (sys_repo s) in (Sys r (sys_world s) (sys_trace s), a).
Proof. apply run_atomic. Qed.

Lemma run_on_world {R W A} (f : W -> W * result A) (s : sys R W) :
  on_world f s = let '(w, a) := f (sys_world s) in (Sys (sys_repo s) w (sys_trace s), a).
Proof. apply run_atomic. Qed.

Lemma run_emit {R W} e (s : sys R W) :
  emit e s = (Sys (sys_repo s) (sys_world s) (sys_trace s ++ [e]), Ok tt).
Proof. done. Qed.

(** Compute a run as far as the answers are known. *)
Ltac run_program :=
  repeat (first [rewrite run_bind | rewrite run_catch | rewrite run_on_world | rewrite run_on_repo
    | rewrite run_emit | rewrite run_lift | rewrite run_ret | rewrite run_Done];
    cbn [sys_repo sys_world sys_trace]).

(** * Weakest preconditions *)

Section wp.
Context {R W : Type} `{Repository R} `{Ports W}.
Implicit Types s : sys R W.

(** [Q] holds of the value and final state if [m] returns, [E] of the exception and
    final state if it raises. *)
Definition wp {A} (m : M R W A) (Q : A -> sys R W -> Prop) (E : exn -> sys R W -> Prop)
    (s : sys R W) : Prop :=
  match m s with
  | (s', Ok a) => Q a s'
  | (s', Raise e) => E e s'
  end.

Lemma wp_run {A} (m : M R W A) Q E s s' r :
  wp m Q E s -> m s = (s', r) -> match r with Ok a => Q a s' | Raise e => E e s' end.
Proof. unfold wp. intros Hwp Hm. by rewrite Hm in Hwp. Qed.

Lemma wp_mono {A} (m : M R W A) (Q Q' : A -> sys R W -> Prop) (E E' : exn -> sys R W -> Prop) s :
  wp m Q E s -> (forall a s', Q a s' -> Q' a s') -> (forall e s', E e s' -> E' e s') ->
  wp m Q' E' s.
Proof. unfold wp. destruct (m s) as [s' []]; auto. Qed.

Lemma wp_ret {A} (a : A) (Q : A -> sys R W -> Prop) E s : Q a s -> wp (mret a) Q E s.
Proof. done. Qed.

Lemma wp_bind {A B} (m : M R W A) (f : A -> M R W B) Q E s :
  wp m (fun a s' => wp (f a) Q E s') E s -> wp (m ≫= f) Q E s.
Proof. unfold wp. rewrite run_bind. by destruct (m s) as [s' []]. Qed.

Lemma wp_lift {A} (r : result A) (Q : A -> sys R W -> Prop) (E : exn -> sys R W -> Prop) s :
  match r with Ok a => Q a s | Raise e => E e s end -> wp (lift r) Q E s.
Proof. done. Qed.

Lemma wp_throw {A} c msg (Q : A -> sys R W -> Prop) (E : exn -> sys R W -> Prop) s :
  E (Exn c msg) s -> wp (throw c msg) Q E s.
Proof. done. Qed.

Lemma wp_emit e (Q : unit -> sys R W -> Prop) (E : exn -> sys R W -> Prop) s :
  Q tt (Sys (sys_repo s) (sys_world s) (sys_trace s ++ [e])) -> wp (emit e) Q E s.
Proof. done. Qed.

Lemma wp_catch {A} (m : M R W A) h Q E s :
  wp m Q (fun e s' => wp (h e) Q E s') s -> wp (catch m h) Q E s.
Proof. unfold wp. rewrite run_catch. by destruct (m s) as [s' []]. Qed.

(** [fin] returns normally in every use: it only emits. *)
Lemma wp_finally {A} (m : M R W A) e Q E s :
  wp m (fun a s' => Q a (Sys (sys_repo s') (sys_world s') (sys_trace s' ++ [e])))
       (fun x s' => E x (Sys (sys_repo s') (sys_world s') (sys_trace s' ++ [e]))) s ->
  wp (finally m (emit e)) Q E s.
Proof. unfold wp. rewrite run_finally. by destruct (m s) as [s' []]. Qed.

Lemma wp_on_world {A} (f : W -> W * result A) (Q : A -> sys R W -> Prop)
    (E : exn -> sys R W -> Prop) s :
  (forall w r, match r with
               | Ok a => Q a (Sys (sys_repo s) w (sys_trace s))
               | Raise e => E e (Sys (sys_repo s) w (sys_trace s)) end) ->
  wp (on_world f) Q E s.
Proof.
  unfold wp. rewrite run_on_world. intros Hall. destruct (f (sys_world s)) as [w r].
  specialize (Hall w r). by destruct r.
Qed.

Lemma wp_call {A} e (f : W -> W * result A) (Q : A -> sys R W -> Prop)
    (E : exn -> sys R W -> Prop) s :
  (forall w r, match r with
               | Ok a => Q a (Sys (sys_repo s) w (sys_trace s ++ [e]))
               | Raise x => E x (Sys (sys_repo s) w (sys_trace s ++ [e])) end) ->
  wp (call e f) Q E s.
Proof. intros. apply wp_bind, wp_emit, wp_on_world. auto. Qed.

(** The same, with the answer of the world at hand. *)
Lemma wp_call_at {A} e (f : W -> W * result A) (Q : A -> sys R W -> Prop)
    (E : exn -> sys R W -> Prop) s w r :
  f (sys_world s) = (w, r) ->
  match r with
  | Ok a => Q a (Sys (sys_repo s) w (sys_trace s ++ [e]))
  | Raise x => E x (Sys (sys_repo s) w (sys_trace s ++ [e])) end ->
  wp (call e f) Q E s.
Proof.
  intros Hf Hr. apply wp_bind, wp_emit. unfold wp. rewrite run_on_world. simpl. rewrite Hf. by destruct r.
Qed.

Lemma wp_journal b j (Q : unit -> sys R W -> Prop) (E : exn -> sys R W -> Prop) s :
  Q tt (Sys (sys_repo s) (sys_world s)
          (sys_trace s ++ (if b : bool then [EvJournal j] else []))) ->
  wp (journal b j) Q E s.
Proof. destruct s, b; simpl; [done|]. rewrite app_nil_r. done. Qed.

Lemma wp_if {A} (b : bool) (m1 m2 : M R W A) Q E s :
  (b = true -> wp m1 Q E s) -> (b = false -> wp m2 Q E s) ->
  wp (if b then m1 else m2) Q E s.
Proof. destruct b; auto. Qed.

Context `{!RepositoryLaws R}.

Lemma wp_get id (Q : option StrategyInstanceRuntimeState -> sys R W -> Prop) E s :
  (forall r, same_content (sys_repo s) r ->
    Q (repo_lookup (sys_repo s) id) (Sys r (sys_world s) (sys_trace s))) ->
  (forall r e, same_content (sys_repo s) r -> E e (Sys r (sys_world s) (sys_trace s))) ->
  wp (get id) Q E s.
Proof.
  intros HQ HE. unfold wp, get. rewrite run_on_repo.
  destruct (repo_get id (sys_repo s)) as [r [o|e]] eqn:Hr.
  - apply get_ok in Hr as [-> ?]. auto.
  - apply get_raise in Hr. auto.
Qed.

Lemma wp_save st (Q : StrategyInstanceRuntimeState -> sys R W -> Prop) E s :
  (forall r, stored (sys_repo s) r st ->
    Q st (Sys r (sys_world s) (sys_trace s ++ [EvSave st]))) ->
  (forall r e, same_content (sys_repo s) r -> E e (Sys r (sys_world s) (sys_trace s))) ->
  wp (save st) Q E s.
Proof.
  intros HQ HE. unfold wp, save. rewrite run_atomic.
  destruct (repo_save st (sys_repo s)) as [r [st'|e]] eqn:Hr.
  - apply save_ok in Hr as (-> & ? & _). auto.
  - apply save_raise in Hr. auto.
Qed.

Lemma wp_get_or_create q (Q : StrategyInstanceRuntimeState -> sys R W -> Prop) E s :
  (forall r st, same_content (sys_repo s) r ->
    repo_lookup (sys_repo s) (gc_strategy_instance_id q) = Some st ->
    st_strategy_id st = gc_strategy_id q ->
    Q st (Sys r (sys_world s) (sys_trace s))) ->
  (forall r st, stored (sys_repo s) r st ->
    repo_lookup (sys_repo s) (gc_strategy_instance_id q) = None ->
    initial_state q = Ok st ->
    Q st (Sys r (sys_world s) (sys_trace s))) ->
  (forall r e, same_content (sys_repo s) r -> E e (Sys r (sys_world s) (sys_trace s))) ->
  wp (get_or_create q) Q E s.
Proof.
  intros H1 H2 HE. unfold wp, get_or_create. rewrite run_on_repo.
  destruct (repo_get_or_create q (sys_repo s)) as [r [st|e]] eqn:Hr.
  - apply get_or_create_ok in Hr as [(?&?&?)|(?&?&?)]; auto.
  - apply get_or_create_raise in Hr. auto.
Qed.

Lemma wp_hold {A} id timeout (body : M R W A) Q E s :
  (forall w, wp body
     (fun a s' => Q a (Sys (sys_repo s') (sys_world s') (sys_trace s' ++ [EvRelease id])))
     (fun x s' => E x (Sys (sys_repo s') (sys_world s') (sys_trace s' ++ [EvRelease id])))
     (Sys (sys_repo s) w (sys_trace s ++ [EvAcquire id]))) ->
  (forall w e, E e (Sys (sys_repo s) w (sys_trace s))) ->
  wp (hold id timeout body) Q E s.
Proof.
  intros Hbody Hraise. apply wp_bind, wp_lift.
  assert (Sys (sys_repo s) (sys_world s) (sys_trace s) = s) as Hs by by destruct s.
  destruct (require_non_empty_string id _);
    [|specialize (Hraise (sys_world s) e); by rewrite Hs in Hraise].
  apply wp_bind. destruct timeout.
  - apply wp_on_world. intros w [[]|]; [|apply wp_throw, Hraise|apply Hraise].
    apply wp_bind, wp_emit, wp_finally, Hbody.
  - apply wp_ret, wp_bind, wp_emit, wp_finally, Hbody.
Qed.

(** Without a timeout the wait does not depend on the world. *)
Lemma wp_hold_wait {A} id (body : M R W A) Q E s :
  wp body
    (fun a s' => Q a (Sys (sys_repo s') (sys_world s') (sys_trace s' ++ [EvRelease id])))
    (fun x s' => E x (Sys (sys_repo s') (sys_world s') (sys_trace s' ++ [EvRelease id])))
    (Sys (sys_repo s) (sys_world s) (sys_trace s ++ [EvAcquire id])) ->
  (forall e, E e s) -> wp (hold id false body) Q E s.
Proof.
  intros Hbody Hraise. apply wp_bind, wp_lift. destruct (require_non_empty_string id _); [|done].
  apply wp_bind, wp_ret, wp_bind, wp_emit, wp_finally, Hbody.
Qed.
End wp.

(** [wp_step] reduces a [wp] goal by the rule of its head construct. *)
Ltac wp_step :=
  lazymatch goal with
  | |- wp (mret _) _ _ _ => apply wp_ret
  | |- wp (_ ≫= _) _ _ _ => apply wp_bind
  | |- wp (lift _) _ _ _ => apply wp_lift
  | |- wp (throw _ _) _ _ _ => apply wp_throw
  | |- wp (emit _) _ _ _ => apply wp_emit
  | |- wp (catch _ _) _ _ _ => apply wp_catch
  | |- wp (call _ _) _ _ _ => apply wp_call; intros ? []
  | |- wp (on_world _) _ _ _ => apply wp_on_world; intros ? []
  | |- wp (lookup_position _) _ _ _ => apply wp_call; intros ? []
  | |- wp (send_entry_package _) _ _ _ => apply wp_call; intros ? []
  | |- wp (query_recovery_state _ _) _ _ _ => apply wp_call; intros ? []
  | |- wp (apply_protection _) _ _ _ => apply wp_call; intros ? []
  | |- wp (close_position _) _ _ _ => apply wp_call; intros ? []
  | |- wp (cancel_entry_remainder _ _) _ _ _ => apply wp_call; intros ? []
  | |- wp (project_live_entry _ _) _ _ _ => apply wp_call; intros ? []
  | |- wp (project_open_trade _ _) _ _ _ => apply wp_call; intros ? []
  | |- wp (set_enabled_file _ _) _ _ _ => apply wp_call; intros ? []
  | |- wp (move_to_trash _ _) _ _ _ => apply wp_call; intros ? []
  | |- wp load_snapshot _ _ _ => apply wp_on_world; intros ? []
  | |- wp (read_original _) _ _ _ => apply wp_on_world; intros ? []
  | |- wp new_trade_cycle_id _ _ _ => apply wp_on_world; intros ? []
  | |- wp (journal _ _) _ _ _ => apply wp_journal
  | |- wp (get _) _ _ _ => apply wp_get; intros
  | |- wp (save _) _ _ _ => apply wp_save; intros
  | |- wp (assert_some ?o) _ _ _ => unfold assert_some; destruct o eqn:?
  | |- wp (match ?x with _ => _ end) _ _ _ => destruct x eqn:?
  end.

Ltac wp_go := repeat (wp_step; simpl in *; simplify_eq).
