(* ===== verification/Repository.v ===== *)
(** The in-memory implementation of the state repository (runtime/state/repository.py,
    class InMemoryStrategyInstanceRuntimeStateRepository): its operations on the
    dictionary [_states], the invariant of that dictionary, and the proof that it keeps
    the promises of [RepositoryLaws]. The class holds its reentrant lock during each
    whole operation, so an operation is one atomic step. *)
From S2P Require Import Prelude Errors DecimalText Models Contracts Effects.

Module InMemory.

Definition states := dict StrategyInstanceRuntimeState.

Definition get_or_create (request : GetOrCreateStrategyInstanceRuntimeStateRequest)
    (_states : states) : states * result StrategyInstanceRuntimeState :=
  match dget (gc_strategy_instance_id request) _states with
  | Some existing =>
      if decide (st_strategy_id existing = gc_strategy_id request) then (_states, Ok existing)
      else (_states, raise StrategyInstanceIdentityConflict (gc_strategy_instance_id request))
  | None =>
      match initial_state request with
      | Ok state => (dset (gc_strategy_instance_id request) state _states, Ok state)
      | Raise e => (_states, Raise e)
      end
  end.

Definition get (strategy_instance_id : string) (_states : states) :
    states * result (option StrategyInstanceRuntimeState) :=
  (_states,
   _ ← require_non_empty_string strategy_instance_id "strategy_instance_id";
   Ok (dget strategy_instance_id _states)).

Definition save (state : StrategyInstanceRuntimeState) (_states : states) :
    states * result StrategyInstanceRuntimeState :=
  let id := st_strategy_instance_id state in
  match dget id _states with
  | None => (_states, raise StrategyInstanceStateNotFound id)
  | Some existing =>
      if negb (bool_decide (st_strategy_id existing = st_strategy_id state)) then
        (_states, raise StrategyInstanceIdentityConflict id)
      else if negb (snapshot_eqb (st_registered_spec_snapshot existing)
                      (st_registered_spec_snapshot state)) then
        (_states, raise StrategyInstanceRegistrationConflict id)
      else (dset id state _states, Ok state)
  end.

Definition list_ids_with_pending_entry_recovery (_states : states) : list string :=
  map fst (filter (fun e => st_pending_entry_recovery e.2 <> None) _states).

Definition list_ids_with_pending_close_recovery (_states : states) : list string :=
  map fst (filter (fun e => st_pending_close_recovery e.2 <> None) _states).

(** ** The invariant of [_states] *)

Definition consistent (d : states) : Prop :=
  NoDup (dkeys d) /\ forall k s, dget k d = Some s -> st_strategy_instance_id s = k.

Lemma dset_consistent d s :
  consistent d -> consistent (dset (st_strategy_instance_id s) s d).
Proof.
  intros [Hd Hid]. split; [by apply dset_NoDup|].
  intros k s' Hk. rewrite dget_dset in Hk. case_decide; simplify_eq; auto.
Qed.

Lemma initial_state_id q s :
  initial_state q = Ok s ->
  st_strategy_instance_id s = gc_strategy_instance_id q /\
  st_strategy_id s = gc_strategy_id q /\ valid_state s.
Proof.
  unfold initial_state. intros H. apply result_bind_Ok in H as (sn & _ & H).
  by apply state_post_init_Ok in H as [-> ?].
Qed.

Lemma get_or_create_consistent q d : consistent d -> consistent (get_or_create q d).1.
Proof.
  intros Hd. unfold get_or_create. destruct (dget _ d); [by case_decide|].
  destruct (initial_state q) as [s|] eqn:Hs; [|done].
  apply initial_state_id in Hs as (<- & _). by apply dset_consistent.
Qed.

Lemma save_consistent s d : consistent d -> consistent (save s d).1.
Proof.
  intros Hd. unfold save. destruct (dget _ d); [|done].
  destruct (negb (bool_decide _)); [done|]. destruct (negb (snapshot_eqb _ _)); [done|].
  by apply dset_consistent.
Qed.

Lemma filter_ids (P : string * StrategyInstanceRuntimeState -> Prop)
    `{forall x, Decision (P x)} d k :
  consistent d ->
  k ∈ map fst (filter P d) <-> exists s, dget k d = Some s /\ P (k, s).
Proof.
  intros [Hn _]. rewrite list_elem_of_fmap. split.
  - intros ([k' s] & -> & [HP Hin]%list_elem_of_filter). eauto using elem_dget.
  - intros (s & Hk & HP). exists (k, s). rewrite list_elem_of_filter.
    eauto using dget_Some_elem.
Qed.

(** ** The repository object *)

Record repository := Repo { repo_states : states; repo_consistent : consistent repo_states }.

Program Definition empty : repository := Repo [] _.
Next Obligation. split; [constructor|done]. Qed.

#[export] Instance in_memory_repository : Repository repository := {
  repo_lookup r k := dget k (repo_states r);
  repo_get_or_create q r :=
    (Repo (get_or_create q (repo_states r)).1
       (get_or_create_consistent q _ (repo_consistent r)),
     (get_or_create q (repo_states r)).2);
  repo_get id r := (r, (get id (repo_states r)).2);
  repo_save s r :=
    (Repo (save s (repo_states r)).1 (save_consistent s _ (repo_consistent r)),
     (save s (repo_states r)).2);
  repo_list_ids_with_pending_entry_recovery r :=
    (r, Ok (list_ids_with_pending_entry_recovery (repo_states r)));
  repo_list_ids_with_pending_close_recovery r :=
    (r, Ok (list_ids_with_pending_close_recovery (repo_states r))) }.

#[export] Instance in_memory_laws : RepositoryLaws repository.
Proof.
  split.
  - intros q [d Hd] r' s [= <- Hr]. unfold same_content, stored; simpl.
    unfold get_or_create in *. destruct (dget _ d) as [old|] eqn:Hk.
    + case_decide; simplify_eq/=. left. auto.
    + destruct (initial_state q) as [s'|] eqn:Hs; simplify_eq/=.
      right. apply initial_state_id in Hs as (-> & _). split_and!; [done..|].
      intros k. by rewrite dget_dset.
  - intros q [d Hd] r' e [= <- Hr] k; simpl. unfold get_or_create in *.
    destruct (dget (gc_strategy_instance_id q) d); [by case_decide|].
    by destruct (initial_state q).
  - intros id [d Hd] r' o [= <- Hr]. by destruct (require_non_empty_string _ _); simplify_eq/=.
  - intros id [d Hd] r' e [= <- Hr]. done.
  - intros s [d Hd] r' s' [= <- Hr]. unfold stored; simpl. unfold save in *.
    destruct (dget _ d) as [old|] eqn:Hk; [|done].
    destruct (bool_decide _) eqn:H1; [|done].
    destruct (snapshot_eqb _ _) eqn:H2; simplify_eq/=.
    apply bool_decide_eq_true in H1. split_and!; [done|intros k; by rewrite dget_dset|].
    eauto.
  - intros s [d Hd] r' e [= <- Hr] k; simpl. unfold save in *.
    destruct (dget _ d); [|done].
    destruct (bool_decide _); [|done]. by destruct (snapshot_eqb _ _).
  - intros [d Hd] r' ids [= <- <-]. split; [done|]. intros id. by apply filter_ids.
  - done.
  - intros [d Hd] r' ids [= <- <-]. split; [done|]. intros id. by apply filter_ids.
  - done.
  - intros [d Hd] k s Hk. simpl in *. by apply Hd.
Qed.

End InMemory.

#[export] Existing Instances InMemory.in_memory_repository InMemory.in_memory_laws.
