(* ===== verification/Wire.v ===== *)
(** What the strict JSON codecs of the HTTP contracts share. Every codec module of the
    repository declares these helpers for itself, with its own protocol error; here they are
    written once, with the error class and the name of the peer as arguments, and each codec
    file instantiates them under the names of its module.

    A body is a list of bytes, a header value a text. [str.lower] is the ASCII one: the
    values are compared with ASCII constants. *)
From S2P Require Import Prelude Errors DecimalText DecimalCanonical Models Json JsonFacts Contracts.

(** * Reading a body *)

(** [object_pairs_hook]: a repeated key is an error. *)
Fixpoint reject_duplicates (d : dict json) (pairs : list (string * json)) : result json :=
  match pairs with
  | [] => Ok (JObj d)
  | (key, value) :: pairs =>
      match dget key d with
      | Some _ => raise ValueError "duplicate JSON object field: "
      | None => reject_duplicates (dset key value d) pairs
      end
  end.

Definition reject_duplicate_object_fields (pairs : list (string * json)) : result json :=
  reject_duplicates [] pairs.

Definition reject_non_json_constant (value : string) : result json :=
  raise ValueError "invalid JSON constant: ".

(** [try: ... except ValueError as exc: raise error(msg)] *)
Definition except_value_error {A} (error : exn_class) (msg : string) (r : result A) : result A :=
  match r with
  | Ok a => Ok a
  | Raise e => if is_value_error (exn_cls e) then raise error msg else Raise e
  end.

(** [try: ... except (KeyError, TypeError, ValueError) as exc: raise error(msg)] *)
Definition except_decode_failure {A} (error : exn_class) (msg : string) (r : result A) :
    result A :=
  match r with
  | Ok a => Ok a
  | Raise e => if is_decode_failure (exn_cls e) then raise error msg else Raise e
  end.

(** [try: ... except (TypeError, ValueError) as exc: raise error(msg)] *)
Definition except_type_or_value_error {A} (error : exn_class) (msg : string) (r : result A) :
    result A :=
  match r with
  | Ok a => Ok a
  | Raise e =>
      if is_value_error (exn_cls e) || bool_decide (exn_cls e = TypeError) then raise error msg
      else Raise e
  end.

Definition load_strict_json (error : exn_class) (peer : string) (content : list ascii) :
    result json :=
  except_value_error error ("invalid " +:+ peer +:+ " JSON response: ")
    (l ← utf8_decode content;
     loads_with reject_duplicate_object_fields reject_non_json_constant (text l)).

(** ** The content type *)

(** [value.split(sep)] *)
Fixpoint split_on (sep : ascii) (l : list ascii) : list (list ascii) :=
  match l with
  | [] => [[]]
  | c :: l =>
      if decide (c = sep) then [] :: split_on sep l
      else match split_on sep l with
           | part :: parts => (c :: part) :: parts
           | [] => [[c]]
           end
  end.

Definition strip (l : list ascii) : list ascii := rdrop is_space (ldrop is_space l).
Definition lower (l : list ascii) : list ascii := map lower_ascii l.

(** [parameter.split("=", 1)], when there is one. *)
Fixpoint split_once (sep : ascii) (l : list ascii) : option (list ascii * list ascii) :=
  match l with
  | [] => None
  | c :: l =>
      if decide (c = sep) then Some ([], l)
      else '(a, b) ← split_once sep l; Some (c :: a, b)
  end.

(** [charset[1:-1]] of a quoted value. *)
Definition unquote (l : list ascii) : list ascii :=
  match l with
  | c :: l' =>
      match rev l' with
      | d :: m => if decide (c = quotation_mark /\ d = quotation_mark) then rev m else l
      | [] => l
      end
  | [] => []
  end.

Fixpoint check_parameters (error : exn_class) (peer : string) (seen_charset : bool)
    (parameters : list (list ascii)) : result unit :=
  match parameters with
  | [] => Ok tt
  | raw_parameter :: parameters =>
      match split_once "="%char (strip raw_parameter) with
      | None => raise error (peer +:+ " response content-type is malformed")
      | Some (name, raw_value) =>
          _ ← require (bool_decide (lower (strip name) = chars "charset") && negb seen_charset)
            error (peer +:+ " response content-type has unsupported parameters");
          _ ← require (bool_decide (lower (unquote (strip raw_value)) = chars "utf-8")) error
            (peer +:+ " response charset is not UTF-8");
          check_parameters error peer true parameters
      end
  end.

Definition require_json_content_type (error : exn_class) (peer : string)
    (value : option string) : result unit :=
  match value with
  | None => raise error (peer +:+ " response is missing content-type")
  | Some value =>
      match split_on ";"%char (chars value) with
      | media_type :: parameters =>
          _ ← require (bool_decide (lower (strip media_type) = chars "application/json")) error
            (peer +:+ " response content-type is not application/json");
          check_parameters error peer false parameters
      | [] => raise error (peer +:+ " response content-type is not application/json")
      end
  end.

(** * Reading a value *)

(** [frozenset(value) == fields] *)
Definition exact_fields (value : dict json) (fields : list string) : bool :=
  forallb (fun k => bool_decide (k ∈ fields)) (dkeys value) &&
  forallb (fun k => bool_decide (k ∈ dkeys value)) fields.

Definition require_exact_fields (value : dict json) (fields : list string) (name : string) :
    result unit :=
  require (exact_fields value fields) ValueError (name +:+ " fields differ; missing, unknown").

Definition json_object (value : json) (name : string) : result (dict json) :=
  match value with
  | JObj fields => Ok fields
  | _ => raise TypeError (name +:+ " must be a JSON object")
  end.

Definition closed_object (value : json) (fields : list string) (name : string) :
    result (dict json) :=
  value ← json_object value name;
  _ ← require_exact_fields value fields name;
  Ok value.

(** [value[key]] *)
Definition item (value : dict json) (key : string) : result json :=
  match dget key value with Some v => Ok v | None => raise KeyError key end.

(** [value.get(key)] *)
Definition item_or_none (value : dict json) (key : string) : json :=
  default JNull (dget key value).

Definition string_value (value : json) (name : string) : result string :=
  match value with
  | JStr s => Ok s
  | _ => raise TypeError (name +:+ " must be a string")
  end.

Definition optional_string_value (value : json) (name : string) : result (option string) :=
  match value with
  | JNull => Ok None
  | _ => s ← string_value value name; Ok (Some s)
  end.

Definition non_empty_string_value (value : json) (name : string) : result string :=
  s ← string_value value name;
  _ ← require (negb (is_empty s)) ValueError (name +:+ " must be non-empty");
  Ok s.

Definition int_value (value : json) (name : string) : result Z :=
  match value with
  | JInt z => Ok z
  | _ => raise TypeError (name +:+ " must be a JSON integer")
  end.

Definition bool_value (value : json) (name : string) : result bool :=
  match value with
  | JBool b => Ok b
  | _ => raise TypeError (name +:+ " must be a boolean")
  end.

(** [value not in {"long", "short"}] *)
Definition side_value (value : json) : result side :=
  match value with
  | JStr s =>
      if decide (s = "long") then Ok long
      else if decide (s = "short") then Ok short
      else raise ValueError "side must be long or short"
  | JList _ | JObj _ => raise TypeError "unhashable type"
  | _ => raise ValueError "side must be long or short"
  end.

Definition positive_exact_decimal_value (value : json) (name : string) : result string :=
  s ← string_value value name;
  _ ← require (is_positive_exact_decimal_text s) ValueError
    (name +:+ " must be positive exact-decimal text");
  Ok s.

Definition optional_positive_exact_decimal_value (value : json) (name : string) :
    result (option string) :=
  match value with
  | JNull => Ok None
  | _ => s ← positive_exact_decimal_value value name; Ok (Some s)
  end.

(** ** Error envelopes *)

Definition ERROR_ENVELOPE_FIELDS : list string := ["error"].
Definition ERROR_FIELDS_WITHOUT_DETAILS : list string := ["code"; "message"].
Definition ERROR_FIELDS_WITH_DETAILS : list string := ["code"; "message"; "details"].
Definition VALIDATION_DETAIL_FIELDS : list string := ["path"; "message"].

(** * Facts *)

(** What the readers of a payload raise: the classes their callers catch. *)
Definition payload_failure (e : exn) : Prop := is_decode_failure (exn_cls e) = true.

(** What a decoder may raise: its protocol error, or nothing the model can represent. *)
Definition of_class (error : exn_class) (e : exn) : Prop := exn_cls e = error.

Lemma value_error_failure msg : payload_failure (Exn ValueError msg). Proof. done. Qed.
Lemma type_error_failure msg : payload_failure (Exn TypeError msg). Proof. done. Qed.
Lemma key_error_failure msg : payload_failure (Exn KeyError msg). Proof. done. Qed.
#[export] Hint Resolve value_error_failure type_error_failure key_error_failure : raises.

#[export] Hint Extern 2 (raises payload_failure (require _ _ _)) => apply raises_require : raises.

Ltac fails := repeat first [raises_step | done | solve [eauto with raises]].

Lemma json_object_fails j n : raises payload_failure (json_object j n).
Proof. destruct j; simpl; fails. Qed.
Lemma require_exact_fields_fails d fs n : raises payload_failure (require_exact_fields d fs n).
Proof. unfold require_exact_fields. fails. Qed.
#[export] Hint Resolve json_object_fails require_exact_fields_fails : raises.
Lemma closed_object_fails j fs n : raises payload_failure (closed_object j fs n).
Proof. unfold closed_object. fails. Qed.
Lemma item_fails d k : raises payload_failure (item d k).
Proof. unfold item. fails. Qed.
Lemma string_value_fails j n : raises payload_failure (string_value j n).
Proof. destruct j; simpl; fails. Qed.
Lemma int_value_fails j n : raises payload_failure (int_value j n).
Proof. destruct j; simpl; fails. Qed.
Lemma bool_value_fails j n : raises payload_failure (bool_value j n).
Proof. destruct j; simpl; fails. Qed.
Lemma side_value_fails j : raises payload_failure (side_value j).
Proof. destruct j; simpl; fails. Qed.
#[export] Hint Resolve closed_object_fails item_fails string_value_fails int_value_fails
  bool_value_fails side_value_fails : raises.
Lemma optional_string_value_fails j n : raises payload_failure (optional_string_value j n).
Proof. destruct j; simpl; fails. Qed.
Lemma non_empty_string_value_fails j n : raises payload_failure (non_empty_string_value j n).
Proof. unfold non_empty_string_value. fails. Qed.
Lemma positive_exact_decimal_value_fails j n :
  raises payload_failure (positive_exact_decimal_value j n).
Proof. unfold positive_exact_decimal_value. fails. Qed.
#[export] Hint Resolve optional_string_value_fails non_empty_string_value_fails
  positive_exact_decimal_value_fails : raises.
Lemma optional_positive_exact_decimal_value_fails j n :
  raises payload_failure (optional_positive_exact_decimal_value j n).
Proof. unfold optional_positive_exact_decimal_value. fails. Qed.
Lemma require_non_empty_string_fails s n : raises payload_failure (require_non_empty_string s n).
Proof. unfold require_non_empty_string. fails. Qed.
Lemma require_non_empty_optional_fails s n :
  raises payload_failure (require_non_empty_optional s n).
Proof. destruct s; simpl; [apply require_non_empty_string_fails|fails]. Qed.
Lemma normalize_fails s : raises payload_failure (normalize_decimal_text s).
Proof. unfold normalize_decimal_text. fails. Qed.
#[export] Hint Resolve optional_positive_exact_decimal_value_fails require_non_empty_string_fails
  require_non_empty_optional_fails normalize_fails : raises.

(** The [except] clauses leave the protocol error only. *)
Lemma except_decode_failure_raises {A} error msg (r : result A) :
  raises payload_failure r -> raises (of_class error) (except_decode_failure error msg r).
Proof. destruct r as [|e]; [done|]. simpl. unfold payload_failure. by intros ->. Qed.

Lemma except_decode_failure_Ok {A} error msg (r : result A) a :
  except_decode_failure error msg r = Ok a -> r = Ok a.
Proof. destruct r; simpl; [done|]. by case_match. Qed.

Lemma except_value_error_Ok {A} error msg (r : result A) a :
  except_value_error error msg r = Ok a -> r = Ok a.
Proof. destruct r; simpl; [done|]. by case_match. Qed.

Lemma check_parameters_raises error peer seen ps :
  raises (of_class error) (check_parameters error peer seen ps).
Proof.
  revert seen. induction ps as [|p ps IH]; intros seen; [done|]. simpl.
  destruct (split_once _ _) as [[name value]|]; [|done].
  apply raises_bind; [by apply raises_require|]. intros _ _.
  apply raises_bind; [by apply raises_require|]. intros _ _. apply IH.
Qed.

Lemma require_json_content_type_raises error peer value :
  raises (of_class error) (require_json_content_type error peer value).
Proof.
  destruct value as [value|]; [|done]. unfold require_json_content_type.
  destruct (split_on _ _) as [|m ps]; [done|].
  apply raises_bind; [by apply raises_require|]. intros _ _. apply check_parameters_raises.
Qed.

Lemma load_strict_json_raises error peer content :
  raises (fun e => of_class error e \/ e = outside_model) (load_strict_json error peer content).
Proof.
  unfold load_strict_json.
  assert (raises (fun e => is_value_error (exn_cls e) = true \/ e = outside_model)
    (l ← utf8_decode content;
     loads_with reject_duplicate_object_fields reject_non_json_constant (text l))) as Hr.
  { apply raises_bind.
    - eapply raises_weaken; [apply utf8_decode_raises|]. intros e [He|He]; [left; by rewrite He|by right].
    - intros l _. apply loads_with_raises.
      + intros e [He|[He|He]]; [left; by rewrite He|left; by rewrite He|by right].
      + intros ps. unfold reject_duplicate_object_fields. generalize (@nil (string * json)).
        induction ps as [|[k v] ps IH]; intros d; simpl; [done|].
        destruct (dget k d); [by left|apply IH].
      + intros s. by left. }
  destruct (_ ← utf8_decode content; _) as [j|e]; [done|]. simpl in *.
  destruct Hr as [->| ->]; [by left|]. by right.
Qed.

(** ** Reading what was written *)

Lemma reject_duplicates_NoDup d ps :
  NoDup (dkeys (d ++ ps)) -> reject_duplicates d ps = Ok (JObj (d ++ ps)).
Proof.
  revert d. induction ps as [|[k v] ps IH]; intros d Hd; simpl; [by rewrite app_nil_r|].
  assert (k ∉ dkeys d) as Hk.
  { unfold dkeys in Hd. rewrite map_app in Hd. apply NoDup_app in Hd as (_ & Hd & _).
    intros Hin. apply (Hd k Hin). left. }
  pose proof Hk as Hn. apply dget_None_keys in Hn. rewrite Hn.
  assert (dset k v d = d ++ [(k, v)]) as ->.
  { clear -Hk. induction d as [|[k' v'] d IH]; [done|]. simpl in *.
    apply not_elem_of_cons in Hk as [? ?]. rewrite decide_False by done. by rewrite IH. }
  rewrite IH; rewrite <- app_assoc; done.
Qed.

(** A written tree without constants is read back, in any encoding of its texts. *)
Lemma load_strict_json_write error peer j : printable_in [] j = true ->
  load_strict_json error peer (utf8 (write j)) = Ok j.
Proof.
  intros Hj. unfold load_strict_json. rewrite utf8_decode_utf8. unfold mbind, result_bind.
  rewrite (loads_with_write []); [done| |by intros s ?%elem_of_nil|done].
  intros ps Hps. by apply (reject_duplicates_NoDup []).
Qed.

(** ** The order of the fields does not matter *)

Lemma dget_permuted {V} (d d' : dict V) k : d ≡ₚ d' -> NoDup (dkeys d) -> dget k d = dget k d'.
Proof.
  intros Hp Hd. assert (NoDup (dkeys d')) as Hd' by (unfold dkeys; by rewrite <- Hp).
  destruct (dget k d) as [v|] eqn:E.
  - symmetry. apply elem_dget; [done|]. rewrite <- Hp. by apply dget_Some_elem.
  - symmetry. apply dget_None_keys. apply dget_None_keys in E. unfold dkeys. by rewrite <- Hp.
Qed.

Lemma exact_fields_permuted d d' fs : d ≡ₚ d' -> exact_fields d fs = exact_fields d' fs.
Proof.
  intros Hp. unfold exact_fields. assert (dkeys d ≡ₚ dkeys d') as Hk by (unfold dkeys; by rewrite Hp).
  rewrite (forallb_perm _ _ _ Hk). f_equal. induction fs as [|f fs IH]; [done|]. simpl.
  rewrite IH. f_equal. apply bool_decide_ext. by rewrite Hk.
Qed.

Lemma optional_string_encoded o n : optional_string_value (encode_optional JStr o) n = Ok o.
Proof. by destruct o. Qed.

(** The content type the services send. *)
Definition json_utf8 : option string := Some "application/json; charset=utf-8".
