(* ===== verification/Scripted.v ===== *)
(** A concrete world for the ports: each service answers from a script, in order, and a
    call beyond its script raises. It instantiates [Ports] for the examples that evaluate
    the development's operations; with the in-memory repository it makes them executable. *)
From S2P Require Import Prelude Errors DecimalText Models Contracts Effects Repository.

Record script := Script {
  sc_lookup : list (result OpenPositionLookupResponse);
  sc_send : list (result EntryPackageResult);
  sc_query : list (result RecoveryStateResponse);
  sc_apply_protection : list (result ProtectionAppliedConfirmation);
  sc_close_position : list (result PositionClosedConfirmation);
  sc_cancel_remainder : list (result EntryRemainderCancelConfirmation);
  sc_live_entry : list (result LiveEntryProjectionResponse);
  sc_open_trade : list (result OpenTradeProjectionResponse);
  sc_snapshot : list (result DeploymentCatalogSnapshot);
  sc_set_enabled : list (result bool);
  sc_trash : list (result string);
  sc_cycle_ids : list string;
  sc_lock_free : bool }.

Definition quiet : script := Script [] [] [] [] [] [] [] [] [] [] [] [] true.

(** Pop the next answer. *)
Definition next {A} (l : list (result A)) : list (result A) * result A :=
  match l with
  | [] => ([], raise (OtherException "ScriptExhausted") EmptyString)
  | r :: l => (l, r)
  end.

#[export] Instance scripted_ports : Ports script := {
  port_lookup _ w := let '(l, r) := next (sc_lookup w) in
    (Script l (sc_send w) (sc_query w) (sc_apply_protection w) (sc_close_position w)
       (sc_cancel_remainder w) (sc_live_entry w) (sc_open_trade w) (sc_snapshot w)
       (sc_set_enabled w) (sc_trash w) (sc_cycle_ids w) (sc_lock_free w), r);
  port_send _ w := let '(l, r) := next (sc_send w) in
    (Script (sc_lookup w) l (sc_query w) (sc_apply_protection w) (sc_close_position w)
       (sc_cancel_remainder w) (sc_live_entry w) (sc_open_trade w) (sc_snapshot w)
       (sc_set_enabled w) (sc_trash w) (sc_cycle_ids w) (sc_lock_free w), r);
  port_query _ _ w := let '(l, r) := next (sc_query w) in
    (Script (sc_lookup w) (sc_send w) l (sc_apply_protection w) (sc_close_position w)
       (sc_cancel_remainder w) (sc_live_entry w) (sc_open_trade w) (sc_snapshot w)
       (sc_set_enabled w) (sc_trash w) (sc_cycle_ids w) (sc_lock_free w), r);
  port_apply_protection _ w := let '(l, r) := next (sc_apply_protection w) in
    (Script (sc_lookup w) (sc_send w) (sc_query w) l (sc_close_position w)
       (sc_cancel_remainder w) (sc_live_entry w) (sc_open_trade w) (sc_snapshot w)
       (sc_set_enabled w) (sc_trash w) (sc_cycle_ids w) (sc_lock_free w), r);
  port_close_position _ w := let '(l, r) := next (sc_close_position w) in
    (Script (sc_lookup w) (sc_send w) (sc_query w) (sc_apply_protection w) l
       (sc_cancel_remainder w) (sc_live_entry w) (sc_open_trade w) (sc_snapshot w)
       (sc_set_enabled w) (sc_trash w) (sc_cycle_ids w) (sc_lock_free w), r);
  port_cancel_entry_remainder _ _ w := let '(l, r) := next (sc_cancel_remainder w) in
    (Script (sc_lookup w) (sc_send w) (sc_query w) (sc_apply_protection w)
       (sc_close_position w) l (sc_live_entry w) (sc_open_trade w) (sc_snapshot w)
       (sc_set_enabled w) (sc_trash w) (sc_cycle_ids w) (sc_lock_free w), r);
  port_project_live_entry _ w := let '(l, r) := next (sc_live_entry w) in
    (Script (sc_lookup w) (sc_send w) (sc_query w) (sc_apply_protection w)
       (sc_close_position w) (sc_cancel_remainder w) l (sc_open_trade w) (sc_snapshot w)
       (sc_set_enabled w) (sc_trash w) (sc_cycle_ids w) (sc_lock_free w), r);
  port_project_open_trade _ w := let '(l, r) := next (sc_open_trade w) in
    (Script (sc_lookup w) (sc_send w) (sc_query w) (sc_apply_protection w)
       (sc_close_position w) (sc_cancel_remainder w) (sc_live_entry w) l (sc_snapshot w)
       (sc_set_enabled w) (sc_trash w) (sc_cycle_ids w) (sc_lock_free w), r);
  port_load_snapshot w := let '(l, r) := next (sc_snapshot w) in
    (Script (sc_lookup w) (sc_send w) (sc_query w) (sc_apply_protection w)
       (sc_close_position w) (sc_cancel_remainder w) (sc_live_entry w) (sc_open_trade w) l
       (sc_set_enabled w) (sc_trash w) (sc_cycle_ids w) (sc_lock_free w), r);
  port_set_enabled _ _ w := let '(l, r) := next (sc_set_enabled w) in
    (Script (sc_lookup w) (sc_send w) (sc_query w) (sc_apply_protection w)
       (sc_close_position w) (sc_cancel_remainder w) (sc_live_entry w) (sc_open_trade w)
       (sc_snapshot w) l (sc_trash w) (sc_cycle_ids w) (sc_lock_free w), r);
  port_read_original _ w := (w, Ok "original");
  port_move_to_trash _ _ w := let '(l, r) := next (sc_trash w) in
    (Script (sc_lookup w) (sc_send w) (sc_query w) (sc_apply_protection w)
       (sc_close_position w) (sc_cancel_remainder w) (sc_live_entry w) (sc_open_trade w)
       (sc_snapshot w) (sc_set_enabled w) l (sc_cycle_ids w) (sc_lock_free w), r);
  port_new_trade_cycle_id w := match sc_cycle_ids w with
    | [] => (w, "cycle")
    | c :: l =>
        (Script (sc_lookup w) (sc_send w) (sc_query w) (sc_apply_protection w)
           (sc_close_position w) (sc_cancel_remainder w) (sc_live_entry w) (sc_open_trade w)
           (sc_snapshot w) (sc_set_enabled w) (sc_trash w) l (sc_lock_free w), c)
    end;
  port_try_lock _ w := (w, sc_lock_free w) }.

(** A system that holds the given states in memory. *)
Definition in_memory (w : script) (states : InMemory.states)
    (c : InMemory.consistent states) : sys InMemory.repository script :=
  Sys (InMemory.Repo states c) w [].

Definition empty_system (w : script) : sys InMemory.repository script :=
  Sys InMemory.empty w [].

Lemma consistent_one s : InMemory.consistent [(st_strategy_instance_id s, s)].
Proof.
  split; [apply NoDup_singleton|]. intros k s'. simpl. case_decide; by intros [= ->].
Qed.

(** A system that holds one state. *)
Definition holding (s : StrategyInstanceRuntimeState) (w : script) :
    sys InMemory.repository script :=
  in_memory w _ (consistent_one s).

(** The value and the observable effects of a run. *)
Definition observe {A} (m : M InMemory.repository script A)
    (s : sys InMemory.repository script) : list event * result A :=
  let '(s', r) := m s in (sys_trace s', r).

Definition stored_of {A} (m : M InMemory.repository script A)
    (s : sys InMemory.repository script) (id : string) :
    option StrategyInstanceRuntimeState :=
  repo_lookup (sys_repo (m s).1) id.

(** ** Sample values *)

Definition sample_entry : DesiredEntry :=
  {| de_side := long; de_source_plan_bar_open_time_ms := 600000;
     de_planned_entry_price := "100"; de_initial_stop_price := "90";
     de_initial_take_price := "120"; de_locked_exit_profile := "p" |}.

Definition sample_wire_entry : EntryPackageWireDesiredEntry :=
  {| we_side := long; we_source_plan_bar_open_time_ms := 600000;
     we_planned_entry_price := "100"; we_initial_stop_price := "90";
     we_initial_take_price := "120"; we_locked_exit_profile := "p" |}.

Definition sample_snapshot : RegisteredSpecSnapshot :=
  {| rs_instrument := "BTC"; rs_base_timeframe := "5m"; rs_raw_spec := [];
     rs_source_path := "a.json" |}.

Definition sample_frozen : FrozenExecutedEntryContext :=
  {| fc_desired_entry := sample_entry; fc_first_fill_at_ms := 1000000;
     fc_entry_bar_open_time_ms := 900000; fc_entry_order_expires_at_bar := Some 2100000 |}.

Definition sample_cycle (frozen : option FrozenExecutedEntryContext) : CurrentTradeCycle :=
  {| tc_trade_cycle_id := "c1";
     tc_applied_entry_package :=
       {| ap_applied_desired_entry := sample_entry; ap_calculated_quantity := "2" |};
     tc_frozen_entry_context := frozen;
     tc_latest_confirmed_management_protection := None;
     tc_entry_remainder_cancelled := false |}.

Definition sample_state (cycle : option CurrentTradeCycle)
    (pe : option PendingEntryRecovery) (pc : option PendingCloseRecovery) :
    StrategyInstanceRuntimeState :=
  {| st_strategy_instance_id := "i1"; st_strategy_id := "s1";
     st_registered_spec_snapshot := sample_snapshot;
     st_risk_multiplier := "1";
     st_current_trade_cycle := cycle;
     st_pending_entry_recovery := pe; st_pending_close_recovery := pc |}.

Definition flat_state := sample_state None None None.
Definition resting_state := sample_state (Some (sample_cycle None)) None None.
Definition open_state := sample_state (Some (sample_cycle (Some sample_frozen))) None None.

Definition sample_deployment : DeploymentSpecification :=
  {| ds_strategy_instance_id := "i1"; ds_enabled := true; ds_instrument := "BTC";
     ds_base_timeframe := "5m"; ds_strategy_id := "s1"; ds_raw_spec := [];
     ds_source_path := "a.json" |}.

Definition sample_bar : CommittedBarEvent :=
  {| cb_instrument := "BTC"; cb_timeframe := "5m"; cb_open_time_ms := 1200000 |}.

Definition sample_unit : StrategyBarProcessingUnit :=
  {| pu_strategy_instance_id := "i1"; pu_deployment := sample_deployment;
     pu_committed_bar := sample_bar |}.

Definition sample_catalog (deployments : list DeploymentSpecification) :
    DeploymentCatalogSnapshot :=
  {| sn_scanned_file_count := 1; sn_accepted_deployments := deployments;
     sn_invalid_files := []; sn_duplicate_identities := [] |}.

(** A world that only answers the given catalog scans. *)
Definition catalogs (scans : list (result DeploymentCatalogSnapshot)) : script :=
  Script [] [] [] [] [] [] [] [] scans [] [] [] true.

Definition sample_applied (cycle : string) : EntryPackageResult :=
  EpApplied
    {| ea_strategy_instance_id := "i1"; ea_trade_cycle_id := cycle;
       ea_applied_desired_entry := sample_wire_entry; ea_calculated_quantity := "2";
       ea_trigger_price := Some "100"; ea_stop_loss := Some "90"; ea_take_profit := Some "120";
       ea_quantity := Some "2"; ea_order_link_id := Some "link"; ea_order_id := None |}.

Definition sample_absent (cycle : string) : EntryPackageResult :=
  EpAbsent {| eb_strategy_instance_id := "i1"; eb_trade_cycle_id := cycle |}.

Definition sample_open_response : OpenPositionLookupResponse :=
  {| lr_position_open := true; lr_first_fill_at_ms := Some 1000000;
     lr_average_entry_price := Some "100"; lr_closure := None;
     lr_entry_order_link_id := Some "link"; lr_entry_order_id := None |}.

Definition sample_flat_response (closure : option TradeCycleClosure) :
    OpenPositionLookupResponse :=
  {| lr_position_open := false; lr_first_fill_at_ms := None;
     lr_average_entry_price := None; lr_closure := closure;
     lr_entry_order_link_id := None; lr_entry_order_id := None |}.

Definition sample_closure : TradeCycleClosure :=
  {| cl_strategy_instance_id := "i1"; cl_trade_cycle_id := "c1"; cl_reason := "stop_loss";
     cl_order_id := "o1"; cl_order_link_id := None; cl_parent_order_link_id := Some "link" |}.

Definition sample_recipe (active : bool) (stop : string) : OpenTradeProjectionResponse :=
  {| opr_desired_protection := {| dp_stop_price := stop; dp_take_price := Some "120" |};
     opr_close_signal := {| cs_active := active; cs_reason := None; cs_component_id := None;
                            cs_layer := None |};
     opr_diagnostics := [];
     opr_engine_desired_protection_text :=
       {| et_stop_price := stop; et_take_price := Some "120" |} |}.

Definition sample_closed : PositionClosedConfirmation :=
  {| pcc_strategy_instance_id := "i1"; pcc_trade_cycle_id := "c1"; pcc_closure := None |}.

(** A script for one bar: what ABI's lookup answers, what the Engine answers, and what ABI
    answers to the entry packages that follow. *)
Definition one_bar (lookups : list (result OpenPositionLookupResponse))
    (entries : list (result LiveEntryProjectionResponse))
    (sends : list (result EntryPackageResult)) : script :=
  Script lookups sends [] [] [] [] entries [] [] [] [] ["c1"; "c2"] true.
