(* ===== verification/StateCodec.v ===== *)
(** The record of one aggregate in the durable state log
    (infrastructure/runtime_state/codec.py): [encode_state_line], [decode_state_line] with
    its four schema versions, and the proofs that a written record is read back and that a
    record that is read satisfies the invariants of every model class.

    A decoder applies the constructors of runtime/state/models.py to arbitrary JSON values.
    The [X_of] functions are those constructors on untyped arguments: they run the checks of
    [__post_init__] in its order, with the exceptions Python raises for values of other
    types. Where Python would accept a number that the typed model has no place for (a float
    or a boolean as [source_plan_bar_open_time_ms], a float as [schema_version] or as a key
    of [raw_spec]), they stop with [outside_model]. *)
From S2P Require Import Prelude Errors DecimalText DecimalCanonical Models Json JsonFacts Repository Scripted.

(** * Encoding *)

Definition SCHEMA_VERSION : Z := 4.

Definition encode_pending_entry_recovery (marker : PendingEntryRecovery) : json :=
  JObj [("trade_cycle_id", JStr (pe_trade_cycle_id marker))].

Definition encode_pending_close_recovery (marker : PendingCloseRecovery) : json :=
  JObj [("trade_cycle_id", JStr (pc_trade_cycle_id marker))].

Definition encode_snapshot (snapshot : RegisteredSpecSnapshot) : json :=
  JObj [("instrument", JStr (rs_instrument snapshot));
        ("base_timeframe", JStr (rs_base_timeframe snapshot));
        ("raw_spec", JObj (rs_raw_spec snapshot));
        ("source_path", JStr (rs_source_path snapshot))].

Definition encode_desired_entry (entry : DesiredEntry) : json :=
  JObj [("side", JStr (side_text (de_side entry)));
        ("source_plan_bar_open_time_ms", JInt (de_source_plan_bar_open_time_ms entry));
        ("planned_entry_price", JStr (de_planned_entry_price entry));
        ("initial_stop_price", JStr (de_initial_stop_price entry));
        ("initial_take_price", JStr (de_initial_take_price entry));
        ("locked_exit_profile", JStr (de_locked_exit_profile entry))].

Definition encode_applied_entry_package (package : AppliedEntryPackage) : json :=
  JObj [("applied_desired_entry", encode_desired_entry (ap_applied_desired_entry package));
        ("calculated_quantity", JStr (ap_calculated_quantity package))].

Definition encode_frozen_entry_context (context : FrozenExecutedEntryContext) : json :=
  JObj [("desired_entry", encode_desired_entry (fc_desired_entry context));
        ("first_fill_at_ms", JInt (fc_first_fill_at_ms context));
        ("entry_bar_open_time_ms", JInt (fc_entry_bar_open_time_ms context));
        ("entry_order_expires_at_bar",
         encode_optional JInt (fc_entry_order_expires_at_bar context))].

Definition encode_desired_protection (protection : DesiredProtection) : json :=
  JObj [("stop_price", JStr (dp_stop_price protection));
        ("take_price", encode_optional JStr (dp_take_price protection))].

Definition encode_cycle (cycle : CurrentTradeCycle) : json :=
  JObj [("trade_cycle_id", JStr (tc_trade_cycle_id cycle));
        ("applied_entry_package",
         encode_applied_entry_package (tc_applied_entry_package cycle));
        ("frozen_entry_context",
         encode_optional encode_frozen_entry_context (tc_frozen_entry_context cycle));
        ("latest_confirmed_management_protection",
         encode_optional encode_desired_protection
           (tc_latest_confirmed_management_protection cycle));
        ("entry_remainder_cancelled", JBool (tc_entry_remainder_cancelled cycle))].

Definition encode_aggregate (state : StrategyInstanceRuntimeState) : dict json :=
  [("strategy_instance_id", JStr (st_strategy_instance_id state));
   ("strategy_id", JStr (st_strategy_id state));
   ("registered_spec_snapshot", encode_snapshot (st_registered_spec_snapshot state));
   ("risk_multiplier", JStr (st_risk_multiplier state));
   ("current_trade_cycle", encode_optional encode_cycle (st_current_trade_cycle state));
   ("pending_entry_recovery",
    encode_optional encode_pending_entry_recovery (st_pending_entry_recovery state));
   ("pending_close_recovery",
    encode_optional encode_pending_close_recovery (st_pending_close_recovery state))].

Definition encode_envelope (state : StrategyInstanceRuntimeState) : json :=
  JObj (("schema_version", JInt SCHEMA_VERSION) :: encode_aggregate state).

Definition encode_state_line (state : StrategyInstanceRuntimeState) : result string :=
  dumps (encode_envelope state).

(** * The key sets *)

Definition ENVELOPE_KEYS_V1 : list string :=
  ["schema_version"; "strategy_instance_id"; "strategy_id"; "registered_spec_snapshot";
   "risk_multiplier"; "current_trade_cycle"].
Definition ENVELOPE_KEYS_V2 : list string := ENVELOPE_KEYS_V1 ++ ["pending_entry_recovery"].
Definition ENVELOPE_KEYS_V3 : list string := ENVELOPE_KEYS_V2 ++ ["pending_close_recovery"].
Definition PENDING_ENTRY_RECOVERY_KEYS : list string := ["trade_cycle_id"].
Definition PENDING_CLOSE_RECOVERY_KEYS : list string := ["trade_cycle_id"].
Definition SNAPSHOT_KEYS : list string :=
  ["instrument"; "base_timeframe"; "raw_spec"; "source_path"].
Definition CYCLE_KEYS_V1 : list string :=
  ["trade_cycle_id"; "applied_entry_package"; "frozen_entry_context";
   "latest_confirmed_management_protection"].
Definition CYCLE_KEYS_V4 : list string := CYCLE_KEYS_V1 ++ ["entry_remainder_cancelled"].
Definition APPLIED_ENTRY_PACKAGE_KEYS : list string :=
  ["applied_desired_entry"; "calculated_quantity"].
Definition DESIRED_ENTRY_KEYS : list string :=
  ["side"; "source_plan_bar_open_time_ms"; "planned_entry_price"; "initial_stop_price";
   "initial_take_price"; "locked_exit_profile"].
Definition FROZEN_ENTRY_CONTEXT_KEYS_V1 : list string :=
  ["desired_entry"; "first_fill_at_ms"; "entry_bar_open_time_ms"].
Definition FROZEN_ENTRY_CONTEXT_KEYS_V4 : list string :=
  FROZEN_ENTRY_CONTEXT_KEYS_V1 ++ ["entry_order_expires_at_bar"].
Definition DESIRED_PROTECTION_KEYS : list string := ["stop_price"; "take_price"].

Definition reject_unknown_keys (data : dict json) (allowed : list string) (where_ : string) :
    result unit :=
  require (forallb (fun k => bool_decide (k ∈ allowed)) (dkeys data)) ValueError
    (where_ +:+ " has unknown field(s): ").

(** [data[key]] *)
Definition field (data : dict json) (key : string) : result json :=
  match dget key data with Some v => Ok v | None => raise KeyError key end.

(** [isinstance(data, dict)] *)
Definition as_object (data : json) (where_ : string) : result (dict json) :=
  match data with
  | JObj fields => Ok fields
  | _ => raise TypeError (where_ +:+ " must be a JSON object")
  end.

(** [decode(data) if data is not None else None] *)
Definition decode_optional {A} (decode : json -> result A) (data : json) : result (option A) :=
  match data with JNull => Ok None | _ => a ← decode data; Ok (Some a) end.

(** * The constructors on untyped arguments *)

(** A method call on a value that is not a [str]. *)
Definition attribute_error {A} : result A := raise AttributeError "strip".

(** [if not value.strip(): raise ValueError(msg)] *)
Definition stripped_text (value : json) (msg : string) : result string :=
  match value with
  | JStr s => _ ← require (negb (is_blank s)) ValueError msg; Ok s
  | _ => attribute_error
  end.

(** [if type(value) is not str or len(value) == 0: raise ValueError(msg)] *)
Definition non_empty_text (value : json) (msg : string) : result string :=
  match value with
  | JStr s => _ ← require (negb (is_empty s)) ValueError msg; Ok s
  | _ => raise ValueError msg
  end.

(** [normalize_decimal_text] of any value. *)
Definition normalized (value : json) : result string :=
  match value with
  | JStr s => normalize_decimal_text s
  | _ => raise ValueError "decimal text must be a non-empty string"
  end.

(** [if type(value) is not int or not check(value): raise ValueError(msg)] *)
Definition checked_int (value : json) (check : Z -> bool) (msg : string) : result Z :=
  match value with
  | JInt z => _ ← require (check z) ValueError msg; Ok z
  | _ => raise ValueError msg
  end.

(** [value in {"long", "short"}] *)
Definition side_of (value : json) : result side :=
  match value with
  | JStr s =>
      if decide (s = "long") then Ok long
      else if decide (s = "short") then Ok short
      else raise ValueError "side must be long or short"
  | JList _ | JObj _ => raise TypeError "unhashable type"
  | _ => raise ValueError "side must be long or short"
  end.

Definition DesiredEntry_of (side_ source planned stop take locked : json) : result DesiredEntry :=
  side_ ← side_of side_;
  source ← match source with
    | JInt z => _ ← require (0 <=? z) ValueError
        "source_plan_bar_open_time_ms must be non-negative"; Ok z
    | JBool _ | JFloat _ => Raise outside_model
    | _ => raise TypeError "'<' not supported"
    end;
  planned ← normalized planned;
  stop ← normalized stop;
  take ← normalized take;
  _ ← require (negb (decimal_le_zero take)) ValueError "initial_take_price must be positive";
  locked ← stripped_text locked "locked_exit_profile must be non-empty";
  Ok {| de_side := side_; de_source_plan_bar_open_time_ms := source;
        de_planned_entry_price := planned; de_initial_stop_price := stop;
        de_initial_take_price := take; de_locked_exit_profile := locked |}.

Definition DesiredProtection_of (stop take : json) : result DesiredProtection :=
  stop ← normalized stop;
  take ← decode_optional normalized take;
  Ok {| dp_stop_price := stop; dp_take_price := take |}.

Definition AppliedEntryPackage_of (entry : DesiredEntry) (quantity : json) :
    result AppliedEntryPackage :=
  match quantity with
  | JStr q => AppliedEntryPackage_post_init
      {| ap_applied_desired_entry := entry; ap_calculated_quantity := q |}
  | _ => raise ValueError "calculated_quantity must be exact-decimal text"
  end.

Definition FrozenExecutedEntryContext_of (entry : DesiredEntry) (fill bar expires : json) :
    result FrozenExecutedEntryContext :=
  fill ← checked_int fill (fun z => 0 <? z) "first_fill_at_ms must be a strictly positive integer";
  bar ← checked_int bar (fun z => 0 <=? z)
    "entry_bar_open_time_ms must be a non-negative integer";
  _ ← require (bar <=? fill) ValueError "entry_bar_open_time_ms must not be after first_fill_at_ms";
  expires ← decode_optional (fun v => checked_int v (fun z => 0 <? z)
    "entry_order_expires_at_bar must be a strictly positive integer or None") expires;
  Ok {| fc_desired_entry := entry; fc_first_fill_at_ms := fill;
        fc_entry_bar_open_time_ms := bar; fc_entry_order_expires_at_bar := expires |}.

Definition CurrentTradeCycle_of (id : json) (package : AppliedEntryPackage)
    (frozen : option FrozenExecutedEntryContext) (protection : option DesiredProtection)
    (cancelled : json) : result CurrentTradeCycle :=
  id ← non_empty_text id "trade_cycle_id must be a non-empty string";
  match cancelled with
  | JBool b => Ok {| tc_trade_cycle_id := id; tc_applied_entry_package := package;
      tc_frozen_entry_context := frozen;
      tc_latest_confirmed_management_protection := protection;
      tc_entry_remainder_cancelled := b |}
  | _ => raise TypeError "entry_remainder_cancelled must be bool"
  end.

(** ** [dict(raw_spec)] and the text of its keys *)

(** One element of a list of pairs: anything iterable with two elements. *)
Definition pair_of (value : json) : result (json * json) :=
  match value with
  | JList [k; v] => Ok (k, v)
  | JStr (String a (String b EmptyString)) =>
      Ok (JStr (String a EmptyString), JStr (String b EmptyString))
  | JObj [(k1, _); (k2, _)] => Ok (JStr k1, JStr k2)
  | JList _ | JStr _ | JObj _ => raise ValueError "dictionary update sequence element"
  | _ => raise TypeError "cannot convert dictionary update sequence element to a sequence"
  end.

Definition hashable (key : json) : result json :=
  match key with
  | JList _ | JObj _ => raise TypeError "unhashable type"
  | JFloat _ => Raise outside_model
  | _ => Ok key
  end.

(** [str(key)] *)
Definition key_text (key : json) : string :=
  match key with
  | JStr s => s
  | JNull => "None"
  | JBool true => "True"
  | JBool false => "False"
  | JInt z => text (int_text z)
  | _ => EmptyString
  end.

(** Assignment to a dictionary whose keys are hashable values. *)
Fixpoint hash_set (k v : json) (d : list (json * json)) : list (json * json) :=
  match d with
  | [] => [(k, v)]
  | (k', v') :: d => if py_eqb k' k then (k', v) :: d else (k', v') :: hash_set k v d
  end.

Fixpoint dict_from_pairs (d : list (json * json)) (items : list json) :
    result (list (json * json)) :=
  match items with
  | [] => Ok d
  | item :: items =>
      '(k, v) ← pair_of item; k ← hashable k; dict_from_pairs (hash_set k v d) items
  end.

Definition dict_of_json (value : json) : result (dict json) :=
  match value with
  | JObj fields => Ok fields
  | JStr EmptyString => Ok []
  | JStr _ => raise ValueError "dictionary update sequence element"
  | JList items =>
      pairs ← dict_from_pairs [] items;
      Ok (dict_of (map (fun p => (key_text p.1, p.2)) pairs))
  | _ => raise TypeError "object is not iterable"
  end.

Definition RegisteredSpecSnapshot_of (instrument base_timeframe raw_spec source_path : json) :
    result RegisteredSpecSnapshot :=
  instrument ← stripped_text instrument "instrument must be non-empty";
  base_timeframe ← stripped_text base_timeframe "base_timeframe must be non-empty";
  source_path ← stripped_text source_path "source_path must be non-empty";
  raw_spec ← dict_of_json raw_spec;
  Ok {| rs_instrument := instrument; rs_base_timeframe := base_timeframe;
        rs_raw_spec := raw_spec; rs_source_path := source_path |}.

Definition StrategyInstanceRuntimeState_of (id strategy_id : json)
    (snapshot : RegisteredSpecSnapshot) (risk : json) (cycle : option CurrentTradeCycle)
    (pe : option PendingEntryRecovery) (pc : option PendingCloseRecovery) :
    result StrategyInstanceRuntimeState :=
  id ← stripped_text id "strategy identity fields must be non-empty";
  strategy_id ← stripped_text strategy_id "strategy identity fields must be non-empty";
  match risk with
  | JStr risk => StrategyInstanceRuntimeState_post_init
      {| st_strategy_instance_id := id; st_strategy_id := strategy_id;
         st_registered_spec_snapshot := snapshot; st_risk_multiplier := risk;
         st_current_trade_cycle := cycle; st_pending_entry_recovery := pe;
         st_pending_close_recovery := pc |}
  | _ => raise ValueError "risk_multiplier must be positive exact-decimal text"
  end.

(** * Decoding *)

Definition decode_pending_entry_recovery (data : json) : result PendingEntryRecovery :=
  data ← as_object data "pending_entry_recovery";
  _ ← reject_unknown_keys data PENDING_ENTRY_RECOVERY_KEYS "pending_entry_recovery";
  id ← field data "trade_cycle_id";
  id ← non_empty_text id "trade_cycle_id must be a non-empty string";
  Ok {| pe_trade_cycle_id := id |}.

Definition decode_pending_close_recovery (data : json) : result PendingCloseRecovery :=
  data ← as_object data "pending_close_recovery";
  _ ← reject_unknown_keys data PENDING_CLOSE_RECOVERY_KEYS "pending_close_recovery";
  id ← field data "trade_cycle_id";
  id ← non_empty_text id "trade_cycle_id must be a non-empty string";
  Ok {| pc_trade_cycle_id := id |}.

Definition decode_snapshot (data : json) : result RegisteredSpecSnapshot :=
  data ← as_object data "registered_spec_snapshot";
  _ ← reject_unknown_keys data SNAPSHOT_KEYS "registered_spec_snapshot";
  instrument ← field data "instrument";
  base_timeframe ← field data "base_timeframe";
  raw_spec ← field data "raw_spec";
  source_path ← field data "source_path";
  RegisteredSpecSnapshot_of instrument base_timeframe raw_spec source_path.

Definition decode_desired_entry (data : json) : result DesiredEntry :=
  data ← as_object data "desired_entry";
  _ ← reject_unknown_keys data DESIRED_ENTRY_KEYS "desired_entry";
  side_ ← field data "side";
  source ← field data "source_plan_bar_open_time_ms";
  planned ← field data "planned_entry_price";
  stop ← field data "initial_stop_price";
  take ← field data "initial_take_price";
  locked ← field data "locked_exit_profile";
  DesiredEntry_of side_ source planned stop take locked.

Definition decode_applied_entry_package (data : json) : result AppliedEntryPackage :=
  data ← as_object data "applied_entry_package";
  _ ← reject_unknown_keys data APPLIED_ENTRY_PACKAGE_KEYS "applied_entry_package";
  entry ← field data "applied_desired_entry";
  entry ← decode_desired_entry entry;
  quantity ← field data "calculated_quantity";
  AppliedEntryPackage_of entry quantity.

Definition decode_frozen_entry_context (v4 : bool) (data : json) :
    result FrozenExecutedEntryContext :=
  data ← as_object data "frozen_entry_context";
  _ ← reject_unknown_keys data
    (if v4 then FROZEN_ENTRY_CONTEXT_KEYS_V4 else FROZEN_ENTRY_CONTEXT_KEYS_V1)
    "frozen_entry_context";
  entry ← field data "desired_entry";
  entry ← decode_desired_entry entry;
  fill ← field data "first_fill_at_ms";
  bar ← field data "entry_bar_open_time_ms";
  expires ← if v4 then field data "entry_order_expires_at_bar" else Ok JNull;
  FrozenExecutedEntryContext_of entry fill bar expires.

Definition decode_desired_protection (data : json) : result DesiredProtection :=
  data ← as_object data "latest_confirmed_management_protection";
  _ ← reject_unknown_keys data DESIRED_PROTECTION_KEYS "latest_confirmed_management_protection";
  stop ← field data "stop_price";
  take ← field data "take_price";
  DesiredProtection_of stop take.

Definition decode_cycle (v4 : bool) (data : json) : result CurrentTradeCycle :=
  data ← as_object data "current_trade_cycle";
  _ ← reject_unknown_keys data (if v4 then CYCLE_KEYS_V4 else CYCLE_KEYS_V1)
    "current_trade_cycle";
  frozen ← field data "frozen_entry_context";
  protection ← field data "latest_confirmed_management_protection";
  id ← field data "trade_cycle_id";
  package ← field data "applied_entry_package";
  package ← decode_applied_entry_package package;
  frozen ← decode_optional (decode_frozen_entry_context v4) frozen;
  protection ← decode_optional decode_desired_protection protection;
  cancelled ← if v4 then field data "entry_remainder_cancelled" else Ok (JBool false);
  CurrentTradeCycle_of id package frozen protection cancelled.

Definition decode_aggregate (data : dict json) (pe : option PendingEntryRecovery)
    (pc : option PendingCloseRecovery) (v4 : bool) : result StrategyInstanceRuntimeState :=
  cycle ← field data "current_trade_cycle";
  id ← field data "strategy_instance_id";
  strategy_id ← field data "strategy_id";
  snapshot ← field data "registered_spec_snapshot";
  snapshot ← decode_snapshot snapshot;
  risk ← field data "risk_multiplier";
  cycle ← decode_optional (decode_cycle v4) cycle;
  StrategyInstanceRuntimeState_of id strategy_id snapshot risk cycle pe pc.

(** [version == n], where [True] is 1. *)
Definition version_number (version : option json) : result (option Z) :=
  match version with
  | Some (JInt z) => Ok (Some z)
  | Some (JBool b) => Ok (Some (Z.b2z b))
  | Some (JFloat _) => Raise outside_model
  | _ => Ok None
  end.

Definition decode_envelope (envelope : json) : result StrategyInstanceRuntimeState :=
  match envelope with
  | JObj data =>
      version ← version_number (dget "schema_version" data);
      if decide (version = Some 1) then
        _ ← reject_unknown_keys data ENVELOPE_KEYS_V1 "envelope";
        decode_aggregate data None None false
      else if decide (version = Some 2) then
        _ ← reject_unknown_keys data ENVELOPE_KEYS_V2 "envelope";
        pe ← field data "pending_entry_recovery";
        pe ← decode_optional decode_pending_entry_recovery pe;
        decode_aggregate data pe None false
      else if decide (version = Some 3 \/ version = Some 4) then
        _ ← reject_unknown_keys data ENVELOPE_KEYS_V3 "envelope";
        pe ← field data "pending_entry_recovery";
        pc ← field data "pending_close_recovery";
        pe ← decode_optional decode_pending_entry_recovery pe;
        pc ← decode_optional decode_pending_close_recovery pc;
        decode_aggregate data pe pc (bool_decide (version = Some 4))
      else raise ValueError "unsupported or missing schema_version"
  | _ => raise TypeError "record must be a JSON object"
  end.

Definition decode_state_line (line : string) : result StrategyInstanceRuntimeState :=
  envelope ← loads line;
  match decode_envelope envelope with
  | Raise e =>
      if is_decode_failure (exn_cls e) then raise StateRecordDecodeError (exn_msg e) else Raise e
  | ok => ok
  end.

(** * What the constructors guarantee *)

(** Values that came out of the constructors: validating them again changes nothing. *)
Definition entry_ok (e : DesiredEntry) : Prop := DesiredEntry_post_init e = Ok e.
Definition protection_ok (p : DesiredProtection) : Prop := DesiredProtection_post_init p = Ok p.

Record cycle_ok (c : CurrentTradeCycle) : Prop := {
  ok_id : CurrentTradeCycle_post_init c = Ok c;
  ok_package : AppliedEntryPackage_post_init (tc_applied_entry_package c) =
    Ok (tc_applied_entry_package c);
  ok_entry : entry_ok (tc_desired_entry c);
  ok_frozen : forall f, tc_frozen_entry_context c = Some f ->
    FrozenExecutedEntryContext_post_init f = Ok f /\ entry_ok (fc_desired_entry f);
  ok_protection : forall p, tc_latest_confirmed_management_protection c = Some p ->
    protection_ok p }.

Record well_formed_state (s : StrategyInstanceRuntimeState) : Prop := {
  ok_state : valid_state s;
  ok_snapshot : RegisteredSpecSnapshot_post_init (st_registered_spec_snapshot s) =
    Ok (st_registered_spec_snapshot s);
  ok_cycle : forall c, st_current_trade_cycle s = Some c -> cycle_ok c;
  ok_entry_marker : forall m, st_pending_entry_recovery s = Some m ->
    PendingEntryRecovery_post_init m = Ok m;
  ok_close_marker : forall m, st_pending_close_recovery s = Some m ->
    PendingCloseRecovery_post_init m = Ok m }.

(** A normalised price is left as it is. *)
Lemma normalize_idempotent v t : normalize_decimal_text v = Ok t -> normalize_decimal_text t = Ok t.
Proof.
  intros (d & Hd & _ & -> & Hw)%normalize_Ok.
  destruct (writes_reads _ _ Hw) as (_ & Hb & r & Hr & Hrd).
  destruct (normalize_writes _ _ Hr Hb) as [-> Hw']. by rewrite (writes_unique _ _ _ _ Hw' Hw Hrd).
Qed.

Lemma DesiredEntry_idempotent e e' : DesiredEntry_post_init e = Ok e' -> entry_ok e'.
Proof.
  unfold entry_ok, DesiredEntry_post_init. intros H.
  ok_inv H. apply require_Ok in Hok, Hok3, Hok4. simpl.
  rewrite (normalize_idempotent _ _ Hok0), (normalize_idempotent _ _ Hok1),
    (normalize_idempotent _ _ Hok2). simpl in *. by rewrite Hok, Hok3, Hok4.
Qed.

Lemma DesiredProtection_idempotent p p' : DesiredProtection_post_init p = Ok p' -> protection_ok p'.
Proof.
  unfold protection_ok, DesiredProtection_post_init. intros H. ok_inv H.
  simpl. rewrite (normalize_idempotent _ _ Hok). simpl. destruct (dp_take_price p); simpl in *.
  - ok_inv Hok0. by rewrite (normalize_idempotent _ _ Hok1).
  - by simplify_eq.
Qed.

(** * A written record is read back *)

(** The raw specification as a record keeps it: with sorted keys. *)
Definition sorted_spec (raw : dict json) : dict json :=
  sort_by fst (map (fun f => (f.1, sort_json f.2)) raw).

Definition with_raw_spec (s : StrategyInstanceRuntimeState) (raw : dict json) :
    StrategyInstanceRuntimeState :=
  {| st_strategy_instance_id := st_strategy_instance_id s;
     st_strategy_id := st_strategy_id s;
     st_registered_spec_snapshot :=
       {| rs_instrument := rs_instrument (st_registered_spec_snapshot s);
          rs_base_timeframe := rs_base_timeframe (st_registered_spec_snapshot s);
          rs_raw_spec := raw;
          rs_source_path := rs_source_path (st_registered_spec_snapshot s) |};
     st_risk_multiplier := st_risk_multiplier s;
     st_current_trade_cycle := st_current_trade_cycle s;
     st_pending_entry_recovery := st_pending_entry_recovery s;
     st_pending_close_recovery := st_pending_close_recovery s |}.

Definition read_back (s : StrategyInstanceRuntimeState) : StrategyInstanceRuntimeState :=
  with_raw_spec s (sorted_spec (rs_raw_spec (st_registered_spec_snapshot s))).

Lemma decode_entry e : entry_ok e -> decode_desired_entry (sort_json (encode_desired_entry e)) = Ok e.
Proof.
  unfold entry_ok, DesiredEntry_post_init. intros H. ok_inv H.
  destruct e as [sd src planned stop take locked]. simpl in *. simplify_eq/=.
  unfold decode_desired_entry. simpl. unfold DesiredEntry_of.
  assert (side_of (JStr (side_text sd)) = Ok sd) as -> by (by destruct sd). simpl.
  rewrite Hok, Hok0, Hok1, Hok2. simpl. rewrite Hok3. simpl. by rewrite Hok4.
Qed.

Lemma decode_package p : AppliedEntryPackage_post_init p = Ok p ->
  entry_ok (ap_applied_desired_entry p) ->
  decode_applied_entry_package (sort_json (encode_applied_entry_package p)) = Ok p.
Proof.
  intros Hp He. pose proof (decode_entry _ He) as Hd.
  unfold decode_applied_entry_package. unfold encode_applied_entry_package. simpl sort_json in *.
  simpl. rewrite Hd. simpl. by destruct p.
Qed.

Lemma decode_frozen f : FrozenExecutedEntryContext_post_init f = Ok f ->
  entry_ok (fc_desired_entry f) ->
  decode_frozen_entry_context true (sort_json (encode_frozen_entry_context f)) = Ok f.
Proof.
  intros Hf He. pose proof (decode_entry _ He) as Hd.
  unfold FrozenExecutedEntryContext_post_init in Hf. ok_inv Hf.
  apply require_Ok in Hok, Hok0, Hok1, Hok2.
  unfold decode_frozen_entry_context, encode_frozen_entry_context. simpl sort_json in *. simpl.
  rewrite Hd. simpl. unfold FrozenExecutedEntryContext_of.
  destruct f as [e fill bar [x|]]; simpl in *;
    rewrite Hok; simpl; rewrite Hok0; simpl; rewrite Hok1; simpl; [|done].
  by rewrite Hok2.
Qed.

Lemma decode_protection p : protection_ok p ->
  decode_desired_protection (sort_json (encode_desired_protection p)) = Ok p.
Proof.
  destruct p as [stop take]. unfold protection_ok, DesiredProtection_post_init.
  intros H. ok_inv H.
  unfold decode_desired_protection, encode_desired_protection. simpl. unfold DesiredProtection_of.
  destruct take as [take|]; simpl in *; rewrite Hok; simpl; [|done].
  ok_inv Hok0. by rewrite Hok1.
Qed.

(** An optional part: present values are objects or integers, never [null]. *)
Lemma decode_encode_optional {A} (encode : A -> json) decode (o : option A) :
  (forall a, o = Some a -> encode a <> JNull /\ decode (sort_json (encode a)) = Ok a) ->
  (forall j, sort_json j = JNull -> j = JNull) ->
  decode_optional decode (sort_json (encode_optional encode o)) = Ok o.
Proof.
  intros H Hs. destruct o as [a|]; [|done]. simpl. destruct (H a eq_refl) as [Hne Hd].
  unfold decode_optional. destruct (sort_json (encode a)) eqn:E; rewrite ?Hd; try done.
  by apply Hs in E.
Qed.

Lemma sort_json_null j : sort_json j = JNull -> j = JNull.
Proof. by destruct j. Qed.

Lemma sort_json_object fs :
  sort_json (JObj fs) = JObj (sort_by fst (map (fun f => (f.1, sort_json f.2)) fs)).
Proof. done. Qed.

Lemma decode_cycle_encoded c : cycle_ok c ->
  decode_cycle true (sort_json (encode_cycle c)) = Ok c.
Proof.
  intros [Hid Hp He Hf Hpr]. pose proof (decode_package _ Hp He) as Hdp.
  assert (decode_optional (decode_frozen_entry_context true) (sort_json
    (encode_optional encode_frozen_entry_context (tc_frozen_entry_context c))) =
    Ok (tc_frozen_entry_context c)) as Hdf.
  { apply decode_encode_optional, sort_json_null. intros f Hc. split; [done|].
    destruct (Hf f Hc). by apply decode_frozen. }
  assert (decode_optional decode_desired_protection (sort_json
    (encode_optional encode_desired_protection (tc_latest_confirmed_management_protection c))) =
    Ok (tc_latest_confirmed_management_protection c)) as Hdr.
  { apply decode_encode_optional, sort_json_null. intros p Hc. split; [done|].
    by apply decode_protection, Hpr. }
  apply result_bind_Ok in Hid as (? & Hok%require_Ok & _). unfold encode_cycle. rewrite sort_json_object. cbn [map fst snd].
  revert Hdp Hdf Hdr.
  generalize (sort_json (encode_applied_entry_package (tc_applied_entry_package c)))
    (sort_json (encode_optional encode_frozen_entry_context (tc_frozen_entry_context c)))
    (sort_json (encode_optional encode_desired_protection
      (tc_latest_confirmed_management_protection c))).
  intros jp jf jr Hdp Hdf Hdr. simpl. unfold decode_cycle. simpl.
  rewrite Hdp. simpl. rewrite Hdf. simpl. rewrite Hdr. simpl.
  unfold CurrentTradeCycle_of. simpl. rewrite Hok. by destruct c.
Qed.

Lemma decode_snapshot_encoded s : RegisteredSpecSnapshot_post_init s = Ok s ->
  decode_snapshot (sort_json (encode_snapshot s)) =
    Ok {| rs_instrument := rs_instrument s; rs_base_timeframe := rs_base_timeframe s;
          rs_raw_spec := sorted_spec (rs_raw_spec s); rs_source_path := rs_source_path s |}.
Proof.
  intros H. apply result_bind_Ok in H as (? & Hok%require_Ok & H).
  apply result_bind_Ok in H as (? & Hok0%require_Ok & H).
  apply result_bind_Ok in H as (? & Hok1%require_Ok & _). unfold encode_snapshot. rewrite sort_json_object.
  cbn [map fst snd]. rewrite (sort_json_object (rs_raw_spec s)).
  unfold sorted_spec. generalize (sort_by fst (map (fun f => (f.1, sort_json f.2)) (rs_raw_spec s))).
  intros raw. simpl. unfold decode_snapshot. simpl. unfold RegisteredSpecSnapshot_of. simpl.
  rewrite Hok. simpl. rewrite Hok0. simpl. by rewrite Hok1.
Qed.

Lemma with_raw_spec_valid s raw : valid_state s -> valid_state (with_raw_spec s raw).
Proof.
  unfold valid_state, StrategyInstanceRuntimeState_post_init. simpl. intros H.
  repeat (apply result_bind_Ok in H as (? & -> & H)). done.
Qed.

Lemma read_back_equal s :
  json_ok (JObj (rs_raw_spec (st_registered_spec_snapshot s))) = true ->
  state_eqb (read_back s) s = true.
Proof.
  intros Hj. apply py_eqb_deep_sort in Hj. rewrite sort_json_object in Hj.
  unfold state_eqb, snapshot_eqb, read_back, py_eqb. simpl in *. unfold sorted_spec.
  rewrite Hj, orb_true_r. by rewrite !bool_decide_true.
Qed.

Lemma decode_envelope_encoded s : well_formed_state s ->
  decode_envelope (sort_json (encode_envelope s)) = Ok (read_back s).
Proof.
  intros [Hs Hsn Hc Hpe Hpc]. pose proof (decode_snapshot_encoded _ Hsn) as Hds.
  assert (decode_optional (decode_cycle true) (sort_json
    (encode_optional encode_cycle (st_current_trade_cycle s))) =
    Ok (st_current_trade_cycle s)) as Hdc.
  { apply decode_encode_optional, sort_json_null. intros c Hcy. split; [done|].
    by apply decode_cycle_encoded, Hc. }
  assert (decode_optional decode_pending_entry_recovery (sort_json
    (encode_optional encode_pending_entry_recovery (st_pending_entry_recovery s))) =
    Ok (st_pending_entry_recovery s)) as Hde.
  { apply decode_encode_optional, sort_json_null. intros m Hm. split; [done|].
    specialize (Hpe m Hm). apply result_bind_Ok in Hpe as (? & Hok%require_Ok & _).
    unfold decode_pending_entry_recovery. simpl. rewrite Hok. by destruct m. }
  assert (decode_optional decode_pending_close_recovery (sort_json
    (encode_optional encode_pending_close_recovery (st_pending_close_recovery s))) =
    Ok (st_pending_close_recovery s)) as Hdl.
  { apply decode_encode_optional, sort_json_null. intros m Hm. split; [done|].
    specialize (Hpc m Hm). apply result_bind_Ok in Hpc as (? & Hok%require_Ok & _).
    unfold decode_pending_close_recovery. simpl. rewrite Hok. by destruct m. }
  unfold encode_envelope, encode_aggregate. rewrite sort_json_object. cbn [map fst snd].
  revert Hds Hdc Hde Hdl.
  generalize (sort_json (encode_snapshot (st_registered_spec_snapshot s)))
    (sort_json (encode_optional encode_cycle (st_current_trade_cycle s)))
    (sort_json (encode_optional encode_pending_entry_recovery (st_pending_entry_recovery s)))
    (sort_json (encode_optional encode_pending_close_recovery (st_pending_close_recovery s))).
  intros js jc je jl Hds Hdc Hde Hdl. simpl. unfold decode_envelope, decode_aggregate. simpl.
  rewrite Hde. simpl. rewrite Hdl. simpl. rewrite Hds. simpl. rewrite Hdc. simpl.
  pose proof Hs as Hid. apply result_bind_Ok in Hid as (? & Hid%require_Ok & _).
  apply andb_true_iff in Hid as [Hid1 Hid2]. unfold StrategyInstanceRuntimeState_of. simpl.
  rewrite Hid1, Hid2. simpl. by apply (with_raw_spec_valid s).
Qed.

Lemma json_ok_envelope s : json_ok (JObj (rs_raw_spec (st_registered_spec_snapshot s))) = true ->
  json_ok (encode_envelope s) = true.
Proof.
  assert (forall e, json_ok (encode_desired_entry e) = true) as He by done.
  assert (json_ok (encode_optional encode_cycle (st_current_trade_cycle s)) = true) as Hc.
  { destruct (st_current_trade_cycle s) as [[id p [f|] [pr|] b]|]; try done.
    all: destruct f as [e fill bar []] || idtac; try done.
    all: by destruct pr as [stop []]. }
  intros Hraw. unfold encode_envelope, encode_aggregate. simpl in Hc, Hraw |- *.
  rewrite Hc, Hraw. simpl.
  by destruct (st_pending_entry_recovery s), (st_pending_close_recovery s).
Qed.

(** C15. A record that was written is read back as the same aggregate: equal in every
    field, the keys of [raw_spec] being sorted, and equal for Python's [==]. *)
Theorem decode_encoded_state s line :
  well_formed_state s -> json_ok (JObj (rs_raw_spec (st_registered_spec_snapshot s))) = true ->
  encode_state_line s = Ok line ->
  decode_state_line line = Ok (read_back s) /\ state_eqb (read_back s) s = true.
Proof.
  intros Hs Hj He. unfold decode_state_line.
  rewrite (loads_dumps _ _ He (json_ok_envelope s Hj)).
  unfold mbind, result_bind.
  rewrite decode_envelope_encoded by done. split; [done|]. by apply read_back_equal.
Qed.

(** * What a record that is read satisfies *)

Lemma stripped_text_Ok j msg s : stripped_text j msg = Ok s -> is_blank s = false.
Proof. destruct j; try done. simpl. intros H. by ok_all. Qed.

Lemma non_empty_text_Ok j msg s : non_empty_text j msg = Ok s -> is_empty s = false.
Proof. destruct j; try done. simpl. intros H. by ok_all. Qed.

Lemma normalized_Ok j s : normalized j = Ok s -> normalize_decimal_text s = Ok s.
Proof. destruct j; try done. simpl. apply normalize_idempotent. Qed.

Lemma decode_optional_Some {A} (decode : json -> result A) j a :
  decode_optional decode j = Ok (Some a) -> decode j = Ok a.
Proof. destruct j; simpl; intros H; ok_all; congruence. Qed.

Lemma checked_int_Ok j check msg z : checked_int j check msg = Ok z -> check z = true.
Proof. destruct j; try done. simpl. intros H. by ok_all. Qed.

Lemma DesiredEntry_of_ok sd src p st tk l e : DesiredEntry_of sd src p st tk l = Ok e -> entry_ok e.
Proof.
  unfold DesiredEntry_of. intros H. ok_inv H.
  apply normalized_Ok in Hok1, Hok2, Hok3. apply stripped_text_Ok in Hok5.
  unfold entry_ok, DesiredEntry_post_init. simpl.
  destruct src; try done; simpl in Hok0. ok_inv Hok0. rewrite Hok6. simpl. rewrite Hok1. simpl.
  rewrite Hok2. simpl. rewrite Hok3. simpl. rewrite Hok4. simpl. by rewrite Hok5.
Qed.

Lemma decode_desired_entry_ok j e : decode_desired_entry j = Ok e -> entry_ok e.
Proof. unfold decode_desired_entry. intros H. ok_inv H. by eapply DesiredEntry_of_ok. Qed.

Lemma decode_package_ok j p : decode_applied_entry_package j = Ok p ->
  AppliedEntryPackage_post_init p = Ok p /\ entry_ok (ap_applied_desired_entry p).
Proof.
  unfold decode_applied_entry_package. intros H. ok_inv H.
  apply decode_desired_entry_ok in Hok2. unfold AppliedEntryPackage_of in H.
  destruct a3; try done. pose proof H as H'. unfold AppliedEntryPackage_post_init in H'.
  by ok_inv H'.
Qed.

Lemma decode_frozen_ok v4 j f : decode_frozen_entry_context v4 j = Ok f ->
  FrozenExecutedEntryContext_post_init f = Ok f /\ entry_ok (fc_desired_entry f).
Proof.
  unfold decode_frozen_entry_context. intros H. ok_inv H. apply decode_desired_entry_ok in Hok2.
  unfold FrozenExecutedEntryContext_of in H. ok_inv H. simpl. split; [|done].
  apply checked_int_Ok in Hok6, Hok7. apply require_Ok in Hok8.
  unfold FrozenExecutedEntryContext_post_init. simpl.
  rewrite Hok6. simpl. rewrite Hok7. simpl. rewrite Hok8. simpl.
  destruct a9 as [x|]; [|done]. apply decode_optional_Some, checked_int_Ok in Hok9. by rewrite Hok9.
Qed.

Lemma decode_protection_ok j p : decode_desired_protection j = Ok p -> protection_ok p.
Proof.
  unfold decode_desired_protection, DesiredProtection_of. intros H. ok_inv H.
  unfold protection_ok, DesiredProtection_post_init. simpl.
  apply normalized_Ok in Hok3. rewrite Hok3. simpl. destruct a4 as [t|]; [|done].
  apply decode_optional_Some, normalized_Ok in Hok4. simpl. by rewrite Hok4.
Qed.

Lemma decode_cycle_ok v4 j c : decode_cycle v4 j = Ok c -> cycle_ok c.
Proof.
  unfold decode_cycle. intros H. ok_inv H. unfold CurrentTradeCycle_of in H. ok_inv H.
  destruct a8; try done. ok_inv H. apply decode_package_ok in Hok5 as [Hp He].
  apply non_empty_text_Ok in Hok9. split; simpl; try done.
  - unfold CurrentTradeCycle_post_init, require_non_empty_string. simpl. by rewrite Hok9.
  - intros f ->. by eapply decode_frozen_ok, decode_optional_Some.
  - intros p ->. by eapply decode_protection_ok, decode_optional_Some.
Qed.

Lemma decode_aggregate_ok data pe pc v4 s :
  (forall m, pe = Some m -> PendingEntryRecovery_post_init m = Ok m) ->
  (forall m, pc = Some m -> PendingCloseRecovery_post_init m = Ok m) ->
  decode_aggregate data pe pc v4 = Ok s -> well_formed_state s.
Proof.
  unfold decode_aggregate. intros Hpe Hpc H. ok_inv H.
  unfold StrategyInstanceRuntimeState_of in H. ok_inv H. destruct a4; try done.
  apply state_post_init_Ok in H as [-> Hs]. split; simpl; try done.
  - unfold decode_snapshot in Hok3. ok_inv Hok3. unfold RegisteredSpecSnapshot_of in Hok3.
    ok_inv Hok3. apply stripped_text_Ok in Hok14, Hok15, Hok16.
    unfold RegisteredSpecSnapshot_post_init. simpl. by rewrite Hok14, Hok15, Hok16.
  - intros c ->. by eapply decode_cycle_ok, decode_optional_Some.
Qed.

Lemma decode_entry_marker_ok j m :
  decode_optional decode_pending_entry_recovery j = Ok (Some m) ->
  PendingEntryRecovery_post_init m = Ok m.
Proof.
  intros H%decode_optional_Some. unfold decode_pending_entry_recovery in H. ok_inv H.
  apply non_empty_text_Ok in Hok2. unfold PendingEntryRecovery_post_init, require_non_empty_string.
  simpl. by rewrite Hok2.
Qed.

Lemma decode_close_marker_ok j m :
  decode_optional decode_pending_close_recovery j = Ok (Some m) ->
  PendingCloseRecovery_post_init m = Ok m.
Proof.
  intros H%decode_optional_Some. unfold decode_pending_close_recovery in H. ok_inv H.
  apply non_empty_text_Ok in Hok2. unfold PendingCloseRecovery_post_init, require_non_empty_string.
  simpl. by rewrite Hok2.
Qed.

Lemma decode_envelope_ok j s : decode_envelope j = Ok s -> well_formed_state s.
Proof.
  destruct j; try done. simpl. intros H.
  apply result_bind_Ok in H as (v & _ & H). repeat case_decide; try done.
  all: ok_inv H; eapply decode_aggregate_ok, H; intros m Hm; simplify_eq;
    eauto using decode_entry_marker_ok, decode_close_marker_ok.
Qed.

(** C16. Whatever a line of the log says, the aggregate it is read as satisfies the
    invariants of every model class: [read_back] of it validates. *)
Theorem decoded_state_well_formed line s : decode_state_line line = Ok s -> well_formed_state s.
Proof.
  unfold decode_state_line. intros (j & _ & H)%result_bind_Ok.
  destruct (decode_envelope j) as [s'|e] eqn:Hd; [|by case_match].
  simplify_eq. by eapply decode_envelope_ok.
Qed.

(** * What a record that cannot be read raises *)

Definition decode_failure (e : exn) : Prop :=
  is_decode_failure (exn_cls e) = true \/ exn_cls e = AttributeError \/
  e = outside_model.

Section failures.
Local Notation fails r := (raises decode_failure r).

Lemma value_error_fails msg : decode_failure (Exn ValueError msg). Proof. by left. Qed.
Lemma type_error_fails msg : decode_failure (Exn TypeError msg). Proof. by left. Qed.
Lemma key_error_fails msg : decode_failure (Exn KeyError msg). Proof. by left. Qed.
Lemma attribute_error_fails msg : decode_failure (Exn AttributeError msg).
Proof. by right; left. Qed.
Lemma outside_model_fails : decode_failure outside_model. Proof. by right; right. Qed.

Hint Resolve value_error_fails type_error_fails key_error_fails attribute_error_fails
  outside_model_fails : raises.

Ltac fails := repeat first [raises_step | done | solve [eauto with raises]].

Lemma normalized_price_fails s : fails (normalize_decimal_text s).
Proof. unfold normalize_decimal_text. fails. Qed.
Lemma as_object_fails j w : fails (as_object j w).
Proof. destruct j; simpl; fails. Qed.
Lemma reject_unknown_keys_fails d ks w : fails (reject_unknown_keys d ks w).
Proof. apply raises_require. fails. Qed.
Lemma field_fails d k : fails (field d k).
Proof. unfold field. fails. Qed.
Lemma decode_optional_fails {A} (decode : json -> result A) j :
  (forall j, fails (decode j)) -> fails (decode_optional decode j).
Proof. intros Hd. destruct j; simpl; fails. Qed.
Lemma stripped_text_fails j msg : fails (stripped_text j msg).
Proof. destruct j; simpl; unfold attribute_error; fails. Qed.
Lemma non_empty_text_fails j msg : fails (non_empty_text j msg).
Proof. destruct j; simpl; fails. Qed.
Lemma checked_int_fails j check msg : fails (checked_int j check msg).
Proof. destruct j; simpl; fails. Qed.
Hint Resolve normalized_price_fails as_object_fails reject_unknown_keys_fails field_fails
  decode_optional_fails stripped_text_fails non_empty_text_fails checked_int_fails : raises.

Lemma normalized_fails j : fails (normalized j).
Proof. destruct j; simpl; fails. Qed.
Lemma side_of_fails j : fails (side_of j).
Proof. destruct j; simpl; fails. Qed.
Lemma pair_of_fails j : fails (pair_of j).
Proof. unfold pair_of. fails. Qed.
Lemma hashable_fails j : fails (hashable j).
Proof. destruct j; simpl; fails. Qed.
Hint Resolve normalized_fails side_of_fails pair_of_fails hashable_fails : raises.

Lemma dict_from_pairs_fails d items : fails (dict_from_pairs d items).
Proof.
  revert d. induction items as [|j items IH]; intros d; simpl; [done|].
  apply raises_bind; [apply pair_of_fails|]. intros [k v] _. fails.
Qed.
Hint Resolve dict_from_pairs_fails : raises.

Lemma dict_of_json_fails j : fails (dict_of_json j).
Proof. unfold dict_of_json. fails. Qed.
Hint Resolve dict_of_json_fails : raises.

Lemma decode_desired_entry_fails j : fails (decode_desired_entry j).
Proof. unfold decode_desired_entry, DesiredEntry_of. fails. Qed.
Lemma decode_desired_protection_fails j : fails (decode_desired_protection j).
Proof. unfold decode_desired_protection, DesiredProtection_of. fails. Qed.
Lemma decode_entry_marker_fails j : fails (decode_pending_entry_recovery j).
Proof. unfold decode_pending_entry_recovery. fails. Qed.
Lemma decode_close_marker_fails j : fails (decode_pending_close_recovery j).
Proof. unfold decode_pending_close_recovery. fails. Qed.
Lemma decode_snapshot_fails j : fails (decode_snapshot j).
Proof. unfold decode_snapshot, RegisteredSpecSnapshot_of. fails. Qed.
Hint Resolve decode_desired_entry_fails decode_desired_protection_fails decode_entry_marker_fails
  decode_close_marker_fails decode_snapshot_fails : raises.

Lemma decode_package_fails j : fails (decode_applied_entry_package j).
Proof.
  unfold decode_applied_entry_package, AppliedEntryPackage_of, AppliedEntryPackage_post_init. fails.
Qed.
Lemma decode_frozen_fails v4 j : fails (decode_frozen_entry_context v4 j).
Proof. unfold decode_frozen_entry_context, FrozenExecutedEntryContext_of. fails. Qed.
Hint Resolve decode_package_fails decode_frozen_fails : raises.

Lemma decode_cycle_fails v4 j : fails (decode_cycle v4 j).
Proof. unfold decode_cycle, CurrentTradeCycle_of. fails. Qed.
Hint Resolve decode_cycle_fails : raises.

Lemma decode_aggregate_fails data pe pc v4 : fails (decode_aggregate data pe pc v4).
Proof.
  unfold decode_aggregate, StrategyInstanceRuntimeState_of,
    StrategyInstanceRuntimeState_post_init. fails.
Qed.
Hint Resolve decode_aggregate_fails : raises.

Lemma decode_envelope_fails j : fails (decode_envelope j).
Proof. unfold decode_envelope, version_number. fails. Qed.
End failures.

(** A line that cannot be read raises [JSONDecodeError] when it is not JSON and
    [StateRecordDecodeError] when it is not a record, as documented, but for three values: an
    integer of more than 4300 digits, a value that is not a text where [strip] is called, and
    what the model cannot represent. Every text gives a state or one of these. *)
Theorem decode_state_line_raises line : raises (fun e =>
    exn_cls e = JSONDecodeError \/ exn_cls e = StateRecordDecodeError \/
    exn_cls e = ValueError \/ exn_cls e = AttributeError \/
    e = outside_model) (decode_state_line line).
Proof.
  unfold decode_state_line. apply raises_bind.
  { eapply raises_weaken; [apply loads_raises|]. intros e [?|[?|?]]; auto. }
  intros j _. pose proof (decode_envelope_fails j) as Hf.
  destruct (decode_envelope j) as [s|e]; [done|]. simpl in Hf.
  destruct (is_decode_failure (exn_cls e)) eqn:Hc; [by right; left|].
  destruct Hf as [Hf|[Hf|Hf]]; [congruence|simpl; auto..].
Qed.

(** ** Examples *)

Definition recorded_state : StrategyInstanceRuntimeState :=
  with_raw_spec open_state [("b", JInt (-2)); ("a", JList [JFloat "0.5"; JNull; JStr "x"])].

Lemma recorded_state_well_formed : well_formed_state recorded_state.
Proof.
  split; [reflexivity|reflexivity| |by intros ?|by intros ?]. intros c [= <-].
  split; [reflexivity|reflexivity|vm_compute; reflexivity| |by intros ?].
  intros f [= <-]. split; vm_compute; reflexivity.
Qed.

Lemma decode_encoded_state_witness :
  exists line, encode_state_line recorded_state = Ok line /\
    decode_state_line line = Ok (read_back recorded_state) /\
    state_eqb (read_back recorded_state) recorded_state = true.
Proof.
  destruct (encode_state_line recorded_state) as [line|e] eqn:He;
    [|vm_compute in He; discriminate He].
  exists line. split; [reflexivity|].
  exact (decode_encoded_state recorded_state line recorded_state_well_formed eq_refl He).
Defined.

(** A line made of the given fields. *)
Definition line_of (fields : list (string * json)) : string :=
  text (write (JObj fields)).

Lemma decoded_state_well_formed_witness :
  exists s, decode_state_line (line_of
      (("schema_version", JInt 1) ::
       [("strategy_instance_id", JStr "i1"); ("strategy_id", JStr "s1");
        ("registered_spec_snapshot", encode_snapshot sample_snapshot);
        ("risk_multiplier", JStr "1.5"); ("current_trade_cycle", JNull)])) = Ok s /\
    well_formed_state s.
Proof.
  destruct (decode_state_line _) as [s|e] eqn:Hd; [|vm_compute in Hd; discriminate Hd].
  exists s. split; [reflexivity|]. exact (decoded_state_well_formed _ s Hd).
Defined.

(** A value that is not a text where [strip] is called escapes the [except] clause. *)
Example non_text_identity_escapes :
  match decode_state_line (line_of
      (("schema_version", JInt 1) ::
       [("strategy_instance_id", JInt 5); ("strategy_id", JStr "s1");
        ("registered_spec_snapshot", encode_snapshot sample_snapshot);
        ("risk_multiplier", JStr "1.5"); ("current_trade_cycle", JNull)])) with
  | Raise e => exn_cls e = AttributeError
  | Ok _ => False
  end.
Proof. vm_compute. reflexivity. Qed.
