(* ===== verification/OpenPositionCodec.v ===== *)
(** The codec of ABI's open-position lookup (infrastructure/abi/open_position_codec.py) and of
    the closure object it shares with the close response (trade_cycle_closure_codec.py): what
    it accepts, what it raises, and that every valid response is accepted in its documented
    representation. *)
From S2P Require Import Prelude Errors DecimalText DecimalCanonical Models Json JsonFacts Contracts Wire Scripted StateCodec.

(** * The closure object *)

Definition CLOSURE_FIELD := "closure".
Definition CLOSURE_FIELDS : list string :=
  ["strategy_instance_id"; "trade_cycle_id"; "reason"; "order_id"; "order_link_id";
   "parent_order_link_id"].

Definition decode_closure (closure : dict json) : result TradeCycleClosure :=
  _ ← require_exact_fields closure CLOSURE_FIELDS "closure";
  id ← item closure "strategy_instance_id"; id ← string_value id "closure.strategy_instance_id";
  cycle ← item closure "trade_cycle_id"; cycle ← string_value cycle "closure.trade_cycle_id";
  reason ← item closure "reason"; reason ← string_value reason "closure.reason";
  order ← item closure "order_id"; order ← string_value order "closure.order_id";
  link ← item closure "order_link_id"; link ← optional_string_value link "closure.order_link_id";
  parent ← item closure "parent_order_link_id";
  parent ← optional_string_value parent "closure.parent_order_link_id";
  TradeCycleClosure_post_init
    {| cl_strategy_instance_id := id; cl_trade_cycle_id := cycle; cl_reason := reason;
       cl_order_id := order; cl_order_link_id := link; cl_parent_order_link_id := parent |}.

Definition decode_optional_closure (body : dict json) : result (option TradeCycleClosure) :=
  match dget CLOSURE_FIELD body with
  | None | Some JNull => Ok None
  | Some (JObj closure) => c ← decode_closure closure; Ok (Some c)
  | Some _ => raise TypeError "closure must be a JSON object or null"
  end.

(** * The lookup response *)

Definition SUCCESS_FIELDS : list string :=
  ["position_open"; "first_fill_at_ms"; "average_entry_price"; CLOSURE_FIELD;
   "entry_order_link_id"; "entry_order_id"].
Definition NO_DETAILS_PUBLIC_CODES : list string :=
  ["unknown_trade_cycle_binding"; "unsupported_exchange_scope"].
Definition INTERNAL_ERROR_CODE := "internal_error".

Definition _load_strict_json := load_strict_json OpenPositionLookupProtocolError "ABI open-position".
Definition _require_json_content_type :=
  require_json_content_type OpenPositionLookupProtocolError "ABI open-position".

Definition _success_object (payload : json) : result (dict json) :=
  closed_object payload SUCCESS_FIELDS "success response".

(** The fields of a success body, before the response is validated. *)
Definition success_fields (payload : json) : result OpenPositionLookupResponse :=
  body ← _success_object payload;
  position_open ← item body "position_open";
  position_open ← bool_value position_open "position_open";
  first_fill ← item body "first_fill_at_ms";
  first_fill ← match first_fill with
    | JNull => Ok None
    | JInt z => Ok (Some z)
    | _ => raise TypeError "first_fill_at_ms must be a JSON integer or null"
    end;
  average ← item body "average_entry_price";
  average ← optional_string_value average "average_entry_price";
  closure ← decode_optional_closure body;
  link ← item body "entry_order_link_id"; link ← optional_string_value link "entry_order_link_id";
  order ← item body "entry_order_id"; order ← optional_string_value order "entry_order_id";
  Ok {| lr_position_open := position_open; lr_first_fill_at_ms := first_fill;
        lr_average_entry_price := average; lr_closure := closure;
        lr_entry_order_link_id := link; lr_entry_order_id := order |}.

Definition _decode_success (payload : json) : result OpenPositionLookupResponse :=
  fields ← except_decode_failure OpenPositionLookupProtocolError
    "invalid ABI open-position success response: " (success_fields payload);
  except_type_or_value_error OpenPositionLookupProtocolError
    "invalid ABI open-position success response: " (OpenPositionLookupResponse_post_init fields).

Fixpoint check_details (items : list json) : result unit :=
  match items with
  | [] => Ok tt
  | detail :: items =>
      detail ← closed_object detail VALIDATION_DETAIL_FIELDS "error.details item";
      path ← item detail "path"; _ ← non_empty_string_value path "error.details[].path";
      message ← item detail "message"; _ ← non_empty_string_value message "error.details[].message";
      check_details items
  end.

Definition _decode_validation_details (value : json) : result json :=
  match value with
  | JList (x :: items) => _ ← check_details (x :: items); Ok value
  | _ => raise ValueError "error.details must be a non-empty array"
  end.

Definition _decode_public_error_envelope (payload : json) :
    result (string * string * option json) :=
  except_decode_failure OpenPositionLookupProtocolError
    "invalid ABI open-position error envelope: "
    (envelope ← closed_object payload ERROR_ENVELOPE_FIELDS "error envelope";
     error ← item envelope "error";
     error_object ← json_object error "error";
     code ← non_empty_string_value (item_or_none error_object "code") "error.code";
     if decide (code = "validation_failed") then
       _ ← require_exact_fields error_object ERROR_FIELDS_WITH_DETAILS "error";
       message ← item error_object "message";
       message ← non_empty_string_value message "error.message";
       details ← item error_object "details";
       details ← _decode_validation_details details;
       Ok (code, message, Some details)
     else if decide (code ∈ NO_DETAILS_PUBLIC_CODES) then
       _ ← require_exact_fields error_object ERROR_FIELDS_WITHOUT_DETAILS "error";
       message ← item error_object "message";
       message ← non_empty_string_value message "error.message";
       Ok (code, message, None)
     else raise ValueError "undocumented open-position error code: ").

Definition _decode_internal_error_envelope (payload : json) (expected_code : string) : result unit :=
  except_decode_failure OpenPositionLookupProtocolError
    "invalid ABI open-position error envelope: "
    (envelope ← closed_object payload ERROR_ENVELOPE_FIELDS "error envelope";
     error ← item envelope "error";
     error_object ← json_object error "error";
     fields ← closed_object (JObj error_object) ERROR_FIELDS_WITHOUT_DETAILS "error";
     code ← item fields "code"; code ← non_empty_string_value code "error.code";
     _ ← require (bool_decide (code = expected_code)) ValueError "expected error code ";
     message ← item fields "message";
     _ ← non_empty_string_value message "error.message";
     Ok tt).

Definition decode_open_position_response (status_code : Z) (content_type : option string)
    (content : list ascii) : result OpenPositionLookupResponse :=
  _ ← _require_json_content_type content_type;
  payload ← _load_strict_json content;
  if status_code =? 200 then _decode_success payload
  else if status_code =? 422 then
    '(code, message, _) ← _decode_public_error_envelope payload;
    raise (OpenPositionLookupPublicError status_code code) message
  else if status_code =? 503 then
    _ ← _decode_internal_error_envelope payload "execution_not_ready";
    raise OpenPositionLookupExecutionNotReady "ABI execution is not ready"
  else if status_code =? 500 then
    _ ← _decode_internal_error_envelope payload INTERNAL_ERROR_CODE;
    raise OpenPositionLookupUnavailable "ABI open-position lookup unavailable: HTTP 500"
  else raise OpenPositionLookupProtocolError "undocumented ABI HTTP status: ".

(** * What the decoder raises *)

Lemma TradeCycleClosure_post_init_fails c :
  raises payload_failure (TradeCycleClosure_post_init c).
Proof. unfold TradeCycleClosure_post_init. fails. Qed.
#[export] Hint Resolve TradeCycleClosure_post_init_fails : raises.

Lemma decode_optional_closure_fails body : raises payload_failure (decode_optional_closure body).
Proof. unfold decode_optional_closure, decode_closure. fails. Qed.
#[export] Hint Resolve decode_optional_closure_fails : raises.

Lemma success_fields_fails payload : raises payload_failure (success_fields payload).
Proof. unfold success_fields, _success_object. fails. Qed.

Lemma response_post_init_fails r :
  raises (fun e => exn_cls e = ValueError) (OpenPositionLookupResponse_post_init r).
Proof.
  unfold OpenPositionLookupResponse_post_init, validate_open_entry_order_identity,
    normalize_decimal_text. raises.
Qed.

Lemma decode_success_raises payload :
  raises (of_class OpenPositionLookupProtocolError) (_decode_success payload).
Proof.
  unfold _decode_success. apply raises_bind; [apply except_decode_failure_raises, success_fields_fails|].
  intros r _. pose proof (response_post_init_fails r) as Hr.
  destruct (OpenPositionLookupResponse_post_init r); simpl in *; [done|]. by rewrite Hr.
Qed.

Lemma lookup_check_details_fails items : raises payload_failure (check_details items).
Proof. induction items as [|d items IH]; simpl; [done|]. fails. Qed.
Hint Resolve lookup_check_details_fails : raises.

Lemma lookup_details_fails j : raises payload_failure (_decode_validation_details j).
Proof. unfold _decode_validation_details. fails. Qed.
Hint Resolve lookup_details_fails : raises.

Lemma public_error_envelope_raises payload :
  raises (of_class OpenPositionLookupProtocolError) (_decode_public_error_envelope payload).
Proof. apply except_decode_failure_raises. fails. Qed.

Lemma internal_error_envelope_raises payload code :
  raises (of_class OpenPositionLookupProtocolError) (_decode_internal_error_envelope payload code).
Proof. apply except_decode_failure_raises. fails. Qed.

(** The errors of the port, or what the model cannot represent. *)
Definition lookup_error (e : exn) : Prop :=
  is_open_position_resolution_error (exn_cls e) = true \/ e = outside_model.

Lemma protocol_lookup_error {A} (r : result A) :
  raises (of_class OpenPositionLookupProtocolError) r -> raises lookup_error r.
Proof. intros Hr. eapply raises_weaken; [exact Hr|]. intros e He. left. by rewrite He. Qed.

Lemma load_lookup_error content : raises lookup_error (_load_strict_json content).
Proof.
  eapply raises_weaken; [apply load_strict_json_raises|]. intros e [He|He]; [left; by rewrite He|by right].
Qed.

Lemma raised_lookup_error c msg : is_open_position_resolution_error c = true ->
  lookup_error (Exn c msg).
Proof. by left. Qed.

Hint Resolve load_lookup_error : raises.
Hint Extern 1 (raises lookup_error _) => apply protocol_lookup_error : raises.
Hint Resolve require_json_content_type_raises decode_success_raises public_error_envelope_raises
  internal_error_envelope_raises : raises.
Hint Extern 1 (lookup_error _) => by apply raised_lookup_error : raises.

Lemma open_position_raises status ct content :
  raises lookup_error (decode_open_position_response status ct content).
Proof. unfold decode_open_position_response, _require_json_content_type. fails. Qed.

(** A lookup answer either decodes or raises one of the errors of the port, which are
    those the resolver of the open position names; a decoded answer was sent with HTTP 200 and
    satisfies the contract of the response. *)
Theorem open_position_answer_is_typed status ct content :
  raises lookup_error (decode_open_position_response status ct content) /\
  (forall r, decode_open_position_response status ct content = Ok r ->
     status = 200 /\ exists fields, OpenPositionLookupResponse_post_init fields = Ok r).
Proof.
  split; [apply open_position_raises|]. unfold decode_open_position_response. intros r H. ok_inv H. repeat first [case_match | progress ok_inv H]; try done.
  split; [by apply Z.eqb_eq|]. unfold _decode_success in H. ok_inv H.
  exists a1. revert H. destruct (OpenPositionLookupResponse_post_init a1); simpl; [done|].
  by case_match.
Qed.

(** * The documented representation is accepted *)

Definition closure_body (c : TradeCycleClosure) : json :=
  JObj [("strategy_instance_id", JStr (cl_strategy_instance_id c));
        ("trade_cycle_id", JStr (cl_trade_cycle_id c));
        ("reason", JStr (cl_reason c));
        ("order_id", JStr (cl_order_id c));
        ("order_link_id", encode_optional JStr (cl_order_link_id c));
        ("parent_order_link_id", encode_optional JStr (cl_parent_order_link_id c))].

Definition lookup_body (r : OpenPositionLookupResponse) : dict json :=
  [("position_open", JBool (lr_position_open r));
   ("first_fill_at_ms", encode_optional JInt (lr_first_fill_at_ms r));
   ("average_entry_price", encode_optional JStr (lr_average_entry_price r));
   ("closure", encode_optional closure_body (lr_closure r));
   ("entry_order_link_id", encode_optional JStr (lr_entry_order_link_id r));
   ("entry_order_id", encode_optional JStr (lr_entry_order_id r))].

Lemma decode_closure_body c : TradeCycleClosure_post_init c = Ok c ->
  exists fields, closure_body c = JObj fields /\ decode_closure fields = Ok c.
Proof.
  intros Hc. eexists. split; [reflexivity|]. unfold decode_closure. simpl.
  rewrite !optional_string_encoded. simpl. by destruct c.
Qed.

Lemma decode_optional_closure_body body o :
  dget CLOSURE_FIELD body = Some (encode_optional closure_body o) ->
  (forall c, o = Some c -> TradeCycleClosure_post_init c = Ok c) ->
  decode_optional_closure body = Ok o.
Proof.
  intros Hg Hc. unfold decode_optional_closure. rewrite Hg. destruct o as [c|]; [|done].
  destruct (decode_closure_body c (Hc c eq_refl)) as (fields & Hf & Hd).
  cbn [encode_optional]. rewrite Hf. by rewrite Hd.
Qed.

Lemma success_fields_body r :
  (forall c, lr_closure r = Some c -> TradeCycleClosure_post_init c = Ok c) ->
  success_fields (JObj (lookup_body r)) = Ok r.
Proof.
  intros Hc. unfold success_fields, _success_object, closed_object.
  cbn [json_object mbind result_bind].
  change (require_exact_fields (lookup_body r) SUCCESS_FIELDS "success response") with (Ok tt).
  pose proof (decode_optional_closure_body (lookup_body r) (lr_closure r) eq_refl Hc) as Hd.
  cbn [mbind result_bind]. rewrite Hd. simpl. rewrite !optional_string_encoded.
  by destruct r as [open [fill|] price closure link order].
Qed.

Lemma success_fields_permuted d d' : d ≡ₚ d' -> NoDup (dkeys d) ->
  success_fields (JObj d) = success_fields (JObj d').
Proof.
  intros Hp Hd. unfold success_fields, _success_object, closed_object, require_exact_fields.
  simpl. rewrite (exact_fields_permuted d d') by done.
  destruct (exact_fields d' _); [|done]. simpl. unfold decode_optional_closure, item.
  by rewrite !(fun k => dget_permuted d d' k Hp Hd).
Qed.

(** Every valid response is accepted, and read as it is, in the representation ABI
    documents: HTTP 200, a JSON content type, and the six fields in any order. *)
Theorem open_position_answer_accepted ct r body :
  OpenPositionLookupResponse_post_init r = Ok r ->
  (forall c, lr_closure r = Some c -> TradeCycleClosure_post_init c = Ok c) ->
  _require_json_content_type ct = Ok tt ->
  body ≡ₚ lookup_body r -> ints_printable (JObj body) = true ->
  decode_open_position_response 200 ct (utf8 (write (JObj body))) = Ok r.
Proof.
  intros Hr Hc Hct Hb Hi. unfold decode_open_position_response. rewrite Hct. cbn [mbind result_bind].
  assert (NoDup (dkeys (lookup_body r))) as Hn by (apply (bool_decide_unpack _); reflexivity).
  assert (NoDup (dkeys body)) as Hnb by (unfold dkeys; by rewrite Hb).
  unfold _load_strict_json. rewrite load_strict_json_write.
  - simpl. unfold _decode_success. rewrite (success_fields_permuted body _ Hb Hnb).
    rewrite success_fields_body by done. simpl. by rewrite Hr.
  - unfold printable_in. rewrite Hi, andb_true_r. simpl. rewrite bool_decide_true by done. simpl.
    rewrite (forallb_perm _ _ _ Hb). destruct r as [o f p [c|] l e]; simpl.
    + unfold closure_body. destruct f, p, l, e; simpl; by destruct (cl_order_link_id c), (cl_parent_order_link_id c).
    + by destruct f, p, l, e.
Qed.

(** ** Examples *)

Lemma open_position_answer_accepted_witness :
  decode_open_position_response 200 json_utf8
    (utf8 (write (JObj (rev (lookup_body sample_open_response))))) = Ok sample_open_response.
Proof.
  apply (open_position_answer_accepted json_utf8 sample_open_response);
    [reflexivity|by intros c|reflexivity|by rewrite reverse_Permutation || apply Permutation_sym, Permutation_rev|reflexivity].
Defined.

Lemma open_position_answer_is_typed_witness :
  exists fields, OpenPositionLookupResponse_post_init fields = Ok sample_open_response.
Proof.
  destruct (decode_open_position_response 200 json_utf8
    (utf8 (write (JObj (lookup_body sample_open_response))))) as [r|e] eqn:Hd;
    [|vm_compute in Hd; discriminate Hd].
  destruct (proj2 (open_position_answer_is_typed 200 json_utf8
    (utf8 (write (JObj (lookup_body sample_open_response))))) r Hd) as [_ Hf].
  vm_compute in Hd. injection Hd as <-. exact Hf.
Defined.

(** A rejection with HTTP 400 is not read as a public error, whatever its body. *)
Example bad_request_is_undocumented :
  decode_open_position_response 400 json_utf8
    (utf8 (write (JObj [("error", JObj [("code", JStr "malformed_json");
                                        ("message", JStr "no")])])))
  = raise OpenPositionLookupProtocolError "undocumented ABI HTTP status: ".
Proof. vm_compute. reflexivity. Qed.
