(* ===== verification/EntryPackageCodec.v ===== *)
(** The codec of ABI's entry-package contract (runtime/abi/entry_package_codec.py): the request
    body, the acknowledgements and the public errors. An acknowledgement is accepted only when
    it names the instance and the cycle of the request. *)
From S2P Require Import Prelude Errors DecimalText DecimalCanonical Models Json JsonFacts Contracts Wire Scripted StateCodec.

(** * The request *)

Definition encode_wire_desired_entry (value : EntryPackageWireDesiredEntry) : json :=
  JObj [("side", JStr (side_text (we_side value)));
        ("source_plan_bar_open_time_ms", JInt (we_source_plan_bar_open_time_ms value));
        ("planned_entry_price", JStr (we_planned_entry_price value));
        ("initial_stop_price", JStr (we_initial_stop_price value));
        ("initial_take_price", JStr (we_initial_take_price value));
        ("locked_exit_profile", JStr (we_locked_exit_profile value))].

Definition encode_entry_package_request (request : EntryPackageRequest) : json :=
  JObj [("ticker", JStr (er_ticker request));
        ("desired_entry", encode_optional encode_wire_desired_entry (er_desired_entry request));
        ("risk_multiplier", JStr (er_risk_multiplier request))].

(** * The answers *)

Definition APPLIED_REQUIRED_FIELDS : list string :=
  ["strategy_instance_id"; "trade_cycle_id"; "status"; "applied_desired_entry";
   "calculated_quantity"].
Definition APPLIED_ENTRY_ORDER_FIELDS : list string :=
  ["trigger_price"; "stop_loss"; "take_profit"; "quantity"].
Definition APPLIED_ENTRY_ORDER_ID_FIELDS : list string := ["order_link_id"; "order_id"].
Definition APPLIED_FIELDS : list string :=
  APPLIED_REQUIRED_FIELDS ++ APPLIED_ENTRY_ORDER_FIELDS ++ APPLIED_ENTRY_ORDER_ID_FIELDS.
Definition ABSENT_FIELDS : list string := ["strategy_instance_id"; "trade_cycle_id"; "status"].
Definition DECLINED_FIELDS : list string :=
  ["strategy_instance_id"; "trade_cycle_id"; "status"; "decline_reason"; "decline_message"].
Definition WIRE_DESIRED_ENTRY_FIELDS : list string :=
  ["side"; "source_plan_bar_open_time_ms"; "planned_entry_price"; "initial_stop_price";
   "initial_take_price"; "locked_exit_profile"].

Definition PUBLIC_ERROR_CODES : list (Z * string) :=
  [(400, "malformed_json"); (415, "unsupported_media_type"); (422, "validation_failed");
   (500, "internal_error"); (503, "execution_not_ready")].

Definition public_error_code (status_code : Z) : option string :=
  snd <$> List.find (fun p => p.1 =? status_code) PUBLIC_ERROR_CODES.

Definition _load_strict_json := load_strict_json AbiEntryPackageProtocolError "ABI".
Definition _require_json_content_type :=
  require_json_content_type AbiEntryPackageProtocolError "ABI".

Definition _require_applied_fields (body : dict json) : result unit :=
  require (forallb (fun k => bool_decide (k ∈ dkeys body)) APPLIED_REQUIRED_FIELDS
           && forallb (fun k => bool_decide (k ∈ APPLIED_FIELDS)) (dkeys body))
    ValueError "applied response fields differ; missing, unknown".

(** [_optional_string(body, name)]: absent or [null] is [None]. *)
Definition _optional_string (body : dict json) (name : string) : result (option string) :=
  optional_string_value (item_or_none body name) name.

Definition decode_wire_desired_entry (payload : json) : result EntryPackageWireDesiredEntry :=
  body ← closed_object payload WIRE_DESIRED_ENTRY_FIELDS "applied_desired_entry";
  side_ ← item body "side"; side_ ← side_value side_;
  source ← item body "source_plan_bar_open_time_ms";
  source ← int_value source "source_plan_bar_open_time_ms";
  planned ← item body "planned_entry_price"; planned ← string_value planned "planned_entry_price";
  stop ← item body "initial_stop_price"; stop ← string_value stop "initial_stop_price";
  take ← item body "initial_take_price"; take ← string_value take "initial_take_price";
  locked ← item body "locked_exit_profile"; locked ← string_value locked "locked_exit_profile";
  EntryPackageWireDesiredEntry_post_init
    {| we_side := side_; we_source_plan_bar_open_time_ms := source;
       we_planned_entry_price := planned; we_initial_stop_price := stop;
       we_initial_take_price := take; we_locked_exit_profile := locked |}.

(** The identity fields of an acknowledgement. *)
Definition identity_fields (body : dict json) : result (string * string) :=
  id ← item body "strategy_instance_id"; id ← non_empty_string_value id "strategy_instance_id";
  cycle ← item body "trade_cycle_id"; cycle ← non_empty_string_value cycle "trade_cycle_id";
  Ok (id, cycle).

Definition decode_applied (body : dict json) : result EntryPackageApplied :=
  _ ← _require_applied_fields body;
  '(id, cycle) ← identity_fields body;
  entry ← item body "applied_desired_entry"; entry ← decode_wire_desired_entry entry;
  calculated ← item body "calculated_quantity";
  calculated ← string_value calculated "calculated_quantity";
  trigger ← _optional_string body "trigger_price";
  stop ← _optional_string body "stop_loss";
  take ← _optional_string body "take_profit";
  quantity ← _optional_string body "quantity";
  link ← _optional_string body "order_link_id";
  order ← _optional_string body "order_id";
  EntryPackageApplied_post_init
    {| ea_strategy_instance_id := id; ea_trade_cycle_id := cycle;
       ea_applied_desired_entry := entry; ea_calculated_quantity := calculated;
       ea_trigger_price := trigger; ea_stop_loss := stop; ea_take_profit := take;
       ea_quantity := quantity; ea_order_link_id := link; ea_order_id := order |}.

Definition decode_absent (body : dict json) : result EntryPackageAbsent :=
  _ ← require_exact_fields body ABSENT_FIELDS "absent response";
  '(id, cycle) ← identity_fields body;
  EntryPackageAbsent_post_init {| eb_strategy_instance_id := id; eb_trade_cycle_id := cycle |}.

Definition decode_declined (body : dict json) : result EntryPackageDeclined :=
  _ ← require_exact_fields body DECLINED_FIELDS "declined response";
  '(id, cycle) ← identity_fields body;
  reason ← item body "decline_reason"; reason ← string_value reason "decline_reason";
  message ← item body "decline_message"; message ← string_value message "decline_message";
  EntryPackageDeclined_post_init
    {| ec_strategy_instance_id := id; ec_trade_cycle_id := cycle;
       ec_decline_reason := reason; ec_decline_message := message |}.

(** The acknowledgement in a success body. *)
Definition acknowledgement (payload : json) (request : EntryPackageRequest) :
    result EntryPackageResult :=
  body ← json_object payload "success response";
  let status := item_or_none body "status" in
  if decide (status = JStr "entry_package_applied") then
    a ← decode_applied body; Ok (EpApplied a)
  else if decide (status = JStr "entry_package_absent") then
    a ← decode_absent body; Ok (EpAbsent a)
  else if decide (status = JStr "entry_package_declined") then
    _ ← require (is_some (er_desired_entry request)) ValueError
      "entry_package_declined answers only a present desired entry";
    d ← decode_declined body; Ok (EpDeclined d)
  else raise ValueError "success status is not an approved literal".

(** Whose entry package an acknowledgement is about. *)
Definition acknowledged_identity (r : EntryPackageResult) : option (string * string) :=
  match r with
  | EpApplied a => Some (ea_strategy_instance_id a, ea_trade_cycle_id a)
  | EpAbsent a => Some (eb_strategy_instance_id a, eb_trade_cycle_id a)
  | EpDeclined d => Some (ec_strategy_instance_id d, ec_trade_cycle_id d)
  | _ => None
  end.

Definition _decode_success (payload : json) (request : EntryPackageRequest) :
    result EntryPackageResult :=
  answer ← except_decode_failure AbiEntryPackageProtocolError "invalid ABI success response: "
    (acknowledgement payload request);
  let identity := default (EmptyString, EmptyString) (acknowledged_identity answer) in
  _ ← require (bool_decide (identity.1 = er_strategy_instance_id request))
    AbiEntryPackageProtocolError "ABI success strategy_instance_id does not match request";
  _ ← require (bool_decide (identity.2 = er_trade_cycle_id request))
    AbiEntryPackageProtocolError "ABI success trade_cycle_id does not match request";
  Ok answer.

Fixpoint decode_details (items : list json) : result (list EntryPackageValidationDetail) :=
  match items with
  | [] => Ok []
  | raw_detail :: items =>
      detail ← closed_object raw_detail VALIDATION_DETAIL_FIELDS "error.details";
      path ← item detail "path"; path ← string_value path "error.details.path";
      message ← item detail "message"; message ← string_value message "error.details.message";
      details ← decode_details items;
      Ok ({| vd_path := path; vd_message := message |} :: details)
  end.

Definition _decode_validation_details (payload : json) :
    result (list EntryPackageValidationDetail) :=
  match payload with
  | JList (x :: items) => decode_details (x :: items)
  | _ => raise ValueError "error.details must be a non-empty array"
  end.

Definition _decode_public_error (expected_code : string) (payload : json) :
    result EntryPackageResult :=
  except_decode_failure AbiEntryPackageProtocolError "invalid ABI public error response: "
    (envelope ← closed_object payload ERROR_ENVELOPE_FIELDS "error envelope";
     error ← item envelope "error";
     error ← json_object error "error object";
     _ ← require_exact_fields error
       (if decide (expected_code = "validation_failed") then ERROR_FIELDS_WITH_DETAILS
        else ERROR_FIELDS_WITHOUT_DETAILS) "error object";
     code ← item error "code";
     _ ← require (bool_decide (code = JStr expected_code)) ValueError "HTTP requires error code ";
     message ← item error "message";
     message ← non_empty_string_value message "error.message";
     if decide (expected_code = "malformed_json") then Ok (EpMalformedJson message)
     else if decide (expected_code = "unsupported_media_type") then
       Ok (EpUnsupportedMediaType message)
     else if decide (expected_code = "execution_not_ready") then Ok (EpExecutionNotReady message)
     else if decide (expected_code = "internal_error") then Ok (EpInternalError message)
     else
       details ← item error "details";
       details ← _decode_validation_details details;
       Ok (EpValidationFailed message details)).

Definition decode_entry_package_response (status_code : Z) (content_type : option string)
    (content : list ascii) (request : EntryPackageRequest) : result EntryPackageResult :=
  _ ← _require_json_content_type content_type;
  payload ← _load_strict_json content;
  if status_code =? 200 then _decode_success payload request
  else
    match public_error_code status_code with
    | Some expected_code => _decode_public_error expected_code payload
    | None => raise AbiEntryPackageProtocolError "undocumented ABI HTTP status: "
    end.

(** * What the decoder raises *)

Lemma require_decimal_fails v n : raises payload_failure (require_exact_decimal_text v n).
Proof. unfold require_exact_decimal_text. fails. Qed.
Lemma require_positive_decimal_fails v n :
  raises payload_failure (require_positive_exact_decimal_text v n).
Proof. unfold require_positive_exact_decimal_text. fails. Qed.
Lemma if_present_fails {A} (o : option A) check :
  (forall a, raises payload_failure (check a)) -> raises payload_failure (if_present o check).
Proof. destruct o; simpl; auto. Qed.
#[export] Hint Resolve require_decimal_fails require_positive_decimal_fails if_present_fails : raises.

Lemma decode_wire_desired_entry_fails j : raises payload_failure (decode_wire_desired_entry j).
Proof. unfold decode_wire_desired_entry, EntryPackageWireDesiredEntry_post_init. fails. Qed.
Lemma identity_fields_fails body : raises payload_failure (identity_fields body).
Proof. unfold identity_fields. fails. Qed.
Lemma optional_item_fails body n : raises payload_failure (_optional_string body n).
Proof. apply optional_string_value_fails. Qed.
#[export] Hint Resolve decode_wire_desired_entry_fails identity_fields_fails optional_item_fails :
  raises.

Lemma decode_applied_fails body : raises payload_failure (decode_applied body).
Proof. unfold decode_applied, _require_applied_fields, EntryPackageApplied_post_init. fails. Qed.
Lemma decode_absent_fails body : raises payload_failure (decode_absent body).
Proof. unfold decode_absent, EntryPackageAbsent_post_init. fails. Qed.
Lemma decode_declined_fails body : raises payload_failure (decode_declined body).
Proof. unfold decode_declined, EntryPackageDeclined_post_init. fails. Qed.
Hint Resolve decode_applied_fails decode_absent_fails decode_declined_fails : raises.

Lemma acknowledgement_fails payload request : raises payload_failure (acknowledgement payload request).
Proof. unfold acknowledgement. fails. Qed.

Lemma decode_details_fails items : raises payload_failure (decode_details items).
Proof. induction items as [|d items IH]; simpl; [done|]. fails. Qed.
Hint Resolve decode_details_fails : raises.

Lemma validation_details_fails j : raises payload_failure (_decode_validation_details j).
Proof. unfold _decode_validation_details. fails. Qed.
Hint Resolve validation_details_fails : raises.

Lemma public_error_raises code payload :
  raises (of_class AbiEntryPackageProtocolError) (_decode_public_error code payload).
Proof. apply except_decode_failure_raises. fails. Qed.

Lemma success_raises payload request :
  raises (of_class AbiEntryPackageProtocolError) (_decode_success payload request).
Proof.
  unfold _decode_success.
  apply raises_bind; [apply except_decode_failure_raises, acknowledgement_fails|]. intros a _. fails.
Qed.

(** The errors of the port, or what the model cannot represent. *)
Definition package_error (e : exn) : Prop :=
  exn_cls e = AbiEntryPackageProtocolError \/ e = outside_model.

Lemma protocol_package_error {A} (r : result A) :
  raises (of_class AbiEntryPackageProtocolError) r -> raises package_error r.
Proof. intros Hr. eapply raises_weaken; [exact Hr|]. by left. Qed.

Lemma load_package_error content : raises package_error (_load_strict_json content).
Proof. apply load_strict_json_raises. Qed.

Hint Resolve load_package_error : raises.
Hint Extern 1 (raises package_error _) => apply protocol_package_error : raises.
Hint Resolve require_json_content_type_raises success_raises public_error_raises : raises.
Hint Extern 1 (package_error _) => by left : raises.

(** An acknowledgement satisfies the contract of its class. *)
Definition valid_answer (r : EntryPackageResult) : Prop :=
  match r with
  | EpApplied a => EntryPackageApplied_post_init a = Ok a /\
      EntryPackageWireDesiredEntry_post_init (ea_applied_desired_entry a) =
        Ok (ea_applied_desired_entry a)
  | EpAbsent a => EntryPackageAbsent_post_init a = Ok a
  | EpDeclined d => EntryPackageDeclined_post_init d = Ok d
  | _ => True
  end.

Lemma wire_entry_valid j e : decode_wire_desired_entry j = Ok e ->
  EntryPackageWireDesiredEntry_post_init e = Ok e.
Proof.
  unfold decode_wire_desired_entry. intros H. ok_inv H. pose proof H as H'.
  unfold EntryPackageWireDesiredEntry_post_init in H'. by ok_inv H'.
Qed.

Lemma acknowledgement_valid payload request r :
  acknowledgement payload request = Ok r -> valid_answer r /\ acknowledged_identity r <> None /\
  (forall d, r = EpDeclined d -> er_desired_entry request <> None).
Proof.
  unfold acknowledgement. intros H. ok_inv H. repeat case_decide; ok_inv H; try done.
  - unfold decode_applied in Hok0. ok_inv Hok0. destruct a2 as [id cycle]. ok_inv Hok0.
    apply wire_entry_valid in Hok4. pose proof Hok0 as Hv.
    unfold EntryPackageApplied_post_init in Hv. by ok_inv Hv.
  - unfold decode_absent in Hok0. ok_inv Hok0. destruct a2 as [id cycle].
    pose proof Hok0 as Hv. unfold EntryPackageAbsent_post_init in Hv. by ok_inv Hv.
  - unfold decode_declined in Hok1. ok_inv Hok1. destruct a3 as [id cycle]. ok_inv Hok1.
    pose proof Hok1 as Hv. unfold EntryPackageDeclined_post_init in Hv. ok_inv Hv.
    split_and!; try done. intros d _ Hn. apply require_Ok in Hok0. by rewrite Hn in Hok0.
Qed.

Lemma entry_package_raises status ct content request :
  raises package_error (decode_entry_package_response status ct content request).
Proof. unfold decode_entry_package_response, _require_json_content_type. fails. Qed.

(** C18. An entry-package answer either decodes or raises the protocol error of the port. A
    decoded acknowledgement was sent with HTTP 200, satisfies its contract and names the
    instance and the cycle of the request; a decoded public error is the one of its status. *)
Theorem entry_package_answer_matches_request status ct content request :
  raises package_error (decode_entry_package_response status ct content request) /\
  forall r, decode_entry_package_response status ct content request = Ok r ->
    (status = 200 /\ valid_answer r /\
     acknowledged_identity r =
       Some (er_strategy_instance_id request, er_trade_cycle_id request) /\
     (forall d, r = EpDeclined d -> er_desired_entry request <> None)) \/
    (status <> 200 /\ entry_package_error_code r = public_error_code status /\
     entry_package_error_code r <> None).
Proof.
  split; [apply entry_package_raises|]. unfold decode_entry_package_response. intros r H. ok_inv H. destruct (Z.eqb_spec status 200) as [->|Hs].
  - left. split; [done|]. unfold _decode_success in H. ok_inv H.
    apply except_decode_failure_Ok, acknowledgement_valid in Hok1 as (Hv & Hi & Hd).
    apply require_Ok in Hok2, Hok3. rewrite bool_decide_eq_true in Hok2, Hok3.
    destruct (acknowledged_identity r) as [[id cycle]|]; [|done]. simpl in *. by subst.
  - right. split; [done|]. unfold public_error_code in *. simpl in *.
    repeat (case_match; [simplify_eq/=|]); try done.
    all: apply except_decode_failure_Ok in H; ok_inv H; by split.
Qed.

(** * The documented representation is accepted *)

Definition acknowledgement_body (r : EntryPackageResult) : dict json :=
  match r with
  | EpApplied a =>
      [("strategy_instance_id", JStr (ea_strategy_instance_id a));
       ("trade_cycle_id", JStr (ea_trade_cycle_id a));
       ("status", JStr "entry_package_applied");
       ("applied_desired_entry", encode_wire_desired_entry (ea_applied_desired_entry a));
       ("calculated_quantity", JStr (ea_calculated_quantity a));
       ("trigger_price", encode_optional JStr (ea_trigger_price a));
       ("stop_loss", encode_optional JStr (ea_stop_loss a));
       ("take_profit", encode_optional JStr (ea_take_profit a));
       ("quantity", encode_optional JStr (ea_quantity a));
       ("order_link_id", encode_optional JStr (ea_order_link_id a));
       ("order_id", encode_optional JStr (ea_order_id a))]
  | EpAbsent a =>
      [("strategy_instance_id", JStr (eb_strategy_instance_id a));
       ("trade_cycle_id", JStr (eb_trade_cycle_id a));
       ("status", JStr "entry_package_absent")]
  | EpDeclined d =>
      [("strategy_instance_id", JStr (ec_strategy_instance_id d));
       ("trade_cycle_id", JStr (ec_trade_cycle_id d));
       ("status", JStr "entry_package_declined");
       ("decline_reason", JStr (ec_decline_reason d));
       ("decline_message", JStr (ec_decline_message d))]
  | _ => []
  end.

Lemma side_value_text s : side_value (JStr (side_text s)) = Ok s.
Proof. by destruct s. Qed.

(** The entry that was sent is what the echo of it is read as. *)
Lemma decode_encoded_wire_entry e : EntryPackageWireDesiredEntry_post_init e = Ok e ->
  decode_wire_desired_entry (encode_wire_desired_entry e) = Ok e.
Proof. intros He. destruct e as [[] src planned stop take locked]; exact He. Qed.

Lemma non_empty_value s n : require_non_empty_string s n = Ok tt ->
  forall n', non_empty_string_value (JStr s) n' = Ok s.
Proof. intros H%require_Ok n'. unfold non_empty_string_value. simpl. by rewrite H. Qed.

Lemma identity_fields_read body id cycle :
  dget "strategy_instance_id" body = Some (JStr id) -> dget "trade_cycle_id" body = Some (JStr cycle) ->
  require_non_empty_string id "strategy_instance_id" = Ok tt ->
  require_non_empty_string cycle "trade_cycle_id" = Ok tt ->
  identity_fields body = Ok (id, cycle).
Proof.
  intros Hi Hc Hid Hcy. unfold identity_fields, item. rewrite Hi, Hc.
  cbn [mbind result_bind]. rewrite (non_empty_value _ _ Hid). cbn [mbind result_bind].
  by rewrite (non_empty_value _ _ Hcy).
Qed.

Lemma acknowledgement_permuted d d' request : d ≡ₚ d' -> NoDup (dkeys d) ->
  acknowledgement (JObj d) request = acknowledgement (JObj d') request.
Proof.
  intros Hp Hd. assert (dkeys d ≡ₚ dkeys d') as Hk by (unfold dkeys; by rewrite Hp).
  assert (_require_applied_fields d = _require_applied_fields d') as Ha.
  { unfold _require_applied_fields. rewrite (forallb_perm _ (dkeys d) _ Hk). f_equal. f_equal.
    induction APPLIED_REQUIRED_FIELDS as [|f fs IH]; [done|]. simpl. rewrite IH. f_equal.
    apply bool_decide_ext. by rewrite Hk. }
  assert (forall fs n, require_exact_fields d fs n = require_exact_fields d' fs n) as He.
  { intros fs n. unfold require_exact_fields. by rewrite (exact_fields_permuted d d'). }
  unfold acknowledgement, decode_applied, decode_absent, decode_declined, identity_fields,
    _optional_string, item_or_none, item. simpl.
  rewrite Ha, !He, !(fun k => dget_permuted d d' k Hp Hd). done.
Qed.

Lemma decode_applied_body a :
  EntryPackageApplied_post_init a = Ok a ->
  EntryPackageWireDesiredEntry_post_init (ea_applied_desired_entry a) =
    Ok (ea_applied_desired_entry a) ->
  decode_applied (acknowledgement_body (EpApplied a)) = Ok a.
Proof.
  intros Ha He. pose proof Ha as Hids. unfold EntryPackageApplied_post_init in Hids.
  apply result_bind_Ok in Hids as ([] & Hid & Hids).
  apply result_bind_Ok in Hids as ([] & Hcy & _). unfold decode_applied, _optional_string.
  rewrite (identity_fields_read _ (ea_strategy_instance_id a) (ea_trade_cycle_id a)) by done.
  pose proof (decode_encoded_wire_entry _ He) as Hd. revert Hd.
  unfold acknowledgement_body, item_or_none, item.
  generalize (encode_wire_desired_entry (ea_applied_desired_entry a)). intros j Hd.
  cbn [dget decide fst snd]. simpl. rewrite Hd. simpl. rewrite !optional_string_encoded.
  destruct a. exact Ha.
Qed.

Lemma acknowledgement_read r request :
  valid_answer r -> acknowledged_identity r <> None ->
  (forall d, r = EpDeclined d -> er_desired_entry request <> None) ->
  acknowledgement (JObj (acknowledgement_body r)) request = Ok r.
Proof.
  intros Hv Hi Hd. destruct r as [a|a|d| | | | |]; try done.
  - destruct Hv as [Ha He]. pose proof (decode_applied_body a Ha He) as Hb.
    unfold acknowledgement. cbn [json_object mbind result_bind]. simpl item_or_none.
    rewrite decide_True by done. by rewrite Hb.
  - pose proof Hv as Hids. apply result_bind_Ok in Hids as ([] & Hid & Hids).
    apply result_bind_Ok in Hids as ([] & Hcy & _). unfold acknowledgement. simpl. unfold decode_absent.
    rewrite (identity_fields_read _ (eb_strategy_instance_id a) (eb_trade_cycle_id a)) by done.
    destruct a. simpl in *. unfold mbind, result_bind. simpl. by rewrite Hv.
  - pose proof Hv as Hids. apply result_bind_Ok in Hids as ([] & Hid & Hids).
    apply result_bind_Ok in Hids as ([] & Hcy & _). unfold acknowledgement. simpl. unfold decode_declined.
    rewrite (identity_fields_read _ (ec_strategy_instance_id d) (ec_trade_cycle_id d)) by done.
    specialize (Hd d eq_refl). destruct (er_desired_entry request); [|done].
    destruct d. simpl in *. by rewrite Hv.
Qed.

(** Every valid acknowledgement of a request is accepted, and read as it is, in the
    representation ABI documents, its fields in any order. *)
Theorem acknowledgement_accepted ct request r body :
  valid_answer r ->
  acknowledged_identity r =
    Some (er_strategy_instance_id request, er_trade_cycle_id request) ->
  (forall d, r = EpDeclined d -> er_desired_entry request <> None) ->
  _require_json_content_type ct = Ok tt ->
  body ≡ₚ acknowledgement_body r -> ints_printable (JObj body) = true ->
  decode_entry_package_response 200 ct (utf8 (write (JObj body))) request = Ok r.
Proof.
  intros Hv Hid Hd Hct Hb Hi. unfold decode_entry_package_response. rewrite Hct.
  cbn [mbind result_bind].
  assert (NoDup (dkeys (acknowledgement_body r))) as Hn
    by (destruct r; apply (bool_decide_unpack _); reflexivity).
  assert (NoDup (dkeys body)) as Hnb by (unfold dkeys; by rewrite Hb).
  unfold _load_strict_json. rewrite load_strict_json_write.
  - cbn [mbind result_bind]. simpl. unfold _decode_success.
    rewrite (acknowledgement_permuted body _ request Hb Hnb), acknowledgement_read;
      [|done|by rewrite Hid|done].
    simpl. rewrite Hid. simpl. by rewrite !bool_decide_true.
  - unfold printable_in. rewrite Hi, andb_true_r. simpl. rewrite bool_decide_true by done. simpl.
    rewrite (forallb_perm _ _ _ Hb). destruct r as [a|a|d| | | | |]; try done. simpl.
    by destruct (ea_trigger_price a), (ea_stop_loss a), (ea_take_profit a), (ea_quantity a),
      (ea_order_link_id a), (ea_order_id a).
Qed.

(** ** Examples *)

Definition sample_request : EntryPackageRequest :=
  {| er_strategy_instance_id := "i1"; er_trade_cycle_id := "c1"; er_ticker := "BTCUSDT";
     er_desired_entry := Some sample_wire_entry; er_risk_multiplier := "1" |}.

Lemma acknowledgement_accepted_witness :
  decode_entry_package_response 200 json_utf8
    (utf8 (write (JObj (rev (acknowledgement_body (sample_applied "c1")))))) sample_request
  = Ok (sample_applied "c1").
Proof.
  apply (acknowledgement_accepted json_utf8 sample_request (sample_applied "c1"));
    [by split|reflexivity|done|reflexivity|apply Permutation_sym, Permutation_rev|reflexivity].
Defined.

(** The same bytes, asked for another cycle. *)
Example acknowledgement_of_another_cycle_is_refused :
  decode_entry_package_response 200 json_utf8
    (utf8 (write (JObj (acknowledgement_body (sample_applied "c2"))))) sample_request
  = raise AbiEntryPackageProtocolError "ABI success trade_cycle_id does not match request".
Proof. vm_compute. reflexivity. Qed.

Lemma entry_package_answer_matches_request_witness :
  acknowledged_identity (sample_absent "c1") = Some ("i1", "c1").
Proof.
  destruct (decode_entry_package_response 200 json_utf8
    (utf8 (write (JObj (acknowledgement_body (sample_absent "c1"))))) sample_request) as [r|e] eqn:Hd;
    [|vm_compute in Hd; discriminate Hd].
  destruct (proj2 (entry_package_answer_matches_request 200 json_utf8
    (utf8 (write (JObj (acknowledgement_body (sample_absent "c1"))))) sample_request) r Hd)
    as [(_ & _ & Hi & _)|[Hn _]]; [|by destruct Hn].
  vm_compute in Hd. injection Hd as <-. exact Hi.
Defined.
