(* ===== verification/RecoveryCodec.v ===== *)
(** The codec of ABI's entry-cycle recovery-state query
    (infrastructure/abi/entry_cycle_recovery_codec.py). A recovery state is only what a
    successful answer names: it is never inferred from an error or from missing fields, and the
    two terminal answers are kept apart. *)
From S2P Require Import Prelude Errors DecimalText DecimalCanonical Models Json JsonFacts Contracts Wire Scripted StateCodec OpenPositionCodec EntryPackageCodec.

(** * The fields of the contract *)

Definition RECOVERY_SUCCESS_FIELDS : list string :=
  ["recovery_state"; "applied_entry_package"; "first_fill_at_ms"; "average_entry_price";
   "entry_order_link_id"; "entry_order_id"].
Definition APPLIED_ENTRY_PACKAGE_FIELDS : list string :=
  ["applied_desired_entry"; "calculated_quantity"].
Definition UNKNOWN_BINDING_CODE := "unknown_trade_cycle_binding".

Notation RECOVERY_ERROR := AbiEntryCycleRecoveryProtocolError.

Definition _load_strict_json := load_strict_json RECOVERY_ERROR "ABI entry-cycle recovery-state".
Definition _require_json_content_type :=
  require_json_content_type RECOVERY_ERROR "ABI entry-cycle recovery-state".

(** * Success bodies *)

Definition _require_none (value : json) (name : string) : result unit :=
  require (bool_decide (value = JNull)) ValueError (name +:+ " must be null for this recovery_state").

Definition _decode_applied_entry_package (payload : json) :
    result RecoveryStateAppliedEntryPackage :=
  body ← closed_object payload APPLIED_ENTRY_PACKAGE_FIELDS "applied_entry_package";
  entry ← item body "applied_desired_entry"; entry ← decode_wire_desired_entry entry;
  quantity ← item body "calculated_quantity";
  quantity ← string_value quantity "calculated_quantity";
  RecoveryStateAppliedEntryPackage_post_init
    {| ra_applied_desired_entry := entry; ra_calculated_quantity := quantity |}.

(** The state a success body names, given its fields. *)
Definition recovery_state_of (state applied first_fill average link order : json) :
    result RecoveryStateResponse :=
  let no_fill_facts :=
    _ ← _require_none first_fill "first_fill_at_ms";
    _ ← _require_none average "average_entry_price";
    _ ← _require_none link "entry_order_link_id";
    _require_none order "entry_order_id" in
  if decide (state = JStr "entry_order_live") then
    _ ← no_fill_facts;
    package ← _decode_applied_entry_package applied;
    Ok (EntryOrderLive package)
  else if decide (state = JStr "entry_order_not_found") then
    _ ← _require_none applied "applied_entry_package";
    _ ← no_fill_facts;
    Ok EntryOrderNotFound
  else if decide (state = JStr "position_open") then
    package ← _decode_applied_entry_package applied;
    first_fill ← int_value first_fill "first_fill_at_ms";
    average ← string_value average "average_entry_price";
    link ← string_value link "entry_order_link_id";
    order ← optional_string_value order "entry_order_id";
    p ← PositionOpenRecoveryState_post_init
      {| po_applied_entry_package := package; po_first_fill_at_ms := first_fill;
         po_average_entry_price := average; po_entry_order_link_id := link;
         po_entry_order_id := order |};
    Ok (RecoveryPositionOpen p)
  else
    match state with
    | JStr text =>
        if bool_decide (text = "terminal_without_fill") || bool_decide (text = "terminal_after_fill")
        then
          _ ← _require_none applied "applied_entry_package";
          _ ← no_fill_facts;
          if decide (text = "terminal_without_fill") then Ok TerminalWithoutFill
          else Ok TerminalAfterFill
        else raise ValueError "undocumented recovery_state: "
    | JList _ | JObj _ => raise TypeError "unhashable type"
    | _ => raise ValueError "undocumented recovery_state: "
    end.

Definition recovery_state (payload : json) : result RecoveryStateResponse :=
  body ← closed_object payload RECOVERY_SUCCESS_FIELDS "success response";
  state ← item body "recovery_state";
  applied ← item body "applied_entry_package";
  first_fill ← item body "first_fill_at_ms";
  average ← item body "average_entry_price";
  link ← item body "entry_order_link_id";
  order ← item body "entry_order_id";
  recovery_state_of state applied first_fill average link order.

Definition _decode_success (payload : json) : result RecoveryStateResponse :=
  except_decode_failure RECOVERY_ERROR "invalid ABI recovery-state success response: "
    (recovery_state payload).

Definition _decode_error_envelope (payload : json) (expected_code : string) : result string :=
  except_decode_failure RECOVERY_ERROR "invalid ABI entry-cycle recovery-state error envelope: "
    (envelope ← closed_object payload ERROR_ENVELOPE_FIELDS "error envelope";
     error ← item envelope "error";
     error ← closed_object error ERROR_FIELDS_WITHOUT_DETAILS "error object";
     code ← item error "code"; code ← non_empty_string_value code "error.code";
     _ ← require (bool_decide (code = expected_code)) ValueError "expected error code ";
     message ← item error "message";
     non_empty_string_value message "error.message").

Definition decode_recovery_state_response (status_code : Z) (content_type : option string)
    (content : list ascii) : result RecoveryStateResponse :=
  _ ← _require_json_content_type content_type;
  payload ← _load_strict_json content;
  if status_code =? 200 then _decode_success payload
  else if status_code =? 422 then
    message ← _decode_error_envelope payload UNKNOWN_BINDING_CODE;
    raise AbiEntryCycleRecoveryUnknownTradeCycleBinding message
  else if status_code =? 503 then
    message ← _decode_error_envelope payload "execution_not_ready";
    raise AbiEntryCycleRecoveryExecutionNotReady message
  else if status_code =? 500 then
    _ ← _decode_error_envelope payload INTERNAL_ERROR_CODE;
    raise AbiEntryCycleRecoveryUnavailable "ABI entry-cycle recovery-state unavailable: HTTP 500"
  else raise RECOVERY_ERROR "undocumented ABI HTTP status: ".

(** * What the decoder raises *)

(** The errors of the query, or what the model cannot represent. *)
Definition recovery_query_error (e : exn) : Prop :=
  is_abi_entry_cycle_recovery_client_error (exn_cls e) = true \/ e = outside_model.

Lemma require_none_fails j n : raises payload_failure (_require_none j n).
Proof. unfold _require_none. fails. Qed.
Lemma applied_entry_package_fails j : raises payload_failure (_decode_applied_entry_package j).
Proof. unfold _decode_applied_entry_package, RecoveryStateAppliedEntryPackage_post_init. fails. Qed.
Lemma position_open_fails p : raises payload_failure (PositionOpenRecoveryState_post_init p).
Proof. unfold PositionOpenRecoveryState_post_init. fails. Qed.
Hint Resolve require_none_fails applied_entry_package_fails position_open_fails : raises.

Lemma recovery_state_fails payload : raises payload_failure (recovery_state payload).
Proof. unfold recovery_state, recovery_state_of. fails. Qed.

Lemma protocol_query_error {A} (r : result A) :
  raises (of_class RECOVERY_ERROR) r -> raises recovery_query_error r.
Proof. intros Hr. eapply raises_weaken; [exact Hr|]. intros e He. left. by rewrite He. Qed.

Lemma success_query_error payload : raises recovery_query_error (_decode_success payload).
Proof. apply protocol_query_error, except_decode_failure_raises, recovery_state_fails. Qed.

Lemma envelope_query_error payload code :
  raises recovery_query_error (_decode_error_envelope payload code).
Proof. apply protocol_query_error, except_decode_failure_raises. fails. Qed.

Lemma load_query_error content : raises recovery_query_error (_load_strict_json content).
Proof.
  eapply raises_weaken; [apply load_strict_json_raises|]. intros e [He|He]; [left; by rewrite He|by right].
Qed.

Lemma content_type_query_error ct : raises recovery_query_error (_require_json_content_type ct).
Proof. apply protocol_query_error, require_json_content_type_raises. Qed.

Hint Resolve success_query_error envelope_query_error load_query_error content_type_query_error :
  raises.
Hint Extern 1 (recovery_query_error _) => by left : raises.

(** * What a decoded answer says *)

(** The literal an answer names. *)
Definition recovery_literal (r : RecoveryStateResponse) : string :=
  match r with
  | EntryOrderLive _ => "entry_order_live"
  | EntryOrderNotFound => "entry_order_not_found"
  | RecoveryPositionOpen _ => "position_open"
  | TerminalWithoutFill => "terminal_without_fill"
  | TerminalAfterFill => "terminal_after_fill"
  end.

Definition valid_package (p : RecoveryStateAppliedEntryPackage) : Prop :=
  RecoveryStateAppliedEntryPackage_post_init p = Ok p /\
  EntryPackageWireDesiredEntry_post_init (ra_applied_desired_entry p) =
    Ok (ra_applied_desired_entry p).

Definition valid_recovery_state (r : RecoveryStateResponse) : Prop :=
  match r with
  | EntryOrderLive p => valid_package p
  | RecoveryPositionOpen p =>
      valid_package (po_applied_entry_package p) /\ PositionOpenRecoveryState_post_init p = Ok p
  | _ => True
  end.

Lemma applied_entry_package_valid j p : _decode_applied_entry_package j = Ok p -> valid_package p.
Proof.
  unfold _decode_applied_entry_package. intros H. ok_inv H. apply wire_entry_valid in Hok1.
  pose proof H as Hv. unfold RecoveryStateAppliedEntryPackage_post_init in Hv. by ok_inv Hv.
Qed.

Lemma recovery_state_of_valid state applied fill average link order r :
  recovery_state_of state applied fill average link order = Ok r ->
  state = JStr (recovery_literal r) /\ valid_recovery_state r.
Proof.
  unfold recovery_state_of. intros H. repeat case_decide; subst.
  - ok_inv H. split; [done|]. by eapply applied_entry_package_valid.
  - by ok_inv H.
  - ok_inv H. apply applied_entry_package_valid in Hok. split; [done|].
    pose proof Hok4 as Hv. unfold PositionOpenRecoveryState_post_init in Hv. by ok_inv Hv.
  - destruct state; try done. destruct (_ || _) eqn:Hs; [|done]. ok_inv H.
    rewrite orb_true_iff, !bool_decide_eq_true in Hs. by destruct Hs as [-> | ->]; simplify_eq/=.
Qed.

Lemma recovery_raises status ct content :
  raises recovery_query_error (decode_recovery_state_response status ct content).
Proof. unfold decode_recovery_state_response. fails. Qed.

(** An answer to the recovery-state query either decodes or raises an error of the
    query. A decoded state was sent with HTTP 200, is the one the body names - so neither
    terminal state is ever inferred - and satisfies its contract. *)
Theorem recovery_state_is_the_one_named status ct content :
  raises recovery_query_error (decode_recovery_state_response status ct content) /\
  forall r, decode_recovery_state_response status ct content = Ok r ->
    status = 200 /\ valid_recovery_state r /\
    exists body, _load_strict_json content = Ok (JObj body) /\
      dget "recovery_state" body = Some (JStr (recovery_literal r)).
Proof.
  split; [apply recovery_raises|]. unfold decode_recovery_state_response. intros r H. ok_inv H. destruct (Z.eqb_spec status 200) as [->|Hs].
  - split; [done|]. apply except_decode_failure_Ok in H. unfold recovery_state in H. ok_inv H.
    apply recovery_state_of_valid in H as [-> Hv]. split; [done|]. exists a1.
    unfold closed_object in Hok1. ok_inv Hok1. destruct a0; ok_inv Hok9. simplify_eq/=.
    split; [done|]. unfold item in Hok2. by destruct (dget _ _); simplify_eq/=.
  - repeat (case_match; [by ok_inv H|]). by ok_inv H.
Qed.

(** * The documented representation is accepted *)

Definition package_body (p : RecoveryStateAppliedEntryPackage) : json :=
  JObj [("applied_desired_entry", encode_wire_desired_entry (ra_applied_desired_entry p));
        ("calculated_quantity", JStr (ra_calculated_quantity p))].

Definition recovery_body (r : RecoveryStateResponse) : dict json :=
  let body applied fill average link order :=
    [("recovery_state", JStr (recovery_literal r)); ("applied_entry_package", applied);
     ("first_fill_at_ms", fill); ("average_entry_price", average);
     ("entry_order_link_id", link); ("entry_order_id", order)] in
  match r with
  | EntryOrderLive p => body (package_body p) JNull JNull JNull JNull
  | RecoveryPositionOpen p =>
      body (package_body (po_applied_entry_package p)) (JInt (po_first_fill_at_ms p))
        (JStr (po_average_entry_price p)) (JStr (po_entry_order_link_id p))
        (encode_optional JStr (po_entry_order_id p))
  | _ => body JNull JNull JNull JNull JNull
  end.

Lemma decode_package_body p : valid_package p -> _decode_applied_entry_package (package_body p) = Ok p.
Proof.
  intros [Hp He]. apply decode_encoded_wire_entry in He. revert He.
  unfold package_body, _decode_applied_entry_package, closed_object.
  generalize (encode_wire_desired_entry (ra_applied_desired_entry p)). intros j He.
  cbn [json_object mbind result_bind]. simpl. rewrite He. simpl. destruct p. exact Hp.
Qed.

Lemma recovery_state_body r : valid_recovery_state r ->
  recovery_state (JObj (recovery_body r)) = Ok r.
Proof.
  destruct r as [p| |p| |]; try reflexivity.
  - intros Hp. apply decode_package_body in Hp. revert Hp.
    unfold recovery_state, recovery_state_of, closed_object. simpl.
    generalize (package_body p). intros j Hj. simpl. by rewrite Hj.
  - intros [Hp Ho]. apply decode_package_body in Hp. revert Hp.
    unfold recovery_state, recovery_state_of, closed_object. simpl.
    generalize (package_body (po_applied_entry_package p)). intros j Hj. simpl. rewrite Hj. simpl.
    rewrite optional_string_encoded. simpl. destruct p. simpl in *. by rewrite Ho.
Qed.

Lemma recovery_state_permuted d d' : d ≡ₚ d' -> NoDup (dkeys d) ->
  recovery_state (JObj d) = recovery_state (JObj d').
Proof.
  intros Hp Hd. unfold recovery_state, closed_object, require_exact_fields. simpl.
  rewrite (exact_fields_permuted d d') by done. unfold item.
  destruct (exact_fields d' _); [|done]. simpl. by rewrite !(fun k => dget_permuted d d' k Hp Hd).
Qed.

(** Every recovery state is accepted, and read as it is, in the representation ABI
    documents, its fields in any order. *)
Theorem recovery_state_accepted ct r body :
  valid_recovery_state r -> _require_json_content_type ct = Ok tt ->
  body ≡ₚ recovery_body r -> ints_printable (JObj body) = true ->
  decode_recovery_state_response 200 ct (utf8 (write (JObj body))) = Ok r.
Proof.
  intros Hv Hct Hb Hi. unfold decode_recovery_state_response. rewrite Hct.
  cbn [mbind result_bind].
  assert (NoDup (dkeys (recovery_body r))) as Hn
    by (destruct r; apply (bool_decide_unpack _); reflexivity).
  assert (NoDup (dkeys body)) as Hnb by (unfold dkeys; by rewrite Hb).
  unfold _load_strict_json. rewrite load_strict_json_write.
  - simpl. unfold _decode_success.
    by rewrite (recovery_state_permuted body _ Hb Hnb), recovery_state_body.
  - unfold printable_in. rewrite Hi, andb_true_r. simpl. rewrite bool_decide_true by done. simpl.
    rewrite (forallb_perm _ _ _ Hb). destruct r as [p| |p| |]; try done.
    simpl. by destruct (po_entry_order_id p).
Qed.

(** ** Examples *)

Definition sample_position_open : RecoveryStateResponse :=
  RecoveryPositionOpen
    {| po_applied_entry_package :=
         {| ra_applied_desired_entry := sample_wire_entry; ra_calculated_quantity := "2" |};
       po_first_fill_at_ms := 1000000; po_average_entry_price := "100.5";
       po_entry_order_link_id := "l1"; po_entry_order_id := None |}.

Lemma recovery_state_accepted_witness :
  decode_recovery_state_response 200 json_utf8
    (utf8 (write (JObj (rev (recovery_body sample_position_open))))) = Ok sample_position_open.
Proof.
  apply (recovery_state_accepted json_utf8 sample_position_open);
    [by split_and!|reflexivity|apply Permutation_sym, Permutation_rev|reflexivity].
Defined.

Lemma recovery_state_is_the_one_named_witness :
  decode_recovery_state_response 200 json_utf8
    (utf8 (write (JObj (recovery_body TerminalAfterFill)))) = Ok TerminalAfterFill /\
  exists body, dget "recovery_state" body = Some (JStr "terminal_after_fill").
Proof.
  assert (decode_recovery_state_response 200 json_utf8
    (utf8 (write (JObj (recovery_body TerminalAfterFill)))) = Ok TerminalAfterFill) as Hd
    by (vm_compute; reflexivity).
  split; [exact Hd|].
  destruct (proj2 (recovery_state_is_the_one_named 200 json_utf8
    (utf8 (write (JObj (recovery_body TerminalAfterFill))))) _ Hd) as (_ & _ & body & _ & Hb).
  exists body. exact Hb.
Defined.

(** Position facts next to a terminal state are refused. *)
Example terminal_state_with_facts_is_refused :
  decode_recovery_state_response 200 json_utf8
    (utf8 (write (JObj (dset "first_fill_at_ms" (JInt 7) (recovery_body TerminalWithoutFill)))))
  = raise RECOVERY_ERROR "invalid ABI recovery-state success response: ".
Proof. vm_compute. reflexivity. Qed.
