(* ===== verification/PositionManagementCodec.v ===== *)
(** The codec of ABI's position-management contract
    (infrastructure/abi/position_management_codec.py): the answers to the protection, close and
    entry-remainder commands. A confirmation is accepted only when it answers the command that
    was sent. *)
From S2P Require Import Prelude Errors DecimalText DecimalCanonical Models Json JsonFacts Contracts Wire Scripted StateCodec OpenPositionCodec EntryPackageCodec.

(** * The fields of the contract *)

Definition PROTECTION_SUCCESS_FIELDS : list string :=
  ["strategy_instance_id"; "trade_cycle_id"; "status"; "stop_price"; "take_price";
   "protection_orders"].
Definition PROTECTION_ORDERS_FIELDS : list string := ["quantity"; "stop"; "take"].
Definition PROTECTION_ORDER_FIELDS : list string := ["order_id"; "trigger_price"].
Definition CLOSE_SUCCESS_FIELDS : list string := ["strategy_instance_id"; "trade_cycle_id"; "status"].
Definition CLOSE_SUCCESS_FIELDS_WITH_CLOSURE : list string :=
  CLOSE_SUCCESS_FIELDS ++ [CLOSURE_FIELD].
Definition ENTRY_REMAINDER_SUCCESS_FIELDS : list string :=
  ["strategy_instance_id"; "trade_cycle_id"; "status"; "executed_quantity"].

Definition APPLY_PROTECTION_PUBLIC_CODES : list (Z * list string) :=
  [(400, ["malformed_json"]); (415, ["unsupported_media_type"]);
   (422, ["validation_failed"; "unknown_trade_cycle_binding"; "unsupported_exchange_scope";
          "position_not_open"])].
Definition CLOSE_POSITION_PUBLIC_CODES : list (Z * list string) :=
  [(422, ["validation_failed"; "unknown_trade_cycle_binding"; "unsupported_exchange_scope";
          "close_execution_incomplete"])].
Definition ENTRY_REMAINDER_PUBLIC_CODES : list (Z * list string) :=
  [(400, ["malformed_json"]); (415, ["unsupported_media_type"]);
   (422, ["validation_failed"; "unknown_trade_cycle_binding"; "entry_not_filled"])].

Notation PROTOCOL_ERROR := PositionManagementExecutionProtocolError.

Definition _load_payload (content_type : option string) (content : list ascii) : result json :=
  _ ← require_json_content_type PROTOCOL_ERROR "ABI position-management" content_type;
  load_strict_json PROTOCOL_ERROR "ABI position-management" content.

(** * Success bodies *)

Definition _decode_protection_order (value : json) (name : string) : result ProtectionOrder :=
  body ← closed_object value PROTECTION_ORDER_FIELDS name;
  id ← item body "order_id"; id ← non_empty_string_value id (name +:+ ".order_id");
  price ← item body "trigger_price";
  price ← positive_exact_decimal_value price (name +:+ ".trigger_price");
  ProtectionOrder_post_init {| pro_order_id := id; pro_trigger_price := price |}.

Definition _decode_protection_orders (value : json) : result ProtectionOrders :=
  body ← closed_object value PROTECTION_ORDERS_FIELDS "protection_orders";
  quantity ← item body "quantity";
  quantity ← positive_exact_decimal_value quantity "protection_orders.quantity";
  stop ← item body "stop"; stop ← _decode_protection_order stop "protection_orders.stop";
  take ← item body "take"; take ← _decode_protection_order take "protection_orders.take";
  ProtectionOrders_post_init {| pos_quantity := quantity; pos_stop := stop; pos_take := take |}.

(** [body["status"] != status] *)
Definition require_status (body : dict json) (status msg : string) : result unit :=
  value ← item body "status";
  require (bool_decide (value = JStr status)) ValueError msg.

Definition protection_fields (payload : json) :
    result (string * string * string * option string * ProtectionOrders) :=
  body ← closed_object payload PROTECTION_SUCCESS_FIELDS "success response";
  _ ← require_status body "protection_applied" "success status is not protection_applied";
  '(id, cycle) ← identity_fields body;
  stop ← item body "stop_price"; stop ← positive_exact_decimal_value stop "stop_price";
  take ← item body "take_price"; take ← optional_positive_exact_decimal_value take "take_price";
  orders ← item body "protection_orders"; orders ← _decode_protection_orders orders;
  Ok (id, cycle, stop, take, orders).

Definition _decode_protection_success (payload : json) (command : ApplyProtectionCommand) :
    result ProtectionAppliedConfirmation :=
  '(id, cycle, stop, take, orders) ← except_decode_failure PROTOCOL_ERROR
    "invalid ABI protection success response: " (protection_fields payload);
  _ ← require
    (bool_decide (id = apc_strategy_instance_id command)
     && bool_decide (cycle = apc_trade_cycle_id command)
     && bool_decide (stop = dp_stop_price (apc_desired_protection command))
     && bool_decide (take = dp_take_price (apc_desired_protection command)))
    PROTOCOL_ERROR "ABI protection success response does not match the sent command";
  protection ← DesiredProtection_post_init {| dp_stop_price := stop; dp_take_price := take |};
  ProtectionAppliedConfirmation_post_init
    {| pac_strategy_instance_id := id; pac_trade_cycle_id := cycle;
       pac_confirmed_protection := protection; pac_protection_orders := orders |}.

Definition close_fields (payload : json) : result PositionClosedConfirmation :=
  let fields := match payload with
    | JObj body => if is_some (dget CLOSURE_FIELD body)
                   then CLOSE_SUCCESS_FIELDS_WITH_CLOSURE else CLOSE_SUCCESS_FIELDS
    | _ => CLOSE_SUCCESS_FIELDS
    end in
  body ← closed_object payload fields "success response";
  _ ← require_status body "trade_cycle_closed" "success status is not trade_cycle_closed";
  '(id, cycle) ← identity_fields body;
  closure ← decode_optional_closure body;
  PositionClosedConfirmation_post_init
    {| pcc_strategy_instance_id := id; pcc_trade_cycle_id := cycle; pcc_closure := closure |}.

Definition _decode_close_success (payload : json) (command : ClosePositionCommand) :
    result PositionClosedConfirmation :=
  confirmation ← except_decode_failure PROTOCOL_ERROR "invalid ABI close success response: "
    (close_fields payload);
  _ ← require
    (bool_decide (pcc_strategy_instance_id confirmation = cpc_strategy_instance_id command)
     && bool_decide (pcc_trade_cycle_id confirmation = cpc_trade_cycle_id command))
    PROTOCOL_ERROR "ABI close success response does not match the sent command";
  Ok confirmation.

Definition remainder_fields (payload : json) : result EntryRemainderCancelConfirmation :=
  body ← closed_object payload ENTRY_REMAINDER_SUCCESS_FIELDS "success response";
  '(id, cycle) ← identity_fields body;
  status ← item body "status"; status ← string_value status "status";
  executed ← item body "executed_quantity";
  executed ← optional_positive_exact_decimal_value executed "executed_quantity";
  EntryRemainderCancelConfirmation_post_init
    {| rcc_strategy_instance_id := id; rcc_trade_cycle_id := cycle; rcc_status := status;
       rcc_executed_quantity := executed |}.

(** * Error bodies *)

Fixpoint check_details (items : list json) : result unit :=
  match items with
  | [] => Ok tt
  | detail :: items =>
      detail ← closed_object detail VALIDATION_DETAIL_FIELDS "error.details item";
      path ← item detail "path"; _ ← string_value path "error.details[].path";
      message ← item detail "message"; _ ← string_value message "error.details[].message";
      check_details items
  end.

Definition _decode_validation_details (value : json) : result json :=
  match value with
  | JList (x :: items) => _ ← check_details (x :: items); Ok value
  | _ => raise ValueError "error.details must be a non-empty array"
  end.

(** The code and the message of a public error. *)
Definition public_error (payload : json) (allowed_codes : list string) : result (string * string) :=
  envelope ← closed_object payload ERROR_ENVELOPE_FIELDS "error envelope";
  error ← item envelope "error";
  error ← json_object error "error object";
  code ← non_empty_string_value (item_or_none error "code") "error.code";
  _ ← require (bool_decide (code ∈ allowed_codes)) ValueError "undocumented error code for HTTP ";
  if decide (code = "validation_failed") then
    _ ← require_exact_fields error ERROR_FIELDS_WITH_DETAILS "error";
    message ← item error "message";
    message ← non_empty_string_value message "error.message";
    details ← item error "details";
    _ ← _decode_validation_details details;
    Ok (code, message)
  else
    _ ← require_exact_fields error ERROR_FIELDS_WITHOUT_DETAILS "error";
    message ← item error "message";
    message ← non_empty_string_value message "error.message";
    Ok (code, message).

Definition _raise_public_error {A} (status_code : Z) (payload : json)
    (allowed_codes : list string) : result A :=
  error ← except_decode_failure PROTOCOL_ERROR "invalid ABI position-management error envelope: "
    (public_error payload allowed_codes);
  raise (PositionManagementExecutionPublicError status_code error.1) error.2.

Definition _decode_internal_error_envelope (payload : json) (expected_code : string) : result unit :=
  except_decode_failure PROTOCOL_ERROR "invalid ABI position-management error envelope: "
    (envelope ← closed_object payload ERROR_ENVELOPE_FIELDS "error envelope";
     error ← item envelope "error";
     error ← closed_object error ERROR_FIELDS_WITHOUT_DETAILS "error";
     code ← item error "code"; code ← non_empty_string_value code "error.code";
     _ ← require (bool_decide (code = expected_code)) ValueError "expected error code ";
     message ← item error "message"; _ ← non_empty_string_value message "error.message";
     Ok tt).

(** The answers with another status than 200. *)
Definition decode_failure_status {A} (status_code : Z) (payload : json)
    (public_codes : list (Z * list string)) (undocumented : string) : result A :=
  if status_code =? 503 then
    _ ← _decode_internal_error_envelope payload "execution_not_ready";
    raise PositionManagementExecutionNotReady "ABI execution is not ready"
  else if status_code =? 500 then
    _ ← _decode_internal_error_envelope payload "internal_error";
    raise PositionManagementExecutionUnavailable "ABI position-management unavailable: HTTP 500"
  else
    match List.find (fun p => p.1 =? status_code) public_codes with
    | Some (_, allowed_codes) => _raise_public_error status_code payload allowed_codes
    | None => raise PROTOCOL_ERROR undocumented
    end.

(** * The three decoders *)

Definition decode_apply_protection_response (status_code : Z) (content_type : option string)
    (content : list ascii) (command : ApplyProtectionCommand) :
    result ProtectionAppliedConfirmation :=
  payload ← _load_payload content_type content;
  if status_code =? 200 then _decode_protection_success payload command
  else decode_failure_status status_code payload APPLY_PROTECTION_PUBLIC_CODES
    "undocumented ABI apply_protection HTTP status: ".

Definition decode_close_position_response (status_code : Z) (content_type : option string)
    (content : list ascii) (command : ClosePositionCommand) : result PositionClosedConfirmation :=
  payload ← _load_payload content_type content;
  if status_code =? 200 then _decode_close_success payload command
  else decode_failure_status status_code payload CLOSE_POSITION_PUBLIC_CODES
    "undocumented ABI close_position HTTP status: ".

Definition decode_cancel_entry_remainder_response (status_code : Z) (content_type : option string)
    (content : list ascii) (strategy_instance_id trade_cycle_id : string) :
    result EntryRemainderCancelConfirmation :=
  payload ← _load_payload content_type content;
  if status_code =? 200 then
    confirmation ← except_decode_failure PROTOCOL_ERROR
      "invalid ABI entry-remainder cancel success response: " (remainder_fields payload);
    _ ← require (bool_decide (rcc_strategy_instance_id confirmation = strategy_instance_id)
                 && bool_decide (rcc_trade_cycle_id confirmation = trade_cycle_id))
      PROTOCOL_ERROR "ABI entry-remainder cancel success response does not match the request";
    Ok confirmation
  else decode_failure_status status_code payload ENTRY_REMAINDER_PUBLIC_CODES
    "undocumented ABI entry-remainder cancel HTTP status: ".

(** * What the decoders raise *)

Definition management_error (e : exn) : Prop :=
  is_position_management_execution_error (exn_cls e) = true \/ e = outside_model.

Lemma protocol_management_error {A} (r : result A) :
  raises (of_class PROTOCOL_ERROR) r -> raises management_error r.
Proof. intros Hr. eapply raises_weaken; [exact Hr|]. intros e He. left. by rewrite He. Qed.

Lemma protection_order_fails j n : raises payload_failure (_decode_protection_order j n).
Proof. unfold _decode_protection_order, ProtectionOrder_post_init. fails. Qed.
Hint Resolve protection_order_fails : raises.
Lemma protection_orders_fails j : raises payload_failure (_decode_protection_orders j).
Proof. unfold _decode_protection_orders, ProtectionOrders_post_init. fails. Qed.
Lemma require_status_fails body s msg : raises payload_failure (require_status body s msg).
Proof. unfold require_status. fails. Qed.
Hint Resolve protection_orders_fails require_status_fails : raises.

Lemma protection_fields_fails payload : raises payload_failure (protection_fields payload).
Proof. unfold protection_fields. fails. Qed.
Lemma close_fields_fails payload : raises payload_failure (close_fields payload).
Proof. unfold close_fields, PositionClosedConfirmation_post_init. fails. Qed.
Lemma remainder_fields_fails payload : raises payload_failure (remainder_fields payload).
Proof. unfold remainder_fields, EntryRemainderCancelConfirmation_post_init. fails. Qed.

Lemma management_check_details_fails items : raises payload_failure (check_details items).
Proof. induction items as [|d items IH]; simpl; [done|]. fails. Qed.
Hint Resolve management_check_details_fails : raises.
Lemma management_details_fails j : raises payload_failure (_decode_validation_details j).
Proof. unfold _decode_validation_details. fails. Qed.
Hint Resolve management_details_fails : raises.
Lemma public_error_fails payload codes : raises payload_failure (public_error payload codes).
Proof. unfold public_error. fails. Qed.
Hint Resolve public_error_fails protection_fields_fails close_fields_fails remainder_fields_fails :
  raises.

Hint Extern 1 (management_error (Exn _ _)) => by left : raises.

Lemma caught_management_error {A} msg (r : result A) : raises payload_failure r ->
  raises management_error (except_decode_failure PROTOCOL_ERROR msg r).
Proof. intros Hr. by apply protocol_management_error, except_decode_failure_raises. Qed.

Lemma internal_envelope_error payload code :
  raises management_error (_decode_internal_error_envelope payload code).
Proof. apply caught_management_error. fails. Qed.
Hint Resolve internal_envelope_error caught_management_error : raises.

Lemma failure_status_error {A} status payload codes msg :
  raises management_error (decode_failure_status (A := A) status payload codes msg).
Proof. unfold decode_failure_status, _raise_public_error. fails. Qed.

Lemma load_payload_error ct content : raises management_error (_load_payload ct content).
Proof.
  unfold _load_payload. apply raises_bind.
  - apply protocol_management_error, require_json_content_type_raises.
  - intros _ _. eapply raises_weaken; [apply load_strict_json_raises|].
    intros e [He|He]; [left; by rewrite He|by right].
Qed.
Hint Resolve failure_status_error load_payload_error : raises.

(** The answers of [decode_failure_status] are never values. *)
Lemma failure_status_never_Ok {A} status payload codes msg (a : A) :
  decode_failure_status status payload codes msg <> Ok a.
Proof.
  unfold decode_failure_status, _raise_public_error. intros H.
  repeat first [case_match | progress ok_inv H]; done.
Qed.

Lemma never_Ok {A} status payload codes msg (a : A) (Q : Prop) :
  decode_failure_status status payload codes msg = Ok a -> Q.
Proof. intros H. by apply failure_status_never_Ok in H. Qed.

(** * A confirmation answers its command *)

Lemma identity_fields_non_empty body id cycle : identity_fields body = Ok (id, cycle) ->
  require_non_empty_string id "strategy_instance_id" = Ok tt /\
  require_non_empty_string cycle "trade_cycle_id" = Ok tt.
Proof.
  unfold identity_fields, non_empty_string_value. intros H. ok_inv H. ok_inv Hok0. ok_inv Hok2.
  apply require_Ok in Hok4, Hok5. unfold require_non_empty_string. by rewrite Hok4, Hok5.
Qed.

Lemma protection_fields_identity payload id cycle stop take orders :
  protection_fields payload = Ok (id, cycle, stop, take, orders) ->
  require_non_empty_string id "strategy_instance_id" = Ok tt /\
  require_non_empty_string cycle "trade_cycle_id" = Ok tt.
Proof.
  unfold protection_fields. intros H. ok_inv H. destruct a1 as [id' cycle']. ok_inv H.
  by eapply identity_fields_non_empty.
Qed.

(** The levels of a command are canonical texts: a text that is equal to them normalises. *)
Lemma protection_success payload command :
  DesiredProtection_post_init (apc_desired_protection command) =
    Ok (apc_desired_protection command) ->
  raises management_error (_decode_protection_success payload command) /\
  (forall c, _decode_protection_success payload command = Ok c ->
     pac_strategy_instance_id c = apc_strategy_instance_id command /\
     pac_trade_cycle_id c = apc_trade_cycle_id command /\
     pac_confirmed_protection c = apc_desired_protection command).
Proof.
  intros Hc. unfold _decode_protection_success.
  destruct (protection_fields payload) as [[[[[id cycle] stop] take] orders]|e] eqn:Hp.
  - apply protection_fields_identity in Hp as [Hid Hcy]. simpl.
    destruct (bool_decide _ && _ && _ && _) eqn:Hm; [|split; [by left|done]].
    rewrite !andb_true_iff, !bool_decide_eq_true in Hm. destruct Hm as [[[-> ->] ->] ->]. simpl.
    destruct (apc_desired_protection command) as [stop take]. simpl. rewrite Hc. simpl.
    unfold ProtectionAppliedConfirmation_post_init. simpl. rewrite Hid, Hcy. simpl.
    split; [done|]. by intros c [= <-].
  - pose proof (protection_fields_fails payload) as Hf. rewrite Hp in Hf. simpl in *.
    rewrite Hf. split; [by left|done].
Qed.
Hint Resolve protection_success : raises.

(** The levels, the identity and the closure of the three confirmations. *)
Lemma close_success payload command :
  raises management_error (_decode_close_success payload command) /\
  (forall c, _decode_close_success payload command = Ok c ->
     pcc_strategy_instance_id c = cpc_strategy_instance_id command /\
     pcc_trade_cycle_id c = cpc_trade_cycle_id command /\
     PositionClosedConfirmation_post_init c = Ok c).
Proof.
  unfold _decode_close_success. split.
  - fails.
  - intros c H. ok_inv H. apply except_decode_failure_Ok in Hok. unfold close_fields in Hok.
    ok_inv Hok. destruct a2 as [id cycle]. ok_inv Hok. apply require_Ok in Hok0.
    rewrite andb_true_iff, !bool_decide_eq_true in Hok0. destruct Hok0 as [? ?]. split_and!; [done..|].
    pose proof Hok as Hv. unfold PositionClosedConfirmation_post_init in Hv. by ok_inv Hv.
Qed.

Lemma remainder_success payload : forall c, remainder_fields payload = Ok c ->
  EntryRemainderCancelConfirmation_post_init c = Ok c.
Proof.
  unfold remainder_fields. intros c H. ok_inv H. destruct a0 as [id cycle]. ok_inv H.
  pose proof H as Hv. unfold EntryRemainderCancelConfirmation_post_init in Hv. by ok_inv Hv.
Qed.

Lemma apply_protection_raises status ct content command :
  DesiredProtection_post_init (apc_desired_protection command) =
    Ok (apc_desired_protection command) ->
  raises management_error (decode_apply_protection_response status ct content command).
Proof. intros Hc. unfold decode_apply_protection_response. fails. by apply protection_success. Qed.

Lemma close_position_raises status ct content command :
  raises management_error (decode_close_position_response status ct content command).
Proof. unfold decode_close_position_response. fails. by apply close_success. Qed.

Lemma cancel_remainder_raises status ct content id cycle :
  raises management_error (decode_cancel_entry_remainder_response status ct content id cycle).
Proof. unfold decode_cancel_entry_remainder_response. fails. Qed.

(** C17. An answer to a position-management command either decodes or raises an error of
    the port. A confirmation was sent with HTTP 200 and names the instance and the cycle of the
    command; the protection it confirms is, level for level, the one that was sent, and a
    closure it carries is of that cycle. *)
Theorem confirmations_answer_their_commands status ct content
    (protect : ApplyProtectionCommand) (close : ClosePositionCommand) (id cycle : string) :
  DesiredProtection_post_init (apc_desired_protection protect) =
    Ok (apc_desired_protection protect) ->
  (raises management_error (decode_apply_protection_response status ct content protect) /\
   forall c, decode_apply_protection_response status ct content protect = Ok c ->
     status = 200 /\
     pac_strategy_instance_id c = apc_strategy_instance_id protect /\
     pac_trade_cycle_id c = apc_trade_cycle_id protect /\
     pac_confirmed_protection c = apc_desired_protection protect) /\
  (raises management_error (decode_close_position_response status ct content close) /\
   forall c, decode_close_position_response status ct content close = Ok c ->
     status = 200 /\
     pcc_strategy_instance_id c = cpc_strategy_instance_id close /\
     pcc_trade_cycle_id c = cpc_trade_cycle_id close /\
     PositionClosedConfirmation_post_init c = Ok c) /\
  (raises management_error (decode_cancel_entry_remainder_response status ct content id cycle) /\
   forall c, decode_cancel_entry_remainder_response status ct content id cycle = Ok c ->
     status = 200 /\ rcc_strategy_instance_id c = id /\ rcc_trade_cycle_id c = cycle /\
     EntryRemainderCancelConfirmation_post_init c = Ok c).
Proof.
  intros Hc. split_and!; [by apply apply_protection_raises| |apply close_position_raises|
    |apply cancel_remainder_raises|]; unfold decode_apply_protection_response,
    decode_close_position_response, decode_cancel_entry_remainder_response; intros c H; ok_inv H; destruct (Z.eqb_spec status 200) as [->|];
    try by eapply never_Ok in H.
  - split; [done|]. by eapply protection_success.
  - split; [done|]. by eapply close_success.
  - ok_inv H. apply except_decode_failure_Ok, remainder_success in Hok0. apply require_Ok in Hok1.
    rewrite andb_true_iff, !bool_decide_eq_true in Hok1. by destruct Hok1.
Qed.

(** ** Examples *)

Definition sample_apply_command : ApplyProtectionCommand :=
  {| apc_strategy_instance_id := "i1"; apc_trade_cycle_id := "c1";
     apc_desired_protection := {| dp_stop_price := "95"; dp_take_price := Some "110.5" |} |}.

Definition sample_close_command : ClosePositionCommand :=
  {| cpc_strategy_instance_id := "i1"; cpc_trade_cycle_id := "c1";
     cpc_exposure_fraction := CANONICAL_CLOSE_EXPOSURE_FRACTION |}.

Definition protection_body (stop_price : string) : json :=
  let order id price := JObj [("order_id", JStr id); ("trigger_price", JStr price)] in
  JObj [("strategy_instance_id", JStr "i1"); ("trade_cycle_id", JStr "c1");
        ("status", JStr "protection_applied"); ("stop_price", JStr stop_price);
        ("take_price", JStr "110.5");
        ("protection_orders", JObj [("quantity", JStr "2"); ("stop", order "o1" stop_price);
                                    ("take", order "o2" "110.5")])].

Definition sample_protection_confirmation : ProtectionAppliedConfirmation :=
  {| pac_strategy_instance_id := "i1"; pac_trade_cycle_id := "c1";
     pac_confirmed_protection := apc_desired_protection sample_apply_command;
     pac_protection_orders :=
       {| pos_quantity := "2"; pos_stop := {| pro_order_id := "o1"; pro_trigger_price := "95" |};
          pos_take := {| pro_order_id := "o2"; pro_trigger_price := "110.5" |} |} |}.

(** Another text of the same number is not the level that was sent. *)
Example rewritten_level_is_refused :
  decode_apply_protection_response 200 json_utf8 (utf8 (write (protection_body "95.0")))
    sample_apply_command
  = raise PROTOCOL_ERROR "ABI protection success response does not match the sent command".
Proof. vm_compute. reflexivity. Qed.

Lemma confirmations_answer_their_commands_witness :
  decode_apply_protection_response 200 json_utf8 (utf8 (write (protection_body "95")))
    sample_apply_command = Ok sample_protection_confirmation /\
  pac_confirmed_protection sample_protection_confirmation =
    apc_desired_protection sample_apply_command.
Proof.
  assert (decode_apply_protection_response 200 json_utf8 (utf8 (write (protection_body "95")))
    sample_apply_command = Ok sample_protection_confirmation) as Hd by (vm_compute; reflexivity).
  split; [exact Hd|].
  destruct (confirmations_answer_their_commands 200 json_utf8 (utf8 (write (protection_body "95")))
    sample_apply_command sample_close_command "i1" "c1" eq_refl) as [[_ Hok] _].
  exact (proj2 (proj2 (proj2 (Hok _ Hd)))).
Defined.
