(* ===== verification/EngineCodec.v ===== *)
(** The codec of the Strategy Engine's HTTP contract (infrastructure/strategy_engine/wire_codec.py):
    the bodies of the live-entry, open-trade and feature-plan requests and the readers of their
    answers. A desired entry or a protection that is read has passed the constructor of its
    class, so what the runtime compares and stores is canonical text. *)
From S2P Require Import Prelude Errors DecimalText DecimalCanonical Models Json JsonFacts Contracts Wire Scripted StateCodec OpenPositionCodec EntryPackageCodec.

(** * Requests *)

Definition encode_live_entry_request (request : LiveEntryProjectionRequest) : json :=
  JObj [("strategy_id", JStr (lp_strategy_id request));
        ("raw_spec", JObj (lp_raw_spec request));
        ("ticker", JStr (lp_ticker request));
        ("base_timeframe", JStr (lp_base_timeframe request));
        ("target_bar_open_time_ms", JInt (lp_target_bar_open_time_ms request))].

Definition encode_executed_trade_receipt (entry : DesiredEntry) (entry_bar_open_time_ms : Z) :
    json :=
  JObj [("side", JStr (side_text (de_side entry)));
        ("source_plan_bar_open_time_ms", JInt (de_source_plan_bar_open_time_ms entry));
        ("entry_bar_open_time_ms", JInt entry_bar_open_time_ms);
        ("planned_entry_price", JStr (de_planned_entry_price entry));
        ("initial_stop_price", JStr (de_initial_stop_price entry));
        ("initial_take_price", JStr (de_initial_take_price entry));
        ("locked_exit_profile", JStr (de_locked_exit_profile entry))].

Definition encode_open_trade_request (request : OpenTradeProjectionRequest) : json :=
  JObj [("strategy_id", JStr (op_strategy_id request));
        ("raw_spec", JObj (op_raw_spec request));
        ("ticker", JStr (op_ticker request));
        ("base_timeframe", JStr (op_base_timeframe request));
        ("target_bar_open_time_ms", JInt (op_target_bar_open_time_ms request));
        ("executed_trade_receipt",
         encode_executed_trade_receipt (op_desired_entry request)
           (op_entry_bar_open_time_ms request))].

Definition encode_feature_plan_request (strategy_id : string) (raw_spec : dict json) : json :=
  JObj [("strategy_id", JStr strategy_id); ("raw_spec", JObj raw_spec)].

(** * Answers *)

Definition DOCUMENTED_ENGINE_ERROR_STATUSES : list Z := [404; 409; 422; 500; 501; 502; 503].
Definition ENGINE_ENVELOPE_FIELDS : list string := ["error"; "message"; "details"; "request_id"].
Definition LIVE_ENTRY_SUCCESS_FIELDS : list string := ["desired_entry"].
Definition DESIRED_ENTRY_FIELDS : list string :=
  ["side"; "source_plan_bar_open_time_ms"; "planned_entry_price"; "initial_stop_price";
   "initial_take_price"; "locked_exit_profile"].
Definition OPEN_TRADE_SUCCESS_FIELDS : list string :=
  ["desired_protection"; "close_signal"; "diagnostics"].
Definition DESIRED_PROTECTION_FIELDS : list string := ["stop_price"; "take_price"].
Definition CLOSE_SIGNAL_FIELDS : list string := ["active"; "reason"; "component_id"; "layer"].

Notation ENGINE_PROTOCOL_ERROR := StrategyEngineProjectionProtocolError.

Definition _load_strict_json := load_strict_json ENGINE_PROTOCOL_ERROR "Engine".
Definition _require_json_content_type := require_json_content_type ENGINE_PROTOCOL_ERROR "Engine".

(** [_decode_wire_desired_entry] *)
Definition _decode_engine_desired_entry (payload : json) : result DesiredEntry :=
  body ← closed_object payload DESIRED_ENTRY_FIELDS "desired_entry";
  side_ ← item body "side"; side_ ← side_value side_;
  source ← item body "source_plan_bar_open_time_ms";
  source ← int_value source "source_plan_bar_open_time_ms";
  planned ← item body "planned_entry_price"; planned ← string_value planned "planned_entry_price";
  stop ← item body "initial_stop_price"; stop ← string_value stop "initial_stop_price";
  take ← item body "initial_take_price"; take ← string_value take "initial_take_price";
  locked ← item body "locked_exit_profile"; locked ← string_value locked "locked_exit_profile";
  DesiredEntry_post_init
    {| de_side := side_; de_source_plan_bar_open_time_ms := source;
       de_planned_entry_price := planned; de_initial_stop_price := stop;
       de_initial_take_price := take; de_locked_exit_profile := locked |}.

Definition _decode_live_entry_success (payload : json) : result LiveEntryProjectionResponse :=
  desired_entry ← except_decode_failure ENGINE_PROTOCOL_ERROR "invalid live-entry success response: "
    (body ← closed_object payload LIVE_ENTRY_SUCCESS_FIELDS "live-entry success response";
     entry ← item body "desired_entry";
     match entry with
     | JNull => Ok None
     | _ => e ← _decode_engine_desired_entry entry; Ok (Some e)
     end);
  Ok {| lpr_desired_entry := desired_entry |}.

(** The protection, and the texts it was written with. *)
Definition _decode_desired_protection (payload : json) :
    result (DesiredProtection * EngineDesiredProtectionText) :=
  body ← closed_object payload DESIRED_PROTECTION_FIELDS "desired_protection";
  stop ← item body "stop_price"; stop ← string_value stop "stop_price";
  take ← item body "take_price"; take ← optional_string_value take "take_price";
  protection ← DesiredProtection_post_init {| dp_stop_price := stop; dp_take_price := take |};
  Ok (protection, {| et_stop_price := stop; et_take_price := take |}).

Definition _decode_close_signal (payload : json) : result CloseSignal :=
  body ← closed_object payload CLOSE_SIGNAL_FIELDS "close_signal";
  active ← item body "active"; active ← bool_value active "active";
  reason ← item body "reason"; reason ← optional_string_value reason "reason";
  component ← item body "component_id";
  component ← optional_string_value component "component_id";
  layer ← item body "layer"; layer ← optional_string_value layer "layer";
  Ok {| cs_active := active; cs_reason := reason; cs_component_id := component;
        cs_layer := layer |}.

Definition _decode_open_trade_success (payload : json) : result OpenTradeProjectionResponse :=
  except_decode_failure ENGINE_PROTOCOL_ERROR "invalid open-trade success response: "
    (body ← closed_object payload OPEN_TRADE_SUCCESS_FIELDS "open-trade success response";
     protection ← item body "desired_protection";
     '(protection, protection_text) ← _decode_desired_protection protection;
     signal ← item body "close_signal"; signal ← _decode_close_signal signal;
     diagnostics ← item body "diagnostics"; diagnostics ← json_object diagnostics "diagnostics";
     Ok {| opr_desired_protection := protection; opr_close_signal := signal;
           opr_diagnostics := diagnostics;
           opr_engine_desired_protection_text := protection_text |}).

Definition _raise_engine_public_error {A} (status_code : Z) (payload : json) : result A :=
  '(code, message) ← except_decode_failure ENGINE_PROTOCOL_ERROR "invalid Engine error envelope: "
    (envelope ← closed_object payload ENGINE_ENVELOPE_FIELDS "error envelope";
     code ← item envelope "error"; code ← non_empty_string_value code "error";
     message ← item envelope "message"; message ← non_empty_string_value message "message";
     details ← item envelope "details"; _ ← json_object details "details";
     request_id ← item envelope "request_id"; _ ← non_empty_string_value request_id "request_id";
     Ok (code, message));
  if (status_code =? 404) && bool_decide (code = "market_stream_not_found") then
    raise StrategyEngineMarketStreamNotFound message
  else raise (StrategyEngineProjectionPublicError status_code code) message.

(** The tail every reader shares: what an answer with another status than 200 raises. *)
Definition engine_failure_status {A} (status_code : Z) (payload : json) : result A :=
  if bool_decide (status_code ∈ DOCUMENTED_ENGINE_ERROR_STATUSES) then
    _raise_engine_public_error status_code payload
  else raise ENGINE_PROTOCOL_ERROR "undocumented Engine HTTP status: ".

Definition decode_live_entry_response (status_code : Z) (content_type : option string)
    (content : list ascii) : result LiveEntryProjectionResponse :=
  _ ← _require_json_content_type content_type;
  payload ← _load_strict_json content;
  if status_code =? 200 then _decode_live_entry_success payload
  else engine_failure_status status_code payload.

Definition decode_open_trade_response (status_code : Z) (content_type : option string)
    (content : list ascii) : result OpenTradeProjectionResponse :=
  _ ← _require_json_content_type content_type;
  payload ← _load_strict_json content;
  if status_code =? 200 then _decode_open_trade_success payload
  else engine_failure_status status_code payload.

Definition decode_feature_plan_response (status_code : Z) (content_type : option string)
    (content : list ascii) : result (dict json) :=
  _ ← _require_json_content_type content_type;
  payload ← _load_strict_json content;
  if status_code =? 200 then
    match payload with
    | JObj plan => Ok plan
    | _ => raise ENGINE_PROTOCOL_ERROR "feature-plan response must be an object"
    end
  else engine_failure_status status_code payload.

(** * What the readers raise *)

(** The subclasses of [StrategyEngineProjectionUnavailable] (runtime/engine/errors.py) that a
    reader raises for a status. *)
Definition projection_error (status_code : Z) (e : exn) : Prop :=
  exn_cls e = ENGINE_PROTOCOL_ERROR \/ e = outside_model \/
  status_code ∈ DOCUMENTED_ENGINE_ERROR_STATUSES /\
  (exn_cls e = StrategyEngineMarketStreamNotFound /\ status_code = 404 \/
   exists code, exn_cls e = StrategyEngineProjectionPublicError status_code code).

Lemma protocol_projection_error {A} status (r : result A) :
  raises (of_class ENGINE_PROTOCOL_ERROR) r -> raises (projection_error status) r.
Proof. intros Hr. eapply raises_weaken; [exact Hr|]. by left. Qed.

Lemma caught_projection_error {A} status msg (r : result A) : raises payload_failure r ->
  raises (projection_error status) (except_decode_failure ENGINE_PROTOCOL_ERROR msg r).
Proof. intros Hr. by apply protocol_projection_error, except_decode_failure_raises. Qed.

Lemma engine_entry_fails j : raises payload_failure (_decode_engine_desired_entry j).
Proof. unfold _decode_engine_desired_entry, DesiredEntry_post_init. fails. Qed.
Lemma desired_protection_fails j : raises payload_failure (_decode_desired_protection j).
Proof. unfold _decode_desired_protection, DesiredProtection_post_init, when_some. fails. Qed.
Lemma close_signal_fails j : raises payload_failure (_decode_close_signal j).
Proof. unfold _decode_close_signal. fails. Qed.
Hint Resolve engine_entry_fails desired_protection_fails close_signal_fails : raises.

Lemma live_entry_projection_error status payload :
  raises (projection_error status) (_decode_live_entry_success payload).
Proof.
  unfold _decode_live_entry_success. apply raises_bind; [|done].
  apply caught_projection_error. fails.
Qed.

Lemma open_trade_projection_error status payload :
  raises (projection_error status) (_decode_open_trade_success payload).
Proof. apply caught_projection_error. fails. Qed.

Lemma failure_projection_error {A} status payload :
  raises (projection_error status) (engine_failure_status (A := A) status payload).
Proof.
  unfold engine_failure_status. case_bool_decide as Hs; [|by left].
  unfold _raise_engine_public_error. apply raises_bind; [apply caught_projection_error; fails|].
  intros [code message] _. destruct (_ && _) eqn:Hm.
  - apply andb_true_iff in Hm as [->%Z.eqb_eq _]. right. right. split; [done|]. by left.
  - right. right. split; [done|]. right. by eexists.
Qed.

Lemma failure_status_no_Ok {A} status payload (a : A) :
  engine_failure_status status payload <> Ok a.
Proof.
  unfold engine_failure_status, _raise_engine_public_error. intros H.
  repeat first [case_match | progress ok_inv H]; done.
Qed.

Lemma load_projection_error status ct content :
  raises (projection_error status)
    (_ ← _require_json_content_type ct; _load_strict_json content).
Proof.
  apply raises_bind; [apply protocol_projection_error, require_json_content_type_raises|].
  intros _ _. eapply raises_weaken; [apply load_strict_json_raises|].
  intros e [He|He]; [by left|right; by left].
Qed.

Lemma load_then {A} status ct content (f : json -> result A) :
  (forall payload, raises (projection_error status) (f payload)) ->
  raises (projection_error status)
    (_ ← _require_json_content_type ct; payload ← _load_strict_json content; f payload).
Proof.
  intros Hf. pose proof (load_projection_error status ct content) as Hl. revert Hl.
  destruct (_require_json_content_type ct); simpl; [|done].
  destruct (_load_strict_json content); simpl; [by intros _|done].
Qed.

Lemma engine_entry_canonical j e : _decode_engine_desired_entry j = Ok e -> entry_ok e.
Proof. unfold _decode_engine_desired_entry. intros H. ok_inv H. by eapply DesiredEntry_idempotent. Qed.

(** What an accepted open-trade answer contains: the canonical protection of the texts it was
    written with. *)
Definition protection_of_text (t : EngineDesiredProtectionText) : result DesiredProtection :=
  DesiredProtection_post_init
    {| dp_stop_price := et_stop_price t; dp_take_price := et_take_price t |}.

Lemma open_trade_success_canonical payload r : _decode_open_trade_success payload = Ok r ->
  protection_of_text (opr_engine_desired_protection_text r) = Ok (opr_desired_protection r) /\
  protection_ok (opr_desired_protection r).
Proof.
  intros H%except_decode_failure_Ok. ok_inv H. destruct a1 as [protection protection_text].
  ok_inv H. unfold _decode_desired_protection in Hok1. ok_inv Hok1. simpl.
  split; [done|]. by eapply DesiredProtection_idempotent.
Qed.

Lemma live_entry_raises status ct content :
  raises (projection_error status) (decode_live_entry_response status ct content).
Proof.
  apply load_then. intros payload. destruct (status =? 200);
    auto using live_entry_projection_error, failure_projection_error.
Qed.

Lemma open_trade_raises status ct content :
  raises (projection_error status) (decode_open_trade_response status ct content).
Proof.
  apply load_then. intros payload. destruct (status =? 200);
    auto using open_trade_projection_error, failure_projection_error.
Qed.

Lemma feature_plan_raises status ct content :
  raises (projection_error status) (decode_feature_plan_response status ct content).
Proof.
  apply load_then. intros payload. destruct (status =? 200); [|apply failure_projection_error].
  destruct payload; try done; by left.
Qed.

(** The Engine's answers are typed: a reader either returns a value - only for HTTP
    200 - or raises one of the errors of its port, the market-stream error only for HTTP 404. A
    desired entry and a protection that are read are canonical, and the texts kept for the
    journal denote the protection they stand next to. *)
Theorem projections_are_typed status ct content :
  (raises (projection_error status) (decode_live_entry_response status ct content) /\
   forall r, decode_live_entry_response status ct content = Ok r ->
     status = 200 /\ forall e, lpr_desired_entry r = Some e -> entry_ok e) /\
  (raises (projection_error status) (decode_open_trade_response status ct content) /\
   forall r, decode_open_trade_response status ct content = Ok r ->
     status = 200 /\ protection_ok (opr_desired_protection r) /\
     protection_of_text (opr_engine_desired_protection_text r) = Ok (opr_desired_protection r)) /\
  (raises (projection_error status) (decode_feature_plan_response status ct content) /\
   forall plan, decode_feature_plan_response status ct content = Ok plan ->
     status = 200 /\ _load_strict_json content = Ok (JObj plan)).
Proof.
  split_and!; [apply live_entry_raises| |apply open_trade_raises| |apply feature_plan_raises|];
    unfold decode_live_entry_response, decode_open_trade_response, decode_feature_plan_response.
  - intros r H. ok_inv H. destruct (Z.eqb_spec status 200); [|by apply failure_status_no_Ok in H].
    split; [done|]. unfold _decode_live_entry_success in H. ok_inv H. simpl.
    intros e ->. apply except_decode_failure_Ok in Hok1. ok_inv Hok1.
    destruct a2; ok_inv Hok1; simplify_eq; by eapply engine_entry_canonical.
  - intros r H. ok_inv H. destruct (Z.eqb_spec status 200); [|by apply failure_status_no_Ok in H].
    by apply open_trade_success_canonical in H as [? ?].
  - intros plan H. ok_inv H. destruct (Z.eqb_spec status 200); [|by apply failure_status_no_Ok in H].
    destruct a0; ok_inv H. done.
Qed.

(** * The documented representation is accepted *)

Definition live_entry_body (r : LiveEntryProjectionResponse) : json :=
  JObj [("desired_entry", encode_optional encode_desired_entry (lpr_desired_entry r))].

Definition open_trade_body (r : OpenTradeProjectionResponse) : dict json :=
  let protection := opr_engine_desired_protection_text r in
  let signal := opr_close_signal r in
  [("desired_protection",
    JObj [("stop_price", JStr (et_stop_price protection));
          ("take_price", encode_optional JStr (et_take_price protection))]);
   ("close_signal",
    JObj [("active", JBool (cs_active signal));
          ("reason", encode_optional JStr (cs_reason signal));
          ("component_id", encode_optional JStr (cs_component_id signal));
          ("layer", encode_optional JStr (cs_layer signal))]);
   ("diagnostics", JObj (opr_diagnostics r))].

Lemma engine_entry_read e : entry_ok e -> _decode_engine_desired_entry (encode_desired_entry e) = Ok e.
Proof. intros He. destruct e as [[] src planned stop take locked]; exact He. Qed.

Lemma live_entry_success_body r :
  (forall e, lpr_desired_entry r = Some e -> entry_ok e) ->
  _decode_live_entry_success (live_entry_body r) = Ok r.
Proof.
  intros Hr. destruct r as [[e|]]; [|done]. unfold live_entry_body. cbn [lpr_desired_entry].
  specialize (Hr e eq_refl). apply engine_entry_read in Hr. revert Hr.
  unfold _decode_live_entry_success, closed_object. simpl. intros ->. done.
Qed.

Lemma open_trade_success_body r :
  protection_of_text (opr_engine_desired_protection_text r) = Ok (opr_desired_protection r) ->
  _decode_open_trade_success (JObj (open_trade_body r)) = Ok r.
Proof.
  intros Hp. destruct r as [protection [active reason component layer] diagnostics [stop take]].
  unfold protection_of_text in Hp. simpl in Hp.
  unfold _decode_open_trade_success, _decode_desired_protection, _decode_close_signal, closed_object.
  simpl. rewrite !optional_string_encoded. simpl. by rewrite Hp.
Qed.

(** Every answer the Engine documents is accepted and read as it is: a canonical desired
    entry or none; a protection in any texts that denote it, with its close signal and its
    diagnostics. *)
Theorem projections_accepted ct (live : LiveEntryProjectionResponse)
    (open : OpenTradeProjectionResponse) :
  _require_json_content_type ct = Ok tt ->
  (forall e, lpr_desired_entry live = Some e -> entry_ok e) ->
  ints_printable (live_entry_body live) = true ->
  protection_of_text (opr_engine_desired_protection_text open) = Ok (opr_desired_protection open) ->
  printable_in [] (JObj (open_trade_body open)) = true ->
  decode_live_entry_response 200 ct (utf8 (write (live_entry_body live))) = Ok live /\
  decode_open_trade_response 200 ct (utf8 (write (JObj (open_trade_body open)))) = Ok open.
Proof.
  intros Hct He Hi Hp Hj. unfold decode_live_entry_response, decode_open_trade_response.
  rewrite Hct. cbn [mbind result_bind]. unfold _load_strict_json. split.
  - rewrite load_strict_json_write.
    + simpl. by apply live_entry_success_body.
    + unfold printable_in. rewrite Hi, andb_true_r. by destruct live as [[e|]].
  - rewrite load_strict_json_write by done. simpl. by apply open_trade_success_body.
Qed.

(** ** Examples *)

Definition sample_projection : OpenTradeProjectionResponse :=
  {| opr_desired_protection := {| dp_stop_price := "95"; dp_take_price := Some "110.5" |};
     opr_close_signal :=
       {| cs_active := true; cs_reason := Some "exit"; cs_component_id := None; cs_layer := None |};
     opr_diagnostics := [("bars", JList [JInt 1; JFloat "0.5"])];
     opr_engine_desired_protection_text :=
       {| et_stop_price := "95.0"; et_take_price := Some "1105e-1" |} |}.

Lemma projections_accepted_witness :
  decode_live_entry_response 200 json_utf8
    (utf8 (write (live_entry_body {| lpr_desired_entry := Some sample_entry |})))
  = Ok {| lpr_desired_entry := Some sample_entry |} /\
  decode_open_trade_response 200 json_utf8 (utf8 (write (JObj (open_trade_body sample_projection))))
  = Ok sample_projection.
Proof.
  apply (projections_accepted json_utf8 {| lpr_desired_entry := Some sample_entry |}
    sample_projection); [reflexivity| |vm_compute; reflexivity|vm_compute; reflexivity|vm_compute; reflexivity].
  intros e He. injection He as <-. vm_compute. reflexivity.
Defined.

Lemma projections_are_typed_witness :
  decode_open_trade_response 200 json_utf8
    (utf8 (write (JObj (open_trade_body sample_projection)))) = Ok sample_projection /\
  protection_ok (opr_desired_protection sample_projection).
Proof.
  assert (decode_open_trade_response 200 json_utf8
    (utf8 (write (JObj (open_trade_body sample_projection)))) = Ok sample_projection) as Hd
    by (vm_compute; reflexivity).
  split; [exact Hd|].
  destruct (projections_are_typed 200 json_utf8
    (utf8 (write (JObj (open_trade_body sample_projection))))) as (_ & [_ Hok] & _).
  exact (proj1 (proj2 (Hok _ Hd))).
Defined.
