(* ===== verification/HttpClients.v ===== *)
(** The HTTP adapters of ABI (infrastructure/abi/_http_transport.py, http_open_position.py,
    http_entry_cycle_recovery.py, http_entry_package.py, http_position_management.py) and of the
    Strategy Engine (infrastructure/strategy_engine/http_projection_client.py) over an abstract
    HTTP client: the paths they address, the one attempt each call makes, and the instance of
    [Ports] they form. The client itself is the third-party library httpx: a request goes in, and
    an answer, a timeout, a transport error or some other exception comes out. *)
From S2P Require Import Prelude Errors DecimalText Models Json JsonFacts Contracts Effects Wire Scripted OpenPositionCodec EntryPackageCodec PositionManagementCodec RecoveryCodec EngineCodec.

(** * Paths *)

(** [urllib.parse.quote]: the characters it leaves as they are. *)
Definition always_safe (c : ascii) : bool :=
  let n := N_of_ascii c in
  ((48 <=? n) && (n <=? 57) || (65 <=? n) && (n <=? 90) || (97 <=? n) && (n <=? 122))%N
  || bool_decide (c ∈ ["_"%char; "."%char; "-"%char; "~"%char]).

Definition upper_hex (n : N) : ascii := ascii_of_N (if (n <? 10)%N then n + 48 else n + 55).

Definition quote_byte (c : ascii) : list ascii :=
  if always_safe c then [c]
  else ["%"%char; upper_hex (N_of_ascii c / 16); upper_hex (N_of_ascii c mod 16)].

(** [quote(value, safe="", encoding="utf-8", errors="strict")] *)
Definition quote (value : string) : list ascii := flat_map quote_byte (utf8 (chars value)).

Definition encode_opaque_path_segment (value : string) : list ascii :=
  let encoded := quote value in
  if bool_decide (value = ".") || bool_decide (value = "..") then
    flat_map (fun c => if decide (c = "."%char) then chars "%2E" else [c]) encoded
  else encoded.

Definition cycle_path (strategy_instance_id trade_cycle_id operation : string) : list ascii :=
  chars "/v1/strategy-instances/" ++ encode_opaque_path_segment strategy_instance_id
  ++ chars "/trade-cycles/" ++ encode_opaque_path_segment trade_cycle_id ++ chars operation.

Definition _open_position_path id cycle := cycle_path id cycle "/open-position".
Definition _recovery_state_path id cycle := cycle_path id cycle "/recovery-state".
Definition _entry_package_path id cycle := cycle_path id cycle "/entry-package".
Definition _protection_path id cycle := cycle_path id cycle "/protection".
Definition _close_path id cycle := cycle_path id cycle "/close".
Definition _entry_remainder_cancel_path id cycle := cycle_path id cycle "/entry-remainder/cancel".

Definition LIVE_ENTRY_PATH := chars "/v1/strategy-evaluations/live-entry".
Definition OPEN_TRADE_PATH := chars "/v1/strategy-evaluations/open-trade".
Definition _feature_plan_path (strategy_id : string) : list ascii :=
  chars "/v1/strategies/" ++ quote strategy_id ++ chars "/feature-plan".

(** * One attempt *)

Record http_request := {
  hr_method : string;
  hr_path : list ascii;
  hr_json : option json;
  hr_headers : list (string * string) }.

(** What [httpx.Client.get], [put] and [post] do: a response that was read, one of the two
    exceptions the adapters name, or any other one. *)
Inductive http_outcome :=
| Response (status_code : Z) (content_type : option string) (content : list ascii)
| TimeoutException
| TransportError
| OtherFailure (e : exn).

Definition get_headers : list (string * string) := [("accept", "application/json")].
Definition send_headers : list (string * string) :=
  [("accept", "application/json"); ("content-type", "application/json")].

Definition get_request (path : list ascii) : http_request :=
  {| hr_method := "GET"; hr_path := path; hr_json := None; hr_headers := get_headers |}.
Definition put_request (path : list ascii) (body : json) : http_request :=
  {| hr_method := "PUT"; hr_path := path; hr_json := Some body; hr_headers := send_headers |}.
Definition post_request (path : list ascii) (body : json) : http_request :=
  {| hr_method := "POST"; hr_path := path; hr_json := Some body; hr_headers := send_headers |}.

(** [try: response = client...; except TimeoutException: ...; except TransportError: ...],
    then the reader of the response. *)
Definition attempt_once {W A} (client : http_request -> W -> W * http_outcome)
    (request : http_request) (timed_out network_failure : exn)
    (decode : Z -> option string -> list ascii -> result A) (w : W) : W * result A :=
  match client request w with
  | (w, Response status_code content_type content) => (w, decode status_code content_type content)
  | (w, TimeoutException) => (w, Raise timed_out)
  | (w, TransportError) => (w, Raise network_failure)
  | (w, OtherFailure e) => (w, Raise e)
  end.

Section adapters.
Context {W : Type} (abi engine : http_request -> W -> W * http_outcome).

(** ** HttpxAbiOpenPositionLookupAdapter *)

Definition lookup (request : OpenPositionLookupRequest) : W -> W * result OpenPositionLookupResponse :=
  attempt_once abi
    (get_request (_open_position_path (lq_strategy_instance_id request) (lq_trade_cycle_id request)))
    (Exn OpenPositionLookupTimeout "ABI open-position lookup request timed out")
    (Exn OpenPositionLookupNetworkFailure "ABI open-position lookup network transport failed")
    decode_open_position_response.

(** ** HttpxAbiEntryCycleRecoveryAdapter *)

Definition query (strategy_instance_id trade_cycle_id : string) :
    W -> W * result RecoveryStateResponse :=
  attempt_once abi (get_request (_recovery_state_path strategy_instance_id trade_cycle_id))
    (Exn AbiEntryCycleRecoveryTimeout "ABI entry-cycle recovery-state request timed out")
    (Exn AbiEntryCycleRecoveryNetworkFailure
       "ABI entry-cycle recovery-state network transport failed")
    decode_recovery_state_response.

(** ** HttpxAbiEntryPackageAdapter *)

Definition send (request : EntryPackageRequest) : W -> W * result EntryPackageResult :=
  attempt_once abi
    (put_request (_entry_package_path (er_strategy_instance_id request) (er_trade_cycle_id request))
       (encode_entry_package_request request))
    (Exn AbiEntryPackageTimeout "ABI entry-package request timed out")
    (Exn AbiEntryPackageNetworkFailure "ABI entry-package network transport failed")
    (fun status_code content_type content =>
       decode_entry_package_response status_code content_type content request).

(** ** HttpxAbiPositionManagementAdapter *)

Definition apply_protection (command : ApplyProtectionCommand) :
    W -> W * result ProtectionAppliedConfirmation :=
  attempt_once abi
    (put_request (_protection_path (apc_strategy_instance_id command) (apc_trade_cycle_id command))
       (JObj [("stop_price", JStr (dp_stop_price (apc_desired_protection command)));
              ("take_price",
               encode_optional JStr (dp_take_price (apc_desired_protection command)))]))
    (Exn PositionManagementExecutionTimeout "ABI apply_protection request timed out")
    (Exn PositionManagementExecutionNetworkFailure "ABI apply_protection network transport failed")
    (fun status_code content_type content =>
       decode_apply_protection_response status_code content_type content command).

Definition close_position (command : ClosePositionCommand) :
    W -> W * result PositionClosedConfirmation :=
  attempt_once abi
    (post_request (_close_path (cpc_strategy_instance_id command) (cpc_trade_cycle_id command))
       (JObj [("exposure_fraction", JStr (cpc_exposure_fraction command))]))
    (Exn PositionManagementExecutionTimeout "ABI close_position request timed out")
    (Exn PositionManagementExecutionNetworkFailure "ABI close_position network transport failed")
    (fun status_code content_type content =>
       decode_close_position_response status_code content_type content command).

Definition cancel_entry_remainder (strategy_instance_id trade_cycle_id : string) :
    W -> W * result EntryRemainderCancelConfirmation :=
  attempt_once abi
    (post_request (_entry_remainder_cancel_path strategy_instance_id trade_cycle_id) (JObj []))
    (Exn PositionManagementExecutionTimeout "ABI cancel_entry_remainder request timed out")
    (Exn PositionManagementExecutionNetworkFailure
       "ABI cancel_entry_remainder network transport failed")
    (fun status_code content_type content =>
       decode_cancel_entry_remainder_response status_code content_type content
         strategy_instance_id trade_cycle_id).

(** ** The Engine adapters *)

Definition _send {A} (path : list ascii) (body : json)
    (decode : Z -> option string -> list ascii -> result A) : W -> W * result A :=
  attempt_once engine (post_request path body)
    (Exn StrategyEngineProjectionTimeout "Strategy Engine request timed out")
    (Exn StrategyEngineProjectionNetworkFailure "Strategy Engine network transport failed")
    decode.

Definition project_live_entry (request : LiveEntryProjectionRequest) :
    W -> W * result LiveEntryProjectionResponse :=
  _send LIVE_ENTRY_PATH (encode_live_entry_request request) decode_live_entry_response.

Definition project_open_trade (request : OpenTradeProjectionRequest) :
    W -> W * result OpenTradeProjectionResponse :=
  _send OPEN_TRADE_PATH (encode_open_trade_request request) decode_open_trade_response.

Definition build_feature_plan (strategy_id : string) (raw_spec : dict json) :
    W -> W * result (dict json) :=
  _send (_feature_plan_path strategy_id) (encode_feature_plan_request strategy_id raw_spec)
    decode_feature_plan_response.

(** The ports the bootstrap wires: the services over HTTP, the rest as it is. *)
Definition http_ports (rest : Ports W) : Ports W := {|
  port_lookup := lookup;
  port_send := send;
  port_query := query;
  port_apply_protection := apply_protection;
  port_close_position := close_position;
  port_cancel_entry_remainder := cancel_entry_remainder;
  port_project_live_entry := project_live_entry;
  port_project_open_trade := project_open_trade;
  port_load_snapshot := port_load_snapshot;
  port_set_enabled := port_set_enabled;
  port_read_original := port_read_original;
  port_move_to_trash := port_move_to_trash;
  port_new_trade_cycle_id := port_new_trade_cycle_id;
  port_try_lock := port_try_lock |}.
End adapters.

(** * Paths identify what they address *)

(** How a server reads a segment back: the bytes of the text. *)
Fixpoint unquote (l : list ascii) : list ascii :=
  match l with
  | c :: l1 =>
      if decide (c = "%"%char) then
        match l1 with
        | h1 :: h2 :: l2 =>
            match hex_value h1, hex_value h2 with
            | Some a, Some b => ascii_of_N (a * 16 + b) :: unquote l2
            | _, _ => c :: unquote l1
            end
        | _ => c :: unquote l1
        end
      else c :: unquote l1
  | [] => []
  end.

Lemma unquote_quote_byte c l : unquote (quote_byte c ++ l) = c :: unquote l.
Proof. destruct c as [[] [] [] [] [] [] [] []]; reflexivity. Qed.

Lemma unquote_quoted l : unquote (flat_map quote_byte l) = l.
Proof. induction l as [|c l IH]; [done|]. cbn [flat_map]. by rewrite unquote_quote_byte, IH. Qed.

Lemma segment_reads_back value : unquote (encode_opaque_path_segment value) = utf8 (chars value).
Proof.
  unfold encode_opaque_path_segment. destruct (_ || _) eqn:Hd; [|apply unquote_quoted].
  rewrite orb_true_iff, !bool_decide_eq_true in Hd. by destruct Hd as [-> | ->].
Qed.

Lemma segment_inj v v' :
  encode_opaque_path_segment v = encode_opaque_path_segment v' -> v = v'.
Proof.
  intros H%(f_equal unquote). rewrite !segment_reads_back in H.
  apply (f_equal utf8_decode) in H. rewrite !utf8_decode_utf8 in H. injection H as H.
  rewrite <- (text_chars v), <- (text_chars v'). by f_equal.
Qed.

Lemma quote_byte_no_slash c : "/"%char ∉ quote_byte c.
Proof. apply (bool_decide_unpack _). by destruct c as [[] [] [] [] [] [] [] []]. Qed.

Lemma segment_no_slash v : "/"%char ∉ encode_opaque_path_segment v.
Proof.
  unfold encode_opaque_path_segment. destruct (_ || _) eqn:Hd.
  - rewrite orb_true_iff, !bool_decide_eq_true in Hd.
    destruct Hd as [-> | ->]; apply (bool_decide_unpack _); reflexivity.
  - unfold quote. rewrite list_elem_of_In, in_flat_map. intros (c & _ & Hc).
    apply list_elem_of_In in Hc. by apply quote_byte_no_slash in Hc.
Qed.

(** A relative reference would be resolved away: no segment is one. *)
Lemma segment_not_relative v :
  encode_opaque_path_segment v <> chars "." /\ encode_opaque_path_segment v <> chars "..".
Proof.
  assert (forall dots, dots = "." \/ dots = ".." -> encode_opaque_path_segment v <> chars dots) as H.
  { intros dots Hd Heq. assert (v = dots) as ->.
    { apply (f_equal unquote) in Heq. rewrite segment_reads_back in Heq.
      apply (f_equal utf8_decode) in Heq. rewrite utf8_decode_utf8 in Heq.
      rewrite <- (text_chars v). destruct Hd as [-> | ->]; injection Heq as ->; done. }
    by destruct Hd as [-> | ->]. }
  split; apply H; auto.
Qed.

Lemma split_at_slash (a b x y : list ascii) :
  "/"%char ∉ a -> "/"%char ∉ b -> a ++ "/"%char :: x = b ++ "/"%char :: y -> a = b /\ x = y.
Proof.
  revert b. induction a as [|c a IH]; intros [|d b] Ha Hb; simpl; intros H;
    [by injection H|injection H as Hc H; subst; set_solver..|injection H as Hc H].
  apply not_elem_of_cons in Ha as [_ Ha], Hb as [_ Hb].
  destruct (IH b Ha Hb H) as [-> ->]. by subst.
Qed.

Definition ABI_OPERATIONS : list string :=
  ["/open-position"; "/recovery-state"; "/entry-package"; "/protection"; "/close";
   "/entry-remainder/cancel"].

Lemma operation_slash op : op ∈ ABI_OPERATIONS -> exists r, chars op = "/"%char :: r.
Proof. unfold ABI_OPERATIONS. set_unfold. intros H. destruct_or!; subst; by eexists. Qed.

(** The path of a call identifies the operation, the instance and the cycle: calls
    for different cycles or operations never share a path, each segment is read back as its
    text and is not a relative reference - whatever characters the identities contain. *)
Theorem paths_identify_cycles id cycle op id' cycle' op' :
  op ∈ ABI_OPERATIONS -> op' ∈ ABI_OPERATIONS ->
  (cycle_path id cycle op = cycle_path id' cycle' op' <-> id = id' /\ cycle = cycle' /\ op = op') /\
  (forall v, v = id \/ v = cycle ->
     utf8_decode (unquote (encode_opaque_path_segment v)) = Ok (chars v) /\
     "/"%char ∉ encode_opaque_path_segment v /\
     encode_opaque_path_segment v <> chars "." /\ encode_opaque_path_segment v <> chars "..").
Proof.
  intros (r & Hr)%operation_slash (r' & Hr')%operation_slash. split.
  - split; [|by intros (-> & -> & ->)]. unfold cycle_path. rewrite Hr, Hr'.
    intros H%(app_inv_head (chars "/v1/strategy-instances/")).
    change (chars "/trade-cycles/") with ("/"%char :: chars "trade-cycles/") in H. simpl in H.
    apply split_at_slash in H as [Hid H]; [|apply segment_no_slash..].
    change (chars "trade-cycles/" ++ encode_opaque_path_segment cycle ++ "/"%char :: r
      = chars "trade-cycles/" ++ encode_opaque_path_segment cycle' ++ "/"%char :: r') in H.
    apply app_inv_head in H. apply split_at_slash in H as [Hcycle H]; [|apply segment_no_slash..].
    apply segment_inj in Hid, Hcycle. split_and!; [done|done|].
    rewrite <- (text_chars op), <- (text_chars op'), Hr, Hr'. by rewrite H.
  - intros v _. rewrite segment_reads_back, utf8_decode_utf8.
    split; [done|]. split; [apply segment_no_slash|apply segment_not_relative].
Qed.

(** * What the adapters raise *)

Section errors.
Context {W : Type} (abi engine : http_request -> W -> W * http_outcome).

(** An exception that is neither of the two the adapters name. *)
Definition unexpected (client : http_request -> W -> W * http_outcome) (e : exn) : Prop :=
  exists request w, (client request w).2 = OtherFailure e.

Lemma attempt_once_raises {A} client request timed_out network_failure
    (decode : Z -> option string -> list ascii -> result A) w (P : exn -> Prop) :
  P timed_out -> P network_failure ->
  (forall status ct content, raises P (decode status ct content)) ->
  raises (fun e => P e \/ unexpected client e)
    (attempt_once client request timed_out network_failure decode w).2.
Proof.
  intros Ht Hn Hd. unfold attempt_once. destruct (client request w) as [w' outcome] eqn:Hc.
  destruct outcome as [status ct content| | |e]; simpl; [|by left..|].
  - eapply raises_weaken; [apply Hd|]. by left.
  - right. exists request, w. by rewrite Hc.
Qed.

Lemma attempt_once_world {A} client request timed_out network_failure
    (decode : Z -> option string -> list ascii -> result A) (w : W) :
  (attempt_once client request timed_out network_failure decode w).1 = (client request w).1.
Proof. unfold attempt_once. by destruct (client request w) as [w' []]. Qed.

(** One call makes one request of the client. When the request was answered, timed out or
    failed in the transport, what the call raises is of the class its callers' [except] clause
    names, or [outside_model] for an answer with a text the model has no characters for; any
    other exception of the client goes through as it is. *)
Definition one_named_attempt {A} (client : http_request -> W -> W * http_outcome)
    (named : exn_class -> bool) (m : W -> W * result A) : Prop :=
  forall w, exists request, (m w).1 = (client request w).1 /\
    match (client request w).2 with
    | OtherFailure e => (m w).2 = Raise e
    | _ => raises (fun e => named (exn_cls e) = true \/ e = outside_model) (m w).2
    end.

Lemma attempt_once_named {A} client named request timed_out network_failure
    (decode : Z -> option string -> list ascii -> result A) :
  named (exn_cls timed_out) = true -> named (exn_cls network_failure) = true ->
  (forall status ct content,
     raises (fun e => named (exn_cls e) = true \/ e = outside_model) (decode status ct content)) ->
  one_named_attempt client named (attempt_once client request timed_out network_failure decode).
Proof.
  intros Ht Hn Hd w. exists request. split; [apply attempt_once_world|]. unfold attempt_once.
  destruct (client request w) as [w' [status ct content| | |e]]; simpl; [apply Hd|by left..|done].
Qed.

(** The errors of runtime/engine/errors.py. *)
Definition is_strategy_engine_projection_error (c : exn_class) : bool :=
  match c with
  | StrategyEngineProjectionPublicError _ _ | StrategyEngineMarketStreamNotFound
  | StrategyEngineProjectionTimeout | StrategyEngineProjectionNetworkFailure
  | StrategyEngineProjectionProtocolError => true
  | _ => false
  end.

Lemma projection_error_named {A} status (r : result A) : raises (projection_error status) r ->
  raises (fun e => is_strategy_engine_projection_error (exn_cls e) = true \/ e = outside_model) r.
Proof.
  intros Hr. eapply raises_weaken; [exact Hr|].
  intros e [He|[He|[_ [[He _]|[code He]]]]]; [left; by rewrite He|by right|left; by rewrite He..].
Qed.
End errors.

Section ports.
Context {W : Type} (abi engine : http_request -> W -> W * http_outcome) (rest : Ports W).
#[local] Instance wired : Ports W := http_ports abi engine rest.

(** C19. Over HTTP each call of a port makes exactly one request of its service. When the
    service answers, whatever it answers, or the request times out or fails in the transport, the
    call raises only errors of the port's own hierarchy, the ones the orchestrators' [except]
    clauses name; the limit of the model, [outside_model] for a text with a character above 255,
    is the one addition. An exception of the client that is neither a timeout nor a transport
    error is not caught: it goes through unchanged. For a protection this needs the levels of
    the command to be canonical, as every protection the runtime decides is. *)
Theorem http_calls_raise_named_errors :
  (forall q, one_named_attempt abi is_open_position_resolution_error (port_lookup q)) /\
  (forall q, one_named_attempt abi is_abi_entry_package_client_error (port_send q)) /\
  (forall id cycle,
     one_named_attempt abi is_abi_entry_cycle_recovery_client_error (port_query id cycle)) /\
  (forall c, DesiredProtection_post_init (apc_desired_protection c) =
       Ok (apc_desired_protection c) ->
     one_named_attempt abi is_position_management_execution_error (port_apply_protection c)) /\
  (forall c, one_named_attempt abi is_position_management_execution_error (port_close_position c)) /\
  (forall id cycle, one_named_attempt abi is_position_management_execution_error
     (port_cancel_entry_remainder id cycle)) /\
  (forall q, one_named_attempt engine is_strategy_engine_projection_error
     (port_project_live_entry q)) /\
  (forall q, one_named_attempt engine is_strategy_engine_projection_error
     (port_project_open_trade q)).
Proof.
  split_and!; intros; apply attempt_once_named; try done; intros status ct content.
  - apply open_position_raises.
  - eapply raises_weaken; [apply entry_package_raises|].
    intros e [He|He]; [left; by rewrite He|by right].
  - apply recovery_raises.
  - by apply apply_protection_raises.
  - apply close_position_raises.
  - apply cancel_remainder_raises.
  - eapply projection_error_named, live_entry_raises.
  - eapply projection_error_named, open_trade_raises.
Qed.
End ports.

(** ** Examples *)

Lemma paths_identify_cycles_witness :
  "/close" ∈ ABI_OPERATIONS /\
  (cycle_path "a/b" ".." "/close" = cycle_path "a/b" ".." "/close" <->
   "a/b" = "a/b" /\ ".." = ".." /\ "/close" = "/close") /\
  encode_opaque_path_segment ".." = chars "%2E%2E" /\
  encode_opaque_path_segment "a/b" = chars "a%2Fb".
Proof.
  assert ("/close" ∈ ABI_OPERATIONS) as Hc by (apply (bool_decide_unpack _); reflexivity).
  split; [exact Hc|]. split; [|split; vm_compute; reflexivity].
  exact (proj1 (paths_identify_cycles "a/b" ".." "/close" "a/b" ".." "/close" Hc Hc)).
Defined.

(** A service that answers from a list, and then no more. *)
Definition listed (request : http_request) (answers : list http_outcome) :
    list http_outcome * http_outcome :=
  match answers with a :: answers => (answers, a) | [] => ([], TransportError) end.

(** The other ports of the example. *)
Definition idle_ports : Ports (list http_outcome) := {|
  port_lookup := fun _ w => (w, raise AssertionError EmptyString);
  port_send := fun _ w => (w, raise AssertionError EmptyString);
  port_query := fun _ _ w => (w, raise AssertionError EmptyString);
  port_apply_protection := fun _ w => (w, raise AssertionError EmptyString);
  port_close_position := fun _ w => (w, raise AssertionError EmptyString);
  port_cancel_entry_remainder := fun _ _ w => (w, raise AssertionError EmptyString);
  port_project_live_entry := fun _ w => (w, raise AssertionError EmptyString);
  port_project_open_trade := fun _ w => (w, raise AssertionError EmptyString);
  port_load_snapshot := fun w => (w, raise AssertionError EmptyString);
  port_set_enabled := fun _ _ w => (w, raise AssertionError EmptyString);
  port_read_original := fun _ w => (w, raise AssertionError EmptyString);
  port_move_to_trash := fun _ _ w => (w, raise AssertionError EmptyString);
  port_new_trade_cycle_id := fun w => (w, EmptyString);
  port_try_lock := fun _ w => (w, true) |}.

Lemma http_calls_raise_named_errors_witness :
  one_named_attempt listed is_position_management_execution_error
    (apply_protection listed sample_apply_command) /\
  apply_protection listed sample_apply_command
    [TimeoutException; Response 200 json_utf8 (utf8 (write (protection_body "95")))] =
  ([Response 200 json_utf8 (utf8 (write (protection_body "95")))],
   raise PositionManagementExecutionTimeout "ABI apply_protection request timed out").
Proof.
  split; [|reflexivity].
  pose proof (http_calls_raise_named_errors listed listed idle_ports) as (_ & _ & _ & Hp & _).
  exact (Hp sample_apply_command eq_refl).
Defined.
