(* ===== verification/JsonlRepository.v ===== *)
(** The durable state repository (infrastructure/runtime_state/jsonl_repository.py): one
    append-only file of records, an index in memory, replay at construction, and the poison
    that stops the repository after a physical write of unknown fate.

    The file is the list of its bytes. What the disk does to each append is an argument: a
    list of outcomes, one per append, after which every append succeeds. The class holds its
    lock during each whole operation, so an operation is one atomic step. *)
From S2P Require Import Prelude Errors DecimalText DecimalCanonical Models Json JsonFacts Contracts Effects Repository Scripted StateCodec.

Module Jsonl.

(** * The lines of a file *)

(** The separators of [str.splitlines] below 256. *)
Definition is_line_break (c : ascii) : bool :=
  let n := N_of_ascii c in
  ((10 <=? n) && (n <=? 13) || (28 <=? n) && (n <=? 30) || (n =? 133))%N.

(** [str.splitlines()]; a carriage return and a line feed are one separator, so the newline
    translation of [read_text] changes nothing. *)
Fixpoint splitlines (l : list ascii) : list (list ascii) :=
  match l with
  | [] => []
  | c :: l =>
      if is_line_break c then
        [] :: match l with
              | d :: l' =>
                  if decide (c = "013"%char /\ d = "010"%char) then splitlines l'
                  else splitlines l
              | [] => []
              end
      else
        match splitlines l with
        | [] => [[c]]
        | line :: lines => (c :: line) :: lines
        end
  end.

(** * Replay *)

Definition states := InMemory.states.

Fixpoint replay_lines (lines : list (list ascii)) (st : states) : result states :=
  match lines with
  | [] => Ok st
  | raw_line :: lines =>
      match decode_state_line (text raw_line) with
      | Ok state => replay_lines lines (dset (st_strategy_instance_id state) state st)
      | Raise e =>
          if decide (exn_cls e = JSONDecodeError) then
            match lines with
            | [] => Ok st
            | _ => raise StrategyInstanceStateReplayError
                "is not the file's last line and cannot be parsed as JSON"
            end
          else if decide (exn_cls e = StateRecordDecodeError) then
            raise StrategyInstanceStateReplayError
              "parses as JSON but fails schema/domain validation"
          else Raise e
      end
  end.

(** [_replay]: a file that does not exist is an empty log. *)
Definition replay (file : option (list ascii)) : result states :=
  match file with
  | None => Ok []
  | Some bytes => l ← utf8_decode bytes; replay_lines (splitlines l) []
  end.

(** * The repository *)

(** What the disk does to one append: all bytes are durable; or the parent directory cannot
    be made; or only the first [n] bytes reach the file (a failed [fsync] included, where all
    of them may have) and the call raises. *)
Inductive outcome :=
| Written
| DirectoryFails (e : exn)
| Torn (n : nat) (e : exn).

Record repo := Repo {
  file : option (list ascii);
  _states : states;
  _poison : option exn;
  disk : list outcome }.

(** [__init__] *)
Definition init (f : option (list ascii)) (d : list outcome) : result repo :=
  st ← replay f; Ok (Repo f st None d).

Definition _check_not_poisoned (r : repo) : result unit :=
  match _poison r with
  | Some _ => raise StrategyInstanceStateStorePoisoned
      "a prior physical write failed with an ambiguous on-disk outcome"
  | None => Ok tt
  end.

Definition next_outcome (r : repo) : outcome := default Written (head (disk r)).

(** The file after [bytes] were appended. *)
Definition extend (f : option (list ascii)) (bytes : list ascii) : option (list ascii) :=
  Some (default [] f ++ bytes).

Definition line_bytes (line : string) : list ascii := utf8 (chars line ++ ["010"%char]).

Definition _append (state : StrategyInstanceRuntimeState) (r : repo) : repo * result unit :=
  match encode_state_line state with
  | Raise e => (r, Raise e)
  | Ok line =>
      match next_outcome r with
      | DirectoryFails e => (Repo (file r) (_states r) (_poison r) (tail (disk r)), Raise e)
      | Written =>
          (Repo (extend (file r) (line_bytes line)) (_states r) (_poison r) (tail (disk r)),
           Ok tt)
      | Torn n e =>
          (Repo (extend (file r) (take n (line_bytes line))) (_states r) (Some e)
             (tail (disk r)), Raise e)
      end
  end.

(** [self._append(state); self._states[...] = state; return state] *)
Definition append_and_index (state : StrategyInstanceRuntimeState) (r : repo) :
    repo * result StrategyInstanceRuntimeState :=
  match _append state r with
  | (r, Raise e) => (r, Raise e)
  | (r, Ok _) =>
      (Repo (file r) (dset (st_strategy_instance_id state) state (_states r)) (_poison r)
         (disk r), Ok state)
  end.

Definition get_or_create (request : GetOrCreateStrategyInstanceRuntimeStateRequest) (r : repo) :
    repo * result StrategyInstanceRuntimeState :=
  match _check_not_poisoned r with
  | Raise e => (r, Raise e)
  | Ok _ =>
      match dget (gc_strategy_instance_id request) (_states r) with
      | Some existing =>
          if decide (st_strategy_id existing = gc_strategy_id request) then (r, Ok existing)
          else (r, raise StrategyInstanceIdentityConflict (gc_strategy_instance_id request))
      | None =>
          match initial_state request with
          | Ok state => append_and_index state r
          | Raise e => (r, Raise e)
          end
      end
  end.

Definition get (id : string) (r : repo) : repo * result (option StrategyInstanceRuntimeState) :=
  (r, _ ← require_non_empty_string id "strategy_instance_id";
      _ ← _check_not_poisoned r; Ok (dget id (_states r))).

Definition save (state : StrategyInstanceRuntimeState) (r : repo) :
    repo * result StrategyInstanceRuntimeState :=
  let id := st_strategy_instance_id state in
  match _check_not_poisoned r with
  | Raise e => (r, Raise e)
  | Ok _ =>
      match dget id (_states r) with
      | None => (r, raise StrategyInstanceStateNotFound id)
      | Some existing =>
          if negb (bool_decide (st_strategy_id existing = st_strategy_id state)) then
            (r, raise StrategyInstanceIdentityConflict id)
          else if negb (snapshot_eqb (st_registered_spec_snapshot existing)
                          (st_registered_spec_snapshot state)) then
            (r, raise StrategyInstanceRegistrationConflict id)
          else append_and_index state r
      end
  end.

Definition list_ids_with_pending_entry_recovery (r : repo) : repo * result (list string) :=
  (r, _ ← _check_not_poisoned r;
      Ok (InMemory.list_ids_with_pending_entry_recovery (_states r))).

Definition list_ids_with_pending_close_recovery (r : repo) : repo * result (list string) :=
  (r, _ ← _check_not_poisoned r;
      Ok (InMemory.list_ids_with_pending_close_recovery (_states r))).

(** ** The laws of the port *)

Lemma append_states s r r' o : _append s r = (r', o) -> _states r' = _states r.
Proof.
  unfold _append. destruct (encode_state_line s); [|by intros [= <- _]].
  destruct (next_outcome r); by intros [= <- _].
Qed.

Lemma append_and_index_cases s r r' o : append_and_index s r = (r', o) ->
  (o = Ok s /\ _states r' = dset (st_strategy_instance_id s) s (_states r)) \/
  ((exists e, o = Raise e) /\ _states r' = _states r).
Proof.
  unfold append_and_index. destruct (_append s r) as [r1 [[]|e]] eqn:Ha; intros [= <- <-];
    apply append_states in Ha; [left|right; eauto]. simpl. by rewrite Ha.
Qed.

Lemma append_and_index_consistent s r :
  InMemory.consistent (_states r) -> InMemory.consistent (_states (append_and_index s r).1).
Proof.
  intros Hc. destruct (append_and_index s r) as [r' o] eqn:Ha.
  apply append_and_index_cases in Ha as [[_ Hs]|[_ Hs]]; simpl; rewrite Hs;
    [by apply InMemory.dset_consistent|done].
Qed.

Lemma log_get_or_create_consistent q r :
  InMemory.consistent (_states r) -> InMemory.consistent (_states (get_or_create q r).1).
Proof.
  intros Hc. unfold get_or_create. destruct (_check_not_poisoned r); [|done].
  destruct (dget _ _); [by case_decide|]. destruct (initial_state q); [|done].
  by apply append_and_index_consistent.
Qed.

Lemma log_save_consistent s r :
  InMemory.consistent (_states r) -> InMemory.consistent (_states (save s r).1).
Proof.
  intros Hc. unfold save. destruct (_check_not_poisoned r); [|done]. destruct (dget _ _); [|done].
  destruct (negb _); [done|]. destruct (negb _); [done|]. by apply append_and_index_consistent.
Qed.

(** The repository object, with the invariant of its index. *)
Record repository := Repository {
  jr : repo; jr_consistent : InMemory.consistent (_states jr) }.

#[export] Instance jsonl_repository : Effects.Repository repository := {
  repo_lookup r k := dget k (_states (jr r));
  repo_get_or_create q r :=
    (Repository (get_or_create q (jr r)).1 (log_get_or_create_consistent q _ (jr_consistent r)),
     (get_or_create q (jr r)).2);
  repo_get id r := (r, (get id (jr r)).2);
  repo_save s r :=
    (Repository (save s (jr r)).1 (log_save_consistent s _ (jr_consistent r)), (save s (jr r)).2);
  repo_list_ids_with_pending_entry_recovery r :=
    (r, (list_ids_with_pending_entry_recovery (jr r)).2);
  repo_list_ids_with_pending_close_recovery r :=
    (r, (list_ids_with_pending_close_recovery (jr r)).2) }.

#[export] Instance jsonl_laws : RepositoryLaws repository.
Proof.
  split.
  - intros q [r Hc] r' s [= <- Hr]. unfold same_content, stored; simpl in *.
    unfold get_or_create in *. destruct (_check_not_poisoned r) as [u|e]; [|done].
    destruct (dget _ _) as [old|] eqn:Hk.
    + case_decide; simplify_eq/=. left. auto.
    + destruct (initial_state q) as [s'|] eqn:Hs; simplify_eq/=.
      destruct (append_and_index s' r) as [r1 o] eqn:Ha. simpl in *.
      apply append_and_index_cases in Ha as [[-> ->]|[[e ->] _]]; simplify_eq.
      right. apply InMemory.initial_state_id in Hs as (-> & _).
      split_and!; [done..|]. intros k. by rewrite dget_dset.
  - intros q [r Hc] r' e [= <- Hr] k; simpl in *. unfold get_or_create in *.
    destruct (_check_not_poisoned r) as [u|e']; [|done].
    destruct (dget (gc_strategy_instance_id q) _); [by case_decide|].
    destruct (initial_state q) as [s'|]; [|done].
    destruct (append_and_index s' r) as [r1 o] eqn:Ha. simpl in *.
    apply append_and_index_cases in Ha as [[-> _]|[_ ->]]; [done|done].
  - intros id [r Hc] r' o [= <- Hr]. simpl in Hr.
    destruct (require_non_empty_string _ _); [|done]. simpl in Hr.
    by destruct (_check_not_poisoned r); simplify_eq/=.
  - intros id [r Hc] r' e [= <- Hr]. done.
  - intros s [r Hc] r' s' [= <- Hr]. unfold stored; simpl in *. unfold save in *.
    destruct (_check_not_poisoned r) as [u|e]; [|done].
    destruct (dget _ _) as [old|] eqn:Hk; [|done].
    destruct (bool_decide _) eqn:H1; [|done].
    destruct (snapshot_eqb _ _) eqn:H2; [|done]. simpl in *.
    destruct (append_and_index s r) as [r1 o] eqn:Ha. simpl in *.
    apply append_and_index_cases in Ha as [[-> ->]|[[e ->] _]]; simplify_eq.
    apply bool_decide_eq_true in H1. split_and!; [done|intros k; by rewrite dget_dset|]. eauto.
  - intros s [r Hc] r' e [= <- Hr] k; simpl in *. unfold save in *.
    destruct (_check_not_poisoned r) as [u|e']; [|done].
    destruct (dget _ _); [|done]. destruct (negb _); [done|]. destruct (negb _); [done|].
    destruct (append_and_index s r) as [r1 o] eqn:Ha. simpl in *.
    by apply append_and_index_cases in Ha as [[-> _]|[_ ->]].
  - intros [r Hc] r' ids [= <- Hr]. split; [done|]. intros id. simpl in *.
    destruct (_check_not_poisoned r); [|done]. simplify_eq/=. by apply InMemory.filter_ids.
  - by intros [r Hc] r' e [= <- _] k.
  - intros [r Hc] r' ids [= <- Hr]. split; [done|]. intros id. simpl in *.
    destruct (_check_not_poisoned r); [|done]. simplify_eq/=. by apply InMemory.filter_ids.
  - by intros [r Hc] r' e [= <- _] k.
  - intros [r Hc] k s Hk. simpl in *. by apply Hc.
Qed.

(** * Recovery *)

(** The states this part is about: built by the constructors, with an encodable
    specification and ASCII texts only. *)
Record recordable (s : StrategyInstanceRuntimeState) : Prop := {
  rec_well_formed : well_formed_state s;
  rec_json : json_ok (JObj (rs_raw_spec (st_registered_spec_snapshot s))) = true;
  rec_ascii : all_chars is_ascii (encode_envelope s) = true;
  rec_line : is_ok (encode_state_line s) = true }.

(** The bytes of one record. *)
Definition record_bytes (s : StrategyInstanceRuntimeState) : list ascii :=
  match encode_state_line s with Ok line => line_bytes line | Raise _ => [] end.

(** A log is the records of a history of states; its index keeps the last state per
    instance. *)
Definition log_of (h : list StrategyInstanceRuntimeState) : list ascii := flat_map record_bytes h.
Definition index_from (st : states) (h : list StrategyInstanceRuntimeState) : states :=
  foldl (fun st s => dset (st_strategy_instance_id s) s st) st h.
Definition index_of := index_from [].

(** ** Text *)

Lemma printed_no_break c : is_printed c = true -> is_line_break c = false /\ is_ascii c = true.
Proof. by_code_point. Qed.

Lemma splitlines_line x l : forallb is_printed x = true ->
  splitlines (x ++ "010"%char :: l) = x :: splitlines l.
Proof.
  induction x as [|c x IH]; simpl.
  - intros _. by destruct l.
  - intros [[Hc _]%printed_no_break Hx]%andb_true_iff. by rewrite Hc, IH.
Qed.

Lemma splitlines_tail x : x <> [] -> forallb is_printed x = true -> splitlines x = [x].
Proof.
  induction x as [|c x IH]; [done|]. simpl. intros _ [[Hc _]%printed_no_break Hx]%andb_true_iff.
  rewrite Hc. destruct x as [|d x]; [done|]. by rewrite IH.
Qed.

(** ** One record *)

Lemma record_line s : recordable s -> exists l,
  record_bytes s = l ++ ["010"%char] /\ forallb is_printed l = true /\ l <> [] /\
  decode_state_line (text l) = Ok (read_back s) /\
  forall p, cut p l -> syntax_error (loads (text p)).
Proof.
  intros [Hw Hj Ha Hl]. unfold record_bytes.
  destruct (encode_state_line s) as [line|] eqn:He; [|done].
  pose proof (json_ok_envelope s Hj) as Hje. destruct (dumps_Ok _ _ He Hje) as [Ht Hp].
  assert (forallb is_printed (chars line) = true) as Hpr.
  { rewrite Ht, chars_text. apply write_printed; [by apply all_chars_sort|].
    by apply andb_true_iff in Hp as [? _]. }
  exists (chars line). split_and!; [|done| | |].
  - unfold line_bytes. apply utf8_ascii. rewrite forallb_app, andb_true_iff. split; [|done].
    rewrite forallb_forall in *. intros c Hc. by apply printed_no_break, Hpr.
  - rewrite Ht, chars_text. destruct (write_head _ _ Hp) as (c & l & -> & _). done.
  - rewrite text_chars. unfold decode_state_line. rewrite (loads_dumps _ _ He Hje).
    unfold mbind, result_bind. by rewrite decode_envelope_encoded.
  - intros p Hcut. by eapply loads_cut.
Qed.

Lemma record_ascii s : recordable s -> forallb is_ascii (record_bytes s) = true.
Proof.
  intros (l & -> & Hl & _)%record_line. rewrite forallb_app, andb_true_iff. split; [|done].
  rewrite forallb_forall in *. intros c Hc. by apply printed_no_break, Hl.
Qed.

Lemma replay_record s p st : recordable s ->
  replay_lines (splitlines (record_bytes s ++ p)) st =
    replay_lines (splitlines p) (dset (st_strategy_instance_id s) (read_back s) st).
Proof.
  intros (l & -> & Hl & _ & Hd & _)%record_line. rewrite <- app_assoc. simpl.
  rewrite splitlines_line by done. simpl. by rewrite Hd.
Qed.

Lemma replay_log h p st : Forall recordable h ->
  replay_lines (splitlines (log_of h ++ p)) st =
    replay_lines (splitlines p) (index_from st (map read_back h)).
Proof.
  intros Hh. revert st. induction Hh as [|s h Hs _ IH]; intros st; [done|].
  change (log_of (s :: h)) with (record_bytes s ++ log_of h).
  rewrite <- app_assoc, replay_record by done. by rewrite IH.
Qed.

Lemma log_ascii h : Forall recordable h -> forallb is_ascii (log_of h) = true.
Proof.
  induction 1 as [|s h Hs _ IH]; [done|]. unfold log_of. simpl. rewrite forallb_app.
  by rewrite record_ascii.
Qed.

(** A record that was torn is discarded, or read when all of it but the newline arrived. *)
Lemma replay_torn s p st : recordable s -> p `prefix_of` record_bytes s ->
  replay_lines (splitlines p) st = Ok st \/
  replay_lines (splitlines p) st = Ok (dset (st_strategy_instance_id s) (read_back s) st).
Proof.
  intros Hs Hp. destruct (record_line s Hs) as (l & Hl & Hpr & Hne & Hd & Hcut).
  rewrite Hl in Hp. apply prefix_app_cases in Hp as [(q & -> & Hq)|Hc].
  - right. destruct q as [|c q].
    + rewrite app_nil_r, splitlines_tail by done. simpl. by rewrite Hd.
    + pose proof (prefix_cons_inv_1 _ _ _ _ Hq) as ->. apply prefix_cons_inv_2, prefix_nil_inv in Hq as ->.
      rewrite splitlines_line by done. simpl. by rewrite Hd.
  - left. destruct (decide (p = [])) as [->|Hp0]; [done|].
    destruct (Hcut p Hc) as [msg He]. destruct Hc as [[q ->] _].
    rewrite forallb_app in Hpr. apply andb_true_iff in Hpr as [Hpr _].
    rewrite splitlines_tail by done. simpl. unfold decode_state_line. by rewrite He.
Qed.

Lemma replay_file h p : Forall recordable h -> forallb is_ascii p = true ->
  replay (Some (log_of h ++ p)) = replay_lines (splitlines p) (index_of (map read_back h)).
Proof.
  intros Hh Hp. unfold replay. rewrite utf8_decode_ascii
    by (by rewrite forallb_app, log_ascii).
  apply (replay_log h p [] Hh).
Qed.

(** ** Restart: what was read is what was written *)

Lemma encode_read_back s : sort_json (encode_envelope (read_back s)) = sort_json (encode_envelope s).
Proof.
  unfold encode_envelope, encode_aggregate. rewrite !sort_json_object. cbn [map fst snd].
  unfold read_back, with_raw_spec. cbn [st_strategy_instance_id st_strategy_id
    st_registered_spec_snapshot st_risk_multiplier st_current_trade_cycle
    st_pending_entry_recovery st_pending_close_recovery].
  assert (forall sn, sort_json (encode_snapshot {| rs_instrument := rs_instrument sn;
      rs_base_timeframe := rs_base_timeframe sn; rs_raw_spec := sorted_spec (rs_raw_spec sn);
      rs_source_path := rs_source_path sn |}) = sort_json (encode_snapshot sn)) as ->; [|done].
  intros sn. unfold encode_snapshot. rewrite !sort_json_object. cbn [map fst snd rs_raw_spec
    rs_instrument rs_base_timeframe rs_source_path].
  unfold sorted_spec. rewrite <- (sort_json_object (rs_raw_spec sn)). by rewrite sort_json_idempotent.
Qed.

Lemma read_back_idempotent s : read_back (read_back s) = read_back s.
Proof.
  unfold read_back, with_raw_spec. simpl. do 2 f_equal. unfold sorted_spec.
  pose proof (sort_json_idempotent (JObj (rs_raw_spec (st_registered_spec_snapshot s)))) as H.
  rewrite !sort_json_object in H. by injection H.
Qed.

Lemma record_bytes_read_back s : record_bytes (read_back s) = record_bytes s.
Proof.
  unfold record_bytes, encode_state_line. by rewrite (dumps_sort _ _ (encode_read_back s)).
Qed.

Lemma read_back_recordable s : recordable s -> recordable (read_back s).
Proof.
  intros [Hw Hj Ha Hl]. split.
  - destruct Hw as [H1 H2 H3 H4 H5]. split; try done; [by apply with_raw_spec_valid|].
    simpl. unfold RegisteredSpecSnapshot_post_init in *. simpl.
    by repeat (apply result_bind_Ok in H2 as (? & -> & H2)).
  - assert (ints_printable (encode_envelope s) = true) as Hi.
    { unfold encode_state_line, dumps in Hl. by destruct (ints_printable _). }
    assert (printable (JObj (rs_raw_spec (st_registered_spec_snapshot s))) = true) as Hp.
    { unfold printable_in. rewrite Hj. simpl in Hi. by apply andb_true_iff in Hi as [[Hi _]%andb_true_iff _]. }
    apply printable_sort in Hp. by apply andb_true_iff in Hp as [? _].
  - apply all_chars_sort in Ha. rewrite <- encode_read_back in Ha.
    rewrite <- (all_chars_sort_eq is_ascii). done.
  - unfold encode_state_line. by rewrite (dumps_sort _ _ (encode_read_back s)).
Qed.

(** ** The invariant of a running repository *)

(** The index as a replay gives it back. *)
Definition read_index (st : states) : states := map (fun e => (e.1, read_back e.2)) st.

Lemma dset_read_index s st :
  read_index (dset (st_strategy_instance_id s) s st) =
    dset (st_strategy_instance_id s) (read_back s) (read_index st).
Proof.
  unfold read_index. generalize (st_strategy_instance_id s). intros k.
  induction st as [|[k' s'] st IH]; simpl; [done|]. case_decide; simpl; [done|]. by rewrite IH.
Qed.

Lemma index_read_back h st :
  index_from (read_index st) (map read_back h) = read_index (index_from st h).
Proof.
  revert st. induction h as [|s h IH]; intros st; [done|]. simpl.
  rewrite <- IH, dset_read_index. done.
Qed.

Lemma index_of_app h s :
  index_of (h ++ [s]) = dset (st_strategy_instance_id s) s (index_of h).
Proof. unfold index_of, index_from. by rewrite foldl_app. Qed.

Lemma log_of_app h s : log_of (h ++ [s]) = log_of h ++ record_bytes s.
Proof. unfold log_of. rewrite flat_map_app. simpl. by rewrite app_nil_r. Qed.

(** The operations of the port. *)
Inductive op :=
| OpGetOrCreate (request : GetOrCreateStrategyInstanceRuntimeStateRequest)
| OpGet (strategy_instance_id : string)
| OpSave (state : StrategyInstanceRuntimeState)
| OpListEntry
| OpListClose.

Definition perform (o : op) (r : repo) : repo :=
  match o with
  | OpGetOrCreate q => (get_or_create q r).1
  | OpGet id => (get id r).1
  | OpSave s => (save s r).1
  | OpListEntry => (list_ids_with_pending_entry_recovery r).1
  | OpListClose => (list_ids_with_pending_close_recovery r).1
  end.

Definition perform_all (ops : list op) (r : repo) : repo := foldl (fun r o => perform o r) r ops.

(** The state an operation may store. *)
Definition stores (o : op) (s : StrategyInstanceRuntimeState) : Prop :=
  match o with
  | OpGetOrCreate q => initial_state q = Ok s
  | OpSave state => s = state
  | _ => False
  end.

Section invariant.
(** Which states may be stored. *)
Context (asked : StrategyInstanceRuntimeState -> Prop)
        (Hasked : forall s, asked s -> recordable s).

(** The index is that of the history [h]; the file is the log of [h], followed, once the
    repository is poisoned, by a part of one more record [s]. *)
Record recorded (h : list StrategyInstanceRuntimeState) (r : repo) : Prop := {
  log_recordable : Forall recordable h;
  log_index : _states r = index_of h;
  log_file : match _poison r with
    | None => default [] (file r) = log_of h
    | Some _ => exists s p, asked s /\ p `prefix_of` record_bytes s /\
        file r = Some (log_of h ++ p)
    end }.

Lemma take_prefix {A} n (l : list A) : take n l `prefix_of` l.
Proof. exists (drop n l). by rewrite take_drop. Qed.

Lemma append_and_index_recorded h s r : asked s -> _poison r = None -> recorded h r ->
  exists h', recorded h' (append_and_index s r).1.
Proof.
  intros Hs Hp [Hh Hi Hf]. rewrite Hp in Hf. unfold append_and_index, _append.
  assert (forall line, encode_state_line s = Ok line -> record_bytes s = line_bytes line) as Hb
    by (intros line Hl; unfold record_bytes; by rewrite Hl).
  destruct (encode_state_line s) as [line|] eqn:Hl; [|exists h; split; simpl; by rewrite ?Hp].
  specialize (Hb line eq_refl). destruct (next_outcome r) as [|e|n e]; simpl.
  - exists (h ++ [s]). split; simpl.
    + apply Forall_app. split; [done|]. by apply Forall_singleton, Hasked.
    + by rewrite Hi, index_of_app.
    + rewrite Hp. unfold extend. simpl. by rewrite Hf, log_of_app, Hb.
  - exists h. split; simpl; by rewrite ?Hp.
  - exists h. split; simpl; [done|done|]. exists s, (take n (line_bytes line)).
    unfold extend. rewrite Hf, Hb. split; [done|split; [apply take_prefix|done]].
Qed.

Lemma perform_recorded h o r : (forall s, stores o s -> asked s) -> recorded h r -> exists h', recorded h' (perform o r).
Proof.
  intros Ho Hr. destruct o as [q|id|s| |]; simpl; eauto.
  - unfold get_or_create, _check_not_poisoned. destruct (_poison r) eqn:Hp; simpl; [eauto|].
    destruct (dget _ _); [case_decide; eauto|].
    destruct (initial_state q) as [s|] eqn:Hs; [|eauto].
    eapply append_and_index_recorded; [by apply Ho|done|done].
  - unfold save, _check_not_poisoned. destruct (_poison r) eqn:Hp; simpl; [eauto|].
    destruct (dget _ _); [|eauto]. destruct (negb _); [eauto|]. destruct (negb _); [eauto|].
    eapply append_and_index_recorded; [by apply Ho|done|done].
Qed.

Lemma perform_all_recorded h ops r :
  Forall (fun o => forall s, stores o s -> asked s) ops -> recorded h r ->
  exists h', recorded h' (perform_all ops r).
Proof.
  intros Hops. revert h r. induction Hops as [|o ops Ho _ IH]; intros h r Hr; [by exists h|].
  destruct (perform_recorded h o r Ho Hr) as [h' Hr']. by apply (IH h').
Qed.

(** A replay of the file gives the index, and possibly the one record of unknown fate. *)
Lemma recorded_replay h r : recorded h r ->
  replay (file r) = Ok (read_index (_states r)) \/
  (_poison r <> None /\ exists s, asked s /\
    replay (file r) = Ok (dset (st_strategy_instance_id s) (read_back s)
      (read_index (_states r)))).
Proof.
  intros [Hh Hi Hf]. pose proof (index_read_back h []) as Hx.
  change (index_of (map read_back h) = read_index (index_of h)) in Hx.
  destruct (_poison r) as [e|].
  - destruct Hf as (s & p & Hs & Hp & ->). rewrite Hi.
    assert (forallb is_ascii p = true) as Hpa.
    { pose proof (record_ascii s (Hasked s Hs)) as Ha. destruct Hp as [q Hq]. rewrite Hq in Ha.
      rewrite forallb_app in Ha. by apply andb_true_iff in Ha as [? _]. }
    rewrite replay_file, Hx by done.
    destruct (replay_torn s p (read_index (index_of h)) (Hasked s Hs) Hp) as [->| ->]; [by left|right].
    split; [done|]. by exists s.
  - left. rewrite Hi. destruct (file r) as [f|] eqn:Hfile; simpl in Hf.
    + rewrite Hf, <- (app_nil_r (log_of h)), replay_file by done. by rewrite Hx.
    + destruct h as [|s h]; [done|]. exfalso. apply Forall_cons in Hh as [Hs _].
      apply record_line in Hs as (l & Hl & _). unfold log_of in Hf. simpl in Hf.
      rewrite Hl in Hf. by destruct l.
Qed.

Lemma init_recorded h f d r : Forall recordable h -> f = Some (log_of h) \/ (f = None /\ h = []) ->
  init f d = Ok r -> recorded (map read_back h) r.
Proof.
  intros Hh Hf Hr. unfold init in Hr. apply result_bind_Ok in Hr as (st & Hst & [= <-]).
  assert (log_of (map read_back h) = log_of h) as Hlog.
  { clear. induction h as [|s h IH]; [done|]. unfold log_of in *. simpl.
    by rewrite record_bytes_read_back, IH. }
  split; simpl.
  - apply Forall_fmap. eapply Forall_impl; [exact Hh|]. apply read_back_recordable.
  - destruct Hf as [->|[-> ->]]; [|by injection Hst].
    rewrite <- (app_nil_r (log_of h)), replay_file in Hst by done. by injection Hst.
  - rewrite Hlog. by destruct Hf as [->|[-> ->]].
Qed.

End invariant.

(** C14. Durability, for [recordable] aggregates (well-formed, with an encodable specification
    and ASCII texts only). A repository that was opened on a complete log of such aggregates, or
    on no file, and served any calls that store such aggregates, whatever the disk did to its
    appends (written, failed before anything was written, or torn after any number of bytes,
    after which the repository is poisoned and appends no more), leaves a file whose replay
    succeeds and gives exactly the aggregates the repository serves; after a torn append,
    possibly with the aggregate of that append in addition. [append_after_torn_tail_is_lost] and
    [unreadable_texts] below show that neither condition can be dropped. *)
Theorem replay_recovers_states h f d r0 ops :
  Forall recordable h -> f = Some (log_of h) \/ (f = None /\ h = []) ->
  init f d = Ok r0 -> Forall (fun o => forall s, stores o s -> recordable s) ops ->
  let r := perform_all ops r0 in
  replay (file r) = Ok (read_index (_states r)) \/
  (_poison r <> None /\ exists o s, o ∈ ops /\ stores o s /\ replay (file r) =
    Ok (dset (st_strategy_instance_id s) (read_back s) (read_index (_states r)))).
Proof.
  intros Hh Hf Hr Hops. set (asked s := exists o, o ∈ ops /\ stores o s).
  assert (forall s, asked s -> recordable s) as Ha.
  { intros s (o & Ho & Hs). rewrite Forall_forall in Hops. by apply (Hops o). }
  pose proof (init_recorded asked h f d r0 Hh Hf Hr) as H0.
  assert (Forall (fun o => forall s, stores o s -> asked s) ops) as Hin.
  { apply Forall_forall. intros o Ho s Hs. by exists o. }
  destruct (perform_all_recorded asked Ha _ ops r0 Hin H0) as [h' Hr'].
  destruct (recorded_replay asked Ha _ _ Hr') as [?|(? & s & (o & ? & ?) & ?)]; [by left|right].
  split; [done|]. by exists o, s.
Qed.

(** ** Examples *)

Definition io_error : exn := Exn OSError "disk full".

Lemma sample_recordable cycle pe :
  (forall c, cycle = Some c -> c = sample_cycle None) ->
  (forall m, pe = Some m -> m = {| pe_trade_cycle_id := "c1" |}) ->
  recordable (sample_state cycle pe None).
Proof.
  intros Hc Hp.
  destruct cycle as [c|]; [rewrite (Hc c eq_refl)|]; (destruct pe as [m|]; [rewrite (Hp m eq_refl)|]).
  all: split; [|reflexivity|vm_compute; reflexivity|vm_compute; reflexivity].
  all: split; [reflexivity|reflexivity| | |by intros ?]; intros ? [= <-]; try reflexivity.
  all: split; [reflexivity|reflexivity|vm_compute; reflexivity|by intros ?|by intros ?].
Qed.

Definition sample_request : GetOrCreateStrategyInstanceRuntimeStateRequest :=
  {| gc_strategy_instance_id := "i1"; gc_strategy_id := "s1"; gc_instrument := "BTC";
     gc_base_timeframe := "5m"; gc_raw_spec := []; gc_source_path := "a.json" |}.

(** An instance is created and saved; the third append is torn in the middle. *)
Definition torn_run : repo :=
  perform_all [OpGetOrCreate sample_request; OpSave resting_state; OpSave flat_state]
    (Repo None [] None [Written; Written; Torn 30 io_error]).

Lemma replay_recovers_states_witness :
  replay (file torn_run) = Ok (read_index (_states torn_run)) \/
  (_poison torn_run <> None /\ exists o s,
    o ∈ [OpGetOrCreate sample_request; OpSave resting_state; OpSave flat_state] /\ stores o s /\
    replay (file torn_run) =
      Ok (dset (st_strategy_instance_id s) (read_back s) (read_index (_states torn_run)))).
Proof.
  apply (replay_recovers_states [] None [Written; Written; Torn 30 io_error]
      (Repo None [] None [Written; Written; Torn 30 io_error])
      [OpGetOrCreate sample_request; OpSave resting_state; OpSave flat_state]);
    [constructor|right; split; reflexivity|reflexivity|].
  apply Forall_cons_2; [|apply Forall_cons_2; [|apply Forall_cons_2; [|apply Forall_nil_2]]];
    intros s Hs.
  - assert (initial_state sample_request = Ok flat_state) as He by reflexivity.
    simpl in Hs. rewrite He in Hs. injection Hs as <-. by apply sample_recordable.
  - simpl in Hs. subst s. apply sample_recordable; [congruence|done].
  - simpl in Hs. subst s. by apply sample_recordable.
Defined.

(** The torn append of [torn_run] is discarded: the aggregate saved before it is there. *)
Example torn_append_is_discarded :
  replay (file torn_run) = Ok [("i1", resting_state)] /\
  (get "i1" torn_run).2 = raise StrategyInstanceStateStorePoisoned
    "a prior physical write failed with an ambiguous on-disk outcome".
Proof. split; vm_compute; reflexivity. Qed.

(** The repository that restarts on that file, saves two states, and restarts again. *)
Definition reopened (ops : list op) : result states :=
  r ← init (file torn_run) []; replay (file (perform_all ops r)).

(** The tail that replay tolerates stays in the file: the next record continues on its line
    and is lost at the next replay, and one more makes every replay fail. *)
Example append_after_torn_tail_is_lost :
  (r ← init (file torn_run) []; Ok (save flat_state r).2) = Ok (Ok flat_state) /\
  reopened [OpSave flat_state] = Ok [("i1", resting_state)] /\
  match reopened [OpSave flat_state; OpSave flat_state] with
  | Raise e => exn_cls e = StrategyInstanceStateReplayError
  | Ok _ => False
  end.
Proof. split_and!; vm_compute; reflexivity. Qed.

Definition with_source_path (s : StrategyInstanceRuntimeState) (path : string) :=
  {| st_strategy_instance_id := st_strategy_instance_id s;
     st_strategy_id := st_strategy_id s;
     st_registered_spec_snapshot :=
       {| rs_instrument := "BTC"; rs_base_timeframe := "5m"; rs_raw_spec := [];
          rs_source_path := path |};
     st_risk_multiplier := "1"; st_current_trade_cycle := None;
     st_pending_entry_recovery := None; st_pending_close_recovery := None |}.

(** A text with U+0085 is written raw and splits its record; a record torn inside a
    character of two bytes cannot even be decoded. *)
Example unreadable_texts :
  match replay (Some (record_bytes (with_source_path flat_state (text ["a"; "133"; "b"]%char))
                      ++ record_bytes flat_state)) with
  | Raise e => exn_cls e = StrategyInstanceStateReplayError
  | Ok _ => False
  end /\
  existsb (fun n =>
    match replay (Some (take n (record_bytes (with_source_path flat_state (text ["233"%char]))))) with
    | Raise e => bool_decide (exn_cls e = UnicodeDecodeError)
    | Ok _ => false
    end) (seq 0 300) = true.
Proof. split; vm_compute; reflexivity. Qed.
End Jsonl.

#[export] Existing Instances Jsonl.jsonl_repository Jsonl.jsonl_laws.
