(* ===== verification/ProcessingJournal.v ===== *)
(** The processing journal (utility/processing_journal/models.py, jsonl_adapter.py): the JSONL
    record each journal call writes, the best-effort append that never raises, and what can be
    read back from the file.

    The file is the list of its bytes and what the disk does to each append is an argument, as
    in JsonlRepository.v. The event ids and the timestamps come from two factories; each call
    takes what they return. [freeze_json] and [thaw_json] are the identity on the immutable
    model of JSON. *)
From S2P Require Import Prelude Errors DecimalText DecimalCanonical Models Json JsonFacts JsonPretty JsonLoad Contracts Effects Repository Scripted StateCodec JsonlRepository.

(** * Events *)

Inductive ProcessingJournalEventType :=
| COMMITTED_BAR_ORCHESTRATION_STARTED
| COMMITTED_BAR_ORCHESTRATION_FAILED
| STRATEGY_CYCLE_DISPATCH_SUCCEEDED
| STRATEGY_CYCLE_DISPATCH_FAILED
| COMMITTED_BAR_ORCHESTRATION_COMPLETED
| LIVE_ENTRY_EVALUATED
| ENTRY_PACKAGE_APPLIED
| ENTRY_PACKAGE_DECLINED
| ENTRY_CYCLE_ENDED
| TRADE_CYCLE_CLOSED
| TRADE_CYCLE_OPENED
| OPEN_TRADE_EVALUATED
| PROTECTION_APPLIED
| ENTRY_REMAINDER_CANCELLED
| ENTRY_REMAINDER_CANCEL_FAILED.

Definition event_type_value (t : ProcessingJournalEventType) : string :=
  match t with
  | COMMITTED_BAR_ORCHESTRATION_STARTED => "committed_bar_orchestration_started"
  | COMMITTED_BAR_ORCHESTRATION_FAILED => "committed_bar_orchestration_failed"
  | STRATEGY_CYCLE_DISPATCH_SUCCEEDED => "strategy_cycle_dispatch_succeeded"
  | STRATEGY_CYCLE_DISPATCH_FAILED => "strategy_cycle_dispatch_failed"
  | COMMITTED_BAR_ORCHESTRATION_COMPLETED => "committed_bar_orchestration_completed"
  | LIVE_ENTRY_EVALUATED => "live_entry_evaluated"
  | ENTRY_PACKAGE_APPLIED => "entry_package_applied"
  | ENTRY_PACKAGE_DECLINED => "entry_package_declined"
  | ENTRY_CYCLE_ENDED => "entry_cycle_ended"
  | TRADE_CYCLE_CLOSED => "trade_cycle_closed"
  | TRADE_CYCLE_OPENED => "trade_cycle_opened"
  | OPEN_TRADE_EVALUATED => "open_trade_evaluated"
  | PROTECTION_APPLIED => "protection_applied"
  | ENTRY_REMAINDER_CANCELLED => "entry_remainder_cancelled"
  | ENTRY_REMAINDER_CANCEL_FAILED => "entry_remainder_cancel_failed"
  end.

Record ProcessingJournalEvent := {
  je_schema_version : Z;
  je_event_id : string;
  je_event_type : ProcessingJournalEventType;
  je_occurred_at : string;
  je_source : string;
  je_severity : string;
  je_payload : dict json;
  je_diagnostics : dict json;
  je_strategy_instance_id : option string }.

Definition ProcessingJournalEvent_post_init (e : ProcessingJournalEvent) :
    result ProcessingJournalEvent :=
  let non_blank value name :=
    require (negb (is_blank value)) ValueError (name +:+ " must be a non-empty string") in
  _ ← require (1 <=? je_schema_version e) ValueError "schema_version must be positive";
  _ ← non_blank (je_event_id e) "event_id";
  _ ← non_blank (je_occurred_at e) "occurred_at";
  _ ← non_blank (je_source e) "source";
  _ ← non_blank (je_severity e) "severity";
  _ ← require (match je_strategy_instance_id e with Some i => negb (is_blank i) | None => true end)
    ValueError "strategy_instance_id must be non-empty when supplied";
  Ok e.

Definition to_dict (e : ProcessingJournalEvent) : dict json :=
  [("schema_version", JInt (je_schema_version e));
   ("event_id", JStr (je_event_id e));
   ("event_type", JStr (event_type_value (je_event_type e)));
   ("occurred_at", JStr (je_occurred_at e));
   ("source", JStr (je_source e));
   ("severity", JStr (je_severity e));
   ("payload", JObj (je_payload e));
   ("diagnostics", JObj (je_diagnostics e))]
  ++ match je_strategy_instance_id e with
     | Some i => [("strategy_instance_id", JStr i)]
     | None => []
     end.

(** * What each call records *)

(** The arguments of [_record]. *)
Record draft := {
  dr_event_type : ProcessingJournalEventType;
  dr_severity : string;
  dr_strategy_instance_id : option string;
  dr_payload : dict json;
  dr_diagnostics : dict json }.

Definition encode_text_option : option string -> json := encode_optional JStr.
Definition encode_int_option : option Z -> json := encode_optional JInt.

Definition bar_payload (event : CommittedBarEvent) : dict json :=
  [("instrument", JStr (cb_instrument event)); ("timeframe", JStr (cb_timeframe event));
   ("open_time_ms", JInt (cb_open_time_ms event))].

Definition status_value (s : StrategyCycleDispatchStatus) : string :=
  match s with SUCCEEDED => "succeeded" | FAILED => "failed" end.

(** [dataclasses.asdict] of the values in the payloads. *)
Definition engine_protection_dict (p : EngineDesiredProtectionText) : json :=
  JObj [("stop_price", JStr (et_stop_price p)); ("take_price", encode_text_option (et_take_price p))].

Definition protection_dict (p : DesiredProtection) : json :=
  JObj [("stop_price", JStr (dp_stop_price p)); ("take_price", encode_text_option (dp_take_price p))].

Definition close_signal_dict (s : CloseSignal) : json :=
  JObj [("active", JBool (cs_active s)); ("reason", encode_text_option (cs_reason s));
        ("component_id", encode_text_option (cs_component_id s));
        ("layer", encode_text_option (cs_layer s))].

Definition order_dict (o : ProtectionOrder) : json :=
  JObj [("order_id", JStr (pro_order_id o)); ("trigger_price", JStr (pro_trigger_price o))].

Definition of_cycle (t : ProcessingJournalEventType) (severity strategy_instance_id trade_cycle_id : string)
    (bar_open_time_ms : json) (fields : dict json) : draft :=
  {| dr_event_type := t; dr_severity := severity;
     dr_strategy_instance_id := Some strategy_instance_id;
     dr_payload := ("trade_cycle_id", JStr trade_cycle_id)
       :: ("bar_open_time_ms", bar_open_time_ms) :: fields;
     dr_diagnostics := [] |}.

(** The methods of [JsonlProcessingJournal]. *)
Module JsonlProcessingJournal.

Definition orchestration_started (event : CommittedBarEvent) : draft :=
  {| dr_event_type := COMMITTED_BAR_ORCHESTRATION_STARTED; dr_severity := "info";
     dr_strategy_instance_id := None; dr_payload := bar_payload event; dr_diagnostics := [] |}.

Definition orchestration_failed (event : CommittedBarEvent) (stage : string) (error : exn) : draft :=
  {| dr_event_type := COMMITTED_BAR_ORCHESTRATION_FAILED; dr_severity := "error";
     dr_strategy_instance_id := None;
     dr_payload := bar_payload event ++ [("stage", JStr stage)];
     dr_diagnostics := [("error_type", JStr (class_name (exn_cls error)));
                        ("error_message", JStr (exn_msg error))] |}.

Definition strategy_cycle_outcome (event : CommittedBarEvent)
    (outcome : StrategyCycleDispatchOutcome) : draft :=
  let succeeded := bool_decide (so_status outcome = SUCCEEDED) in
  {| dr_event_type := if succeeded then STRATEGY_CYCLE_DISPATCH_SUCCEEDED
                      else STRATEGY_CYCLE_DISPATCH_FAILED;
     dr_severity := if succeeded then "info" else "error";
     dr_strategy_instance_id := Some (so_strategy_instance_id outcome);
     dr_payload := bar_payload event ++ [("status", JStr (status_value (so_status outcome)))];
     dr_diagnostics :=
       if succeeded then []
       else [("error_code", encode_text_option (so_error_code outcome));
             ("error_message", encode_text_option (so_error_message outcome))] |}.

Definition orchestration_completed (event : CommittedBarEvent)
    (result : CommittedBarOrchestrationResult) : draft :=
  {| dr_event_type := COMMITTED_BAR_ORCHESTRATION_COMPLETED;
     dr_severity := if decide (or_failed_count result = 0) then "info" else "warning";
     dr_strategy_instance_id := None;
     dr_payload := bar_payload event
       ++ [("selected_count", JInt (or_selected_count result));
           ("attempted_count", JInt (or_attempted_count result));
           ("succeeded_count", JInt (or_succeeded_count result));
           ("failed_count", JInt (or_failed_count result))];
     dr_diagnostics := [] |}.

Definition live_entry_evaluated (i : string) (instrument : string) (timeframe : string)
    (bar_open_time_ms : Z) (desired_entry : option DesiredEntry) : draft :=
  {| dr_event_type := LIVE_ENTRY_EVALUATED; dr_severity := "info";
     dr_strategy_instance_id := Some i;
     dr_payload := [("instrument", JStr instrument); ("timeframe", JStr timeframe);
                    ("bar_open_time_ms", JInt bar_open_time_ms);
                    ("desired_entry", encode_optional encode_desired_entry desired_entry)];
     dr_diagnostics := [] |}.

Definition entry_package_applied (i : string) (k : string) (bar_open_time_ms : Z)
    (trigger_price : option string) (stop_loss : option string) (take_profit : option string)
    (quantity : option string) (order_link_id : option string) (order_id : option string) : draft :=
  of_cycle ENTRY_PACKAGE_APPLIED "info" i k (JInt bar_open_time_ms)
    [("trigger_price", encode_text_option trigger_price);
     ("stop_loss", encode_text_option stop_loss);
     ("take_profit", encode_text_option take_profit);
     ("quantity", encode_text_option quantity);
     ("order_link_id", encode_text_option order_link_id);
     ("order_id", encode_text_option order_id)].

Definition entry_package_declined (i : string) (k : string) (bar_open_time_ms : Z)
    (risk_multiplier : string) (decline_reason : string) (decline_message : string) : draft :=
  of_cycle ENTRY_PACKAGE_DECLINED "warning" i k (JInt bar_open_time_ms)
    [("risk_multiplier", JStr risk_multiplier); ("decline_reason", JStr decline_reason);
     ("decline_message", JStr decline_message)].

Definition entry_cycle_ended (i : string) (k : string) (bar_open_time_ms : option Z)
    (reason : string) : draft :=
  of_cycle ENTRY_CYCLE_ENDED "info" i k (encode_int_option bar_open_time_ms)
    [("reason", JStr reason)].

Definition trade_cycle_closed (i : string) (k : string) (bar_open_time_ms : option Z)
    (reason : string) (order_id : string) (order_link_id : option string)
    (parent_order_link_id : option string) : draft :=
  of_cycle TRADE_CYCLE_CLOSED "info" i k (encode_int_option bar_open_time_ms)
    [("reason", JStr reason); ("order_id", JStr order_id);
     ("order_link_id", encode_text_option order_link_id);
     ("parent_order_link_id", encode_text_option parent_order_link_id)].

Definition trade_cycle_opened (i : string) (k : string) (bar_open_time_ms : option Z)
    (first_fill_at_ms : Z) (average_entry_price : string) (entry_order_link_id : string)
    (entry_order_id : option string) : draft :=
  of_cycle TRADE_CYCLE_OPENED "info" i k (encode_int_option bar_open_time_ms)
    [("first_fill_at_ms", JInt first_fill_at_ms);
     ("average_entry_price", JStr average_entry_price);
     ("entry_order_link_id", JStr entry_order_link_id);
     ("entry_order_id", encode_text_option entry_order_id)].

Definition open_trade_evaluated (i : string) (instrument : string) (timeframe : string)
    (bar_open_time_ms : Z) (k : string) (side : side) (protection : EngineDesiredProtectionText)
    (signal : CloseSignal) : draft :=
  {| dr_event_type := OPEN_TRADE_EVALUATED; dr_severity := "info";
     dr_strategy_instance_id := Some i;
     dr_payload := [("instrument", JStr instrument); ("timeframe", JStr timeframe);
                    ("bar_open_time_ms", JInt bar_open_time_ms); ("trade_cycle_id", JStr k);
                    ("side", JStr (side_text side));
                    ("desired_protection", engine_protection_dict protection);
                    ("close_signal", close_signal_dict signal)];
     dr_diagnostics := [] |}.

Definition protection_applied (i : string) (k : string) (bar_open_time_ms : Z)
    (requested : DesiredProtection) (confirmed : DesiredProtection) (quantity : string)
    (stop : ProtectionOrder) (take : ProtectionOrder) : draft :=
  of_cycle PROTECTION_APPLIED "info" i k (JInt bar_open_time_ms)
    [("requested_protection", protection_dict requested);
     ("confirmed_protection", protection_dict confirmed);
     ("position_quantity", JStr quantity);
     ("stop_order", order_dict stop); ("take_order", order_dict take)].

Definition entry_remainder_cancelled (i : string) (k : string) (bar_open_time_ms : Z)
    (status : string) (executed_quantity : option string) : draft :=
  of_cycle ENTRY_REMAINDER_CANCELLED "info" i k (JInt bar_open_time_ms)
    [("status", JStr status); ("executed_quantity", encode_text_option executed_quantity)].

Definition entry_remainder_cancel_failed (i : string) (k : string) (bar_open_time_ms : Z)
    (error : string) : draft :=
  of_cycle ENTRY_REMAINDER_CANCEL_FAILED "warning" i k (JInt bar_open_time_ms)
    [("error", JStr error)].

End JsonlProcessingJournal.

(** The arguments of [_record] in each journal call. *)
Definition draft_of (r : journal_event) : draft :=
  match r with
  | orchestration_started event =>
      JsonlProcessingJournal.orchestration_started event
  | orchestration_failed event stage error =>
      JsonlProcessingJournal.orchestration_failed event stage error
  | strategy_cycle_outcome event outcome =>
      JsonlProcessingJournal.strategy_cycle_outcome event outcome
  | orchestration_completed event result =>
      JsonlProcessingJournal.orchestration_completed event result
  | live_entry_evaluated i instrument timeframe bar_open_time_ms desired_entry =>
      JsonlProcessingJournal.live_entry_evaluated i instrument timeframe bar_open_time_ms desired_entry
  | entry_package_applied i k bar_open_time_ms trigger_price stop_loss take_profit quantity order_link_id order_id =>
      JsonlProcessingJournal.entry_package_applied i k bar_open_time_ms trigger_price stop_loss take_profit quantity order_link_id order_id
  | entry_package_declined i k bar_open_time_ms risk_multiplier decline_reason decline_message =>
      JsonlProcessingJournal.entry_package_declined i k bar_open_time_ms risk_multiplier decline_reason decline_message
  | entry_cycle_ended i k bar_open_time_ms reason =>
      JsonlProcessingJournal.entry_cycle_ended i k bar_open_time_ms reason
  | trade_cycle_closed i k bar_open_time_ms reason order_id order_link_id parent_order_link_id =>
      JsonlProcessingJournal.trade_cycle_closed i k bar_open_time_ms reason order_id order_link_id parent_order_link_id
  | trade_cycle_opened i k bar_open_time_ms first_fill_at_ms average_entry_price entry_order_link_id entry_order_id =>
      JsonlProcessingJournal.trade_cycle_opened i k bar_open_time_ms first_fill_at_ms average_entry_price entry_order_link_id entry_order_id
  | open_trade_evaluated i instrument timeframe bar_open_time_ms k side protection signal =>
      JsonlProcessingJournal.open_trade_evaluated i instrument timeframe bar_open_time_ms k side protection signal
  | protection_applied i k bar_open_time_ms requested confirmed quantity stop take =>
      JsonlProcessingJournal.protection_applied i k bar_open_time_ms requested confirmed quantity stop take
  | entry_remainder_cancelled i k bar_open_time_ms status executed_quantity =>
      JsonlProcessingJournal.entry_remainder_cancelled i k bar_open_time_ms status executed_quantity
  | entry_remainder_cancel_failed i k bar_open_time_ms error =>
      JsonlProcessingJournal.entry_remainder_cancel_failed i k bar_open_time_ms error
  end.

(** * The file *)

Definition SCHEMA_VERSION : Z := 2.
Definition SOURCE : string := "strategy_runtime.committed_bar_orchestrator".

Record journal_file := {
  jf_file : option (list ascii);
  jf_failure_count : Z;
  jf_disk : list Jsonl.outcome }.

(** What the two factories return at one call. *)
Record stamp := { sp_event_id : result string; sp_occurred_at : result string }.

Definition event_of (s : stamp) (d : draft) : result ProcessingJournalEvent :=
  event_id ← sp_event_id s;
  occurred_at ← sp_occurred_at s;
  ProcessingJournalEvent_post_init
    {| je_schema_version := SCHEMA_VERSION; je_event_id := event_id;
       je_event_type := dr_event_type d; je_occurred_at := occurred_at; je_source := SOURCE;
       je_severity := dr_severity d; je_payload := dr_payload d;
       je_diagnostics := dr_diagnostics d;
       je_strategy_instance_id := dr_strategy_instance_id d |}.

(** The text of the record. *)
Definition record_text (s : stamp) (r : journal_event) : result string :=
  event ← event_of s (draft_of r);
  dumps (JObj (to_dict event)).

Definition count_failure (j : journal_file) : journal_file :=
  {| jf_file := jf_file j; jf_failure_count := jf_failure_count j + 1; jf_disk := jf_disk j |}.

(** The [with self._lock] block: what of the record reaches the file, and whether the block
    raises. *)
Definition append_record (record : string) (j : journal_file) : journal_file * bool :=
  let bytes := utf8 (chars record ++ ["010"%char]) in
  let reached n :=
    {| jf_file := Some (default [] (jf_file j) ++ take n bytes);
       jf_failure_count := jf_failure_count j; jf_disk := tail (jf_disk j) |} in
  match default Jsonl.Written (head (jf_disk j)) with
  | Jsonl.Written => (reached (length bytes), true)
  | Jsonl.DirectoryFails _ =>
      ({| jf_file := jf_file j; jf_failure_count := jf_failure_count j;
          jf_disk := tail (jf_disk j) |}, false)
  | Jsonl.Torn n _ => (reached n, false)
  end.

(** [_record]: whatever is raised is counted. *)
Definition record_event (s : stamp) (r : journal_event) (j : journal_file) : journal_file :=
  match record_text s r with
  | Raise _ => count_failure j
  | Ok record =>
      let '(j, written) := append_record record j in
      if written then j else count_failure j
  end.

(** A sequence of journal calls. *)
Definition record_all (l : list (stamp * journal_event)) (j : journal_file) : journal_file :=
  foldl (fun j c => record_event c.1 c.2 j) j l.

(** * What can be read back *)

(** The events of the calls that reach the file, when the disk does [d] to the appends. *)
Fixpoint persisted (l : list (stamp * journal_event)) (d : list Jsonl.outcome) :
    list ProcessingJournalEvent :=
  match l with
  | [] => []
  | (s, r) :: l =>
      match event_of s (draft_of r), record_text s r with
      | Ok e, Ok _ =>
          match default Jsonl.Written (head d) with
          | Jsonl.Written => e :: persisted l (tail d)
          | _ => persisted l (tail d)
          end
      | _, _ => persisted l d
      end
  end.

(** No append stops in the middle of a record. *)
Definition whole (d : list Jsonl.outcome) : Prop :=
  Forall (fun o => match o with Jsonl.Torn _ _ => False | _ => True end) d.

Lemma encode_text_option_ok o : json_ok (encode_text_option o) = true.
Proof. by destruct o. Qed.

Lemma encode_int_option_ok o : json_ok (encode_int_option o) = true.
Proof. by destruct o. Qed.

Lemma draft_ok r : json_ok (JObj (dr_payload (draft_of r))) = true /\
  json_ok (JObj (dr_diagnostics (draft_of r))) = true.
Proof.
  destruct r; try destruct desired_entry; try destruct side0; simpl;
    rewrite ?encode_text_option_ok, ?encode_int_option_ok; try (split; reflexivity).
  destruct (bool_decide (so_status outcome = SUCCEEDED)); simpl;
    rewrite ?encode_text_option_ok; split; reflexivity.
Qed.

Lemma event_of_Ok s d e : event_of s d = Ok e ->
  exists i t, sp_event_id s = Ok i /\ sp_occurred_at s = Ok t /\ e =
    {| je_schema_version := SCHEMA_VERSION; je_event_id := i;
       je_event_type := dr_event_type d; je_occurred_at := t; je_source := SOURCE;
       je_severity := dr_severity d; je_payload := dr_payload d;
       je_diagnostics := dr_diagnostics d;
       je_strategy_instance_id := dr_strategy_instance_id d |}.
Proof.
  unfold event_of. intros (i & Hi & (t & Ht & H)%result_bind_Ok)%result_bind_Ok. exists i, t.
  split_and!; [done..|]. unfold ProcessingJournalEvent_post_init in H. by ok_all.
Qed.

Lemma to_dict_ok s r e : event_of s (draft_of r) = Ok e -> json_ok (JObj (to_dict e)) = true.
Proof.
  intros (i & t & _ & _ & ->)%event_of_Ok. destruct (draft_ok r) as [Hp Hd]. unfold to_dict.
  cbn [je_payload je_diagnostics je_strategy_instance_id je_event_type je_severity je_occurred_at
    je_event_id je_source je_schema_version].
  destruct (dr_strategy_instance_id (draft_of r)); cbn [app json_ok_in forallb snd dkeys map fst] in *;
    rewrite Hp, Hd; reflexivity.
Qed.

(** The line of an event. *)
Definition line_of (e : ProcessingJournalEvent) : list ascii := write (sort_json (JObj (to_dict e))).

Lemma record_text_line s r e t : event_of s (draft_of r) = Ok e -> record_text s r = Ok t ->
  chars t = line_of e /\ loads (text (line_of e)) = Ok (sort_json (JObj (to_dict e))) /\
  line_feed ∉ line_of e.
Proof.
  intros He Ht. unfold record_text in Ht. rewrite He in Ht. cbn [mbind result_bind] in Ht.
  pose proof (to_dict_ok _ _ _ He) as Hj. pose proof (loads_dumps _ _ Ht Hj) as Hl.
  destruct (dumps_Ok _ _ Ht Hj) as [-> Hp]. rewrite chars_text. split_and!; [done..|].
  intros Hin%list_elem_of_In. apply andb_true_iff in Hp as [Hp _].
  pose proof (write_no_control _ Hp) as Hc. rewrite forallb_forall in Hc. by apply Hc in Hin.
Qed.

Definition lines_of (l : list ProcessingJournalEvent) : list ascii :=
  flat_map (fun e => line_of e ++ [line_feed]) l.

#[local] Arguments utf8 : simpl never.
#[local] Arguments lines_of : simpl never.

Lemma lines_of_cons e l :
  utf8 (lines_of (e :: l)) = utf8 (line_of e ++ [line_feed]) ++ utf8 (lines_of l).
Proof. apply flat_map_app. Qed.

Lemma record_all_file l j : whole (jf_disk j) ->
  default [] (jf_file (record_all l j)) =
    default [] (jf_file j) ++ utf8 (lines_of (persisted l (jf_disk j))) /\
  jf_failure_count (record_all l j) + Z.of_nat (length (persisted l (jf_disk j))) =
    jf_failure_count j + Z.of_nat (length l).
Proof.
  unfold record_all. revert j. induction l as [|[s r] l IH]; intros j Hw.
  { simpl. rewrite app_nil_r. split; [done|lia]. }
  cbn [foldl fst snd persisted]. unfold record_event at 2 4.
  destruct (record_text s r) as [t|e] eqn:Ht.
  2: { destruct (IH (count_failure j) Hw) as [-> Hc]. simpl in *.
       destruct (event_of s (draft_of r)); (split; [done|lia]). }
  destruct (event_of s (draft_of r)) as [e|e] eqn:He;
    [|unfold record_text in Ht; by rewrite He in Ht].
  destruct (record_text_line _ _ _ _ He Ht) as (Hline & _). unfold append_record. rewrite Hline.
  assert (whole (tail (jf_disk j))) as Hw' by (destruct (jf_disk j); [done|by inv Hw]).
  destruct (jf_disk j) as [|o d]; [|destruct o as [|x|n x]; [| |by inv Hw]]; simpl in *.
  - match goal with |- context [foldl _ ?x l] => destruct (IH x Hw') as [-> Hc] end. simpl in *.
    rewrite firstn_all in *. rewrite lines_of_cons, app_assoc. split; [done|lia].
  - match goal with |- context [foldl _ ?x l] => destruct (IH x Hw') as [-> Hc] end. simpl in *.
    rewrite firstn_all in *. rewrite lines_of_cons, app_assoc. split; [done|lia].
  - match goal with |- context [foldl _ ?x l] => destruct (IH x Hw') as [-> Hc] end. simpl in *.
    split; [done|lia].
Qed.

Lemma persisted_lines l d : Forall (fun e =>
  loads (text (line_of e)) = Ok (sort_json (JObj (to_dict e))) /\ line_feed ∉ line_of e)
  (persisted l d).
Proof.
  revert d. induction l as [|[s r] l IH]; intros d; simpl; [constructor|].
  destruct (event_of s (draft_of r)) as [e|] eqn:He, (record_text s r) as [t|] eqn:Ht; auto.
  destruct (default _ _); auto. constructor; [|done].
  by destruct (record_text_line _ _ _ _ He Ht) as (_ & ? & ?).
Qed.

(** C36. The file of a new journal, on a disk on which no append stops in the middle of a
    record ([whole]; appends may fail before they write), is one JSON document per line: split
    at its line feeds, it is read back as the records of the events whose append succeeded, in
    the order of the calls, whatever characters their texts contain. A failing call leaves no
    trace in the file, and every call that left no record is counted as a failure.
    [torn_record_swallows_the_next] below shows what a torn append does. *)
Theorem journal_reads_back l d : whole d ->
  let j := record_all l {| jf_file := None; jf_failure_count := 0; jf_disk := d |} in
  exists t lines, utf8_decode (default [] (jf_file j)) = Ok t /\ split_lines t = lines ++ [[]] /\
    Forall2 (fun line e => loads (text line) = Ok (sort_json (JObj (to_dict e))))
      lines (persisted l d) /\
    jf_failure_count j + Z.of_nat (length lines) = Z.of_nat (length l).
Proof.
  intros Hw j.
  destruct (record_all_file l {| jf_file := None; jf_failure_count := 0; jf_disk := d |} Hw) as [Hf Hc].
  fold j in Hf, Hc. cbn [jf_file jf_disk jf_failure_count default app] in Hf, Hc.
  pose proof (persisted_lines l d) as Hl. rewrite Hf.
  exists (lines_of (persisted l d)), (map line_of (persisted l d)).
  rewrite utf8_decode_utf8, length_map. split_and!; [done| | |lia].
  - rewrite <- split_lines_lines; [|apply Forall_map; by eapply Forall_impl; [exact Hl|intros e []]].
    f_equal. unfold lines_of. clear. induction (persisted l d) as [|e es IH]; [done|].
    simpl. by rewrite IH.
  - clear -Hl. induction Hl as [|e es [He _] _ IH]; simpl; by constructor.
Qed.

Definition sample_calls : list (stamp * journal_event) :=
  [({| sp_event_id := Ok "e1"; sp_occurred_at := Ok "t1" |}, orchestration_started sample_bar);
   ({| sp_event_id := Ok " "; sp_occurred_at := Ok "t2" |}, orchestration_started sample_bar);
   ({| sp_event_id := Ok "e3"; sp_occurred_at := Ok "t3" |},
    entry_cycle_ended "alpha" "c1" None "two
lines");
   ({| sp_event_id := Ok "e4"; sp_occurred_at := Ok "t4" |},
    orchestration_failed sample_bar "catalog" (Exn OSError "gone"))].

(** One record is refused (its event id is blank) and one append fails: two records. *)
Definition sample_disk : list Jsonl.outcome :=
  [Jsonl.Written; Jsonl.Written; Jsonl.DirectoryFails (Exn OSError "full")].

Example sample_journal :
  let j := record_all sample_calls {| jf_file := None; jf_failure_count := 0; jf_disk := sample_disk |} in
  map je_event_id (persisted sample_calls sample_disk) = ["e1"; "e3"] /\ jf_failure_count j = 2.
Proof. vm_compute. split; reflexivity. Qed.

Lemma journal_reads_back_witness : whole sample_disk /\
  let j := record_all sample_calls {| jf_file := None; jf_failure_count := 0; jf_disk := sample_disk |} in
  exists t lines, utf8_decode (default [] (jf_file j)) = Ok t /\ split_lines t = lines ++ [[]] /\
    Forall2 (fun line e => loads (text line) = Ok (sort_json (JObj (to_dict e))))
      lines (persisted sample_calls sample_disk) /\
    jf_failure_count j + Z.of_nat (length lines) = Z.of_nat (length sample_calls).
Proof.
  split; [by repeat constructor|]. apply (journal_reads_back sample_calls sample_disk).
  by repeat constructor.
Defined.

(** An append that stops inside a record leaves no line feed, so the next record continues on
    its line: neither of the two can be read, and only one of them is counted as a failure. *)
Example torn_record_swallows_the_next :
  let j := record_all (take 1 sample_calls ++ drop 2 (take 3 sample_calls))
    {| jf_file := None; jf_failure_count := 0;
       jf_disk := [Jsonl.Torn 10 (Exn OSError "full"); Jsonl.Written] |} in
  jf_failure_count j = 1 /\
  match utf8_decode (default [] (jf_file j)) with
  | Ok t => length (split_lines t) = 2%nat /\
            forallb (fun line => negb (is_ok (loads (text line)))) (split_lines t) = true
  | Raise _ => False
  end.
Proof. vm_compute. repeat split; reflexivity. Qed.
