(* ===== verification/Coordination.v ===== *)
(** Keyed mutual exclusion (runtime/coordination/keyed_mutex.py,
    StrategyInstanceKeyedMutexRegistry) at the granularity of its lock operations.

    A configuration holds the registry (the guard, the dictionary from keys to lock
    objects, the lock objects that are held) and the control point of each thread inside
    [hold]. [step] executes one operation of one thread, [None] when the thread cannot
    take it: a blocked thread has no step. A timeout may fire whenever a thread that was
    given one still waits. [Effects.hold] is the view of the same operation
    for the code that runs inside the section. *)
From S2P Require Import Prelude Errors.

Definition thread := nat.
Definition lock := nat.

(** Where a thread is inside [hold]. *)
Inductive control :=
| Outside
| AtGuard (key : string) (timeout : bool)          (* before [with self._registry_guard] *)
| InGuard (key : string) (timeout : bool)          (* inside it, before [setdefault] *)
| GuardDone (key : string) (timeout : bool) (l : lock)  (* [setdefault] returned [l] *)
| Waiting (key : string) (timeout : bool) (l : lock)    (* at [instance_lock.acquire] *)
| Inside (key : string) (l : lock)                 (* the body of the context *)
| Refused (e : exn).                               (* raised out of [hold] *)

Record registry := Reg {
  registry_guard : option thread;
  locks : gmap string lock;
  held : gset lock;
  next_lock : lock;
  control_of : gmap thread control }.

Definition control_at (σ : registry) (t : thread) : control :=
  default Outside (control_of σ !! t).

Definition set_control (t : thread) (c : control) (σ : registry) : registry :=
  Reg (registry_guard σ) (locks σ) (held σ) (next_lock σ) (<[t := c]> (control_of σ)).

Inductive operation :=
| CallHold (key : string) (timeout : bool)
| AcquireGuard
| SetDefault
| ReleaseGuard
| AcquireLock
| TimeoutExpires
| ExitBody
| ReturnOutside.

Definition setdefault (key : string) (σ : registry) : registry * lock :=
  match locks σ !! key with
  | Some l => (σ, l)
  | None =>
      (Reg (registry_guard σ) (<[key := next_lock σ]> (locks σ)) (held σ)
         (S (next_lock σ)) (control_of σ), next_lock σ)
  end.

Definition step (t : thread) (op : operation) (σ : registry) : option registry :=
  match op, control_at σ t with
  | CallHold key timeout, Outside =>
      match require_non_empty_string key "strategy_instance_id" with
      | Ok _ => Some (set_control t (AtGuard key timeout) σ)
      | Raise e => Some (set_control t (Refused e) σ)
      end
  | AcquireGuard, AtGuard key timeout =>
      match registry_guard σ with
      | None =>
          Some (set_control t (InGuard key timeout)
            (Reg (Some t) (locks σ) (held σ) (next_lock σ) (control_of σ)))
      | Some _ => None
      end
  | SetDefault, InGuard key timeout =>
      let '(σ', l) := setdefault key σ in
      Some (set_control t (GuardDone key timeout l) σ')
  | ReleaseGuard, GuardDone key timeout l =>
      Some (set_control t (Waiting key timeout l)
        (Reg None (locks σ) (held σ) (next_lock σ) (control_of σ)))
  | AcquireLock, Waiting key timeout l =>
      if decide (l ∈ held σ) then None
      else
        Some (set_control t (Inside key l)
          (Reg (registry_guard σ) (locks σ) ({[l]} ∪ held σ) (next_lock σ) (control_of σ)))
  | TimeoutExpires, Waiting key true l =>
      Some (set_control t (Refused (Exn StrategyInstanceBusy key)) σ)
  | ExitBody, Inside key l =>
      Some (set_control t Outside
        (Reg (registry_guard σ) (locks σ) (held σ ∖ {[l]}) (next_lock σ) (control_of σ)))
  | ReturnOutside, Refused _ => Some (set_control t Outside σ)
  | _, _ => None
  end.

Definition initial : registry := Reg None ∅ ∅ 0%nat ∅.

Inductive reachable : registry -> Prop :=
| reachable_initial : reachable initial
| reachable_step σ t op σ' : reachable σ -> step t op σ = Some σ' -> reachable σ'.

Fixpoint run (l : list (thread * operation)) (σ : registry) : option registry :=
  match l with
  | [] => Some σ
  | (t, op) :: l => match step t op σ with Some σ' => run l σ' | None => None end
  end.

Lemma run_reachable l σ σ' : reachable σ -> run l σ = Some σ' -> reachable σ'.
Proof.
  revert σ; induction l as [|[t op] l IH]; intros σ Hσ Hrun; simplify_eq/=; [done|].
  destruct (step t op σ) eqn:E; [|done]. eauto using reachable_step.
Qed.

(** * The invariant *)

(** The key and lock object a thread has resolved. *)
Definition resolved (c : control) : option (string * lock) :=
  match c with
  | GuardDone key _ l | Waiting key _ l | Inside key l => Some (key, l)
  | _ => None
  end.

Definition in_guard (c : control) : bool :=
  match c with InGuard _ _ | GuardDone _ _ _ => true | _ => false end.

Record coherent (σ : registry) : Prop := {
  coh_locks_fresh k l : locks σ !! k = Some l -> (l < next_lock σ)%nat;
  coh_locks_inj k k' l : locks σ !! k = Some l -> locks σ !! k' = Some l -> k = k';
  coh_resolved t k l : resolved (control_at σ t) = Some (k, l) -> locks σ !! k = Some l;
  coh_guard t : in_guard (control_at σ t) = true <-> registry_guard σ = Some t;
  coh_inside_held t k l : control_at σ t = Inside k l -> l ∈ held σ;
  coh_held l : l ∈ held σ -> exists t k, control_at σ t = Inside k l;
  coh_exclusive t t' k k' l :
    control_at σ t = Inside k l -> control_at σ t' = Inside k' l -> t = t' }.

Lemma control_at_set t c σ t' :
  control_at (set_control t c σ) t' = if decide (t' = t) then c else control_at σ t'.
Proof.
  unfold control_at, set_control; simpl. case_decide; subst; simplify_map_eq; done.
Qed.

Lemma control_at_reg t g ls h n σ : control_at (Reg g ls h n (control_of σ)) t = control_at σ t.
Proof. done. Qed.

Lemma coherent_initial : coherent initial.
Proof. by split; unfold control_at; simpl; intros; simplify_map_eq. Qed.

Lemma set_control_reg t c σ :
  locks (set_control t c σ) = locks σ /\ held (set_control t c σ) = held σ /\
  next_lock (set_control t c σ) = next_lock σ /\
  registry_guard (set_control t c σ) = registry_guard σ.
Proof. done. Qed.

(** Moving a thread between control points that resolve nothing new, are outside the
    guard and outside the section on both sides. *)
Lemma coherent_move t c σ :
  coherent σ ->
  (forall k l, resolved c = Some (k, l) -> locks σ !! k = Some l) ->
  in_guard c = in_guard (control_at σ t) ->
  (forall k l, c <> Inside k l) -> (forall k l, control_at σ t <> Inside k l) ->
  coherent (set_control t c σ).
Proof.
  intros [H1 H2 H3 H4 H5 H6 H7] Hr Hg Hi Hi'. split; simpl.
  - done.
  - done.
  - intros t' k l. rewrite control_at_set. case_decide; eauto.
  - intros t'. rewrite control_at_set. case_decide; subst; [rewrite Hg|]; apply H4.
  - intros t' k l. rewrite control_at_set. case_decide; naive_solver.
  - intros l Hl. destruct (H6 l Hl) as (t' & k & Ht'). exists t', k.
    rewrite control_at_set. case_decide; subst; naive_solver.
  - intros t1 t2 k k' l. rewrite !control_at_set. repeat case_decide; naive_solver.
Qed.

Lemma coherent_setdefault key σ : coherent σ -> coherent (setdefault key σ).1.
Proof.
  intros [H1 H2 H3 H4 H5 H6 H7]. unfold setdefault.
  destruct (locks σ !! key) as [l|] eqn:Hk; [by split|].
  split; simpl; try done.
  - intros k l. rewrite lookup_insert. case_decide; intros; simplify_eq; [lia|].
    apply H1 in H0. lia.
  - intros k k' l. rewrite !lookup_insert. repeat case_decide; intros; simplify_eq; try done.
    + apply H1 in H9. lia.
    + apply H1 in H8. lia.
    + eauto.
  - intros t k l. rewrite control_at_reg. intros Hr%H3.
    rewrite lookup_insert. case_decide; congruence.
Qed.

Lemma setdefault_spec key σ σ' l :
  setdefault key σ = (σ', l) ->
  locks σ' !! key = Some l /\ (forall t, control_at σ' t = control_at σ t) /\
  registry_guard σ' = registry_guard σ.
Proof.
  unfold setdefault. destruct (locks σ !! key) eqn:Hk; intros; simplify_eq/=; [done|].
  by rewrite lookup_insert_eq.
Qed.

Ltac by_move := try done; intros; simplify_eq/=; eauto.

(** [coherent] of a configuration with one thread moved. *)
Ltac split_coherent Hσ :=
  destruct Hσ as [H1 H2 H3 H4 H5 H6 H7];
  split; simpl; try done; intros *; rewrite ?control_at_set, ?control_at_reg.

Lemma coherent_acquire_guard t key timeout σ :
  coherent σ -> control_at σ t = AtGuard key timeout -> registry_guard σ = None ->
  coherent (set_control t (InGuard key timeout)
    (Reg (Some t) (locks σ) (held σ) (next_lock σ) (control_of σ))).
Proof.
  intros Hσ Hc Hg. split_coherent Hσ.
  - case_decide; naive_solver.
  - assert (in_guard (control_at σ t0) = false) as Hng.
    { destruct (in_guard _) eqn:Hin; [|done]. apply H4 in Hin. congruence. }
    case_decide; simpl; [naive_solver|]. rewrite Hng. naive_solver.
  - case_decide; naive_solver.
  - intros (t' & k & Ht')%H6. exists t', k. rewrite control_at_set.
    case_decide; simpl; [congruence|done].
  - repeat case_decide; naive_solver.
Qed.

Lemma coherent_release_guard t key timeout l σ :
  coherent σ -> control_at σ t = GuardDone key timeout l ->
  coherent (set_control t (Waiting key timeout l)
    (Reg None (locks σ) (held σ) (next_lock σ) (control_of σ))).
Proof.
  intros Hσ Hc.
  assert (registry_guard σ = Some t) as Hg by (apply (coh_guard σ Hσ); by rewrite Hc).
  split_coherent Hσ.
  - case_decide; simpl; [intros; simplify_eq; apply (H3 t); by rewrite Hc|eauto].
  - case_decide; simpl; [done|]. rewrite H4. naive_solver.
  - case_decide; naive_solver.
  - intros (t' & k & Ht')%H6. exists t', k. rewrite control_at_set.
    case_decide; simpl; [congruence|done].
  - repeat case_decide; naive_solver.
Qed.

Lemma coherent_acquire_lock t key timeout l σ :
  coherent σ -> control_at σ t = Waiting key timeout l -> l ∉ held σ ->
  coherent (set_control t (Inside key l)
    (Reg (registry_guard σ) (locks σ) ({[l]} ∪ held σ) (next_lock σ) (control_of σ))).
Proof.
  intros Hσ Hc Hfree. split_coherent Hσ.
  - case_decide; simpl; [intros; simplify_eq; apply (H3 t); by rewrite Hc|eauto].
  - case_decide; simpl; [subst; rewrite <- H4, Hc; done|apply H4].
  - case_decide; [set_solver|]. intros Hi%H5. set_solver.
  - intros [->%elem_of_singleton|Hin]%elem_of_union.
    + exists t, key. rewrite control_at_set. by case_decide.
    + destruct (H6 _ Hin) as (t' & k & Ht'). exists t', k. rewrite control_at_set.
      case_decide; simpl; [congruence|done].
  - repeat case_decide; intros; simplify_eq; try done; [| |eauto].
    all: exfalso; apply Hfree; eauto.
Qed.

Lemma coherent_exit t key l σ :
  coherent σ -> control_at σ t = Inside key l ->
  coherent (set_control t Outside
    (Reg (registry_guard σ) (locks σ) (held σ ∖ {[l]}) (next_lock σ) (control_of σ))).
Proof.
  intros Hσ Hc. split_coherent Hσ.
  - case_decide; naive_solver.
  - case_decide; simpl; [subst; rewrite <- H4, Hc; done|apply H4].
  - case_decide; [done|]. intros Hi. apply elem_of_difference. split; [eauto|].
    intros ->%elem_of_singleton. eauto.
  - intros [Hin Hne]%elem_of_difference. destruct (H6 _ Hin) as (t' & k & Ht').
    exists t', k. rewrite control_at_set. case_decide; simpl; [|done].
    exfalso. apply Hne, elem_of_singleton. congruence.
  - repeat case_decide; naive_solver.
Qed.

Lemma coherent_step t op σ σ' : coherent σ -> step t op σ = Some σ' -> coherent σ'.
Proof.
  intros Hσ Hstep. unfold step in Hstep.
  destruct op, (control_at σ t) eqn:Hc; try done.
  - destruct (require_non_empty_string _ _); simplify_eq;
      apply coherent_move; rewrite ?Hc; by_move.
  - destruct (registry_guard σ) eqn:Hg; simplify_eq. by apply coherent_acquire_guard.
  - destruct (setdefault key σ) as [σ1 l] eqn:Hs. simplify_eq.
    pose proof (coherent_setdefault key σ Hσ) as Hσ1. rewrite Hs in Hσ1. simpl in Hσ1.
    apply setdefault_spec in Hs as (Hl & Hct & _).
    assert (control_at σ1 t = InGuard key timeout) as Hc1 by (by rewrite Hct).
    apply coherent_move; rewrite ?Hc1; by_move.
  - simplify_eq. by apply coherent_release_guard.
  - case_decide; simplify_eq. by eapply coherent_acquire_lock.
  - destruct timeout; simplify_eq. apply coherent_move; rewrite ?Hc; by_move.
  - simplify_eq. by eapply coherent_exit.
  - simplify_eq. apply coherent_move; rewrite ?Hc; by_move.
Qed.

Lemma reachable_coherent σ : reachable σ -> coherent σ.
Proof. induction 1; eauto using coherent_initial, coherent_step. Qed.

(** ** Properties *)

(** Two threads are never both inside the critical section of one key, in
    any interleaving of the lock operations: the guard makes [setdefault] give every
    thread the same lock object for a key. *)
Theorem mutual_exclusion σ t t' key l l' :
  reachable σ -> control_at σ t = Inside key l -> control_at σ t' = Inside key l' -> t = t'.
Proof.
  intros Hσ%reachable_coherent Ht Ht'.
  assert (locks σ !! key = Some l) as Hl by (apply (coh_resolved σ Hσ t); by rewrite Ht).
  assert (locks σ !! key = Some l') as Hl' by (apply (coh_resolved σ Hσ t'); by rewrite Ht').
  simplify_eq. eauto using coh_exclusive.
Qed.

Definition contended : list (thread * operation) :=
  [(0%nat, CallHold "a" false); (1%nat, CallHold "a" true); (0%nat, AcquireGuard);
   (0%nat, SetDefault); (0%nat, ReleaseGuard); (1%nat, AcquireGuard); (0%nat, AcquireLock);
   (1%nat, SetDefault); (1%nat, ReleaseGuard)].

Lemma mutual_exclusion_witness :
  match run contended initial with
  | Some σ => control_at σ 0%nat = Inside "a" 0%nat /\ control_at σ 1%nat = Waiting "a" true 0%nat
      /\ step 1%nat AcquireLock σ = None /\ 0%nat = 0%nat
  | None => False
  end.
Proof.
  destruct (run contended initial) as [σ|] eqn:Hσ; [|vm_compute in Hσ; discriminate Hσ].
  assert (control_at σ 0%nat = Inside "a" 0%nat) as Ht
    by (vm_compute in Hσ; inversion Hσ; reflexivity).
  split; [exact Ht|].
  assert (control_at σ 1%nat = Waiting "a" true 0%nat /\ step 1%nat AcquireLock σ = None)
    as [H1 H2] by (vm_compute in Hσ; inversion Hσ; split; reflexivity).
  split; [exact H1|split; [exact H2|]].
  exact (mutual_exclusion σ 0%nat 0%nat "a" 0%nat 0%nat
    (run_reachable contended initial σ reachable_initial Hσ) Ht Ht).
Defined.

(** A waiting thread that cannot take its lock waits for a thread
    inside the section of the same key, and that thread can leave it: keys never block one
    another, and there is no deadlock. *)
Theorem waits_for_same_key σ t key timeout l :
  reachable σ -> control_at σ t = Waiting key timeout l ->
  (exists σ', step t AcquireLock σ = Some σ' /\ control_at σ' t = Inside key l) \/
  (exists t' σ', t' <> t /\ control_at σ t' = Inside key l /\
     step t' ExitBody σ = Some σ' /\
     exists σ'', step t AcquireLock σ' = Some σ'' /\ control_at σ'' t = Inside key l).
Proof.
  intros Hσ%reachable_coherent Ht.
  destruct (decide (l ∈ held σ)) as [Hin|Hfree].
  - right. destruct (coh_held σ Hσ l Hin) as (t' & k & Ht').
    assert (locks σ !! key = Some l) as Hl by (apply (coh_resolved σ Hσ t); by rewrite Ht).
    assert (locks σ !! k = Some l) as Hl' by (apply (coh_resolved σ Hσ t'); by rewrite Ht').
    assert (k = key) as -> by eauto using coh_locks_inj.
    assert (t' <> t) as Hne by congruence.
    exists t'. eexists. split_and!; [done|done| |].
    + unfold step. rewrite Ht'. reflexivity.
    + eexists. unfold step. rewrite control_at_set, decide_False by done.
      rewrite control_at_reg, Ht. simpl. rewrite decide_False by set_solver.
      split; [done|]. by rewrite control_at_set, decide_True.
  - left. eexists. unfold step. rewrite Ht, decide_False by done.
    split; [done|]. by rewrite control_at_set, decide_True.
Qed.

Lemma waits_for_same_key_witness :
  match run contended initial with
  | Some σ => exists t' σ', t' <> 1%nat /\ control_at σ t' = Inside "a" 0%nat /\
      step t' ExitBody σ = Some σ'
  | None => False
  end.
Proof.
  destruct (run contended initial) as [σ|] eqn:Hσ; [|vm_compute in Hσ; discriminate Hσ].
  assert (control_at σ 1%nat = Waiting "a" true 0%nat /\ step 1%nat AcquireLock σ = None)
    as [H1 H2] by (vm_compute in Hσ; inversion Hσ; split; reflexivity).
  destruct (waits_for_same_key σ 1%nat "a" true 0%nat
    (run_reachable contended initial σ reachable_initial Hσ) H1)
    as [(σ' & Hs & _)|(t' & σ' & Hne & Hin & Hs & _)]; [congruence|].
  exists t', σ'. split; [exact Hne|split; [exact Hin|exact Hs]].
Defined.
