(* ===== verification/FirstFill.v ===== *)
(** The first fill (runtime/first_fill): alignment of a fill time to its candle, the pure
    transition [apply_first_fill] that freezes the executed entry context, the freezer
    that adds the entry-order lifetime of the touch_trigger mode, and the journal helper. *)
From S2P Require Import Prelude Errors DecimalText Models Contracts Effects Repository Scripted.

(** first_fill/alignment.py *)
Definition align_first_fill_to_entry_bar (first_fill_at_ms : Z) (base_timeframe : string) :
    result Z :=
  _ ← require (0 <? first_fill_at_ms) ValueError
    "first_fill_at_ms must be a strictly positive integer";
  duration_ms ← timeframe_duration_ms base_timeframe;
  Ok (first_fill_at_ms - first_fill_at_ms mod duration_ms).

(** [replace(current_cycle, frozen_entry_context=context)] *)
Definition replace_frozen_entry_context (c : CurrentTradeCycle)
    (context : option FrozenExecutedEntryContext) : result CurrentTradeCycle :=
  CurrentTradeCycle_post_init
    {| tc_trade_cycle_id := tc_trade_cycle_id c;
       tc_applied_entry_package := tc_applied_entry_package c;
       tc_frozen_entry_context := context;
       tc_latest_confirmed_management_protection :=
         tc_latest_confirmed_management_protection c;
       tc_entry_remainder_cancelled := tc_entry_remainder_cancelled c |}.

(** first_fill/state_applier.py *)
Definition apply_first_fill (state : StrategyInstanceRuntimeState) (trade_cycle_id : string)
    (first_fill_at_ms : Z) (order_lifetime_bars : option Z) :
    result StrategyInstanceRuntimeState :=
  _ ← require (negb (is_empty trade_cycle_id)) FirstFillInvariantError
    "apply_first_fill requires a non-empty trade_cycle_id";
  match st_current_trade_cycle state with
  | None =>
      raise FirstFillInvariantError "apply_first_fill requires an existing current trade cycle"
  | Some current_cycle =>
      _ ← require (bool_decide (tc_trade_cycle_id current_cycle = trade_cycle_id))
        FirstFillInvariantError "trade_cycle_id does not match the current trade cycle";
      _ ← require (0 <? first_fill_at_ms) ValueError
        "first_fill_at_ms must be a strictly positive integer";
      _ ← require (match order_lifetime_bars with Some n => 0 <=? n | None => true end)
        ValueError "order_lifetime_bars must be an integer >= 0 or None";
      match tc_frozen_entry_context current_cycle with
      | Some frozen =>
          if fc_first_fill_at_ms frozen =? first_fill_at_ms then Ok state
          else raise FirstFillInvariantError
            "trade cycle is already frozen with a different first_fill_at_ms"
      | None =>
          let base_timeframe := rs_base_timeframe (st_registered_spec_snapshot state) in
          entry_bar_open_time_ms ← align_first_fill_to_entry_bar first_fill_at_ms base_timeframe;
          let desired_entry := tc_desired_entry current_cycle in
          _ ← require (negb (entry_bar_open_time_ms <?
                             de_source_plan_bar_open_time_ms desired_entry))
            FirstFillInvariantError
            "entry_bar_open_time_ms precedes the desired entry's source plan bar";
          entry_order_expires_at_bar ← when_some order_lifetime_bars (fun bars =>
            duration_ms ← timeframe_duration_ms base_timeframe;
            entry_order_expiration_ms (de_source_plan_bar_open_time_ms desired_entry)
              duration_ms bars);
          frozen_context ← FrozenExecutedEntryContext_post_init
            {| fc_desired_entry := desired_entry;
               fc_first_fill_at_ms := first_fill_at_ms;
               fc_entry_bar_open_time_ms := entry_bar_open_time_ms;
               fc_entry_order_expires_at_bar := entry_order_expires_at_bar |};
          cycle ← replace_frozen_entry_context current_cycle (Some frozen_context);
          replace_current_trade_cycle state (Some cycle)
      end
  end.

(** first_fill/freezer.py *)
Inductive LiveEntryMode := ema_anchor | touch_trigger.
#[export] Instance LiveEntryMode_eq_dec : EqDecision LiveEntryMode.
Proof. solve_decision. Defined.

Record FirstFillFreezer := { ff_order_lifetime_bars : option Z }.

Definition FirstFillFreezer_init (live_entry_mode : LiveEntryMode)
    (order_lifetime_bars : option Z) : result FirstFillFreezer :=
  match live_entry_mode with
  | touch_trigger =>
      _ ← require (match order_lifetime_bars with Some n => 0 <=? n | None => false end)
        ValueError "touch_trigger requires order_lifetime_bars as an integer >= 0";
      Ok {| ff_order_lifetime_bars := order_lifetime_bars |}
  | ema_anchor => Ok {| ff_order_lifetime_bars := None |}
  end.

Definition freeze (self : FirstFillFreezer) (state : StrategyInstanceRuntimeState)
    (trade_cycle_id : string) (first_fill_at_ms : Z) : result StrategyInstanceRuntimeState :=
  apply_first_fill state trade_cycle_id first_fill_at_ms (ff_order_lifetime_bars self).

(** first_fill/journal.py *)
Definition journal_trade_cycle_opened {R W} (present : bool)
    (strategy_instance_id trade_cycle_id : string) (bar_open_time_ms : option Z)
    (first_fill_at_ms : Z) (average_entry_price entry_order_link_id : string)
    (entry_order_id : option string) : M R W unit :=
  journal present (trade_cycle_opened strategy_instance_id trade_cycle_id bar_open_time_ms
    first_fill_at_ms average_entry_price entry_order_link_id entry_order_id).

(** * Lemmas *)

Lemma align_spec t tf b :
  align_first_fill_to_entry_bar t tf = Ok b ->
  exists d, timeframe_duration_ms tf = Ok d /\ 0 < d /\ 0 < t /\
    0 <= b /\ b <= t < b + d /\ b mod d = 0 /\ b = d * (t / d).
Proof.
  unfold align_first_fill_to_entry_bar. intros H. ok_inv H.
  apply require_Ok, Z.ltb_lt in Hok.
  pose proof (timeframe_duration_pos _ _ Hok0) as Hd.
  pose proof (Z.mod_pos_bound t a0 Hd). pose proof (Z.div_mod t a0 ltac:(lia)).
  assert (t - t mod a0 = a0 * (t / a0)) as E by lia.
  assert (0 <= t / a0) by (apply Z.div_pos; lia).
  exists a0. split_and!; try done; try nia.
  rewrite E, Z.mul_comm. by apply Z.mod_mul; lia.
Qed.

Lemma FrozenExecutedEntryContext_post_init_Ok c c' :
  FrozenExecutedEntryContext_post_init c = Ok c' ->
  c' = c /\ 0 < fc_first_fill_at_ms c /\
  0 <= fc_entry_bar_open_time_ms c <= fc_first_fill_at_ms c.
Proof.
  unfold FrozenExecutedEntryContext_post_init. intros H. ok_inv H.
  rewrite require_Ok, Z.ltb_lt in Hok. rewrite require_Ok, Z.leb_le in Hok0, Hok1.
  split_and!; done.
Qed.

Lemma replace_frozen_entry_context_Ok c context c' :
  replace_frozen_entry_context c context = Ok c' ->
  c' = {| tc_trade_cycle_id := tc_trade_cycle_id c;
          tc_applied_entry_package := tc_applied_entry_package c;
          tc_frozen_entry_context := context;
          tc_latest_confirmed_management_protection :=
            tc_latest_confirmed_management_protection c;
          tc_entry_remainder_cancelled := tc_entry_remainder_cancelled c |}.
Proof.
  unfold replace_frozen_entry_context, CurrentTradeCycle_post_init. intros H. by ok_inv H.
Qed.

(** What a successful first fill does, seen from the state it returns. *)
Record first_fill_applied (s : StrategyInstanceRuntimeState) (id : string) (t : Z)
    (bars : option Z) (s' : StrategyInstanceRuntimeState) : Prop := {
  ffa_unfrozen : exists c f d,
    st_current_trade_cycle s = Some c /\ tc_frozen_entry_context c = None /\
    tc_trade_cycle_id c = id /\
    timeframe_duration_ms (rs_base_timeframe (st_registered_spec_snapshot s)) = Ok d /\
    (* the frozen context *)
    fc_desired_entry f = tc_desired_entry c /\
    fc_first_fill_at_ms f = t /\
    fc_entry_bar_open_time_ms f = d * (t / d) /\
    de_source_plan_bar_open_time_ms (tc_desired_entry c) <= fc_entry_bar_open_time_ms f /\
    fc_entry_order_expires_at_bar f =
      match bars with
      | Some n => Some (de_source_plan_bar_open_time_ms (tc_desired_entry c) + (n + 2) * d)
      | None => None
      end /\
    (* the new state *)
    s' = {| st_strategy_instance_id := st_strategy_instance_id s;
            st_strategy_id := st_strategy_id s;
            st_registered_spec_snapshot := st_registered_spec_snapshot s;
            st_risk_multiplier := st_risk_multiplier s;
            st_current_trade_cycle := Some
              {| tc_trade_cycle_id := id;
                 tc_applied_entry_package := tc_applied_entry_package c;
                 tc_frozen_entry_context := Some f;
                 tc_latest_confirmed_management_protection :=
                   tc_latest_confirmed_management_protection c;
                 tc_entry_remainder_cancelled := tc_entry_remainder_cancelled c |};
            st_pending_entry_recovery := st_pending_entry_recovery s;
            st_pending_close_recovery := st_pending_close_recovery s |};
  ffa_positive : 0 < t;
  ffa_valid : valid_state s' }.

Definition frozen_at (s : StrategyInstanceRuntimeState) (id : string) (t : Z) : Prop :=
  exists c f, st_current_trade_cycle s = Some c /\ tc_trade_cycle_id c = id /\
    tc_frozen_entry_context c = Some f /\ fc_first_fill_at_ms f = t.

Lemma apply_first_fill_Ok s id t bars s' :
  apply_first_fill s id t bars = Ok s' ->
  (s' = s /\ frozen_at s id t) \/ first_fill_applied s id t bars s'.
Proof.
  unfold apply_first_fill. intros H. ok_inv H.
  destruct (st_current_trade_cycle s) as [c|] eqn:Hc; [|done]. ok_inv H.
  rewrite require_Ok, ?bool_decide_eq_true in *. apply Z.ltb_lt in Hok1.
  destruct (tc_frozen_entry_context c) as [f|] eqn:Hf.
  { destruct (Z.eqb_spec (fc_first_fill_at_ms f) t); simplify_eq. left. split; [done|]. by exists c, f. }
  right. ok_inv H.
  apply align_spec in Hok3 as (d & Hd & ? & ? & ? & ? & ? & ->).
  apply FrozenExecutedEntryContext_post_init_Ok in Hok6 as (-> & ? & ?). simpl in *.
  apply replace_frozen_entry_context_Ok in Hok7 as ->.
  apply replace_state_Ok in H as [Hv ->].
  split; [|done|done].
  exists c, {| fc_desired_entry := tc_desired_entry c; fc_first_fill_at_ms := t;
               fc_entry_bar_open_time_ms := d * (t / d);
               fc_entry_order_expires_at_bar := a5 |}, d.
  split_and!; try done; simpl.
  - rewrite require_Ok, negb_true_iff, Z.ltb_ge in Hok4. lia.
  - destruct bars as [n|]; simpl in Hok5; [|congruence]. ok_all.
    match goal with He : entry_order_expiration_ms _ _ _ = Ok _ |- _ =>
      apply entry_order_expiration_ms_Ok in He as (-> & _); congruence end.
Qed.

(** On a frozen cycle the transition compares the fill times and nothing else. *)
Lemma apply_first_fill_frozen s id t t' bars :
  frozen_at s id t -> id <> EmptyString -> 0 < t' -> (forall n, bars = Some n -> 0 <= n) ->
  apply_first_fill s id t' bars =
    if t' =? t then Ok s
    else raise FirstFillInvariantError
      "trade cycle is already frozen with a different first_fill_at_ms".
Proof.
  intros (c & f & Hc & Hcid & Hf & Hft) Hid Ht' Hbars.
  unfold apply_first_fill. rewrite Hc, Hf, Hcid, Hft, bool_decide_true by done.
  rewrite (proj2 (Z.ltb_lt 0 t') Ht').
  assert (match bars with Some n => 0 <=? n | None => true end = true) as ->.
  { destruct bars; [apply Z.leb_le; auto|done]. }
  destruct id; [done|]. simpl. by rewrite Z.eqb_sym.
Qed.

Lemma apply_first_fill_inputs s id t bars s' :
  apply_first_fill s id t bars = Ok s' ->
  id <> EmptyString /\ 0 < t /\ (forall n, bars = Some n -> 0 <= n) /\ frozen_at s' id t.
Proof.
  intros Ha. assert (frozen_at s' id t) as Hf.
  { apply apply_first_fill_Ok in Ha as [[-> ?]|Ha]; [done|].
    destruct Ha as [(c & f & d & _ & _ & _ & _ & _ & Hft & _ & _ & _ & ->) _ _].
    by do 2 eexists. }
  unfold apply_first_fill in Ha. ok_inv Ha. rewrite require_Ok in Hok.
  destruct (st_current_trade_cycle s); [|done]. ok_inv Ha.
  rewrite require_Ok in *. apply Z.ltb_lt in Hok1. split_and!; try done.
  - intros ->. done.
  - intros n ->. by apply Z.leb_le.
Qed.

(** A fill that was applied is applied again without effect. *)
Lemma apply_first_fill_again s id t bars s' :
  apply_first_fill s id t bars = Ok s' -> apply_first_fill s' id t bars = Ok s'.
Proof.
  intros (Hid & Ht & Hb & Hf)%apply_first_fill_inputs.
  by rewrite (apply_first_fill_frozen s' id t t), Z.eqb_refl.
Qed.

Lemma FirstFillFreezer_init_Ok m bars ff :
  FirstFillFreezer_init m bars = Ok ff ->
  ff_order_lifetime_bars ff = match m with touch_trigger => bars | ema_anchor => None end.
Proof. destruct m; unfold FirstFillFreezer_init; intros H; by ok_inv H. Qed.

(** * Properties *)

(** For a positive fill time and a supported timeframe, alignment returns the
    open time of the one candle of that timeframe that contains the fill. *)
Theorem align_first_fill_to_containing_bar t tf d :
  0 < t -> timeframe_duration_ms tf = Ok d ->
  exists b, align_first_fill_to_entry_bar t tf = Ok b /\ 0 <= b /\
    forall b', (b' mod d = 0 /\ b' <= t < b' + d) <-> b' = b.
Proof.
  intros Ht Hd.
  assert (exists b, align_first_fill_to_entry_bar t tf = Ok b) as [b Hb].
  { unfold align_first_fill_to_entry_bar. rewrite (proj2 (Z.ltb_lt 0 t) Ht), Hd.
    simpl. eauto. }
  exists b. split; [done|].
  apply align_spec in Hb as (d' & Hd' & Hpos & _ & Hb0 & Hin & Hmod & _).
  rewrite Hd in Hd'. injection Hd' as <-.
  split; [done|]. intros b'. split; [|by intros ->]. intros [Hm' Hin'].
  apply Z.mod_divide in Hm' as [q ->]; [|lia]. apply Z.mod_divide in Hmod as [q' ->]; [|lia].
  assert (q = q') by nia. congruence.
Qed.

Lemma align_first_fill_to_containing_bar_witness :
  exists b, align_first_fill_to_entry_bar 1700000123456 "5m" = Ok b /\ 0 <= b /\
    forall b', (b' mod 300000 = 0 /\ b' <= 1700000123456 < b' + 300000) <-> b' = b.
Proof.
  apply (align_first_fill_to_containing_bar 1700000123456 "5m" 300000);
    [lia|vm_compute; reflexivity].
Defined.

(** A first fill that succeeds on a cycle that was not frozen freezes that
    very cycle: the context keeps the applied entry, the fill time, the open time of the
    fill's candle (not before the signal candle) and, when a lifetime is configured, the
    boundary [lifetime + 2] candles after the signal candle; nothing else of the
    aggregate changes and its invariant holds. On a frozen cycle the transition changes
    nothing, and succeeds only for the same fill time. *)
Theorem apply_first_fill_functional s id t bars s' :
  apply_first_fill s id t bars = Ok s' ->
  match st_current_trade_cycle s with
  | Some c =>
      match tc_frozen_entry_context c with
      | Some f => fc_first_fill_at_ms f = t /\ s' = s
      | None => first_fill_applied s id t bars s'
      end
  | None => False
  end.
Proof.
  intros [[-> (c & f & Hc & Hid & Hf & Ht)]|Ha]%apply_first_fill_Ok.
  - by rewrite Hc, Hf.
  - pose proof (ffa_unfrozen _ _ _ _ _ Ha) as (c & f & d & Hc & Hf & _).
    by rewrite Hc, Hf.
Qed.

Lemma apply_first_fill_functional_witness :
  first_fill_applied resting_state "c1" 1000000 (Some 3) open_state.
Proof.
  exact (apply_first_fill_functional resting_state "c1" 1000000 (Some 3) open_state
    ltac:(vm_compute; reflexivity)).
Defined.

(** Once a first fill has been applied, applying a fill again gives back the
    same aggregate for the same fill time, whatever the configured lifetime, and is
    refused as an invariant error for any other: the frozen context is never rewritten. *)
Theorem first_fill_frozen_once s id t bars s' t' bars' :
  apply_first_fill s id t bars = Ok s' -> 0 < t' ->
  (forall n, bars' = Some n -> 0 <= n) ->
  apply_first_fill s' id t' bars' =
    if t' =? t then Ok s'
    else raise FirstFillInvariantError
      "trade cycle is already frozen with a different first_fill_at_ms".
Proof.
  intros (Hid & _ & _ & Hf)%apply_first_fill_inputs Ht' Hbars. by apply apply_first_fill_frozen.
Qed.

Lemma first_fill_frozen_once_witness :
  apply_first_fill open_state "c1" 1000001 None =
    raise FirstFillInvariantError
      "trade cycle is already frozen with a different first_fill_at_ms".
Proof.
  exact (first_fill_frozen_once resting_state "c1" 1000000 (Some 3) open_state
    1000001 None ltac:(vm_compute; reflexivity) ltac:(lia) ltac:(discriminate)).
Defined.
