(* ===== verification/Config.v ===== *)
(** The configuration of the process (config/loader.py, model.py, startup.py): the environment
    variables, the optional TOML file, the checks of [RuntimeConfig], and the preparation of the
    three paths.

    [int] and [float] of a text are modelled on the text; a float is the number its literal
    denotes, and whether the double nearest to it is positive and finite. A [Path] is the text
    that [str] gives of it. What [tomllib] reads from a file, and what the file system answers,
    are parameters. *)
From S2P Require Import Prelude Errors DecimalText Models Json Contracts Effects FirstFill.

(** * Numbers in a text *)

(** CPython strips only the ASCII white space of a text that is all ASCII. *)
Definition is_ascii (c : ascii) : bool := (N_of_ascii c <? 128)%N.

Definition number_space (l : list ascii) (c : ascii) : bool :=
  if forallb is_ascii l then ((9 <=? N_of_ascii c) && (N_of_ascii c <=? 13) || (N_of_ascii c =? 32))%N
  else is_space c.

Definition strip_number (text : string) : list ascii :=
  let l := chars text in rdrop (number_space l) (ldrop (number_space l) l).

(** The underscores between two digits removed; [None] when one is elsewhere. *)
Fixpoint drop_underscores (after_digit : bool) (l : list ascii) : option (list ascii) :=
  match l with
  | [] => Some []
  | c :: l =>
      if decide (c = "_"%char) then
        if after_digit && existsb is_digit (take 1 l) then drop_underscores false l else None
      else l' ← drop_underscores (is_digit c) l; Some (c :: l')
  end.

(** [int(text)] *)
Definition py_int (text : string) : result Z :=
  match drop_underscores false (strip_number text) with
  | None => raise ValueError "invalid literal for int()"
  | Some l =>
      let '(negative, digits) := take_sign l in
      _ ← require (negb (bool_decide (digits = [])) && forallb is_digit digits) ValueError
        "invalid literal for int()";
      _ ← require (Z.of_nat (length digits) <=? max_int_digits) ValueError
        "Exceeds the limit for integer string conversion";
      Ok (if negative then - digits_value digits else digits_value digits)
  end.

(** The number of a float literal: an integer times a power of ten. *)
Inductive pyfloat :=
| Number (coefficient exponent : Z)
| Infinity (negative : bool)
| NaN.

(** [float(text)], before the rounding to a double. *)
Definition py_float (text : string) : result pyfloat :=
  let invalid := raise ValueError "could not convert string to float" in
  match drop_underscores false (strip_number text) with
  | None => invalid
  | Some l =>
      let '(negative, rest) := take_sign l in
      let name := string_of_list_ascii (map lower_ascii rest) in
      if bool_decide (name = "inf") || bool_decide (name = "infinity") then Ok (Infinity negative)
      else if bool_decide (name = "nan") then Ok NaN
      else
        let '(int_digits, frac_digits, rest) := take_coefficient rest in
        let coefficient := digits_value (int_digits ++ frac_digits) in
        let number e :=
          Ok (Number (if negative then - coefficient else coefficient)
                (e - Z.of_nat (length frac_digits))) in
        match int_digits ++ frac_digits, rest with
        | [], _ => invalid
        | _, [] => number 0
        | _, c :: rest =>
            if is_exp_mark c then
              let '(negative_exponent, digits) := take_sign rest in
              if negb (bool_decide (digits = [])) && forallb is_digit digits
              then number (if negative_exponent then - digits_value digits else digits_value digits)
              else invalid
            else invalid
        end
  end.

(** [2 ** 1024 - 2 ** 970]: from here on a number rounds to infinity. *)
Definition overflow_bound : Z := 2 ^ 1024 - 2 ^ 970.

(** [math.isfinite(x) and x > 0] for the double [x] nearest to the number; a number of at most
    [2 ** -1075] rounds to zero. *)
Definition finite_positive (x : pyfloat) : bool :=
  match x with
  | Number m e =>
      if 0 <=? e then (0 <? m) && (m * 10 ^ e <? overflow_bound)
      else (10 ^ (- e) <? m * 2 ^ 1075) && (m <? overflow_bound * 10 ^ (- e))
  | _ => false
  end.

(** * Paths *)

Fixpoint split_at (sep : ascii) (l : list ascii) : list (list ascii) :=
  match l with
  | [] => [[]]
  | c :: l =>
      if decide (c = sep) then [] :: split_at sep l
      else match split_at sep l with
           | part :: parts => (c :: part) :: parts
           | [] => [[c]]
           end
  end.

Definition slash : ascii := "/".

(** [str(Path(text))] *)
Definition path_text (t : string) : string :=
  let l := chars t in
  let '(slashes, _) := span (fun c => bool_decide (c = slash)) l in
  let root := match slashes with
              | [] => []
              | [_; _] => [slash; slash]
              | _ => [slash]
              end in
  let parts := List.filter
    (fun part => negb (bool_decide (part = []) || bool_decide (part = ["."%char]))) (split_at slash l) in
  let joined := match parts with
                | [] => []
                | part :: parts => part ++ flat_map (fun p => slash :: p) parts
                end in
  if bool_decide (root ++ joined = []) then "." else text (root ++ joined).

(** * RuntimeConfig *)

Record RuntimeConfig := {
  rc_host : string;
  rc_port : Z;
  rc_journal_path : string;
  rc_specs_path : string;
  rc_state_path : string;
  rc_strategy_engine_base_url : string;
  rc_strategy_engine_timeout_seconds : pyfloat;
  rc_abi_base_url : string;
  rc_abi_open_position_timeout_seconds : pyfloat;
  rc_abi_entry_package_timeout_seconds : pyfloat;
  rc_abi_position_management_timeout_seconds : pyfloat;
  rc_committed_bar_queue_capacity : Z;
  rc_live_entry_mode : LiveEntryMode;
  rc_order_lifetime_bars : option Z }.

Definition RuntimeConfig_post_init (c : RuntimeConfig) : result RuntimeConfig :=
  let non_blank value name := require (negb (is_blank value)) ValueError (name +:+ " must not be empty") in
  _ ← non_blank (rc_host c) "RUNTIME_HOST";
  _ ← require ((1 <=? rc_port c) && (rc_port c <=? 65535)) ValueError
    "RUNTIME_PORT must be between 1 and 65535";
  _ ← non_blank (rc_journal_path c) "RUNTIME_JOURNAL_PATH";
  _ ← non_blank (rc_specs_path c) "RUNTIME_SPECS_PATH";
  _ ← non_blank (rc_state_path c) "RUNTIME_STATE_PATH";
  _ ← require (0 <? rc_committed_bar_queue_capacity c) ValueError
    "RUNTIME_COMMITTED_BAR_QUEUE_CAPACITY must be a positive integer";
  _ ← match rc_order_lifetime_bars c, rc_live_entry_mode c with
      | None, touch_trigger =>
          raise ValueError "order_lifetime_bars is required when live_entry_mode is touch_trigger"
      | None, ema_anchor => Ok tt
      | Some lifetime, _ =>
          require (0 <=? lifetime) ValueError "order_lifetime_bars must be an integer >= 0"
      end;
  Ok c.

(** * The loader *)

(** A value of a TOML file, as far as the loader tells them apart. *)
Inductive toml_value :=
| TomlString (s : string)
| TomlInteger (n : Z)
| TomlOther.

Definition TOMLDecodeError : exn_class := OtherException "TOMLDecodeError".

Definition CONFIG_FILE_KEYS : list string := ["live_entry_mode"; "order_lifetime_bars"].

(** [_read_config_file]; the file's content is [None] when the path is no file. *)
Definition _read_config_file (toml_file : string -> option (result (dict toml_value)))
    (path_text : string) : result (dict toml_value) :=
  if is_blank path_text then Ok []
  else
    match toml_file path_text with
    | None => Ok []
    | Some loaded =>
        data ← match loaded with
               | Raise e =>
                   if bool_decide (exn_cls e = TOMLDecodeError)
                   then raise ValueError "RUNTIME_CONFIG_PATH file is not valid TOML: "
                   else Raise e
               | Ok data => Ok data
               end;
        _ ← require (forallb (fun k => bool_decide (k ∈ CONFIG_FILE_KEYS)) (dkeys data)) ValueError
          "RUNTIME_CONFIG_PATH file has unknown keys: ";
        Ok data
    end.

Definition _live_entry_mode (config : dict toml_value) : result LiveEntryMode :=
  match default (TomlString "ema_anchor") (dget "live_entry_mode" config) with
  | TomlString "ema_anchor" => Ok ema_anchor
  | TomlString "touch_trigger" => Ok touch_trigger
  | _ => raise ValueError "live_entry_mode must be one of ema_anchor, touch_trigger"
  end.

Definition _order_lifetime_bars (config : dict toml_value) : result (option Z) :=
  match dget "order_lifetime_bars" config with
  | None => Ok None
  | Some (TomlInteger value) =>
      _ ← require (0 <=? value) ValueError "order_lifetime_bars must be an integer >= 0";
      Ok (Some value)
  | Some _ => raise ValueError "order_lifetime_bars must be an integer >= 0"
  end.

Section loader.
Context (values : dict string).

Definition getenv (name fallback : string) : string := default fallback (dget name values).

Definition _require_text (name : string) : result string :=
  match dget name values with
  | Some text =>
      _ ← require (negb (is_blank text)) ValueError (name +:+ " must be set"); Ok text
  | None => raise ValueError (name +:+ " must be set")
  end.

(** [except ValueError as exc: raise ValueError(msg)] *)
Definition except_invalid {A} (msg : string) (r : result A) : result A :=
  match r with
  | Ok a => Ok a
  | Raise e => if is_value_error (exn_cls e) then raise ValueError msg else Raise e
  end.

Definition _require_float (name : string) : result pyfloat :=
  text ← _require_text name; except_invalid (name +:+ " must be a number") (py_float text).

Definition _require_int (name : string) : result Z :=
  text ← _require_text name; except_invalid (name +:+ " must be an integer") (py_int text).

Definition load_runtime_config (toml_file : string -> option (result (dict toml_value))) :
    result RuntimeConfig :=
  let journal_text := getenv "RUNTIME_JOURNAL_PATH" "var/journal/runtime.jsonl" in
  let specs_text := getenv "RUNTIME_SPECS_PATH" "var/specs" in
  let state_text := getenv "RUNTIME_STATE_PATH" "var/state/runtime_state.jsonl" in
  let non_blank value name := require (negb (is_blank value)) ValueError (name +:+ " must not be empty") in
  _ ← non_blank journal_text "RUNTIME_JOURNAL_PATH";
  _ ← non_blank specs_text "RUNTIME_SPECS_PATH";
  _ ← non_blank state_text "RUNTIME_STATE_PATH";
  port ← except_invalid "RUNTIME_PORT must be an integer" (py_int (getenv "RUNTIME_PORT" "8093"));
  strategy_engine_base_url ← _require_text "RUNTIME_STRATEGY_ENGINE_BASE_URL";
  strategy_engine_timeout_seconds ← _require_float "RUNTIME_STRATEGY_ENGINE_TIMEOUT_SECONDS";
  abi_base_url ← _require_text "RUNTIME_ABI_BASE_URL";
  abi_open_position_timeout_seconds ← _require_float "RUNTIME_ABI_OPEN_POSITION_TIMEOUT_SECONDS";
  abi_entry_package_timeout_seconds ← _require_float "RUNTIME_ABI_ENTRY_PACKAGE_TIMEOUT_SECONDS";
  abi_position_management_timeout_seconds ←
    _require_float "RUNTIME_ABI_POSITION_MANAGEMENT_TIMEOUT_SECONDS";
  committed_bar_queue_capacity ← _require_int "RUNTIME_COMMITTED_BAR_QUEUE_CAPACITY";
  config_file ← _read_config_file toml_file (getenv "RUNTIME_CONFIG_PATH" EmptyString);
  live_entry_mode ← _live_entry_mode config_file;
  order_lifetime_bars ← _order_lifetime_bars config_file;
  RuntimeConfig_post_init
    {| rc_host := getenv "RUNTIME_HOST" "127.0.0.1"; rc_port := port;
       rc_journal_path := path_text journal_text; rc_specs_path := path_text specs_text;
       rc_state_path := path_text state_text;
       rc_strategy_engine_base_url := strategy_engine_base_url;
       rc_strategy_engine_timeout_seconds := strategy_engine_timeout_seconds;
       rc_abi_base_url := abi_base_url;
       rc_abi_open_position_timeout_seconds := abi_open_position_timeout_seconds;
       rc_abi_entry_package_timeout_seconds := abi_entry_package_timeout_seconds;
       rc_abi_position_management_timeout_seconds := abi_position_management_timeout_seconds;
       rc_committed_bar_queue_capacity := committed_bar_queue_capacity;
       rc_live_entry_mode := live_entry_mode; rc_order_lifetime_bars := order_lifetime_bars |}.
End loader.

(** * Preparing the paths *)

(** What the file system answers about one path. *)
Record path_state := {
  ps_mkdir : result ();
  ps_exists : bool;
  ps_is_file : bool;
  ps_is_dir : bool;
  ps_open : result ();
  ps_iterdir : result () }.

Definition prepare_file_path (name : string) (p : path_state) : result () :=
  _ ← ps_mkdir p;
  _ ← require (negb (ps_exists p && negb (ps_is_file p))) ValueError
    (name +:+ " must identify a file");
  ps_open p.

Definition prepare_journal_path := prepare_file_path "RUNTIME_JOURNAL_PATH".
Definition prepare_state_path := prepare_file_path "RUNTIME_STATE_PATH".

Definition prepare_specs_path (p : path_state) : result () :=
  _ ← ps_mkdir p;
  _ ← require (ps_is_dir p) ValueError "RUNTIME_SPECS_PATH must identify a directory";
  match ps_iterdir p with
  | Ok _ => Ok tt
  | Raise e =>
      if is_os_error (exn_cls e) then raise ValueError "RUNTIME_SPECS_PATH must be readable"
      else Raise e
  end.

(** ** Examples *)

Example numbers_in_texts :
  py_int " +1_000 " = Ok 1000 /\ is_ok (py_int "1__0") = false /\ is_ok (py_int "8093.0") = false /\
  py_float "-2_0.5e-1" = Ok (Number (-205) (-2)) /\ py_float ".5" = Ok (Number 5 (-1)) /\
  is_ok (py_float ".") = false /\ py_float "Infinity" = Ok (Infinity false) /\
  map (fun t => match py_float t with Ok x => finite_positive x | Raise _ => false end)
    ["5"; "0.25"; "1e308"; "1.8e308"; "1e-323"; "2e-324"; "-1"; "0"; "nan"] =
    [true; true; true; false; true; false; false; false; false].
Proof. vm_compute. repeat split; reflexivity. Qed.

Example paths_as_texts :
  map path_text ["var//specs/./x/"; "/a"; "//a"; "///a"; "."; "./"; "a/../b"] =
    ["var/specs/x"; "/a"; "//a"; "/a"; "."; "."; "a/../b"].
Proof. vm_compute. reflexivity. Qed.
