(* ===== verification/HttpAdapters.v ===== *)
(** The life of an HTTP adapter. The seven classes of infrastructure/abi/http_*.py and
    infrastructure/strategy_engine/http_projection_client.py construct, close and enter their
    client by the same code: [__init__] checks the base URL and the timeout and opens an
    [httpx.Client], [close] closes it, and [__enter__] and [__exit__] make a context manager of
    it. What they send is in HttpClients.v; who closes them is in Bootstrap.v. *)
From S2P Require Import Prelude Errors Config.

(** [build_httpx_client] and [_build_client]: the checks before the [httpx.Client]; the scheme
    and the host are what [httpx.URL] reads from the text, or the exception it raises. *)
Definition build_httpx_client (parse_url : string -> result (string * string))
    (base_url : string) (timeout_seconds : pyfloat) : result () :=
  _ ← require (finite_positive timeout_seconds) ValueError
    "timeout_seconds must be finite and positive";
  '(scheme, host) ← parse_url base_url;
  require ((bool_decide (scheme = "http") || bool_decide (scheme = "https"))
           && negb (is_empty host)) ValueError "base_url must be an absolute HTTP(S) URL".

(** * The adapter classes *)

Section adapter.
Context {W C : Type} (parse_url : string -> result (string * string)).
(** [httpx.Client(base_url=..., timeout=...)] and its [close] *)
Context (Client : string -> pyfloat -> W -> W * C) (client_close : C -> W -> W * result ()).

Record adapter := { _client : C }.

Definition adapter_init (base_url : string) (timeout_seconds : pyfloat) (w : W) :
    W * result adapter :=
  match build_httpx_client parse_url base_url timeout_seconds with
  | Ok _ => let '(w, c) := Client base_url timeout_seconds w in (w, Ok {| _client := c |})
  | Raise e => (w, Raise e)
  end.

Definition close (self : adapter) (w : W) : W * result () := client_close (_client self) w.

Definition __enter__ (self : adapter) (w : W) : W * result adapter := (w, Ok self).

(** It returns [None], so that an exception of the body goes on. *)
Definition __exit__ (self : adapter) (exc_value : option exn) (w : W) : W * result () :=
  close self w.

(** [with adapter as entered: body] *)
Definition with_adapter {A} (self : adapter) (body : adapter -> W -> W * result A) (w : W) :
    W * result A :=
  match __enter__ self w with
  | (w, Raise e) => (w, Raise e)
  | (w, Ok entered) =>
      let '(w, r) := body entered w in
      match __exit__ self (match r with Ok _ => None | Raise e => Some e end) w with
      | (w, Ok _) => (w, r)
      | (w, Raise e) => (w, Raise e)
      end
  end.

(** ** Properties *)

(** Which clients are open, and what httpx documents of it: a new client is open and the
    others stay as they are, [close] closes the client, however it ends, and no other. *)
Context (is_open : W -> C -> Prop).
Hypothesis client_opens : forall base_url timeout w w' c,
  Client base_url timeout w = (w', c) ->
  forall c', is_open w' c' <-> c' = c \/ is_open w c'.
Hypothesis client_closes : forall c w w' r,
  client_close c w = (w', r) ->
  forall c', is_open w' c' <-> is_open w c' /\ c' <> c.

(** An adapter that cannot be constructed leaves no client behind; one that is used as a
    context manager is closed at the end of the block, whether the block returns or raises,
    and leaves every client open that the block left open. The block's result is the result,
    unless the closing itself raises. *)
Theorem adapter_leaves_no_client {A} base_url timeout (body : adapter -> W -> W * result A) w :
  match adapter_init base_url timeout w with
  | (w1, Raise e) => w1 = w /\ build_httpx_client parse_url base_url timeout = Raise e
  | (w1, Ok self) =>
      is_open w1 (_client self) /\
      exists w2 r, body self w1 = (w2, r) /\
        forall w3 r', with_adapter self body w1 = (w3, r') ->
          (forall c, is_open w3 c <-> is_open w2 c /\ c <> _client self) /\
          (r' = r \/ exists e, (close self w2).2 = Raise e /\ r' = Raise e)
  end.
Proof.
  unfold adapter_init. destruct (build_httpx_client _ _ _) as [[]|e] eqn:Hb; [|done].
  destruct (Client base_url timeout w) as [w1 c] eqn:Hc. simpl.
  split; [apply (client_opens _ _ _ _ _ Hc); by left|].
  destruct (body _ w1) as [w2 r] eqn:Hbody. exists w2, r. split; [done|]. intros w3 r' Hw.
  unfold with_adapter, __enter__, __exit__ in Hw. rewrite Hbody in Hw.
  unfold close in *. simpl in *. destruct (client_close c w2) as [w4 [u|e]] eqn:Hcl; simplify_eq;
    (split; [exact (client_closes _ _ _ _ Hcl)|]); [by left|right; by exists e].
Qed.
End adapter.

(** Clients are numbers, the world is the number of the next one and the set of the open
    ones. *)
Definition open_next (_ : string) (_ : pyfloat) (w : nat * gset nat) : (nat * gset nat) * nat :=
  ((S w.1, {[w.1]} ∪ w.2), w.1).
Definition close_one (c : nat) (w : nat * gset nat) : (nat * gset nat) * result () :=
  ((w.1, w.2 ∖ {[c]}), Ok tt).

Lemma adapter_leaves_no_client_witness :
  let url := fun _ => Ok ("http", "abi") in
  let body := fun (_ : adapter) (w : nat * gset nat) =>
    (w, Raise (Exn RuntimeError "boom") : result unit) in
  let w1 := (1%nat, {[0%nat]} ∪ ∅) in
  exists self w3,
    adapter_init url open_next "http://abi" (Number 5 0) (0%nat, ∅) = (w1, Ok self) /\
    with_adapter close_one self body w1 = (w3, Raise (Exn RuntimeError "boom")) /\
    ~ (0%nat ∈ w3.2).
Proof.
  intros url body w1.
  destruct (adapter_leaves_no_client url open_next close_one (fun w c => c ∈ w.2)
    ltac:(intros ? ? ? ? ? [= <- <-]; set_solver) ltac:(intros ? ? ? ? [= <- _]; set_solver)
    "http://abi" (Number 5 0) body (0%nat, ∅)) as (_ & w2 & r & [= <- <-] & Hw).
  eexists _, _. split; [reflexivity|]. split; [reflexivity|].
  destruct (Hw _ _ eq_refl) as [Hopen _]. intros Hin.
  destruct (proj1 (Hopen 0%nat) Hin) as [_ Hne]. exact (Hne eq_refl).
Defined.
