(* ===== verification/Protocol.v ===== *)
(** The abstract specification of what the runtime promises per strategy instance.

    [durable_step] lists the legal changes of an instance's stored aggregate: the states
    of a trade cycle and of its two recovery markers, and who may follow whom. [permitted]
    says which stored aggregate justifies each call to ABI, to the Strategy Engine and to
    the deployment files. [follows] joins both with the critical section into one
    automaton over the observable trace: [follows id c evs c'] holds when the events of
    instance [id] in [evs] take control [c] to [c'].

    The handlers are proved to implement it in ProtocolRules.v and the files after it. *)
From S2P Require Import Prelude Errors DecimalText Models Contracts Effects FirstFill.

(** * The stored aggregate *)

(** [s] with another cycle and other markers. *)
Definition with_parts (s : StrategyInstanceRuntimeState) (c : option CurrentTradeCycle)
    (pe : option PendingEntryRecovery) (pc : option PendingCloseRecovery) :
    StrategyInstanceRuntimeState :=
  {| st_strategy_instance_id := st_strategy_instance_id s;
     st_strategy_id := st_strategy_id s;
     st_registered_spec_snapshot := st_registered_spec_snapshot s;
     st_risk_multiplier := st_risk_multiplier s;
     st_current_trade_cycle := c;
     st_pending_entry_recovery := pe;
     st_pending_close_recovery := pc |}.

(** A cycle as an acknowledged entry package leaves it. *)
Definition fresh_cycle (id : string) (c : CurrentTradeCycle) : Prop :=
  tc_trade_cycle_id c = id /\ tc_frozen_entry_context c = None /\
  tc_latest_confirmed_management_protection c = None /\
  tc_entry_remainder_cancelled c = false.

(** The first fill freezes the applied entry. *)
Definition freezes (c c' : CurrentTradeCycle) : Prop :=
  tc_frozen_entry_context c = None /\
  exists f, fc_desired_entry f = tc_desired_entry c /\
    c' = {| tc_trade_cycle_id := tc_trade_cycle_id c;
            tc_applied_entry_package := tc_applied_entry_package c;
            tc_frozen_entry_context := Some f;
            tc_latest_confirmed_management_protection :=
              tc_latest_confirmed_management_protection c;
            tc_entry_remainder_cancelled := tc_entry_remainder_cancelled c |}.

Definition frozen (c : CurrentTradeCycle) : Prop := tc_frozen_entry_context c <> None.

(** A change of a frozen cycle by position management. *)
Definition manages (c c' : CurrentTradeCycle) : Prop :=
  frozen c /\
  tc_trade_cycle_id c' = tc_trade_cycle_id c /\
  tc_applied_entry_package c' = tc_applied_entry_package c /\
  tc_frozen_entry_context c' = tc_frozen_entry_context c /\
  (tc_entry_remainder_cancelled c = true -> tc_entry_remainder_cancelled c' = true).

(** The phases a stored aggregate goes through, as the triple of its cycle and markers. *)
Inductive part_step : option CurrentTradeCycle -> option PendingEntryRecovery ->
    option PendingCloseRecovery -> option CurrentTradeCycle -> option PendingEntryRecovery ->
    option PendingCloseRecovery -> Prop :=
(** an APPLY, or the CANCEL of a resting entry, is about to be sent *)
| mark_apply m : part_step None None None None (Some m) None
| mark_cancel c m : tc_frozen_entry_context c = None ->
    pe_trade_cycle_id m = tc_trade_cycle_id c ->
    part_step (Some c) None None (Some c) (Some m) None
(** the CANCEL of a replacement was confirmed and its APPLY is about to be sent *)
| mark_replacement c m m' : tc_frozen_entry_context c = None ->
    part_step (Some c) (Some m) None None (Some m') None
(** a marked APPLY was acknowledged, possibly with its first fill *)
| entry_acknowledged m c : fresh_cycle (pe_trade_cycle_id m) c ->
    part_step None (Some m) None (Some c) None None
| entry_acknowledged_filled m c c' : fresh_cycle (pe_trade_cycle_id m) c -> freezes c c' ->
    part_step None (Some m) None (Some c') None None
(** a marked APPLY had no effect, or a marked removal did its work *)
| attempt_ended c m : part_step c (Some m) None None None None
(** a marked removal had no effect *)
| removal_ineffective c m : part_step (Some c) (Some m) None (Some c) None None
(** the first fill *)
| first_fill c c' pe pc : freezes c c' -> part_step (Some c) pe pc (Some c') pe pc
(** position management of a frozen cycle *)
| managed c c' : manages c c' -> part_step (Some c) None None (Some c') None None
(** a CLOSE is about to be sent, and was confirmed *)
| mark_close c m : frozen c -> pc_trade_cycle_id m = tc_trade_cycle_id c ->
    part_step (Some c) None None (Some c) None (Some m)
| close_confirmed c m : part_step (Some c) None (Some m) None None None
(** an unmarked cycle ended on its own orders or by an operator's cancel *)
| cycle_ended c : part_step (Some c) None None None None None.

Inductive durable_step : option StrategyInstanceRuntimeState ->
    StrategyInstanceRuntimeState -> Prop :=
| durable_register q s : initial_state q = Ok s -> durable_step None s
(** the aggregate is stored again as it is *)
| durable_again s : durable_step (Some s) s
| durable_change s c pe pc :
    part_step (st_current_trade_cycle s) (st_pending_entry_recovery s)
      (st_pending_close_recovery s) c pe pc ->
    valid_state (with_parts s c pe pc) ->
    durable_step (Some s) (with_parts s c pe pc).

(** * Effects and the stored aggregate that justifies them *)

Definition event_instance (e : event) : option string :=
  match e with
  | EvAcquire k | EvRelease k => Some k
  | EvSave s => Some (st_strategy_instance_id s)
  | EvLookup q => Some (lq_strategy_instance_id q)
  | EvSend q => Some (er_strategy_instance_id q)
  | EvQuery i _ => Some i
  | EvApplyProtection c => Some (apc_strategy_instance_id c)
  | EvClosePosition c => Some (cpc_strategy_instance_id c)
  | EvCancelRemainder i _ => Some i
  | EvLiveEntry i _ => Some i
  | EvOpenTrade i _ => Some i
  | EvSetEnabled i _ => Some i
  | EvMoveToTrash i => Some i
  | EvJournal _ => None
  end.

Definition unmarked (s : StrategyInstanceRuntimeState) : Prop :=
  st_pending_entry_recovery s = None /\ st_pending_close_recovery s = None.

Definition permitted (o : option StrategyInstanceRuntimeState) (e : event) : Prop :=
  match e with
  | EvLookup q => exists s c, o = Some s /\ unmarked s /\ st_current_trade_cycle s = Some c /\
      lq_trade_cycle_id q = tc_trade_cycle_id c
  | EvSend q => exists s, o = Some s /\
      match er_desired_entry q with
      | Some _ =>
          (* an entry is only sent for a cycle that is marked and not yet there *)
          st_current_trade_cycle s = None /\
          st_pending_entry_recovery s = Some {| pe_trade_cycle_id := er_trade_cycle_id q |}
      | None =>
          (* a removal is sent for the marked cycle, or for the unmarked current one *)
          st_pending_entry_recovery s = Some {| pe_trade_cycle_id := er_trade_cycle_id q |} \/
          (unmarked s /\ exists c, st_current_trade_cycle s = Some c /\
             tc_trade_cycle_id c = er_trade_cycle_id q)
      end
  | EvQuery _ cycle => exists s, o = Some s /\
      st_pending_entry_recovery s = Some {| pe_trade_cycle_id := cycle |}
  | EvClosePosition c => exists s, o = Some s /\
      st_pending_close_recovery s = Some {| pc_trade_cycle_id := cpc_trade_cycle_id c |}
  | EvApplyProtection cmd => exists s c, o = Some s /\ unmarked s /\
      st_current_trade_cycle s = Some c /\ frozen c /\
      tc_trade_cycle_id c = apc_trade_cycle_id cmd
  | EvCancelRemainder _ cycle => exists s c f, o = Some s /\ unmarked s /\
      st_current_trade_cycle s = Some c /\ tc_trade_cycle_id c = cycle /\
      tc_frozen_entry_context c = Some f /\ fc_entry_order_expires_at_bar f <> None /\
      tc_entry_remainder_cancelled c = false
  | EvLiveEntry _ _ => exists s, o = Some s /\ unmarked s
  | EvOpenTrade _ q => exists s c f, o = Some s /\ unmarked s /\
      st_current_trade_cycle s = Some c /\ tc_frozen_entry_context c = Some f /\
      op_desired_entry q = fc_desired_entry f /\
      op_entry_bar_open_time_ms q = fc_entry_bar_open_time_ms f
  | EvSetEnabled _ enabled => enabled = true \/
      (* the strategy is disabled once it has no order and no position, or when the close
         of its position is about to be marked *)
      match o with
      | None => True
      | Some s => unmarked s /\
          match st_current_trade_cycle s with None => True | Some c => frozen c end
      end
  | EvMoveToTrash _ =>
      match o with None => True | Some s => unmarked s /\ st_current_trade_cycle s = None end
  | EvAcquire _ | EvRelease _ | EvSave _ => False
  | EvJournal _ => True
  end.

(** * The automaton *)

Record control := At { held_by_handler : bool; durable : option StrategyInstanceRuntimeState }.

Inductive follows (id : string) : control -> list event -> control -> Prop :=
| follows_nil c : follows id c [] c
| follows_register s c evs : durable_step None s -> st_strategy_instance_id s = id ->
    follows id (At true (Some s)) evs c -> follows id (At true None) evs c
| follows_acquire o c evs : follows id (At true o) evs c ->
    follows id (At false o) (EvAcquire id :: evs) c
| follows_release o c evs : follows id (At false o) evs c ->
    follows id (At true o) (EvRelease id :: evs) c
| follows_save o s c evs : durable_step o s -> st_strategy_instance_id s = id ->
    follows id (At true (Some s)) evs c -> follows id (At true o) (EvSave s :: evs) c
| follows_effect o e c evs : event_instance e = Some id -> permitted o e ->
    follows id (At true o) evs c -> follows id (At true o) (e :: evs) c
| follows_other c e c' evs : event_instance e <> Some id ->
    follows id c evs c' -> follows id c (e :: evs) c'.

Lemma follows_app id c evs c' evs' c'' :
  follows id c evs c' -> follows id c' evs' c'' -> follows id c (evs ++ evs') c''.
Proof. induction 1; intros; simpl; eauto using follows. Qed.

Lemma follows_skip id c evs :
  Forall (fun e => event_instance e <> Some id) evs -> follows id c evs c.
Proof. induction 1; eauto using follows. Qed.

(** * What the specification guarantees *)

(** The invariant of a stored aggregate. *)
Definition legal (s : StrategyInstanceRuntimeState) : Prop :=
  valid_state s /\
  (st_pending_close_recovery s <> None ->
   exists c, st_current_trade_cycle s = Some c /\ frozen c).

Definition legal_option (o : option StrategyInstanceRuntimeState) : Prop :=
  match o with Some s => legal s | None => True end.

Lemma initial_state_parts q s :
  initial_state q = Ok s ->
  st_current_trade_cycle s = None /\ st_pending_entry_recovery s = None /\
  st_pending_close_recovery s = None /\
  st_strategy_instance_id s = gc_strategy_instance_id q /\
  st_strategy_id s = gc_strategy_id q /\ valid_state s.
Proof.
  unfold initial_state. intros H. apply result_bind_Ok in H as (sn & _ & H).
  by apply state_post_init_Ok in H as [-> ?].
Qed.

Lemma freezes_frozen c c' : freezes c c' -> frozen c'.
Proof. by intros (_ & f & _ & ->). Qed.

Lemma durable_step_legal o s : legal_option o -> durable_step o s -> legal s.
Proof.
  intros Ho Hs. destruct Hs as [q s Hq|s|s c pe pc Hp Hv]; [|done|].
  - apply initial_state_parts in Hq as (_ & _ & Hpc & _ & _ & Hv). split; [done|]. by rewrite Hpc.
  - split; [done|]. destruct Ho as [_ Ho]. simpl.
    inversion Hp; subst; simpl; intros Hpc; try done; eauto.
    eexists. split; [done|]. by eapply freezes_frozen.
Qed.

Lemma follows_legal id c evs c' :
  legal_option (durable c) -> follows id c evs c' -> legal_option (durable c').
Proof.
  intros Hc Hf. induction Hf; simpl in *; try apply IHHf; try done.
  - by eapply (durable_step_legal None).
  - by eapply durable_step_legal.
Qed.

Lemma durable_step_identity s s' :
  durable_step (Some s) s' ->
  st_strategy_instance_id s' = st_strategy_instance_id s /\
  st_strategy_id s' = st_strategy_id s /\
  st_registered_spec_snapshot s' = st_registered_spec_snapshot s /\
  st_risk_multiplier s' = st_risk_multiplier s.
Proof. intros H. by inversion H; subst. Qed.

Lemma replace_state_parts s c pe pc s' :
  replace_state s c pe pc = Ok s' -> s' = with_parts s c pe pc /\ valid_state s'.
Proof. by intros [? ->]%replace_state_Ok. Qed.

Lemma with_parts_same s :
  with_parts s (st_current_trade_cycle s) (st_pending_entry_recovery s)
    (st_pending_close_recovery s) = s.
Proof. by destruct s. Qed.

Lemma with_parts_twice s c pe pc c' pe' pc' :
  with_parts (with_parts s c pe pc) c' pe' pc' = with_parts s c' pe' pc'.
Proof. done. Qed.

(** [durable_change], for a state given by its parts. *)
Lemma durable_parts d c pe pc s' :
  s' = with_parts d c pe pc -> valid_state s' ->
  part_step (st_current_trade_cycle d) (st_pending_entry_recovery d)
    (st_pending_close_recovery d) c pe pc ->
  durable_step (Some d) s'.
Proof. intros -> Hv Hp. by apply durable_change. Qed.

(** A first fill is a durable step, or changes nothing. *)
Lemma freeze_parts ff s k t s' :
  freeze ff s k t = Ok s' ->
  (s' = s /\ exists c, st_current_trade_cycle s = Some c /\ frozen c) \/
  exists c c', st_current_trade_cycle s = Some c /\ tc_trade_cycle_id c = k /\ freezes c c' /\
    s' = with_parts s (Some c') (st_pending_entry_recovery s) (st_pending_close_recovery s) /\
    valid_state s'.
Proof.
  unfold freeze. intros [[-> Hf]|Ha]%apply_first_fill_Ok.
  - left. split; [done|]. destruct Hf as (c & f & Hc & _ & Hf & _). exists c.
    split; [done|]. unfold frozen. congruence.
  - right. destruct Ha as [(c & f & d & Hc & Hn & Hk & _ & Hde & _ & _ & _ & _ & Hs') _ Hv].
    exists c. eexists. split_and!; [done|done| |by rewrite Hs'|done].
    split; [done|]. exists f. by rewrite Hk.
Qed.

Lemma freeze_durable ff s k t s' :
  freeze ff s k t = Ok s' -> s' <> s ->
  durable_step (Some s) s' /\ st_strategy_instance_id s' = st_strategy_instance_id s /\
  st_pending_entry_recovery s' = st_pending_entry_recovery s /\
  st_pending_close_recovery s' = st_pending_close_recovery s.
Proof.
  intros [[-> _]|(c & c' & Hc & _ & Hf & -> & Hv)]%freeze_parts Hne; [done|].
  split; [|done]. eapply durable_parts; [done..|]. rewrite Hc. by apply first_fill.
Qed.

(** A stored cycle that stays is not rewritten. *)
Lemma durable_step_cycle s s' c c' :
  durable_step (Some s) s' -> st_current_trade_cycle s = Some c ->
  st_current_trade_cycle s' = Some c' ->
  tc_trade_cycle_id c' = tc_trade_cycle_id c /\
  tc_applied_entry_package c' = tc_applied_entry_package c /\
  (forall f, tc_frozen_entry_context c = Some f -> tc_frozen_entry_context c' = Some f) /\
  (tc_entry_remainder_cancelled c = true -> tc_entry_remainder_cancelled c' = true).
Proof.
  intros Hd Hc Hc'. inversion Hd as [|s1|s1 c1 pe pc Hp Hv]; subst.
  - rewrite Hc in Hc'. by injection Hc' as <-.
  - simpl in Hc'. subst c1. rewrite Hc in Hp. inversion Hp; subst; try done.
    + match goal with Hf : freezes _ _ |- _ => destruct Hf as (Hn & f & _ & ->) end.
      simpl. split_and!; try done. congruence.
    + match goal with Hm : manages _ _ |- _ => destruct Hm as (_ & ? & ? & Hf & ?) end.
      split_and!; try done. by rewrite Hf.
Qed.

(** * Reading a trace *)

(** The last aggregate saved for [id]. *)
Definition saved_of (id : string) (acc : option StrategyInstanceRuntimeState) (e : event) :
    option StrategyInstanceRuntimeState :=
  match e with
  | EvSave s => if decide (st_strategy_instance_id s = id) then Some s else acc
  | _ => acc
  end.
Definition last_saved (id : string) (evs : list event) : option StrategyInstanceRuntimeState :=
  fold_left (saved_of id) evs None.

(** Whether the critical section of [id] is held after [evs]. *)
Definition section_held_of (id : string) (acc : bool) (e : event) : bool :=
  match e with
  | EvAcquire k => if decide (k = id) then true else acc
  | EvRelease k => if decide (k = id) then false else acc
  | _ => acc
  end.
Definition section_held (id : string) (evs : list event) : bool :=
  fold_left (section_held_of id) evs false.

Definition is_bracket (e : event) : bool :=
  match e with EvAcquire _ | EvRelease _ => true | _ => false end.

(** An aggregate nothing has been saved for: it was registered and never changed. *)
Definition untouched (o : option StrategyInstanceRuntimeState) : Prop :=
  match o with
  | None => True
  | Some s => st_current_trade_cycle s = None /\ unmarked s /\
      st_risk_multiplier s = CANONICAL_INITIAL_RISK_MULTIPLIER
  end.

Definition agrees (o acc : option StrategyInstanceRuntimeState) : Prop :=
  o = acc \/ (acc = None /\ untouched o).

Lemma saved_of_other id acc e : event_instance e <> Some id -> saved_of id acc e = acc.
Proof. destruct e; simpl; try done. intros Hne. case_decide; congruence. Qed.

Lemma saved_of_effect id acc e o : permitted o e -> saved_of id acc e = acc.
Proof. by destruct e. Qed.

Lemma section_held_of_other id acc e : event_instance e <> Some id -> section_held_of id acc e = acc.
Proof. destruct e; simpl; try done; intros Hne; case_decide; congruence. Qed.

Lemma section_held_of_effect id acc e o : permitted o e -> section_held_of id acc e = acc.
Proof. by destruct e. Qed.

Lemma initial_untouched q s : initial_state q = Ok s -> untouched (Some s).
Proof.
  intros Hq. pose proof (initial_state_parts _ _ Hq) as (? & ? & ? & _). split_and!; try done.
  unfold initial_state in Hq. apply result_bind_Ok in Hq as (? & _ & Hq).
  by apply state_post_init_Ok in Hq as [-> _].
Qed.

Lemma follows_saved id c evs c' acc :
  follows id c evs c' -> agrees (durable c) acc ->
  agrees (durable c') (fold_left (saved_of id) evs acc).
Proof.
  intros Hf. revert acc. induction Hf as [c|s c evs Hd Hi Hf IH|o c evs Hf IH|o c evs Hf IH
      |o s c evs Hd Hi Hf IH|o e c evs He Hp Hf IH|c e c' evs He Hf IH];
    intros acc Ha; simpl in *.
  - done.
  - apply IH. right. destruct Ha as [<-|[-> _]]; (split; [done|]);
      inversion Hd; subst; by eapply initial_untouched.
  - by apply IH.
  - by apply IH.
  - apply IH. left. by rewrite decide_True.
  - apply IH. by rewrite (saved_of_effect _ _ _ o).
  - apply IH. by rewrite saved_of_other.
Qed.

Lemma follows_holding id c evs c' :
  follows id c evs c' ->
  fold_left (section_held_of id) evs (held_by_handler c) = held_by_handler c'.
Proof.
  induction 1 as [c|s c evs Hd Hi Hf IH|o c evs Hf IH|o c evs Hf IH
      |o s c evs Hd Hi Hf IH|o e c evs He Hp Hf IH|c e c' evs He Hf IH]; simpl in *; try done.
  - by rewrite decide_True.
  - by rewrite decide_True.
  - by rewrite (section_held_of_effect _ _ _ o).
  - by rewrite section_held_of_other.
Qed.

(** The control an event of the instance is taken from. *)
Definition takes (id : string) (c : control) (e : event) (c' : control) : Prop :=
  match e with
  | EvAcquire _ => exists o, c = At false o /\ c' = At true o
  | EvRelease _ => exists o, c = At true o /\ c' = At false o
  | EvSave s => exists o, c = At true o /\ c' = At true (Some s) /\ durable_step o s
  | _ => exists o, c = At true o /\ c' = c /\ permitted o e
  end.

Lemma follows_split id c evs1 e evs2 c' :
  follows id c (evs1 ++ e :: evs2) c' -> event_instance e = Some id ->
  exists c1 c2, follows id c evs1 c1 /\ takes id c1 e c2 /\ follows id c2 evs2 c'.
Proof.
  intros Hf He. remember (evs1 ++ e :: evs2) as evs eqn:Hevs. revert evs1 Hevs.
  induction Hf as [c|s c evs Hd Hi Hf IH|o c evs Hf IH|o c evs Hf IH
      |o s c evs Hd Hi Hf IH|o e' c evs He' Hp Hf IH|c e' c' evs He' Hf IH];
    intros evs1 Hevs.
  - by destruct evs1.
  - destruct (IH evs1 Hevs) as (c1 & c2 & H1 & H2 & H3). exists c1, c2.
    split_and!; [by eapply follows_register|done|done].
  - destruct evs1 as [|e1 evs1]; simplify_eq/=.
    + exists (At false o), (At true o). split_and!; [constructor|by exists o|done].
    + destruct (IH evs1 eq_refl) as (c1 & c2 & H1 & H2 & H3). exists c1, c2.
      split_and!; [by constructor|done|done].
  - destruct evs1 as [|e1 evs1]; simplify_eq/=.
    + exists (At true o), (At false o). split_and!; [constructor|by exists o|done].
    + destruct (IH evs1 eq_refl) as (c1 & c2 & H1 & H2 & H3). exists c1, c2.
      split_and!; [by constructor|done|done].
  - destruct evs1 as [|e1 evs1]; simplify_eq/=.
    + exists (At true o), (At true (Some s)). split_and!; [constructor|by exists o|done].
    + destruct (IH evs1 eq_refl) as (c1 & c2 & H1 & H2 & H3). exists c1, c2.
      split_and!; [by constructor|done|done].
  - destruct evs1 as [|e1 evs1]; simplify_eq/=.
    + exists (At true o), (At true o). split_and!; [constructor| |done].
      match goal with X : permitted o ?x |- _ => destruct x end; simpl in *; try done; by exists o.
    + destruct (IH evs1 eq_refl) as (c1 & c2 & H1 & H2 & H3). exists c1, c2.
      split_and!; [by constructor|done|done].
  - destruct evs1 as [|e1 evs1]; simplify_eq/=.
    destruct (IH evs1 eq_refl) as (c1 & c2 & H1 & H2 & H3). exists c1, c2.
    split_and!; [by constructor|done|done].
Qed.
