(* ===== verification/ProtocolRules.v ===== *)
(** How a program is proved to implement the protocol while other threads run.

    A thread works on one instance at a time, inside that instance's critical section.
    Before each of its steps other threads may have made any number of steps of their own
    ([interference]): they keep every stored aggregate legal, and they leave alone the
    instance whose section the thread holds. [safe] says that a program, under all such
    interference, only makes the steps the protocol allows ([thread_step]); [inside] is its
    form for a program within a critical section, with rules for each primitive of the
    monad, and [outside] its form for a program that holds none between its operations. *)
From S2P Require Import Prelude Errors DecimalText Models Contracts Effects Protocol.

(** Every stored aggregate keeps the invariant of the protocol. *)
Definition legal_store {R} `{Repository R} (r : R) : Prop :=
  forall id, legal_option (repo_lookup r id).

Section safe.
Context {R W : Type} `{Repository R} `{Ports W}.
Implicit Types (s : sys R W) (mode : option string).

(** * Steps of threads *)

(** What the other threads may have done since a thread, holding the section [mode] or none,
    left the system in state [s]. *)
Definition interference mode s s1 : Prop :=
  match mode with
  | None => legal_store (sys_repo s1)
  | Some id => repo_lookup (sys_repo s1) id = repo_lookup (sys_repo s) id
  end.

Definition own (id : string) (e : event) : Prop :=
  event_instance e = Some id \/ event_instance e = None.

(** The trace grew by events of instance [id] (and journal records) that follow the protocol
    inside the critical section, and no other instance's stored aggregate changed. *)
Definition runs (id : string) s s' : Prop :=
  (exists evs, sys_trace s' = sys_trace s ++ evs /\ Forall (own id) evs /\
     follows id (At true (repo_lookup (sys_repo s) id)) evs
       (At true (repo_lookup (sys_repo s') id))) /\
  forall k, k <> id -> repo_lookup (sys_repo s') k = repo_lookup (sys_repo s) k.

(** A step of a thread, with the section it holds before and after. *)
Inductive thread_step : option string -> sys R W -> option string -> sys R W -> Prop :=
| quiet_step s s' evs : same_content (sys_repo s) (sys_repo s') ->
    sys_trace s' = sys_trace s ++ evs -> Forall (fun e => event_instance e = None) evs ->
    thread_step None s None s'
| enter_step id s s' : same_content (sys_repo s) (sys_repo s') ->
    sys_trace s' = sys_trace s ++ [EvAcquire id] -> thread_step None s (Some id) s'
| leave_step id s s' : same_content (sys_repo s) (sys_repo s') ->
    sys_trace s' = sys_trace s ++ [EvRelease id] -> thread_step (Some id) s None s'
| inside_step id s s' : runs id s s' -> thread_step (Some id) s (Some id) s'.

(** The control of instance [id] when a thread with section [mode] is the one that steps. *)
Definition control_of mode (id : string) s : control :=
  At (bool_decide (mode = Some id)) (repo_lookup (sys_repo s) id).

Lemma quiet_follows id (h : bool) (r r' : R) evs :
  same_content r r' -> Forall (fun e => event_instance e <> Some id) evs ->
  follows id (At h (repo_lookup r id)) evs (At h (repo_lookup r' id)).
Proof. intros Hr He. rewrite Hr. by apply follows_skip. Qed.

(** What a step means for an instance: for those whose section the thread neither enters nor
    leaves nor holds, nothing. *)
Lemma thread_step_follows mode s mode' s' : thread_step mode s mode' s' ->
  exists evs, sys_trace s' = sys_trace s ++ evs /\ forall id,
    follows id (control_of mode id s) evs (control_of mode' id s') /\
    (mode <> Some id -> mode' <> Some id ->
       repo_lookup (sys_repo s') id = repo_lookup (sys_repo s) id /\
       Forall (fun e => event_instance e <> Some id) evs).
Proof.
  unfold control_of. destruct 1 as [s s' evs Hr Ht He|k s s' Hr Ht|k s s' Hr Ht|k s s' [(evs & Ht & Ho & Hf) Hframe]].
  - exists evs. split; [done|]. intros id.
    assert (Forall (fun e => event_instance e <> Some id) evs) as He'.
    { eapply Forall_impl; [exact He|]. intros e Hx. simpl in *. congruence. }
    split; [by apply quiet_follows|]. intros _ _. by rewrite (Hr id).
  - eexists. split; [exact Ht|]. intros id. destruct (decide (k = id)) as [->|Hk].
    + rewrite bool_decide_eq_false_2, bool_decide_eq_true_2, Hr by done. split; [|naive_solver].
      apply follows_acquire. constructor.
    + rewrite !bool_decide_eq_false_2 by congruence.
      assert (Forall (fun e => event_instance e <> Some id) [EvAcquire k]) as He'.
      { constructor; [simpl; congruence|constructor]. }
      split; [by apply quiet_follows|]. intros _ _. by rewrite (Hr id).
  - eexists. split; [exact Ht|]. intros id. destruct (decide (k = id)) as [->|Hk].
    + rewrite bool_decide_eq_true_2, bool_decide_eq_false_2, Hr by done. split; [|naive_solver].
      apply follows_release. constructor.
    + rewrite !bool_decide_eq_false_2 by congruence.
      assert (Forall (fun e => event_instance e <> Some id) [EvRelease k]) as He'.
      { constructor; [simpl; congruence|constructor]. }
      split; [by apply quiet_follows|]. intros _ _. by rewrite (Hr id).
  - exists evs. split; [done|]. intros id. destruct (decide (k = id)) as [->|Hk].
    + rewrite !bool_decide_eq_true_2 by done. split; [done|naive_solver].
    + rewrite !bool_decide_eq_false_2 by congruence.
      assert (Forall (fun e => event_instance e <> Some id) evs) as He'.
      { eapply Forall_impl; [exact Ho|]. unfold own. intros e [Hx|Hx]; congruence. }
      rewrite Hframe by done. split; [by apply follows_skip|done].
Qed.

Lemma thread_step_legal mode s mode' s' :
  thread_step mode s mode' s' -> legal_store (sys_repo s) -> legal_store (sys_repo s').
Proof.
  intros (evs & _ & Hf)%thread_step_follows Hl id. destruct (Hf id) as [Hid _].
  apply follows_legal in Hid; [done|apply Hl].
Qed.

(** * Programs that only make steps of the protocol *)

(** Whatever other threads do before each step, [m] makes steps of the protocol, and ends
    with [Q] of the section it then holds, its result and the state. *)
Fixpoint safe {A} mode (m : M R W A) (Q : option string -> result A -> sys R W -> Prop) s : Prop :=
  match m with
  | Done r => Q mode r s
  | Step f => forall s1, interference mode s s1 ->
      exists mode', thread_step mode s1 mode' (f s1).1 /\ safe mode' (f s1).2 Q (f s1).1
  end.

Lemma safe_mono {A} (m : M R W A) mode (Q Q' : option string -> result A -> sys R W -> Prop) s :
  safe mode m Q s -> (forall mode' r s', Q mode' r s' -> Q' mode' r s') -> safe mode m Q' s.
Proof.
  intros Hm HQ. revert mode s Hm. induction m as [r|f IH] using M_induction; intros mode s Hm;
    [by apply HQ|]. intros s1 Hi. destruct (Hm s1 Hi) as (mode' & ? & ?). eauto.
Qed.

Lemma safe_and_then {A B} (m : M R W A) (k : result A -> M R W B) mode Q s :
  safe mode m (fun mode' r s' => safe mode' (k r) Q s') s -> safe mode (and_then m k) Q s.
Proof.
  revert mode s. induction m as [r|f IH] using M_induction; intros mode s Hm; [exact Hm|].
  intros s1 Hi. destruct (Hm s1 Hi) as (mode' & Hs & Hrest). exists mode'.
  specialize (IH s1). destruct (f s1) as [s' m']. split; [done|]. by apply IH.
Qed.

(** An atomic step. *)
Lemma safe_atomic {A} (f : sys R W -> sys R W * result A) mode Q s :
  (forall s1, interference mode s s1 ->
    exists mode', thread_step mode s1 mode' (f s1).1 /\ Q mode' (f s1).2 (f s1).1) ->
  safe mode (atomic f) Q s.
Proof. intros Hf s1 Hi. specialize (Hf s1 Hi). by destruct (f s1). Qed.

(** Run by itself, such a program follows the protocol. *)
Lemma safe_run {A} (m : M R W A) mode Q s :
  safe mode m Q s -> legal_store (sys_repo s) ->
  exists mode' evs, Q mode' (m s).2 (m s).1 /\ sys_trace (m s).1 = sys_trace s ++ evs /\
    forall id, follows id (control_of mode id s) evs (control_of mode' id (m s).1).
Proof.
  revert mode s. induction m as [r|f IH] using M_induction; intros mode s Hm Hl.
  - exists mode, []. rewrite app_nil_r. split_and!; [done|done|constructor].
  - destruct (Hm s) as (mode1 & Hs & Hrest); [by destruct mode|]. rewrite run_Step.
    specialize (IH s). destruct (f s) as [s1 m1]. simpl in *.
    destruct (IH _ _ Hrest) as (mode2 & evs2 & HQ & Ht2 & Hf2); [by eapply thread_step_legal|].
    apply thread_step_follows in Hs as (evs1 & Ht1 & Hf1).
    exists mode2, (evs1 ++ evs2). split_and!; [done|by rewrite Ht2, Ht1, app_assoc|].
    intros id. eapply follows_app; [apply Hf1|apply Hf2].
Qed.

(** ** Outside of the critical sections *)

(** [m] holds no section when it starts and when it ends. *)
Definition outside {A} (m : M R W A) : Prop :=
  forall s, safe None m (fun mode _ _ => mode = None) s.

Lemma outside_done {A} (r : result A) : outside (Done r).
Proof. done. Qed.

Lemma outside_and_then {A B} (m : M R W A) (k : result A -> M R W B) :
  outside m -> (forall r, outside (k r)) -> outside (and_then m k).
Proof.
  intros Hm Hk s. apply safe_and_then. eapply safe_mono; [apply Hm|]. intros mode r s' ->. apply Hk.
Qed.

Lemma outside_bind {A B} (m : M R W A) (k : A -> M R W B) :
  outside m -> (forall a, outside (k a)) -> outside (m ≫= k).
Proof. intros Hm Hk. apply outside_and_then; [done|]. intros [a|e]; [apply Hk|done]. Qed.

Lemma outside_catch {A} (m : M R W A) h :
  outside m -> (forall e, outside (h e)) -> outside (catch m h).
Proof. intros Hm Hh. apply outside_and_then; [done|]. intros [a|e]; [done|apply Hh]. Qed.

Lemma outside_quiet {A} (f : sys R W -> sys R W * result A) :
  (forall s, exists evs, same_content (sys_repo s) (sys_repo (f s).1) /\
     sys_trace (f s).1 = sys_trace s ++ evs /\ Forall (fun e => event_instance e = None) evs) ->
  outside (atomic f).
Proof.
  intros Hf s. apply safe_atomic. intros s1 _. exists None. split; [|done].
  destruct (Hf s1) as (evs & ? & ? & ?). by apply (quiet_step _ _ evs).
Qed.

Lemma outside_world {A} (f : W -> W * result A) : outside (on_world f).
Proof.
  apply outside_quiet. intros s. exists []. destruct (f (sys_world s)). simpl.
  by rewrite app_nil_r.
Qed.

Lemma outside_journal b j : outside (journal b j).
Proof.
  destruct b; [|done]. apply outside_quiet. intros s. exists [EvJournal j].
  split_and!; [done|done|by repeat constructor].
Qed.

Lemma outside_read {A} (f : R -> R * result A) :
  (forall r, same_content r (f r).1) -> outside (on_repo f).
Proof.
  intros Hf. apply outside_quiet. intros s. exists []. specialize (Hf (sys_repo s)).
  destruct (f (sys_repo s)). simpl in *. by rewrite app_nil_r.
Qed.

(** ** Inside a critical section *)

(** [m] runs inside the section of [id] and ends inside it, whatever other threads do to other
    instances: [Q] holds of the value and the state if it returns, [E] of the exception and
    the state if it raises. *)
Fixpoint inside {A} (id : string) (m : M R W A) (Q : A -> sys R W -> Prop)
    (E : exn -> sys R W -> Prop) s : Prop :=
  match m with
  | Done (Ok a) => Q a s
  | Done (Raise e) => E e s
  | Step f => forall s1, interference (Some id) s s1 ->
      runs id s1 (f s1).1 /\ inside id (f s1).2 Q E (f s1).1
  end.

Lemma inside_safe {A} id (m : M R W A) (Q : A -> sys R W -> Prop) (E : exn -> sys R W -> Prop) s :
  inside id m Q E s ->
  safe (Some id) m (fun mode r s' => mode = Some id /\
    match r with Ok a => Q a s' | Raise e => E e s' end) s.
Proof.
  revert s. induction m as [[a|e]|f IH] using M_induction; intros s Hm; [done..|].
  intros s1 Hi. destruct (Hm s1 Hi) as [Hr Hrest]. exists (Some id).
  split; [by apply inside_step|]. by apply IH.
Qed.

Lemma inside_and_then {A B} id (m : M R W A) (k : result A -> M R W B) Q E s :
  inside id m (fun a s' => inside id (k (Ok a)) Q E s') (fun e s' => inside id (k (Raise e)) Q E s') s ->
  inside id (and_then m k) Q E s.
Proof.
  revert s. induction m as [[a|e]|f IH] using M_induction; intros s Hm; [exact Hm..|].
  intros s1 Hi. destruct (Hm s1 Hi) as [Hr Hrest]. specialize (IH s1).
  destruct (f s1) as [s' m']. split; [done|]. by apply IH.
Qed.

Lemma inside_mono {A} id (m : M R W A) (Q Q' : A -> sys R W -> Prop) (E E' : exn -> sys R W -> Prop) s :
  inside id m Q E s -> (forall a s', Q a s' -> Q' a s') -> (forall e s', E e s' -> E' e s') ->
  inside id m Q' E' s.
Proof.
  intros Hm HQ HE. revert s Hm. induction m as [[a|e]|f IH] using M_induction; intros s Hm;
    [by apply HQ|by apply HE|]. intros s1 Hi. destruct (Hm s1 Hi) as [Hr Hrest].
  split; [done|]. by apply IH.
Qed.

(** Run by itself, it also leaves the other instances alone. *)
Lemma inside_wp {A} id (m : M R W A) (Q : A -> sys R W -> Prop) (E : exn -> sys R W -> Prop) s :
  inside id m Q E s ->
  let others s' := forall k, k <> id -> repo_lookup (sys_repo s') k = repo_lookup (sys_repo s) k in
  wp m (fun a s' => Q a s' /\ others s') (fun e s' => E e s' /\ others s') s.
Proof.
  unfold wp. revert s. induction m as [[a|e]|f IH] using M_induction; intros s Hm; [done..|].
  destruct (Hm s) as [[_ Hframe] Hrest]; [done|]. rewrite run_Step. specialize (IH s).
  destruct (f s) as [s1 m1]. specialize (IH _ Hrest). simpl in *.
  destruct (m1 s1) as [s2 [a|e]]; (split; [apply IH|]); intros k Hk;
    by rewrite (proj2 IH k Hk), Hframe.
Qed.

Lemma inside_ret {A} id (a : A) (Q : A -> sys R W -> Prop) E s : Q a s -> inside id (mret a) Q E s.
Proof. done. Qed.

Lemma inside_bind {A B} id (m : M R W A) (f : A -> M R W B) Q E s :
  inside id m (fun a s' => inside id (f a) Q E s') E s -> inside id (m ≫= f) Q E s.
Proof.
  exact (inside_and_then id m (fun r => match r with Ok a => f a | Raise e => Done (Raise e) end)
    Q E s).
Qed.

Lemma inside_lift {A} id (r : result A) (Q : A -> sys R W -> Prop) (E : exn -> sys R W -> Prop) s :
  match r with Ok a => Q a s | Raise e => E e s end -> inside id (lift r) Q E s.
Proof. by destruct r. Qed.

Lemma inside_throw {A} id c msg (Q : A -> sys R W -> Prop) (E : exn -> sys R W -> Prop) s :
  E (Exn c msg) s -> inside id (throw c msg) Q E s.
Proof. done. Qed.

Lemma inside_catch {A} id (m : M R W A) h Q E s :
  inside id m Q (fun e s' => inside id (h e) Q E s') s -> inside id (catch m h) Q E s.
Proof.
  exact (inside_and_then id m (fun r => match r with Ok a => Done (Ok a) | Raise e => h e end)
    Q E s).
Qed.

Lemma inside_if {A} id (b : bool) (m1 m2 : M R W A) Q E s :
  (b = true -> inside id m1 Q E s) -> (b = false -> inside id m2 Q E s) ->
  inside id (if b then m1 else m2) Q E s.
Proof. destruct b; auto. Qed.

(** An atomic step. *)
Lemma inside_atomic {A} id (f : sys R W -> sys R W * result A) (Q : A -> sys R W -> Prop)
    (E : exn -> sys R W -> Prop) s :
  (forall s1, interference (Some id) s s1 -> runs id s1 (f s1).1 /\
     match (f s1).2 with Ok a => Q a (f s1).1 | Raise e => E e (f s1).1 end) ->
  inside id (atomic f) Q E s.
Proof.
  intros Hf s1 Hi. destruct (Hf s1 Hi) as [Hr HQ]. by destruct (f s1) as [s2 []].
Qed.
End safe.

Arguments safe : simpl never.
Arguments inside : simpl never.

(** * The rules of a critical section *)

(** The stored aggregate of the instance. *)
Definition within {R W} `{Repository R} (id : string) (o : option StrategyInstanceRuntimeState)
    (s : sys R W) : Prop :=
  repo_lookup (sys_repo s) id = o.

(** The exceptional postcondition of most rules: the steps so far are those of the protocol,
    and nothing else is needed. *)
Definition broke {R W} : exn -> sys R W -> Prop := fun _ _ => True.

(** The postcondition of an operation whose answer does not matter to the protocol. *)
Definition kept {R W A} : A -> sys R W -> Prop := fun _ _ => True.

(** What a use case leaves for the final save: the stored aggregate is [d'], and the
    aggregate [r] it returns is [d'] itself or a legal successor whose cycle differs from
    the one the use case started from. *)
Definition settled {R W} `{Repository R} (id : string)
    (source r : StrategyInstanceRuntimeState) (s : sys R W) : Prop :=
  exists d', within id (Some d') s /\ st_strategy_instance_id r = id /\
    (r = d' \/ (durable_step (Some d') r /\
                st_current_trade_cycle r <> st_current_trade_cycle source)).

Section rules.
Context {R W : Type} `{Repository R} `{!RepositoryLaws R} `{Ports W}.
Implicit Types s : sys R W.

Lemma runs_event id s r w e :
  same_content (sys_repo s) r -> event_instance e = Some id ->
  permitted (repo_lookup (sys_repo s) id) e ->
  runs id s (Sys r w (sys_trace s ++ [e])).
Proof.
  intros Hr Hid Hp. split; [|intros k _; apply Hr]. exists [e]. simpl. rewrite (Hr id).
  split_and!; [done|constructor; [by left|constructor]|].
  apply follows_effect; [done|done|constructor].
Qed.

Lemma runs_quiet id s r w :
  same_content (sys_repo s) r -> runs id s (Sys r w (sys_trace s)).
Proof.
  intros Hr. split; [|intros k _; apply Hr]. exists []. simpl. rewrite app_nil_r, (Hr id).
  split_and!; constructor.
Qed.

Lemma runs_journal id s w j :
  runs id s (Sys (sys_repo s) w (sys_trace s ++ [EvJournal j])).
Proof.
  split; [|done]. exists [EvJournal j]. simpl. split_and!; [done| |].
  - constructor; [by right|constructor].
  - apply follows_other; [done|constructor].
Qed.

Lemma stored_lookup (r r' : R) st id :
  stored r r' st -> st_strategy_instance_id st = id ->
  repo_lookup r' id = Some st /\ forall k, k <> id -> repo_lookup r' k = repo_lookup r k.
Proof.
  intros Hr <-. split; [by rewrite Hr, decide_True|]. intros k Hk. by rewrite Hr, decide_False.
Qed.

Lemma runs_save id s st r w :
  stored (sys_repo s) r st -> st_strategy_instance_id st = id ->
  durable_step (repo_lookup (sys_repo s) id) st ->
  runs id s (Sys r w (sys_trace s ++ [EvSave st])).
Proof.
  intros Hr Hid Hd. destruct (stored_lookup _ _ _ _ Hr Hid) as [Hl Hk]. split; [|done].
  exists [EvSave st]. simpl. rewrite Hl. split_and!; [done| |].
  - constructor; [left; simpl; congruence|constructor].
  - apply follows_save; [done|done|constructor].
Qed.

Lemma runs_register id s st r w :
  stored (sys_repo s) r st -> st_strategy_instance_id st = id ->
  repo_lookup (sys_repo s) id = None -> durable_step None st ->
  runs id s (Sys r w (sys_trace s)).
Proof.
  intros Hr Hid Hn Hd. destruct (stored_lookup _ _ _ _ Hr Hid) as [Hl Hk]. split; [|done].
  exists []. simpl. rewrite app_nil_r, Hl, Hn. split_and!; [done|constructor|].
  eapply follows_register; [done|done|constructor].
Qed.

Lemma within_interference id o s s1 :
  within id o s -> interference (Some id) s s1 -> within id o s1.
Proof. unfold within, interference. congruence. Qed.

Lemma inside_world {A} id o s (f : W -> W * result A) Q E :
  within id o s ->
  (forall s' r, within id o s' -> match r with Ok a => Q a s' | Raise x => E x s' end) ->
  inside id (on_world f) Q E s.
Proof.
  intros Hs HQ. apply inside_atomic. intros s1 Hi. pose proof (within_interference _ _ _ _ Hs Hi).
  destruct (f (sys_world s1)) as [w r]. split; [by apply runs_quiet|]. simpl. by apply HQ.
Qed.

Lemma inside_call {A} id o s e (f : W -> W * result A) Q E :
  within id o s -> event_instance e = Some id -> permitted o e ->
  (forall s' r, within id o s' -> match r with Ok a => Q a s' | Raise x => E x s' end) ->
  inside id (call e f) Q E s.
Proof.
  intros Hs Hid Hp HQ. apply inside_bind, inside_atomic. intros s1 Hi.
  pose proof (within_interference _ _ _ _ Hs Hi) as Hs1.
  split; [apply runs_event; [done|done|by rewrite Hs1]|]. by apply (inside_world id o).
Qed.

Lemma inside_emit_journal id o s j Q E :
  within id o s -> (forall s', within id o s' -> Q tt s') ->
  inside id (emit (EvJournal j)) Q E s.
Proof.
  intros Hs HQ. apply inside_atomic. intros s1 Hi. split; [apply runs_journal|].
  apply HQ. exact (within_interference _ _ _ _ Hs Hi).
Qed.

Lemma inside_journal id o s b j Q E :
  within id o s -> (forall s', within id o s' -> Q tt s') ->
  inside id (journal b j) Q E s.
Proof.
  intros Hs HQ. destruct b; [by apply (inside_emit_journal id o)|]. apply inside_ret. by apply HQ.
Qed.

Lemma inside_get id o s Q E :
  within id o s ->
  (forall s', within id o s' -> Q o s') ->
  (forall s' e, within id o s' -> E e s') ->
  inside id (get id) Q E s.
Proof.
  intros Hs HQ HE. apply inside_atomic. intros s1 Hi.
  pose proof (within_interference _ _ _ _ Hs Hi) as Hs1. unfold within in Hs1.
  destruct (repo_get id (sys_repo s1)) as [r [o'|e]] eqn:Hr; simpl.
  - apply get_ok in Hr as [-> Hr]. rewrite Hs1. split; [by apply runs_quiet|].
    apply HQ. unfold within. simpl. by rewrite (Hr id).
  - apply get_raise in Hr. split; [by apply runs_quiet|].
    apply HE. unfold within. simpl. by rewrite (Hr id).
Qed.

Lemma inside_save id o s st Q E :
  within id o s -> st_strategy_instance_id st = id -> durable_step o st ->
  (forall s', within id (Some st) s' -> Q st s') ->
  (forall s' e, within id o s' -> E e s') ->
  inside id (save st) Q E s.
Proof.
  intros Hs Hid Hd HQ HE. apply inside_atomic. intros s1 Hi.
  pose proof (within_interference _ _ _ _ Hs Hi) as Hs1. unfold within in Hs1.
  destruct (repo_save st (sys_repo s1)) as [r [st'|e]] eqn:Hr; simpl.
  - apply save_ok in Hr as (-> & Hr & _). split; [by apply runs_save; [..|rewrite Hs1]|].
    apply HQ. by eapply stored_lookup.
  - apply save_raise in Hr. split; [by apply runs_quiet|].
    apply HE. unfold within. simpl. by rewrite (Hr id).
Qed.

Lemma inside_get_or_create id o s q Q E :
  within id o s -> gc_strategy_instance_id q = id ->
  (forall st s', within id (Some st) s' -> st_strategy_instance_id st = id -> Q st s') ->
  (forall s' e, within id o s' -> E e s') ->
  inside id (get_or_create q) Q E s.
Proof.
  intros Hs Hid HQ HE. apply inside_atomic. intros s1 Hi.
  pose proof (within_interference _ _ _ _ Hs Hi) as Hs1. unfold within in Hs1.
  destruct (repo_get_or_create q (sys_repo s1)) as [r [st|e]] eqn:Hr; simpl.
  - apply get_or_create_ok in Hr as [(Hl & _ & Hr)|(Hn & Hq & Hr)]; rewrite Hid in *.
    + split; [by apply runs_quiet|]. apply HQ; [|by apply (lookup_id (sys_repo s1))].
      unfold within. simpl. by rewrite (Hr id).
    + pose proof (initial_state_parts _ _ Hq) as (_ & _ & _ & Hst & _). rewrite Hid in Hst.
      split; [eapply runs_register; [done..|by eapply durable_register]|].
      apply HQ; [by eapply stored_lookup|done].
  - apply get_or_create_raise in Hr. split; [by apply runs_quiet|].
    apply HE. unfold within. simpl. by rewrite (Hr id).
Qed.

(** An operation brackets its work with the critical section of its instance: the body may
    rely on a legal aggregate that nobody else changes, and what it leaves stored is stored when
    the operation ends. *)
Lemma safe_hold {A} id timeout (body : M R W A) (left_ : A -> option StrategyInstanceRuntimeState -> Prop) s :
  (forall s, legal_option (repo_lookup (sys_repo s) id) ->
     inside id body (fun a s' => left_ a (repo_lookup (sys_repo s') id)) broke s) ->
  safe None (hold id timeout body) (fun mode r s' => mode = None /\
    match r with Ok a => left_ a (repo_lookup (sys_repo s') id) | Raise _ => True end) s.
Proof.
  intros Hbody. apply safe_and_then, (safe_mono (lift _) None (fun mode _ _ => mode = None));
    [done|]. intros mode r s0 ->. destruct r as [u|e]; [|done].
  apply safe_and_then, (safe_mono (acquire id timeout) None (fun mode _ _ => mode = None)).
  { destruct timeout; [apply outside_world|apply outside_done]. }
  intros mode r s1 ->. destruct r as [[|]|e]; [|done..].
  apply safe_and_then, safe_atomic. intros s2 Hl.
  exists (Some id). split; [by apply enter_step|]. simpl. apply safe_and_then.
  eapply safe_mono; [apply inside_safe, Hbody, Hl|]. intros mode r s3 [-> Hr].
  apply safe_and_then, safe_atomic. intros s4 Hi. exists None. split; [by apply leave_step|].
  split; [done|]. simpl in *. destruct r as [a|e]; [|done]. by rewrite Hi.
Qed.

Lemma outside_hold {A} id timeout (body : M R W A) :
  (forall s, legal_option (repo_lookup (sys_repo s) id) -> inside id body kept broke s) ->
  outside (hold id timeout body).
Proof.
  intros Hbody s. eapply safe_mono; [by apply (safe_hold id timeout body (fun _ _ => True))|].
  by intros mode r s' [-> _].
Qed.

Lemma outside_get id : outside (get id : M R W _).
Proof.
  apply outside_read. intros r. destruct (repo_get id r) as [r' [o|e]] eqn:Hr.
  - by apply get_ok in Hr as [_ ?].
  - by apply get_raise in Hr.
Qed.
End rules.

Section executions.
Context {R W : Type} `{Repository R}.
Implicit Types s : sys R W.

(** ** Whole executions *)

(** Every instance's part of the trace follows the protocol. *)
Definition executes (s s' : sys R W) : Prop :=
  exists evs, sys_trace s' = sys_trace s ++ evs /\
    forall id, follows id (At false (repo_lookup (sys_repo s) id)) evs
      (At false (repo_lookup (sys_repo s') id)).

Lemma executes_refl s : executes s s.
Proof. exists []. rewrite app_nil_r. split; [done|]. intros id. constructor. Qed.

Lemma executes_trans s1 s2 s3 : executes s1 s2 -> executes s2 s3 -> executes s1 s3.
Proof.
  intros (e1 & Ht1 & H1) (e2 & Ht2 & H2). exists (e1 ++ e2).
  split; [by rewrite Ht2, Ht1, app_assoc|]. eauto using follows_app.
Qed.

Lemma executes_legal s s' :
  executes s s' -> legal_store (sys_repo s) -> legal_store (sys_repo s').
Proof.
  intros (evs & _ & Hf) Hl id. specialize (Hf id). apply follows_legal in Hf; [done|apply Hl].
Qed.

(** A program that holds no section, run by itself. *)
Lemma outside_executes {A} (m : M R W A) s :
  outside m -> legal_store (sys_repo s) -> executes s (m s).1.
Proof.
  intros Hm Hl. destruct (safe_run m None _ s (Hm s) Hl) as (mode & evs & -> & Ht & Hf).
  exists evs. split; [done|exact Hf].
Qed.
End executions.

#[export] Hint Resolve outside_done outside_world outside_journal outside_get : runtime.

(** [runs_done] closes the exceptional and final goals of the rules. *)
Ltac runs_done := exact I.

(** [pcall Hw] steps over a call through a port, [pworld Hw] over a call that is not
    observable, [pget Hw] over a read and [psave Hw] over a save of the instance's
    aggregate; they leave the side conditions of the protocol as goals, and rename the
    [within] hypothesis of the state reached to [Hw]. *)
Ltac pcall Hw :=
  eapply inside_call; [exact Hw|try (simpl; congruence)|try done|clear Hw; intros ? [?|?] Hw; [|try runs_done]].
Ltac pworld Hw :=
  eapply inside_world; [exact Hw|clear Hw; intros ? [?|?] Hw; [|try runs_done]].
Ltac pjournal Hw :=
  eapply inside_journal; [exact Hw|clear Hw; intros ? Hw].
Ltac pget Hw :=
  eapply inside_get; [exact Hw|clear Hw; intros ? Hw|clear Hw; intros ? ? Hw; try runs_done].
Ltac psave Hw :=
  eapply inside_save; [exact Hw|try done| |clear Hw; intros ? Hw
    |clear Hw; intros ? ? Hw; try runs_done].
(** [plift] steps over pure code, keeping what its success says. *)
Ltac plift :=
  apply inside_lift; lazymatch goal with
  | |- match ?r with _ => _ end => destruct r eqn:?; [|try runs_done]
  end.
