(* ===== verification/Threads.v ===== *)
(** The threads of the process: programs that take turns, step by step, on the one system.

    A pool holds what is left of each thread. [schedule] lets a scheduler start new threads
    and advance any of them by one step, in any order; a step that would enter a critical
    section that is held cannot be taken, its thread waits (the keyed mutex of Coordination.v
    is what makes it wait). The theorems need nothing of the programs but that they are
    [outside] of ProtocolRules.v: then every interleaving of their steps follows the protocol,
    no thread waits for ever, and every schedule comes to an end. *)
From S2P Require Import Prelude Errors DecimalText Models Contracts Effects Protocol ProtocolRules.

Section pool.
Context {R W : Type} `{Repository R} {activity : Type} (code : activity -> M R W ()).
Implicit Types s : sys R W.

Record pool := Pool { threads : list (M R W ()); system : sys R W }.

Inductive move :=
| Start (a : activity)
| Advance (i : nat).

(** Whether the step from [s] to [s'] enters a section that is held. *)
Definition waits (s s' : sys R W) : bool :=
  match drop (length (sys_trace s)) (sys_trace s') with
  | [EvAcquire key] => section_held key (sys_trace s)
  | _ => false
  end.

Definition advance (i : nat) (c : pool) : option pool :=
  match threads c !! i with
  | Some (Step f) =>
      let '(s', m) := f (system c) in
      if waits (system c) s' then None else Some (Pool (<[i := m]> (threads c)) s')
  | _ => None
  end.

Definition make (mv : move) (c : pool) : option pool :=
  match mv with
  | Start a => Some (Pool (threads c ++ [code a]) (system c))
  | Advance i => advance i c
  end.

Fixpoint schedule (mvs : list move) (c : pool) : option pool :=
  match mvs with
  | [] => Some c
  | mv :: mvs => match make mv c with Some c' => schedule mvs c' | None => None end
  end.

Definition finished (m : M R W ()) : Prop := match m with Done _ => True | Step _ => False end.

Lemma schedule_app mvs1 mvs2 c c1 :
  schedule mvs1 c = Some c1 -> schedule (mvs1 ++ mvs2) c = schedule mvs2 c1.
Proof.
  revert c; induction mvs1 as [|mv mvs1 IH]; intros c Hs; simplify_eq/=; [done|].
  destruct (make mv c); [by apply IH|done].
Qed.

(** * The invariant of a pool *)

Definition no_section : option string -> result () -> sys R W -> Prop :=
  fun mode _ _ => mode = None.

(** The sections the threads hold: one thread each, and exactly those the trace shows. *)
Record orderly (modes : list (option string)) (c : pool) : Prop := {
  or_safe : Forall2 (fun mode m => safe mode m no_section (system c)) modes (threads c);
  or_alone i j id : modes !! i = Some (Some id) -> modes !! j = Some (Some id) -> i = j;
  or_held id : section_held id (sys_trace (system c)) = true <->
    exists i, modes !! i = Some (Some id);
  or_legal : legal_store (sys_repo (system c)) }.

(** From [s] to [s'] every instance's part of the trace follows the protocol, its section
    being held or free at both ends as the trace shows. *)
Definition moves (s s' : sys R W) : Prop :=
  exists evs, sys_trace s' = sys_trace s ++ evs /\
    forall id, follows id
      (At (section_held id (sys_trace s)) (repo_lookup (sys_repo s) id)) evs
      (At (section_held id (sys_trace s')) (repo_lookup (sys_repo s') id)).

Lemma moves_refl s : moves s s.
Proof. exists []. rewrite app_nil_r. split; [done|constructor]. Qed.

Lemma moves_trans s1 s2 s3 : moves s1 s2 -> moves s2 s3 -> moves s1 s3.
Proof.
  intros (e1 & Ht1 & H1) (e2 & Ht2 & H2). exists (e1 ++ e2).
  split; [by rewrite Ht2, Ht1, app_assoc|]. intros id. by eapply follows_app.
Qed.

Lemma section_held_app id evs1 evs2 :
  section_held id (evs1 ++ evs2) = fold_left (section_held_of id) evs2 (section_held id evs1).
Proof. apply fold_left_app. Qed.

Lemma section_held_skip id evs1 evs2 :
  Forall (fun e => event_instance e <> Some id) evs2 ->
  section_held id (evs1 ++ evs2) = section_held id evs1.
Proof.
  rewrite section_held_app. generalize (section_held id evs1) as b. intros b He. revert b.
  induction He as [|e evs2 He _ IH]; intros b; simpl; [done|]. by rewrite section_held_of_other, IH.
Qed.

Lemma safe_later {A} mode (m : M R W A) (P : option string -> result A -> Prop) s s' :
  interference mode s s' -> safe mode m (fun mode r _ => P mode r) s ->
  safe mode m (fun mode r _ => P mode r) s'.
Proof.
  intros Hi Hm. destruct m as [r|f]; [exact Hm|]. intros s1 Hi1. apply Hm.
  destruct mode; simpl in *; [congruence|done].
Qed.

(** ** One step *)

(** The sections held, before and after a step that did not have to wait. *)
Lemma thread_step_held mode s mode' s' :
  thread_step mode s mode' s' -> waits s s' = false ->
  (forall id, mode = Some id -> section_held id (sys_trace s) = true) ->
  moves s s' /\
  (forall id, section_held id (sys_trace s') = true <->
     mode' = Some id \/ (mode <> Some id /\ section_held id (sys_trace s) = true)) /\
  (forall id, mode' = Some id -> mode = Some id \/ section_held id (sys_trace s) = false) /\
  forall id, mode <> Some id -> mode' <> Some id ->
    repo_lookup (sys_repo s') id = repo_lookup (sys_repo s) id.
Proof.
  intros Hs Hw Hheld.
  assert (forall id, mode' = Some id -> mode = Some id \/ section_held id (sys_trace s) = false)
    as Henter.
  { destruct Hs as [| k s s' Hr Ht |k s s' Hr Ht|k s s' Hr]; intros id Hid; try (by left).
    injection Hid as ->. right. unfold waits in Hw. by rewrite Ht, drop_app_length in Hw. }
  apply thread_step_follows in Hs as (evs & Ht & Hf). unfold control_of in Hf.
  assert (forall id, mode <> Some id -> mode' <> Some id ->
    section_held id (sys_trace s') = section_held id (sys_trace s)) as Hskip.
  { intros id Hm Hm'. rewrite Ht. apply section_held_skip. by apply Hf. }
  assert (forall id, mode = Some id \/ mode' = Some id ->
    section_held id (sys_trace s) = bool_decide (mode = Some id) /\
    section_held id (sys_trace s') = bool_decide (mode' = Some id)) as Hin.
  { intros id Hid. assert (section_held id (sys_trace s) = bool_decide (mode = Some id)) as Hb.
    { case_bool_decide as Hm; [by apply Hheld|]. destruct Hid as [?|Hid]; [done|].
      by destruct (Henter id Hid). }
    split; [done|]. rewrite Ht, section_held_app, Hb.
    exact (follows_holding _ _ _ _ (proj1 (Hf id))). }
  split_and!; [|intros id|done|intros k ? ?; by apply Hf].
  - exists evs. split; [done|]. intros id. destruct (Hf id) as [Hid Hother].
    destruct (decide (mode = Some id \/ mode' = Some id)) as [Hm|Hm].
    + destruct (Hin id Hm) as [-> ->]. exact Hid.
    + apply Decidable.not_or in Hm as [Hm Hm']. rewrite (Hskip id Hm Hm').
      destruct (Hother Hm Hm') as [-> He]. by apply follows_skip.
  - destruct (decide (mode = Some id \/ mode' = Some id)) as [Hm|Hm].
    + destruct (Hin id Hm) as [Hb ->]. rewrite bool_decide_eq_true. rewrite Hb, bool_decide_eq_true.
      naive_solver.
    + apply Decidable.not_or in Hm as [Hm Hm']. rewrite (Hskip id Hm Hm'). naive_solver.
Qed.

Lemma orderly_advance modes i c c' :
  orderly modes c -> advance i c = Some c' ->
  exists mode', orderly (<[i := mode']> modes) c' /\ moves (system c) (system c').
Proof.
  intros [Hsafe Halone Hheld Hlegal] Ha. unfold advance in Ha.
  destruct (threads c !! i) as [m|] eqn:Hi; [|done].
  destruct (Forall2_lookup_r _ _ _ _ _ Hsafe Hi) as (mode & Hmode & Hm).
  destruct m as [r|f]; [done|].
  destruct (Hm (system c)) as (mode' & Hs & Hrest); [by destruct mode|].
  destruct (f (system c)) as [s' m'] eqn:Hf. destruct (waits (system c) s') eqn:Hw; [done|].
  injection Ha as <-. simpl in *.
  destruct (thread_step_held _ _ _ _ Hs Hw) as (Hmoves & Hheld' & Henter & Hothers).
  { intros id ->. apply Hheld. by exists i. }
  assert (i < length modes)%nat as Hlen by (by eapply lookup_lt_Some).
  (* no other thread holds the section the step leaves, holds or enters *)
  assert (forall j id, j <> i -> modes !! j = Some (Some id) -> mode <> Some id /\ mode' <> Some id)
    as Hdist.
  { intros j id Hj Hjm. assert (mode <> Some id) as Hne.
    { intros ->. apply Hj. by eapply Halone. }
    split; [done|]. intros Hm'. destruct (Henter id Hm') as [?|Hfree]; [done|].
    rewrite (proj2 (Hheld id)) in Hfree; [done|by exists j]. }
  exists mode'. split; [|exact Hmoves]. split; simpl.
  - apply Forall2_lookup. intros j. destruct (decide (j = i)) as [->|Hj].
    + rewrite !list_lookup_insert_eq by (done || by eapply lookup_lt_Some).
      by constructor.
    + rewrite !list_lookup_insert_ne by done. rewrite Forall2_lookup in Hsafe. specialize (Hsafe j).
      destruct (modes !! j) as [mj|] eqn:Hmj, (threads c !! j) as [tj|]; inversion Hsafe as [x y Hj'|];
        constructor; subst.
      apply (safe_later _ _ (fun mode _ => mode = None) (system c)); [|exact Hj'].
      destruct mj as [id|]; [|by eapply thread_step_legal].
      destruct (Hdist j id Hj Hmj) as [H1 H2]. by apply Hothers.
  - intros j1 j2 id. destruct (decide (j1 = i)) as [->|H1], (decide (j2 = i)) as [->|H2];
      rewrite ?list_lookup_insert_eq, ?list_lookup_insert_ne by done; [done| | |by apply Halone].
    + intros [= ->] Hj. by destruct (Hdist _ _ H2 Hj).
    + intros Hj [= ->]. by destruct (Hdist _ _ H1 Hj).
  - intros id. rewrite Hheld'. split.
    + intros [->|[Hne (j & Hj)%Hheld]].
      * exists i. by rewrite list_lookup_insert_eq.
      * exists j. rewrite list_lookup_insert_ne; congruence.
    + intros (j & Hj). destruct (decide (j = i)) as [->|Hji].
      * rewrite list_lookup_insert_eq in Hj by done. left. congruence.
      * rewrite list_lookup_insert_ne in Hj by done. right.
        split; [by eapply Hdist|]. apply Hheld. by exists j.
  - by eapply thread_step_legal.
Qed.

(** ** Schedules *)

Hypothesis code_outside : forall a, outside (code a).

Lemma orderly_start modes a c :
  orderly modes c -> orderly (modes ++ [None]) (Pool (threads c ++ [code a]) (system c)).
Proof.
  intros [Hsafe Halone Hheld Hlegal].
  assert (forall i id, (modes ++ [None]) !! i = Some (Some id) <-> modes !! i = Some (Some id)) as Hl.
  { intros i id. rewrite lookup_app. destruct (modes !! i) eqn:Hi; [done|].
    destruct (i - length modes)%nat; simpl; naive_solver. }
  split; simpl.
  - apply Forall2_app; [done|]. constructor; [|constructor]. apply code_outside.
  - intros i j id Hi%Hl Hj%Hl. by eapply Halone.
  - intros id. rewrite Hheld. apply exist_proper. intros i. by rewrite Hl.
  - done.
Qed.

Lemma orderly_schedule mvs modes c c' :
  orderly modes c -> schedule mvs c = Some c' ->
  exists modes', orderly modes' c' /\ moves (system c) (system c').
Proof.
  revert modes c. induction mvs as [|mv mvs IH]; intros modes c Ho Hs; simplify_eq/=.
  - exists modes. split; [done|apply moves_refl].
  - destruct (make mv c) as [c1|] eqn:Hmv; [|done].
    assert (exists modes1, orderly modes1 c1 /\ moves (system c) (system c1)) as (modes1 & Ho1 & Hm1).
    { destruct mv as [a|i]; simplify_eq/=.
      - eexists. split; [by apply orderly_start|apply moves_refl].
      - destruct (orderly_advance _ _ _ _ Ho Hmv) as (mode' & ? & ?). eauto. }
    destruct (IH _ _ Ho1 Hs) as (modes2 & Ho2 & Hm2). exists modes2.
    split; [done|by eapply moves_trans].
Qed.

(** The pool of a process that starts: no thread, no section held. *)
Lemma orderly_empty s :
  legal_store (sys_repo s) -> (forall id, section_held id (sys_trace s) = false) ->
  orderly [] (Pool [] s).
Proof.
  intros Hl Hfree. split; simpl; [constructor|done| |done].
  intros id. rewrite Hfree. split; [done|]. by intros (i & Hi).
Qed.

(** ** Progress *)

Definition unfinished (c : pool) : Prop := exists i f, threads c !! i = Some (Step f).

(** A thread that is in a section never waits. *)
Lemma holder_advances modes i id c :
  orderly modes c -> modes !! i = Some (Some id) -> exists c', advance i c = Some c'.
Proof.
  intros [Hsafe _ _ _] Hi. destruct (Forall2_lookup_l _ _ _ _ _ Hsafe Hi) as (m & Hm & Hs).
  unfold advance. rewrite Hm. destruct m as [r|f]; [done|].
  destruct (Hs (system c)) as (mode' & Hstep & _); [done|].
  destruct (f (system c)) as [s' m']. simpl in Hstep.
  assert (waits (system c) s' = false) as ->; [|by eexists]. unfold waits.
  inversion Hstep as [|?|? ? ? _ Ht|? ? ? Hr]; subst.
  - by rewrite Ht, drop_app_length.
  - destruct Hr as [(evs & Ht & Hown & Hf) _]. rewrite Ht, drop_app_length.
    destruct evs as [|[key| | | | | | | | | | | | |] [|]]; try done. exfalso.
    inversion Hown as [|? ? [Hk|Hk] _]; [|done]. injection Hk as ->.
    inversion Hf; subst; try done.
    match goal with Hd : follows _ (At true (Some _)) _ _ |- _ => inversion Hd; subst; done end.
Qed.

Definition nobody (modes : list (option string)) : Prop := forall i id, modes !! i <> Some (Some id).

(** While no thread is in a section, none waits. *)
Lemma free_advances modes i f c :
  orderly modes c -> nobody modes -> threads c !! i = Some (Step f) -> exists c', advance i c = Some c'.
Proof.
  intros Ho Hno Hi. assert (forall id, section_held id (sys_trace (system c)) = false) as Hfree.
  { intros id. destruct (section_held id _) eqn:Hh; [|done].
    apply (or_held _ _ Ho) in Hh as (j & Hj). by destruct (Hno j id). }
  unfold advance. rewrite Hi. destruct (f (system c)) as [s' m'].
  assert (waits (system c) s' = false) as ->; [|by eexists].
  unfold waits. by repeat case_match.
Qed.

Lemma somebody_or_nobody modes : (exists i id, modes !! i = Some (Some id)) \/ nobody modes.
Proof.
  destruct (decide (Exists (fun mode => mode <> None) modes)) as [Hex|Hno].
  - left. apply Exists_exists in Hex as ([id|] & Hin & Hne); [|done].
    apply list_elem_of_lookup in Hin as [j Hj]. by exists j, id.
  - right. intros j id Hj. apply Hno, Exists_exists. exists (Some id).
    split; [by eapply list_elem_of_lookup_2|done].
Qed.

(** Some thread can always go on: the one in a section, or any if there is none. *)
Lemma orderly_progress modes c :
  orderly modes c -> unfinished c -> exists i c', advance i c = Some c'.
Proof.
  intros Ho (i & f & Hi). destruct (somebody_or_nobody modes) as [(j & id & Hj)|Hno].
  - destruct (holder_advances _ _ _ _ Ho Hj) as [c' Hc']. eauto.
  - destruct (free_advances _ _ _ _ Ho Hno Hi) as [c' Hc']. eauto.
Qed.

(** ** Termination *)

Definition shorter (ts2 ts1 : list (M R W ())) : Prop :=
  exists i f s, ts1 !! i = Some (Step f) /\ ts2 = <[i := (f s).2]> ts1.

Lemma thread_ends (m : M R W ()) ts : Acc shorter ts -> Acc shorter (m :: ts).
Proof.
  revert ts. induction m as [r|f IHm] using M_induction; intros ts Hts;
    induction Hts as [ts Hacc IH]; constructor; intros ts2 (i & g & s & Hi & ->);
    destruct i as [|i]; cbn in Hi |- *.
  - done.
  - apply IH. by exists i, g, s.
  - injection Hi as <-. apply IHm. by constructor.
  - apply IH. by exists i, g, s.
Qed.

Lemma threads_end (ts : list (M R W ())) : Acc shorter ts.
Proof.
  induction ts as [|m ts IH]; [|by apply thread_ends].
  constructor. intros ts2 (i & f & s & Hi & _). by destruct i.
Qed.

Definition advances (c2 c1 : pool) : Prop := exists i, advance i c1 = Some c2.

Lemma schedules_end c : Acc advances c.
Proof.
  remember (threads c) as ts eqn:Hts. revert c Hts.
  induction (threads_end ts) as [ts _ IH]; intros c ->. constructor. intros c2 [i Ha].
  unfold advance in Ha. destruct (threads c !! i) as [[r|f]|] eqn:Hi; [done| |done].
  destruct (f (system c)) as [s' m] eqn:Hf. destruct (waits _ _); [done|]. injection Ha as <-.
  eapply IH; [|done]. exists i, f, (system c). by rewrite Hf.
Qed.

Lemma all_or_unfinished c : Forall finished (threads c) \/ unfinished c.
Proof.
  unfold unfinished. induction (threads c) as [|[r|f] ts IH]; [by left| |].
  - destruct IH as [IH|(i & f & Hi)]; [left; by constructor|right; by exists (S i), f].
  - right. by exists 0%nat, f.
Qed.

(** The threads of an orderly pool can be run to their ends, after which no section is held. *)
Lemma orderly_finish modes c :
  orderly modes c ->
  exists turns c', schedule (Advance <$> turns) c = Some c' /\ Forall finished (threads c').
Proof.
  revert modes. induction (schedules_end c) as [c _ IH]; intros modes Ho.
  destruct (all_or_unfinished c) as [Hdone|Hun]; [by exists [], c|].
  destruct (orderly_progress _ _ Ho Hun) as (i & c1 & Hc1).
  destruct (orderly_advance _ _ _ _ Ho Hc1) as (mode' & Ho1 & _).
  destruct (IH c1 (ex_intro _ i Hc1) _ Ho1) as (turns & c2 & Hs & Hd).
  exists (i :: turns), c2. split; [|done]. simpl. by rewrite Hc1.
Qed.

(** A thread that is advanced alone, while no other is in a section, runs as it does by
    itself. *)
Lemma alone_runs (m : M R W ()) modes i c :
  orderly modes c -> threads c !! i = Some m ->
  (forall j id, modes !! j = Some (Some id) -> j = i) ->
  exists n, schedule (Advance <$> replicate n i) c =
    Some (Pool (<[i := Done (m (system c)).2]> (threads c)) (m (system c)).1).
Proof.
  revert modes c. induction m as [r|f IH] using M_induction; intros modes c Ho Hi Halone.
  - exists 0%nat. simpl. rewrite list_insert_id by done. by destruct c.
  - assert (exists c1, advance i c = Some c1) as [c1 Hc1].
    { destruct (somebody_or_nobody modes) as [(j & id & Hj)|Hno].
      - pose proof (Halone _ _ Hj) as ->. by eapply holder_advances.
      - by eapply free_advances. }
    destruct (orderly_advance _ _ _ _ Ho Hc1) as (mode' & Ho1 & _).
    unfold advance in Hc1. rewrite Hi in Hc1. rewrite run_Step. specialize (IH (system c)).
    destruct (f (system c)) as [s1 m1] eqn:Hf. simpl in IH.
    destruct (waits _ _) eqn:Hw; [done|]. injection Hc1 as <-. simpl in *.
    destruct (IH (<[i := mode']> modes) (Pool (<[i := m1]> (threads c)) s1) Ho1) as [n Hn].
    + simpl. apply list_lookup_insert_eq. by eapply lookup_lt_Some.
    + intros j id Hj. destruct (decide (j = i)) as [|Hne]; [done|].
      rewrite list_lookup_insert_ne in Hj by done. by eapply Halone.
    + exists (S n). cbn [replicate]. rewrite fmap_cons. cbn [schedule make].
      unfold advance at 1. rewrite Hi, Hf, Hw, Hn. simpl. by rewrite list_insert_insert_eq.
Qed.

Lemma finished_nobody modes c : orderly modes c -> Forall finished (threads c) -> nobody modes.
Proof.
  intros Ho Hd i id Hi. destruct (Forall2_lookup_l _ _ _ _ _ (or_safe _ _ Ho) Hi) as (m & Hm & Hs).
  rewrite Forall_lookup in Hd. specialize (Hd i m Hm). by destruct m.
Qed.

Lemma orderly_free modes c id :
  orderly modes c -> Forall finished (threads c) ->
  section_held id (sys_trace (system c)) = false.
Proof.
  intros Ho Hd. destruct (section_held id _) eqn:Hh; [|done].
  apply (or_held _ _ Ho) in Hh as (i & Hi). by destruct (finished_nobody _ _ Ho Hd i id).
Qed.

(** Threads that are started one after the other, each when the last one has ended. *)
Lemma one_after_the_other activities modes c :
  orderly modes c -> Forall finished (threads c) ->
  exists mvs c', schedule mvs c = Some c' /\ Forall finished (threads c') /\
    system c' = fold_left (fun s a => (code a s).1) activities (system c).
Proof.
  revert modes c. induction activities as [|a activities IH]; intros modes c Ho Hd; [by exists [], c|].
  pose proof (orderly_start _ a _ Ho) as Hstart. set (i := length (threads c)).
  destruct (alone_runs (code a) _ i _ Hstart) as [n Hn].
  - simpl. unfold i. by rewrite list_lookup_middle.
  - intros j id Hj. exfalso. destruct (finished_nobody _ _ Ho Hd j id).
    rewrite lookup_app in Hj. destruct (modes !! j) as [mode|]; [done|].
    destruct (j - length modes)%nat; simpl in Hj; naive_solver.
  - destruct (orderly_schedule _ _ _ _ Hstart Hn) as (modes' & Ho' & _). simpl in *.
    destruct (IH _ _ Ho') as (mvs & c' & Hs & Hd' & Hsys).
    + simpl. unfold i. rewrite insert_app_r_alt, Nat.sub_diag by done.
      apply Forall_app. split; [done|]. by repeat constructor.
    + exists (Start a :: (Advance <$> replicate n i) ++ mvs), c'. cbn [schedule make].
      rewrite (schedule_app _ _ _ _ Hn). done.
Qed.
End pool.
