(* ===== verification/Sections.v ===== *)
(** The keyed mutex (Coordination.v) implements the critical sections that programs see
    (Threads.v): its lock operations, read as the events [EvAcquire] and [EvRelease] of a trace,
    hold a section exactly while a thread is in the body of [hold], and a thread that waits for
    its lock can take it exactly when the section is free in the trace. *)
From S2P Require Import Prelude Errors Coordination DecimalText Models Contracts Effects Protocol Threads.

Implicit Types (σ : registry) (evs : list event).

(** What a lock operation is in the trace of a program. *)
Definition bracket (op : Coordination.operation) (c : Coordination.control) : list event :=
  match op, c with
  | AcquireLock, Waiting key _ _ => [EvAcquire key]
  | ExitBody, Inside key _ => [EvRelease key]
  | _, _ => []
  end.

Fixpoint brackets (ops : list (Coordination.thread * Coordination.operation)) σ : list event :=
  match ops with
  | [] => []
  | (t, op) :: ops =>
      match Coordination.step t op σ with
      | Some σ' => bracket op (control_at σ t) ++ brackets ops σ'
      | None => []
      end
  end.

(** The sections held in the trace are those with a thread in the body. *)
Definition shows evs σ : Prop :=
  forall key, section_held key evs = true <-> exists t l, control_at σ t = Inside key l.

Lemma step_others t op σ σ' t' :
  Coordination.step t op σ = Some σ' -> t' <> t -> control_at σ' t' = control_at σ t'.
Proof.
  intros Hs Hne. unfold Coordination.step in Hs.
  destruct op, (control_at σ t) eqn:Hc; try done;
    repeat (case_match || case_decide); simplify_eq;
    rewrite control_at_set, decide_False by done; try done.
  match goal with E : setdefault _ _ = _ |- _ => apply setdefault_spec in E as (_ & E & _) end.
  done.
Qed.

(** Where the thread itself comes to. *)
Lemma step_self t op σ σ' :
  Coordination.step t op σ = Some σ' ->
  match op, control_at σ t with
  | AcquireLock, Waiting key _ l => l ∉ held σ /\ control_at σ' t = Inside key l
  | ExitBody, Inside _ _ => control_at σ' t = Outside
  | _, Inside _ _ => False
  | _, _ => forall key l, control_at σ' t <> Inside key l
  end.
Proof.
  intros Hs. unfold Coordination.step in Hs.
  destruct op, (control_at σ t) eqn:Hc; try done;
    repeat (case_match || case_decide); simplify_eq;
    rewrite ?control_at_set, ?decide_True by done; done.
Qed.

Lemma inside_lock σ t t' key l l' :
  coherent σ -> control_at σ t = Inside key l -> control_at σ t' = Inside key l' ->
  t = t' /\ l = l'.
Proof.
  intros Hσ Ht Ht'.
  assert (locks σ !! key = Some l) as Hl by (apply (coh_resolved σ Hσ t); by rewrite Ht).
  assert (locks σ !! key = Some l') as Hl' by (apply (coh_resolved σ Hσ t'); by rewrite Ht').
  simplify_eq. eauto using coh_exclusive.
Qed.

Lemma section_held_acquire key k evs :
  section_held key (evs ++ [EvAcquire k]) = if decide (k = key) then true else section_held key evs.
Proof. by rewrite section_held_app. Qed.

Lemma section_held_release key k evs :
  section_held key (evs ++ [EvRelease k]) = if decide (k = key) then false else section_held key evs.
Proof. by rewrite section_held_app. Qed.

Lemma shows_step t op σ σ' evs :
  coherent σ -> Coordination.step t op σ = Some σ' -> shows evs σ ->
  shows (evs ++ bracket op (control_at σ t)) σ'.
Proof.
  intros Hσ Hs Hev key. pose proof (step_others t op σ σ') as Ho. pose proof (step_self _ _ _ _ Hs) as Hself.
  assert (bracket op (control_at σ t) = [] -> (forall k l, control_at σ t <> Inside k l) ->
    (forall k l, control_at σ' t <> Inside k l) ->
    section_held key (evs ++ bracket op (control_at σ t)) = true <->
    exists t' l, control_at σ' t' = Inside key l) as Hquiet.
  { intros -> Hn Hn'. rewrite app_nil_r, (Hev key). split; intros (t' & l & Ht').
    - exists t', l. rewrite Ho; [done|done|]. intros ->. by destruct (Hn key l).
    - exists t', l. rewrite <- Ho; [done|done|]. intros ->. by destruct (Hn' key l). }
  destruct op, (control_at σ t) as [| | | |k wait l|k l|] eqn:Hc; try done;
    try (apply Hquiet; done); clear Hquiet; simpl.
  - destruct Hself as [Hfree Hin]. rewrite section_held_acquire. case_decide as Hk.
    + subst k. split; [|done]. intros _. by exists t, l.
    + rewrite (Hev key). split; intros (t' & l' & Ht'); exists t', l'.
      * rewrite Ho; [done|done|]. congruence.
      * rewrite <- Ho; [done|done|]. congruence.
  - rewrite section_held_release. case_decide as Hk.
    + subst k. split; [done|]. intros (t' & l' & Ht'). exfalso.
      destruct (decide (t' = t)) as [->|Hne]; [congruence|]. rewrite Ho in Ht' by done.
      by destruct (inside_lock _ _ _ _ _ _ Hσ Hc Ht') as [? _].
    + rewrite (Hev key). split; intros (t' & l' & Ht'); exists t', l'.
      * rewrite Ho; [done|done|]. congruence.
      * rewrite <- Ho; [done|done|]. congruence.
Qed.

Lemma brackets_show ops σ σ' evs :
  coherent σ -> shows evs σ -> Coordination.run ops σ = Some σ' ->
  coherent σ' /\ shows (evs ++ brackets ops σ) σ'.
Proof.
  revert σ evs. induction ops as [|[t op] ops IH]; intros σ evs Hσ Hev Hr; simpl in *.
  - injection Hr as <-. by rewrite app_nil_r.
  - destruct (Coordination.step t op σ) as [σ1|] eqn:Hs; [|done]. rewrite app_assoc.
    apply IH; [by eapply coherent_step|by apply shows_step|done].
Qed.

(** C24. The keyed mutex implements the critical sections the threads of the process rely on.
    After any interleaving of the lock operations of any number of threads a section is held, in
    the trace of its acquires and releases, exactly while a thread is in its body; no two
    threads are in the body of one key; and a thread that waits can enter exactly when the
    section of its key is free, whatever happens to other keys. *)
Theorem mutex_implements_sections ops σ :
  Coordination.run ops initial = Some σ ->
  let evs := brackets ops initial in
  (forall key, section_held key evs = true <-> exists t l, control_at σ t = Inside key l) /\
  (forall t t' key l l', control_at σ t = Inside key l -> control_at σ t' = Inside key l' -> t = t') /\
  (forall t key timeout l, control_at σ t = Waiting key timeout l ->
     (exists σ', Coordination.step t AcquireLock σ = Some σ') <-> section_held key evs = false).
Proof.
  intros Hr evs. destruct (brackets_show ops initial σ [] coherent_initial) as [Hσ Hev]; [|done|].
  { intros key. split; [done|]. intros (t & l & Ht). unfold control_at in Ht. simpl in Ht.
    by rewrite lookup_empty in Ht. }
  fold evs in Hev. simpl in Hev. split_and!; [exact Hev| |].
  - intros t t' key l l' Ht Ht'. by destruct (inside_lock _ _ _ _ _ _ Hσ Ht Ht').
  - intros t key timeout l Ht. unfold Coordination.step. rewrite Ht.
    assert (locks σ !! key = Some l) as Hl by (apply (coh_resolved σ Hσ t); by rewrite Ht).
    assert (l ∈ held σ <-> section_held key evs = true) as Hheld.
    { rewrite (Hev key). split.
      - intros (t' & k & Ht')%(coh_held σ Hσ). exists t', l.
        assert (locks σ !! k = Some l) as Hl' by (apply (coh_resolved σ Hσ t'); by rewrite Ht').
        by rewrite (coh_locks_inj σ Hσ _ _ _ Hl Hl').
      - intros (t' & l' & Ht'). pose proof (coh_inside_held σ Hσ _ _ _ Ht') as Hin.
        assert (locks σ !! key = Some l') as Hl' by (apply (coh_resolved σ Hσ t'); by rewrite Ht').
        congruence. }
    case_decide as Hin.
    + rewrite (proj1 Hheld Hin). split; [intros [σ' Hn]; discriminate Hn|done].
    + split; [|eauto]. intros _. destruct (section_held key evs); [|done]. by destruct Hin; apply Hheld.
Qed.

(** Thread 0 is in the body of "a", thread 1 waits for it. *)
Lemma mutex_implements_sections_witness :
  match Coordination.run contended initial with
  | Some σ => brackets contended initial = [EvAcquire "a"] /\
      control_at σ 1%nat = Waiting "a" true 0%nat /\
      ((exists σ', Coordination.step 1%nat AcquireLock σ = Some σ') <-> true = false)
  | None => False
  end.
Proof.
  destruct (Coordination.run contended initial) as [σ|] eqn:Hσ; [|vm_compute in Hσ; discriminate Hσ].
  assert (control_at σ 1%nat = Waiting "a" true 0%nat) as Hw
    by (vm_compute in Hσ; inversion Hσ; reflexivity).
  split; [reflexivity|]. split; [exact Hw|].
  exact (proj2 (proj2 (mutex_implements_sections contended σ Hσ)) 1%nat "a" true 0%nat Hw).
Defined.
