(* ===== verification/EntryReconciliation.v ===== *)
(** Pure desired-entry reconciliation (runtime/entry_reconciliation): the decision, the
    command it is executed with, and the application of a confirmed success to the
    aggregate. *)
From S2P Require Import Prelude Errors DecimalText Models Contracts Scripted.

(** * Values (models.py) *)

Inductive EntryReconciliationDecision :=
| NoOp
| Apply (desired_entry : DesiredEntry)
| Cancel (trade_cycle_id : string)
| Replace (trade_cycle_id : string) (desired_entry : DesiredEntry).

#[export] Instance EntryReconciliationDecision_eq_dec : EqDecision EntryReconciliationDecision.
Proof. solve_decision. Defined.

(** The [__post_init__] of the four classes. *)
Definition EntryReconciliationDecision_post_init (d : EntryReconciliationDecision) :
    result EntryReconciliationDecision :=
  match d with
  | NoOp | Apply _ => Ok d
  | Cancel trade_cycle_id | Replace trade_cycle_id _ =>
      _ ← require_non_empty_string trade_cycle_id "trade_cycle_id"; Ok d
  end.

Record EntryReconciliationCommand := {
  em_strategy_instance_id : string;
  em_trade_cycle_id : string;
  em_ticker : string;
  em_desired_entry : option DesiredEntry }.

Definition EntryReconciliationCommand_post_init (c : EntryReconciliationCommand) :
    result EntryReconciliationCommand :=
  _ ← require_non_empty_string (em_strategy_instance_id c) "strategy_instance_id";
  _ ← require_non_empty_string (em_trade_cycle_id c) "trade_cycle_id";
  _ ← require_non_empty_string (em_ticker c) "ticker";
  Ok c.

Record EntryAppliedConfirmation := {
  ac_strategy_instance_id : string;
  ac_trade_cycle_id : string;
  ac_applied_desired_entry : DesiredEntry;
  ac_calculated_quantity : string;
  ac_trigger_price : option string;
  ac_stop_loss : option string;
  ac_take_profit : option string;
  ac_quantity : option string;
  ac_order_link_id : option string;
  ac_order_id : option string }.

Definition EntryAppliedConfirmation_post_init (c : EntryAppliedConfirmation) :
    result EntryAppliedConfirmation :=
  _ ← require_non_empty_string (ac_strategy_instance_id c) "strategy_instance_id";
  _ ← require_non_empty_string (ac_trade_cycle_id c) "trade_cycle_id";
  _ ← require_exact_decimal_text (ac_calculated_quantity c) "calculated_quantity";
  let exact name o := if_present o (fun v => require_exact_decimal_text v name) in
  _ ← exact "trigger_price" (ac_trigger_price c);
  _ ← exact "stop_loss" (ac_stop_loss c);
  _ ← exact "take_profit" (ac_take_profit c);
  _ ← exact "quantity" (ac_quantity c);
  let non_empty name o := if_present o (fun v => require_non_empty_string v name) in
  _ ← non_empty "order_link_id" (ac_order_link_id c);
  _ ← non_empty "order_id" (ac_order_id c);
  Ok c.

Record EntryAbsentConfirmation := {
  ab_strategy_instance_id : string; ab_trade_cycle_id : string }.

Definition EntryAbsentConfirmation_post_init (c : EntryAbsentConfirmation) :
    result EntryAbsentConfirmation :=
  _ ← require_non_empty_string (ab_strategy_instance_id c) "strategy_instance_id";
  _ ← require_non_empty_string (ab_trade_cycle_id c) "trade_cycle_id";
  Ok c.

Record EntryDeclinedOutcome := {
  dc_strategy_instance_id : string;
  dc_trade_cycle_id : string;
  dc_decline_reason : string;
  dc_decline_message : string }.

Definition EntryDeclinedOutcome_post_init (c : EntryDeclinedOutcome) :
    result EntryDeclinedOutcome :=
  _ ← require_non_empty_string (dc_strategy_instance_id c) "strategy_instance_id";
  _ ← require_non_empty_string (dc_trade_cycle_id c) "trade_cycle_id";
  _ ← require_non_empty_string (dc_decline_reason c) "decline_reason";
  _ ← require_non_empty_string (dc_decline_message c) "decline_message";
  Ok c.

Inductive EntryExecutionOutcome :=
| OutcomeApplied (c : EntryAppliedConfirmation)
| OutcomeAbsent (c : EntryAbsentConfirmation)
| OutcomeDeclined (d : EntryDeclinedOutcome).

Definition outcome_strategy_instance_id (o : EntryExecutionOutcome) : string :=
  match o with
  | OutcomeApplied c => ac_strategy_instance_id c
  | OutcomeAbsent c => ab_strategy_instance_id c
  | OutcomeDeclined d => dc_strategy_instance_id d
  end.

(** * The decision (reconciliation.py) *)

Definition get_acknowledged_desired_entry (current_trade_cycle : option CurrentTradeCycle) :
    option DesiredEntry :=
  match current_trade_cycle with
  | None => None
  | Some cycle => Some (ap_applied_desired_entry (tc_applied_entry_package cycle))
  end.

Definition desired_entries_equivalent (left right : DesiredEntry) : bool :=
  bool_decide (left = right).

Definition is_frozen (cycle : option CurrentTradeCycle) : bool :=
  match cycle with Some c => is_some (tc_frozen_entry_context c) | None => false end.

Definition decide_entry_reconciliation (new_desired_entry : option DesiredEntry)
    (current_trade_cycle : option CurrentTradeCycle) : result EntryReconciliationDecision :=
  _ ← require (negb (is_frozen current_trade_cycle)) EntryReconciliationInvariantError
    "entry reconciliation is fail-closed once the trade cycle's entry is frozen";
  match current_trade_cycle, get_acknowledged_desired_entry current_trade_cycle with
  | Some cycle, Some acknowledged_desired_entry =>
      match new_desired_entry with
      | None => EntryReconciliationDecision_post_init (Cancel (tc_trade_cycle_id cycle))
      | Some entry =>
          if desired_entries_equivalent entry acknowledged_desired_entry then Ok NoOp
          else EntryReconciliationDecision_post_init (Replace (tc_trade_cycle_id cycle) entry)
      end
  | _, _ =>
      match new_desired_entry with
      | None => Ok NoOp
      | Some entry => EntryReconciliationDecision_post_init (Apply entry)
      end
  end.

Definition touch_trigger_entry_reconciliation (new_desired_entry : option DesiredEntry)
    (current_trade_cycle : option CurrentTradeCycle)
    (current_bar_open_time_ms timeframe_ms order_lifetime_bars : Z) :
    result EntryReconciliationDecision :=
  _ ← require (0 <=? current_bar_open_time_ms) ValueError
    "current_bar_open_time_ms must be a non-negative integer";
  _ ← require (0 <? timeframe_ms) ValueError "timeframe_ms must be a positive integer";
  _ ← require (0 <=? order_lifetime_bars) ValueError
    "order_lifetime_bars must be an integer >= 0";
  _ ← require (negb (is_frozen current_trade_cycle)) EntryReconciliationInvariantError
    "entry reconciliation is fail-closed once the trade cycle's entry is frozen";
  match current_trade_cycle, get_acknowledged_desired_entry current_trade_cycle with
  | Some cycle, Some held_desired_entry =>
      expiration_ms ← entry_order_expiration_ms
        (de_source_plan_bar_open_time_ms held_desired_entry) timeframe_ms order_lifetime_bars;
      if negb (is_entry_order_expired current_bar_open_time_ms timeframe_ms expiration_ms)
      then Ok NoOp
      else
        let cancel :=
          EntryReconciliationDecision_post_init (Cancel (tc_trade_cycle_id cycle)) in
        match new_desired_entry with
        | None => cancel
        | Some entry =>
            if negb (de_source_plan_bar_open_time_ms entry =? current_bar_open_time_ms)
            then cancel
            else EntryReconciliationDecision_post_init
                   (Replace (tc_trade_cycle_id cycle) entry)
        end
  | _, _ =>
      match new_desired_entry with
      | None => Ok NoOp
      | Some entry => EntryReconciliationDecision_post_init (Apply entry)
      end
  end.

(** * The command (command_builder.py) *)

Definition _command (state : StrategyInstanceRuntimeState) (trade_cycle_id : string)
    (desired_entry : option DesiredEntry) : result EntryReconciliationCommand :=
  EntryReconciliationCommand_post_init
    {| em_strategy_instance_id := st_strategy_instance_id state;
       em_trade_cycle_id := trade_cycle_id;
       em_ticker := rs_instrument (st_registered_spec_snapshot state);
       em_desired_entry := desired_entry |}.

Definition _require_apply_trade_cycle_id (apply_trade_cycle_id : option string) :
    result string :=
  match apply_trade_cycle_id with
  | Some id =>
      if is_empty id then raise EntryReconciliationInvariantError
        "APPLY requires a non-empty apply_trade_cycle_id"
      else Ok id
  | None => raise EntryReconciliationInvariantError
      "APPLY requires a non-empty apply_trade_cycle_id"
  end.

Definition _require_decision_cycle (state : StrategyInstanceRuntimeState)
    (decision_trade_cycle_id action : string) : result unit :=
  match st_current_trade_cycle state with
  | None => raise EntryReconciliationInvariantError
      (action +:+ " requires an acknowledged current trade cycle")
  | Some current_cycle =>
      require (bool_decide (tc_trade_cycle_id current_cycle = decision_trade_cycle_id))
        EntryReconciliationInvariantError
        (action +:+ " trade_cycle_id does not match current trade cycle")
  end.

Definition build_entry_reconciliation_command (state : StrategyInstanceRuntimeState)
    (decision : EntryReconciliationDecision) (apply_trade_cycle_id : option string) :
    result (option EntryReconciliationCommand) :=
  match decision with
  | NoOp =>
      _ ← require (is_none apply_trade_cycle_id) EntryReconciliationInvariantError
        "NO_OP prohibits apply_trade_cycle_id";
      Ok None
  | Apply desired_entry =>
      _ ← require (is_none (st_current_trade_cycle state)) EntryReconciliationInvariantError
        "APPLY requires no current trade cycle";
      id ← _require_apply_trade_cycle_id apply_trade_cycle_id;
      command ← _command state id (Some desired_entry);
      Ok (Some command)
  | Cancel trade_cycle_id =>
      _ ← require (is_none apply_trade_cycle_id) EntryReconciliationInvariantError
        "only APPLY accepts apply_trade_cycle_id";
      _ ← _require_decision_cycle state trade_cycle_id "CANCEL";
      command ← _command state trade_cycle_id None;
      Ok (Some command)
  | Replace _ _ =>
      _ ← require (is_none apply_trade_cycle_id) EntryReconciliationInvariantError
        "only APPLY accepts apply_trade_cycle_id";
      raise EntryReconciliationInvariantError "unknown entry reconciliation decision"
  end.

(** * Application of a success (state_applier.py) *)

Definition _require_common_identity (state : StrategyInstanceRuntimeState)
    (sent_command : EntryReconciliationCommand) (confirmation : EntryExecutionOutcome) :
    result unit :=
  _ ← require (bool_decide (em_strategy_instance_id sent_command =
                            st_strategy_instance_id state))
    EntryReconciliationInvariantError
    "sent command strategy_instance_id does not match source state";
  _ ← require (bool_decide (outcome_strategy_instance_id confirmation =
                            st_strategy_instance_id state))
    EntryReconciliationInvariantError
    "confirmation strategy_instance_id does not match source state";
  require (bool_decide (em_ticker sent_command =
                        rs_instrument (st_registered_spec_snapshot state)))
    EntryReconciliationInvariantError
    "sent command ticker does not match registered instrument".

Definition _require_cycle_identity (expected actual : string) : result unit :=
  require (bool_decide (expected = actual)) EntryReconciliationInvariantError
    "trade_cycle_id does not match expected trade cycle".

Definition _require_applied_confirmation (confirmation : EntryExecutionOutcome)
    (action : string) : result EntryAppliedConfirmation :=
  match confirmation with
  | OutcomeApplied c =>
      _ ← require (is_exact_decimal_text (ac_calculated_quantity c))
        EntryReconciliationInvariantError
        "confirmation calculated_quantity must be exact-decimal text";
      Ok c
  | _ => raise EntryReconciliationInvariantError
      (action +:+ " requires EntryAppliedConfirmation")
  end.

Definition _require_matching_desired_entries (decision_desired_entry : DesiredEntry)
    (sent_desired_entry : option DesiredEntry) (confirmed_desired_entry : DesiredEntry) :
    result unit :=
  require (bool_decide (sent_desired_entry = Some decision_desired_entry)
           && bool_decide (confirmed_desired_entry = decision_desired_entry))
    EntryReconciliationInvariantError "desired entry does not match reconciliation decision".

Definition _confirmed_package (confirmation : EntryAppliedConfirmation) :
    result AppliedEntryPackage :=
  AppliedEntryPackage_post_init
    {| ap_applied_desired_entry := ac_applied_desired_entry confirmation;
       ap_calculated_quantity := ac_calculated_quantity confirmation |}.

Definition _confirmed_cycle (confirmation : EntryAppliedConfirmation) :
    result CurrentTradeCycle :=
  package ← _confirmed_package confirmation;
  CurrentTradeCycle_post_init
    {| tc_trade_cycle_id := ac_trade_cycle_id confirmation;
       tc_applied_entry_package := package;
       tc_frozen_entry_context := None;
       tc_latest_confirmed_management_protection := None;
       tc_entry_remainder_cancelled := false |}.

Definition _apply (state : StrategyInstanceRuntimeState) (desired_entry : DesiredEntry)
    (sent_command : EntryReconciliationCommand) (confirmation : EntryExecutionOutcome) :
    result StrategyInstanceRuntimeState :=
  _ ← require (is_none (st_current_trade_cycle state)) EntryReconciliationInvariantError
    "APPLY requires no current trade cycle";
  applied ← _require_applied_confirmation confirmation "APPLY";
  _ ← _require_cycle_identity (em_trade_cycle_id sent_command) (ac_trade_cycle_id applied);
  _ ← _require_matching_desired_entries desired_entry (em_desired_entry sent_command)
    (ac_applied_desired_entry applied);
  cycle ← _confirmed_cycle applied;
  replace_state state (Some cycle) None (st_pending_close_recovery state).

Definition _cancel (state : StrategyInstanceRuntimeState) (trade_cycle_id : string)
    (sent_command : EntryReconciliationCommand) (confirmation : EntryExecutionOutcome) :
    result StrategyInstanceRuntimeState :=
  match st_current_trade_cycle state with
  | None => raise EntryReconciliationInvariantError
      "CANCEL requires an acknowledged current trade cycle"
  | Some current_cycle =>
      match confirmation with
      | OutcomeAbsent absent =>
          _ ← _require_cycle_identity (tc_trade_cycle_id current_cycle) trade_cycle_id;
          _ ← _require_cycle_identity trade_cycle_id (em_trade_cycle_id sent_command);
          _ ← _require_cycle_identity (em_trade_cycle_id sent_command)
            (ab_trade_cycle_id absent);
          _ ← require (is_none (em_desired_entry sent_command))
            EntryReconciliationInvariantError
            "CANCEL requires sent command desired_entry to be null";
          clear_cycle_and_entry_recovery state
      | _ => raise EntryReconciliationInvariantError "CANCEL requires EntryAbsentConfirmation"
      end
  end.

(** [decision] is APPLY or CANCEL and [confirmation] a success, or the call is refused
    ([_require_input_types]). *)
Definition apply_success_confirmation (state : StrategyInstanceRuntimeState)
    (decision : EntryReconciliationDecision) (sent_command : EntryReconciliationCommand)
    (confirmation : EntryExecutionOutcome) : result StrategyInstanceRuntimeState :=
  _ ← require (match decision with Apply _ | Cancel _ => true | _ => false end)
    EntryReconciliationInvariantError "confirmation application requires APPLY or CANCEL";
  _ ← require (match confirmation with OutcomeDeclined _ => false | _ => true end)
    EntryReconciliationInvariantError
    "confirmation application requires a successful I3 confirmation";
  _ ← _require_common_identity state sent_command confirmation;
  match decision with
  | Apply desired_entry => _apply state desired_entry sent_command confirmation
  | Cancel trade_cycle_id => _cancel state trade_cycle_id sent_command confirmation
  | _ => raise EntryReconciliationInvariantError
      "confirmation application requires APPLY or CANCEL"
  end.

(** * Lemmas *)

(** The entry that is acknowledged once a decision has been carried out. *)
Definition decision_target (current : option CurrentTradeCycle)
    (d : EntryReconciliationDecision) : option DesiredEntry :=
  match d with
  | NoOp => get_acknowledged_desired_entry current
  | Apply e | Replace _ e => Some e
  | Cancel _ => None
  end.

(** A decision names the current cycle when it ends one, and only opens a cycle when
    there is none. *)
Definition decision_addresses (current : option CurrentTradeCycle)
    (d : EntryReconciliationDecision) : Prop :=
  match d, current with
  | NoOp, _ | Apply _, None => True
  | Cancel id, Some c | Replace id _, Some c => id = tc_trade_cycle_id c
  | _, _ => False
  end.

(** A cycle that entry reconciliation accepts. *)
Definition open_to_reconciliation (current : option CurrentTradeCycle) : Prop :=
  match current with
  | Some c => tc_frozen_entry_context c = None /\ tc_trade_cycle_id c <> EmptyString
  | None => True
  end.

Lemma open_not_frozen current : open_to_reconciliation current -> is_frozen current = false.
Proof. destruct current as [c|]; [|done]. by intros [H _]; simpl; rewrite H. Qed.

Lemma frozen_decision_refused new current :
  is_frozen current = true ->
  decide_entry_reconciliation new current =
    raise EntryReconciliationInvariantError
      "entry reconciliation is fail-closed once the trade cycle's entry is frozen".
Proof. intros H. unfold decide_entry_reconciliation. by rewrite H. Qed.

Lemma decide_not_frozen new current d :
  decide_entry_reconciliation new current = Ok d -> is_frozen current = false.
Proof. unfold decide_entry_reconciliation. intros H. ok_inv H. by ok_all. Qed.

Lemma decide_total new current :
  open_to_reconciliation current ->
  exists d, decide_entry_reconciliation new current = Ok d /\
    decision_addresses current d /\ decision_target current d = new /\
    (d = NoOp <-> get_acknowledged_desired_entry current = new).
Proof.
  intros Ho. unfold decide_entry_reconciliation. rewrite (open_not_frozen _ Ho). simpl.
  destruct current as [c|]; simpl.
  - destruct Ho as [_ Hid]. unfold desired_entries_equivalent.
    destruct new as [e|]; simpl; [case_bool_decide; subst|].
    + exists NoOp. naive_solver.
    + unfold EntryReconciliationDecision_post_init. rewrite require_non_empty_true by done.
      exists (Replace (tc_trade_cycle_id c) e). simpl. naive_solver.
    + rewrite require_non_empty_true by done. simpl.
      exists (Cancel (tc_trade_cycle_id c)). naive_solver.
  - destruct new as [e|]; [exists (Apply e)|exists NoOp]; naive_solver.
Qed.

Lemma decide_address new current d :
  decide_entry_reconciliation new current = Ok d ->
  decision_addresses current d /\ is_frozen current = false.
Proof.
  intros H. split; [|by eapply decide_not_frozen].
  unfold decide_entry_reconciliation in H. ok_inv H.
  destruct current as [c|]; simpl in *; breaks; ok_all; done.
Qed.

Lemma touch_trigger_address new current bar tf bars d :
  touch_trigger_entry_reconciliation new current bar tf bars = Ok d ->
  decision_addresses current d /\ is_frozen current = false.
Proof.
  unfold touch_trigger_entry_reconciliation. intros H. ok_inv H. ok_all.
  split; [|done]. destruct current as [c|]; simpl in *; ok_all; breaks; ok_all; done.
Qed.

(** A replacement is only decided for another entry than the one that is held. *)
Lemma decide_replace_differs new current k e :
  decide_entry_reconciliation new current = Ok (Replace k e) ->
  get_acknowledged_desired_entry current <> Some e.
Proof.
  unfold decide_entry_reconciliation, desired_entries_equivalent. intros H. ok_inv H.
  destruct current as [c|]; simpl in *; [|by destruct new].
  destruct new as [e'|]; [|by ok_inv H]. case_bool_decide; ok_inv H. congruence.
Qed.

Lemma touch_trigger_replace_differs new current bar tf bars k e :
  touch_trigger_entry_reconciliation new current bar tf bars = Ok (Replace k e) ->
  get_acknowledged_desired_entry current <> Some e.
Proof.
  unfold touch_trigger_entry_reconciliation. intros H. ok_inv H. ok_all.
  destruct current as [c|]; simpl in *; [|by destruct new]. ok_inv H.
  match goal with He : entry_order_expiration_ms _ _ _ = Ok _ |- _ =>
    apply entry_order_expiration_ms_Ok in He as (-> & _) end.
  unfold is_entry_order_expired in H.
  destruct (Z.leb_spec (de_source_plan_bar_open_time_ms
    (ap_applied_desired_entry (tc_applied_entry_package c)) + (bars + 2) * tf) (bar + tf));
    [|done]. simpl in H.
  destruct new as [e'|]; [|by ok_inv H].
  destruct (Z.eqb_spec (de_source_plan_bar_open_time_ms e') bar); simpl in H; ok_inv H.
  intros [= <-]. nia.
Qed.

Lemma _command_Ok s id e c :
  _command s id e = Ok c ->
  c = {| em_strategy_instance_id := st_strategy_instance_id s; em_trade_cycle_id := id;
         em_ticker := rs_instrument (st_registered_spec_snapshot s);
         em_desired_entry := e |} /\ id <> EmptyString.
Proof.
  unfold _command, EntryReconciliationCommand_post_init. simpl. intros H. ok_all.
  split; [done|]. eauto using require_non_empty_Ok.
Qed.

Lemma build_command_Ok s d apply_id c :
  build_entry_reconciliation_command s d apply_id = Ok (Some c) ->
  em_strategy_instance_id c = st_strategy_instance_id s /\
  em_ticker c = rs_instrument (st_registered_spec_snapshot s) /\
  em_trade_cycle_id c <> EmptyString /\
  ((exists e, d = Apply e /\ st_current_trade_cycle s = None /\
      apply_id = Some (em_trade_cycle_id c) /\ em_desired_entry c = Some e) \/
   (exists cycle, d = Cancel (em_trade_cycle_id c) /\ apply_id = None /\
      st_current_trade_cycle s = Some cycle /\
      tc_trade_cycle_id cycle = em_trade_cycle_id c /\ em_desired_entry c = None)).
Proof.
  destruct d as [|e|id|id e]; simpl; intros H; ok_inv H.
  - rewrite require_Ok in Hok. destruct (st_current_trade_cycle s) eqn:?; [done|].
    unfold _require_apply_trade_cycle_id in Hok0. destruct apply_id; [|done].
    destruct (is_empty s0); simplify_eq. apply _command_Ok in Hok1 as (-> & ?). simpl.
    split_and!; try done. left. eauto.
  - rewrite require_Ok in Hok. destruct apply_id; [done|].
    unfold _require_decision_cycle in Hok0.
    destruct (st_current_trade_cycle s) as [cycle|] eqn:?; [|done]. ok_all.
    apply _command_Ok in Hok1 as (-> & ?). simpl. split_and!; try done. right. by exists cycle.
Qed.

(** What an applied confirmation does to the aggregate. *)
Lemma apply_success_Ok s d c o s' :
  apply_success_confirmation s d c o = Ok s' ->
  outcome_strategy_instance_id o = st_strategy_instance_id s /\ valid_state s' /\
  ((exists e a cycle, d = Apply e /\ o = OutcomeApplied a /\
      ac_trade_cycle_id a = em_trade_cycle_id c /\ ac_applied_desired_entry a = e /\
      st_current_trade_cycle s = None /\
      cycle = {| tc_trade_cycle_id := em_trade_cycle_id c;
                 tc_applied_entry_package :=
                   {| ap_applied_desired_entry := e;
                      ap_calculated_quantity := ac_calculated_quantity a |};
                 tc_frozen_entry_context := None;
                 tc_latest_confirmed_management_protection := None;
                 tc_entry_remainder_cancelled := false |} /\
      replace_state s (Some cycle) None (st_pending_close_recovery s) = Ok s') \/
   (exists id b cycle, d = Cancel id /\ o = OutcomeAbsent b /\
      st_current_trade_cycle s = Some cycle /\ tc_trade_cycle_id cycle = id /\
      em_trade_cycle_id c = id /\ ab_trade_cycle_id b = id /\
      replace_state s None None (st_pending_close_recovery s) = Ok s')).
Proof.
  unfold apply_success_confirmation, _require_common_identity. intros H. ok_all.
  match goal with Hd : match d with _ => _ end = Ok _ |- _ => rename Hd into Happ end.
  split; [done|].
  destruct d as [|e|id|]; try done.
  - unfold _apply, _require_applied_confirmation, _require_cycle_identity,
      _require_matching_desired_entries, _confirmed_cycle, _confirmed_package,
      AppliedEntryPackage_post_init, CurrentTradeCycle_post_init in Happ.
    destruct o as [a| |]; ok_all; try done.
    split; [by eapply replace_state_Ok|]. left.
    do 3 eexists. split; [done|]. split; [done|]. split_and!; try congruence; try done.
    + by destruct (st_current_trade_cycle s).
    + by match goal with E : em_trade_cycle_id c = _ |- _ => rewrite E end.
  - unfold _cancel, _require_cycle_identity, clear_cycle_and_entry_recovery in Happ.
    destruct (st_current_trade_cycle s) as [cycle|] eqn:Hc; [|done].
    destruct o as [|b|]; ok_all; try done.
    split; [by eapply replace_state_Ok|]. right.
    exists (tc_trade_cycle_id cycle), b, cycle. split_and!; try done; congruence.
Qed.

(** * Properties *)

(** C25. On a cycle that is not frozen the decision always exists and is the right one:
    carrying it out makes the acknowledged entry equal to the desired one, it names the
    current cycle exactly when it ends it, and it is NO_OP exactly when nothing has to
    change. On a frozen cycle the decision is refused. *)
Theorem decide_entry_reconciliation_correct new current :
  (open_to_reconciliation current ->
   exists d, decide_entry_reconciliation new current = Ok d /\
     decision_addresses current d /\ decision_target current d = new /\
     (d = NoOp <-> get_acknowledged_desired_entry current = new)) /\
  (is_frozen current = true ->
   exists msg, decide_entry_reconciliation new current =
     Raise (Exn EntryReconciliationInvariantError msg)).
Proof. split; [apply decide_total|]. intros H. eexists. by apply frozen_decision_refused. Qed.

Definition example_entry (bar : Z) : DesiredEntry :=
  {| de_side := long; de_source_plan_bar_open_time_ms := bar;
     de_planned_entry_price := "100"; de_initial_stop_price := "90";
     de_initial_take_price := "120"; de_locked_exit_profile := "p" |}.

Lemma decide_entry_reconciliation_correct_witness :
  exists d, decide_entry_reconciliation (Some (example_entry 5)) (Some (sample_cycle None)) = Ok d
    /\ decision_addresses (Some (sample_cycle None)) d
    /\ decision_target (Some (sample_cycle None)) d = Some (example_entry 5)
    /\ (d = NoOp <-> Some sample_entry = Some (example_entry 5)).
Proof.
  apply (decide_entry_reconciliation_correct (Some (example_entry 5))
    (Some (sample_cycle None))).
  split; [reflexivity|discriminate].
Defined.

(** In the touch_trigger mode the order of a held plan lives a fixed number of
    candles: on the [k]-th candle after the signal candle the decision is NO_OP while
    [k <= lifetime], whatever the Engine proposes; from candle [lifetime + 1] on the held
    order is ended, and replaced only by a plan signalled on the very candle that has
    just closed. *)
Theorem touch_trigger_lifetime new c tf bars k :
  open_to_reconciliation (Some c) -> 0 < tf -> 0 <= bars -> 0 <= k ->
  let source := de_source_plan_bar_open_time_ms (tc_desired_entry c) in
  0 <= source ->
  touch_trigger_entry_reconciliation new (Some c) (source + k * tf) tf bars =
    Ok (if k <=? bars then NoOp
        else match new with
             | Some e =>
                 if de_source_plan_bar_open_time_ms e =? source + k * tf
                 then Replace (tc_trade_cycle_id c) e else Cancel (tc_trade_cycle_id c)
             | None => Cancel (tc_trade_cycle_id c)
             end).
Proof.
  intros Ho Htf Hbars Hk source Hs.
  unfold touch_trigger_entry_reconciliation, entry_order_expiration_ms.
  rewrite (open_not_frozen _ Ho). destruct Ho as [_ Hid]. simpl.
  change (ap_applied_desired_entry (tc_applied_entry_package c)) with (tc_desired_entry c).
  fold source.
  rewrite (proj2 (Z.leb_le 0 (source + k * tf))) by nia.
  rewrite (proj2 (Z.ltb_lt 0 tf)) by done. rewrite (proj2 (Z.leb_le 0 bars)) by done.
  rewrite (proj2 (Z.leb_le 0 source)) by done. simpl. unfold is_entry_order_expired.
  destruct (Z.leb_spec k bars).
  - rewrite (proj2 (Z.leb_gt _ _)) by nia. done.
  - rewrite (proj2 (Z.leb_le _ _)) by nia. simpl.
    rewrite !require_non_empty_true by done. simpl.
    destruct new as [e|]; [|done]. by destruct (_ =? _).
Qed.

Lemma touch_trigger_lifetime_witness :
  touch_trigger_entry_reconciliation (Some (example_entry 1800000)) (Some (sample_cycle None))
    (de_source_plan_bar_open_time_ms (tc_desired_entry (sample_cycle None)) + 4 * 300000)
    300000 3 = Ok (Replace "c1" (example_entry 1800000)).
Proof.
  rewrite (touch_trigger_lifetime (Some (example_entry 1800000)) (sample_cycle None) 300000 3 4);
    [reflexivity|split; [reflexivity|discriminate]|lia|lia|lia|vm_compute; discriminate].
Defined.

(** A success is applied to the aggregate only if it confirms exactly the command
    that carries the decision: same instance, same cycle, same desired entry. Then the
    aggregate acknowledges the decided entry under the cycle of the command, its
    recovery marker is cleared, its invariant holds, and its identity, registration and
    risk multiplier are unchanged. *)
Theorem apply_success_confirmation_sound s d apply_id c o s' :
  build_entry_reconciliation_command s d apply_id = Ok (Some c) ->
  apply_success_confirmation s d c o = Ok s' ->
  outcome_strategy_instance_id o = st_strategy_instance_id s /\
  match o with
  | OutcomeApplied a =>
      ac_trade_cycle_id a = em_trade_cycle_id c /\
      em_desired_entry c = Some (ac_applied_desired_entry a) /\
      exists cycle, st_current_trade_cycle s' = Some cycle /\
        tc_trade_cycle_id cycle = em_trade_cycle_id c /\
        tc_frozen_entry_context cycle = None
  | OutcomeAbsent b =>
      ab_trade_cycle_id b = em_trade_cycle_id c /\ em_desired_entry c = None /\
      st_current_trade_cycle s' = None
  | OutcomeDeclined _ => False
  end /\
  get_acknowledged_desired_entry (st_current_trade_cycle s') =
    decision_target (st_current_trade_cycle s) d /\
  s' = {| st_strategy_instance_id := st_strategy_instance_id s;
          st_strategy_id := st_strategy_id s;
          st_registered_spec_snapshot := st_registered_spec_snapshot s;
          st_risk_multiplier := st_risk_multiplier s;
          st_current_trade_cycle := st_current_trade_cycle s';
          st_pending_entry_recovery := None;
          st_pending_close_recovery := st_pending_close_recovery s |} /\
  valid_state s'.
Proof.
  intros Hb Ha. apply build_command_Ok in Hb as (_ & _ & _ & Hb).
  apply apply_success_Ok in Ha as (Hid & Hv & [Ha|Ha]).
  - destruct Ha as (e & a & cycle & -> & -> & Hac & Hae & Hs & -> & Hr).
    apply replace_state_Ok in Hr as [_ ->]. split_and!; simpl; try done.
    + destruct Hb as [(e' & [= <-] & _ & _ & ->)|(? & [=] & _)]. by rewrite Hae.
    + eauto.
  - destruct Ha as (id & b & cycle & -> & -> & Hs & Hcid & Hc & Hb' & Hr).
    apply replace_state_Ok in Hr as [_ ->]. split_and!; simpl; try done; try congruence.
    destruct Hb as [(? & [=] & _)|(? & _ & _ & _ & _ & ->)]. done.
Qed.

Definition example_cancel : EntryReconciliationCommand :=
  {| em_strategy_instance_id := "i1"; em_trade_cycle_id := "c1"; em_ticker := "BTC";
     em_desired_entry := None |}.

Lemma apply_success_confirmation_sound_witness :
  apply_success_confirmation resting_state (Cancel "c1")
    example_cancel
    (OutcomeAbsent {| ab_strategy_instance_id := "i1"; ab_trade_cycle_id := "c1" |}) =
    Ok flat_state /\
  get_acknowledged_desired_entry None =
    decision_target (Some (sample_cycle None)) (Cancel "c1").
Proof.
  split; [vm_compute; reflexivity|].
  destruct (apply_success_confirmation_sound resting_state
    (Cancel "c1") None example_cancel
    (OutcomeAbsent {| ab_strategy_instance_id := "i1"; ab_trade_cycle_id := "c1" |})
    flat_state) as (_ & _ & H & _);
    [vm_compute; reflexivity|vm_compute; reflexivity|exact H].
Defined.

(** A confirmed decision is not repeated: once the command of a decision has been
    confirmed and applied, the same Engine projection decides NO_OP on the new aggregate. *)
Theorem confirmed_entry_decision_converges new s d apply_id c o s' :
  decide_entry_reconciliation new (st_current_trade_cycle s) = Ok d ->
  open_to_reconciliation (st_current_trade_cycle s) ->
  build_entry_reconciliation_command s d apply_id = Ok (Some c) ->
  apply_success_confirmation s d c o = Ok s' ->
  decide_entry_reconciliation new (st_current_trade_cycle s') = Ok NoOp.
Proof.
  intros Hd Ho Hb Ha.
  destruct (decide_total new _ Ho) as (d0 & Hd0 & _ & Htarget & _).
  assert (d0 = d) as -> by congruence.
  apply build_command_Ok in Hb as (_ & _ & Hne & _).
  assert (open_to_reconciliation (st_current_trade_cycle s') /\
          get_acknowledged_desired_entry (st_current_trade_cycle s') = new) as [Ho' Hack].
  { apply apply_success_Ok in Ha as (_ & _ & [Ha|Ha]).
    - destruct Ha as (e & a & cycle & -> & -> & Hac & _ & _ & -> & Hr).
      apply replace_state_Ok in Hr as [_ ->]. simpl in *. done.
    - destruct Ha as (id & b & cycle & -> & -> & Hs & _ & _ & _ & Hr).
      apply replace_state_Ok in Hr as [_ ->]. simpl in *. done. }
  destruct (decide_total new _ Ho') as (d' & Hd' & _ & _ & Hnoop).
  rewrite Hd'. f_equal. by apply Hnoop.
Qed.

Lemma confirmed_entry_decision_converges_witness :
  apply_success_confirmation resting_state (Cancel "c1") example_cancel
    (OutcomeAbsent {| ab_strategy_instance_id := "i1"; ab_trade_cycle_id := "c1" |}) =
    Ok flat_state /\
  decide_entry_reconciliation None (st_current_trade_cycle flat_state) = Ok NoOp.
Proof.
  split; [vm_compute; reflexivity|].
  apply (confirmed_entry_decision_converges None resting_state (Cancel "c1") None example_cancel
    (OutcomeAbsent {| ab_strategy_instance_id := "i1"; ab_trade_cycle_id := "c1" |}));
    [vm_compute; reflexivity|split; [reflexivity|discriminate]|vm_compute; reflexivity..].
Defined.
