(* ===== verification/Routing.v ===== *)
(** Position resolution and use-case routing: the open-position resolver
    (runtime/open_position/resolver.py), the projected values (runtime/routing/models.py)
    and the router that asks the Strategy Engine for a live entry or an open-trade
    recipe (runtime/routing/router.py). *)
From S2P Require Import Prelude Errors DecimalText Models Contracts Effects.
From S2P Require Import Protocol ProtocolRules.

Record PositionResolvedStrategyInstance := {
  pi_processing_unit : StrategyBarProcessingUnit;
  pi_resolved_state : PositionResolvedStrategyInstanceRuntimeState }.

Record LiveEntryProjectedStrategyInstance := {
  li_source : PositionResolvedStrategyInstance;
  li_desired_entry : option DesiredEntry }.

Record OpenTradeProjectedStrategyInstance := {
  oi_source : PositionResolvedStrategyInstance;
  oi_position_management_recipe : PositionManagementRecipe }.

Inductive StrategyUseCaseProjectedInstance :=
| LiveEntryProjected (p : LiveEntryProjectedStrategyInstance)
| OpenTradeProjected (p : OpenTradeProjectedStrategyInstance).

Section routing.
Context {R W : Type} `{Ports W}.

(** open_position/resolver.py *)
Definition resolve (state : StrategyInstanceRuntimeState) :
    M R W PositionResolvedStrategyInstanceRuntimeState :=
  match st_current_trade_cycle state with
  | None =>
      mret {| ps_runtime_state := state; ps_position_open := false;
              ps_first_fill_at_ms := None; ps_average_entry_price := None;
              ps_closure := None; ps_entry_order_link_id := None;
              ps_entry_order_id := None |}
  | Some current_trade_cycle =>
      request ← lift (OpenPositionLookupRequest_post_init
        {| lq_strategy_instance_id := st_strategy_instance_id state;
           lq_trade_cycle_id := tc_trade_cycle_id current_trade_cycle |});
      response ← lookup_position request;
      mret {| ps_runtime_state := state;
              ps_position_open := lr_position_open response;
              ps_first_fill_at_ms := lr_first_fill_at_ms response;
              ps_average_entry_price := lr_average_entry_price response;
              ps_closure := lr_closure response;
              ps_entry_order_link_id := lr_entry_order_link_id response;
              ps_entry_order_id := lr_entry_order_id response |}
  end.

(** routing/router.py *)
Definition _validate_instance_binding (item : PositionResolvedStrategyInstance) :
    result unit :=
  let unit_instance_id := pu_strategy_instance_id (pi_processing_unit item) in
  let deployment_instance_id :=
    ds_strategy_instance_id (pu_deployment (pi_processing_unit item)) in
  let state_instance_id :=
    st_strategy_instance_id (ps_runtime_state (pi_resolved_state item)) in
  _ ← require (bool_decide (unit_instance_id = deployment_instance_id))
    StrategyInstanceBindingError
    "processing unit and deployment strategy_instance_id mismatch";
  require (bool_decide (unit_instance_id = state_instance_id))
    StrategyInstanceBindingError
    "processing unit and runtime state strategy_instance_id mismatch".

Definition _route_open_trade (item : PositionResolvedStrategyInstance) :
    M R W OpenTradeProjectedStrategyInstance :=
  let unit := pi_processing_unit item in
  let runtime_state := ps_runtime_state (pi_resolved_state item) in
  let frozen_context := match st_current_trade_cycle runtime_state with
                        | Some current_cycle => tc_frozen_entry_context current_cycle
                        | None => None
                        end in
  match frozen_context with
  | None => throw OpenTradeContextUnavailable (pu_strategy_instance_id unit)
  | Some frozen_context =>
      let snapshot := st_registered_spec_snapshot runtime_state in
      open_response ← project_open_trade (pu_strategy_instance_id unit)
        {| op_strategy_id := st_strategy_id runtime_state;
           op_raw_spec := rs_raw_spec snapshot;
           op_ticker := rs_instrument snapshot;
           op_base_timeframe := rs_base_timeframe snapshot;
           op_target_bar_open_time_ms := cb_open_time_ms (pu_committed_bar unit);
           op_desired_entry := fc_desired_entry frozen_context;
           op_entry_bar_open_time_ms := fc_entry_bar_open_time_ms frozen_context |};
      mret {| oi_source := item;
              oi_position_management_recipe :=
                {| pr_desired_protection := opr_desired_protection open_response;
                   pr_close_signal := opr_close_signal open_response;
                   pr_diagnostics := opr_diagnostics open_response;
                   pr_engine_desired_protection_text :=
                     opr_engine_desired_protection_text open_response |} |}
  end.

Definition route (item : PositionResolvedStrategyInstance) :
    M R W StrategyUseCaseProjectedInstance :=
  let unit := pi_processing_unit item in
  let deployment := pu_deployment unit in
  _ ← lift (_validate_instance_binding item);
  if ps_position_open (pi_resolved_state item) then
    projected ← _route_open_trade item;
    mret (OpenTradeProjected projected)
  else
    live_response ← project_live_entry (pu_strategy_instance_id unit)
      {| lp_strategy_id := ds_strategy_id deployment;
         lp_raw_spec := ds_raw_spec deployment;
         lp_ticker := ds_instrument deployment;
         lp_base_timeframe := ds_base_timeframe deployment;
         lp_target_bar_open_time_ms := cb_open_time_ms (pu_committed_bar unit) |};
    mret (LiveEntryProjected
            {| li_source := item; li_desired_entry := lpr_desired_entry live_response |}).
End routing.

(** * Lemmas *)

Lemma lookup_request_Ok r r' : OpenPositionLookupRequest_post_init r = Ok r' -> r' = r.
Proof. unfold OpenPositionLookupRequest_post_init. intros H. by ok_inv H. Qed.

Section protocol.
Context {R W : Type} `{Repository R} `{!RepositoryLaws R} `{Ports W}.
Context (id : string).
Implicit Types s : sys R W.

(** The lookup is made for the unmarked current cycle. *)
Lemma resolve_spec d s E :
  within id (Some d) s -> st_strategy_instance_id d = id -> unmarked d ->
  (forall e s', within id (Some d) s' -> E e s') ->
  inside id (resolve d)
    (fun p s' => within id (Some d) s' /\ ps_runtime_state p = d /\
       (st_current_trade_cycle d = None ->
          ps_position_open p = false /\ ps_closure p = None))
    E s.
Proof.
  intros Hw Hid Hu HE. unfold resolve.
  destruct (st_current_trade_cycle d) as [c|] eqn:Hc; [|by apply inside_ret].
  apply inside_bind. apply inside_lift. destruct (OpenPositionLookupRequest_post_init _) eqn:Hq;
    [|by apply HE].
  apply lookup_request_Ok in Hq as ->. apply inside_bind.
  eapply inside_call; [exact Hw|simpl; congruence|by exists d, c|].
  clear Hw. intros s' [r|e] Hw; [|by apply HE]. by apply inside_ret.
Qed.

Lemma validate_binding_Ok item u :
  _validate_instance_binding item = Ok u ->
  pu_strategy_instance_id (pi_processing_unit item) =
    st_strategy_instance_id (ps_runtime_state (pi_resolved_state item)).
Proof. unfold _validate_instance_binding. intros Hb. by ok_all. Qed.

(** The projection asked of the Engine belongs to the stored aggregate. *)
Lemma route_spec d p unit s :
  within id (Some d) s -> st_strategy_instance_id d = id -> unmarked d ->
  ps_runtime_state p = d ->
  inside id (route {| pi_processing_unit := unit; pi_resolved_state := p |})
    (fun r s' => within id (Some d) s' /\
       match r with
       | LiveEntryProjected l =>
           li_source l = {| pi_processing_unit := unit; pi_resolved_state := p |} /\
           ps_position_open p = false
       | OpenTradeProjected o =>
           oi_source o = {| pi_processing_unit := unit; pi_resolved_state := p |} /\
           ps_position_open p = true
       end)
    broke s.
Proof.
  intros Hw Hid Hu Hp. unfold route. apply inside_bind. plift.
  match goal with E : _validate_instance_binding _ = Ok _ |- _ =>
    apply validate_binding_Ok in E; simpl in E; rewrite Hp, Hid in E; rename E into Hb end.
  simpl. apply inside_if; intros Hopen; apply inside_bind.
  - unfold _route_open_trade. simpl. rewrite Hp.
    destruct (st_current_trade_cycle d) as [c|] eqn:Hc; [|apply inside_throw; runs_done].
    destruct (tc_frozen_entry_context c) as [f|] eqn:Hf; [|apply inside_throw; runs_done].
    apply inside_bind. pcall Hw; [by exists d, c, f|].
    apply inside_ret, inside_ret. by split.
  - pcall Hw; [by exists d|]. apply inside_ret. by split.
Qed.
End protocol.
