(* ===== verification/EntryOrchestrator.v ===== *)
(** Execution of desired-entry reconciliation: the ABI entry-package bridge
    (runtime/entry_reconciliation_bridge/bridge.py), the reconciliation orchestrator
    (runtime/entry_reconciliation_orchestrator/orchestrator.py) and the journal helper of
    an entry cycle that ended without a fill (runtime/entry_cycle_ended/models.py). *)
From S2P Require Import Prelude Errors DecimalText Models Contracts Effects FirstFill.
From S2P Require Import Repository Scripted Protocol ProtocolRules EntryReconciliation Routing.

(** * entry_cycle_ended/models.py *)

Definition CANCELLED := "cancelled".
Definition DISABLED := "disabled".
Definition TERMINAL_WITHOUT_FILL := "terminal_without_fill".
Definition EXACT_ABSENT := "exact_absent".
Definition ENTRY_CYCLE_END_REASONS : list string :=
  [CANCELLED; DISABLED; TERMINAL_WITHOUT_FILL; EXACT_ABSENT].

Definition journal_entry_cycle_ended {R W} (present : bool)
    (strategy_instance_id trade_cycle_id : string) (bar_open_time_ms : option Z)
    (reason : string) : M R W unit :=
  if negb present then mret tt
  else
    _ ← lift (require (bool_decide (reason ∈ ENTRY_CYCLE_END_REASONS)) ValueError
      "unsupported entry cycle end reason: ");
    emit (EvJournal (entry_cycle_ended strategy_instance_id trade_cycle_id
      bar_open_time_ms reason)).

(** * The bridge *)

Definition _encode_desired_entry (value : DesiredEntry) :
    result EntryPackageWireDesiredEntry :=
  EntryPackageWireDesiredEntry_post_init
    {| we_side := de_side value;
       we_source_plan_bar_open_time_ms := de_source_plan_bar_open_time_ms value;
       we_planned_entry_price := de_planned_entry_price value;
       we_initial_stop_price := de_initial_stop_price value;
       we_initial_take_price := de_initial_take_price value;
       we_locked_exit_profile := de_locked_exit_profile value |}.

Definition _decode_desired_entry (value : EntryPackageWireDesiredEntry) :
    result DesiredEntry :=
  DesiredEntry_post_init
    {| de_side := we_side value;
       de_source_plan_bar_open_time_ms := we_source_plan_bar_open_time_ms value;
       de_planned_entry_price := we_planned_entry_price value;
       de_initial_stop_price := we_initial_stop_price value;
       de_initial_take_price := we_initial_take_price value;
       de_locked_exit_profile := we_locked_exit_profile value |}.

(** [EntryReconciliationExecutionError(public_error=...)] *)
Definition public_error_message (code : string) : string :=
  "ABI entry-package public error: " +:+ code.

(** The classification of the ABI answer. *)
Definition entry_outcome_of_result (r : EntryPackageResult) : result EntryExecutionOutcome :=
  match r with
  | EpApplied a =>
      applied_desired_entry ← _decode_desired_entry (ea_applied_desired_entry a);
      confirmation ← EntryAppliedConfirmation_post_init
        {| ac_strategy_instance_id := ea_strategy_instance_id a;
           ac_trade_cycle_id := ea_trade_cycle_id a;
           ac_applied_desired_entry := applied_desired_entry;
           ac_calculated_quantity := ea_calculated_quantity a;
           ac_trigger_price := ea_trigger_price a;
           ac_stop_loss := ea_stop_loss a;
           ac_take_profit := ea_take_profit a;
           ac_quantity := ea_quantity a;
           ac_order_link_id := ea_order_link_id a;
           ac_order_id := ea_order_id a |};
      Ok (OutcomeApplied confirmation)
  | EpAbsent a =>
      confirmation ← EntryAbsentConfirmation_post_init
        {| ab_strategy_instance_id := eb_strategy_instance_id a;
           ab_trade_cycle_id := eb_trade_cycle_id a |};
      Ok (OutcomeAbsent confirmation)
  | EpDeclined d =>
      outcome ← EntryDeclinedOutcome_post_init
        {| dc_strategy_instance_id := ec_strategy_instance_id d;
           dc_trade_cycle_id := ec_trade_cycle_id d;
           dc_decline_reason := ec_decline_reason d;
           dc_decline_message := ec_decline_message d |};
      Ok (OutcomeDeclined outcome)
  | EpExecutionNotReady message => raise EntryExecutionNotReady message
  | EpMalformedJson _ =>
      raise EntryReconciliationExecutionError (public_error_message "malformed_json")
  | EpUnsupportedMediaType _ =>
      raise EntryReconciliationExecutionError (public_error_message "unsupported_media_type")
  | EpValidationFailed _ _ =>
      raise EntryReconciliationExecutionError (public_error_message "validation_failed")
  | EpInternalError _ =>
      raise EntryReconciliationExecutionError (public_error_message "internal_error")
  end.

Definition entry_package_request_of (command : EntryReconciliationCommand)
    (source_state : StrategyInstanceRuntimeState) : result EntryPackageRequest :=
  desired_entry ← when_some (em_desired_entry command) _encode_desired_entry;
  EntryPackageRequest_post_init
    {| er_strategy_instance_id := em_strategy_instance_id command;
       er_trade_cycle_id := em_trade_cycle_id command;
       er_ticker := em_ticker command;
       er_desired_entry := desired_entry;
       er_risk_multiplier := st_risk_multiplier source_state |}.

(** * The orchestrator *)

Record EntryReconciliationOrchestrator := {
  eo_entry_applied_journal : bool;
  eo_entry_declined_journal : bool;
  eo_live_entry_mode : LiveEntryMode;
  eo_order_lifetime_bars : option Z }.

Definition EntryReconciliationOrchestrator_init (o : EntryReconciliationOrchestrator) :
    result EntryReconciliationOrchestrator :=
  _ ← require (match eo_live_entry_mode o with
               | touch_trigger =>
                   match eo_order_lifetime_bars o with Some n => 0 <=? n | None => false end
               | ema_anchor => true
               end) ValueError
    "touch_trigger requires order_lifetime_bars as an integer >= 0";
  Ok o.

Section orchestrator.
Context {R W : Type} `{Repository R} `{Ports W}.
Context (self : EntryReconciliationOrchestrator).

(** [AbiEntryPackageExecutionBridge.execute] *)
Definition bridge_execute (command : EntryReconciliationCommand)
    (source_state : StrategyInstanceRuntimeState) : M R W EntryExecutionOutcome :=
  request ← lift (entry_package_request_of command source_state);
  answer ← catch (send_entry_package request) (fun exc =>
    match exn_cls exc with
    | AbiEntryPackageTimeout =>
        throw EntryReconciliationExecutionError "ABI entry-package request timed out"
    | AbiEntryPackageNetworkFailure =>
        throw EntryReconciliationExecutionError "ABI entry-package network transport failed"
    | AbiEntryPackageProtocolError =>
        throw EntryReconciliationExecutionError "ABI entry-package response was invalid"
    | _ => lift (Raise exc)
    end);
  lift (entry_outcome_of_result answer).

Definition _decide (projection : LiveEntryProjectedStrategyInstance)
    (source_state : StrategyInstanceRuntimeState) :
    result EntryReconciliationDecision :=
  match eo_live_entry_mode self with
  | ema_anchor =>
      decide_entry_reconciliation (li_desired_entry projection)
        (st_current_trade_cycle source_state)
  | touch_trigger =>
      let unit := pi_processing_unit (li_source projection) in
      match eo_order_lifetime_bars self with
      | None => raise AssertionError EmptyString
      | Some order_lifetime_bars =>
          timeframe_ms ← timeframe_duration_ms (ds_base_timeframe (pu_deployment unit));
          touch_trigger_entry_reconciliation (li_desired_entry projection)
            (st_current_trade_cycle source_state)
            (cb_open_time_ms (pu_committed_bar unit)) timeframe_ms order_lifetime_bars
      end
  end.

Definition _journal_entry_applied (confirmation : EntryAppliedConfirmation)
    (bar_open_time_ms : Z) : M R W unit :=
  if is_none (ac_trigger_price confirmation) && is_none (ac_stop_loss confirmation)
     && is_none (ac_take_profit confirmation) && is_none (ac_quantity confirmation)
     && is_none (ac_order_link_id confirmation) && is_none (ac_order_id confirmation)
  then mret tt
  else
    journal (eo_entry_applied_journal self)
      (entry_package_applied (ac_strategy_instance_id confirmation)
         (ac_trade_cycle_id confirmation) bar_open_time_ms
         (ac_trigger_price confirmation) (ac_stop_loss confirmation)
         (ac_take_profit confirmation) (ac_quantity confirmation)
         (ac_order_link_id confirmation) (ac_order_id confirmation)).

Definition _end_declined_apply (bar_open_time_ms : Z)
    (pending_state : StrategyInstanceRuntimeState) (decision : EntryReconciliationDecision)
    (command : EntryReconciliationCommand) (declined : EntryDeclinedOutcome) :
    M R W StrategyInstanceRuntimeState :=
  _ ← lift (require (match decision with Apply _ => true | _ => false end)
    EntryReconciliationInvariantError "only APPLY may be declined");
  _ ← lift (require
    (bool_decide (dc_strategy_instance_id declined = em_strategy_instance_id command)
     && bool_decide (dc_trade_cycle_id declined = em_trade_cycle_id command))
    EntryReconciliationInvariantError "declined outcome does not match the sent command");
  cleared ← lift (replace_pending_entry_recovery pending_state None);
  saved_state ← save cleared;
  _ ← journal (eo_entry_declined_journal self)
    (entry_package_declined (dc_strategy_instance_id declined)
       (dc_trade_cycle_id declined) bar_open_time_ms
       (st_risk_multiplier pending_state) (dc_decline_reason declined)
       (dc_decline_message declined));
  mret saved_state.

(** The [except EntryExecutionNotReady] branch of [_execute_one]. *)
Definition clear_not_ready (command : EntryReconciliationCommand)
    (pending_state : StrategyInstanceRuntimeState) (error : exn) :
    M R W EntryExecutionOutcome :=
  current ← get (em_strategy_instance_id command);
  match current with
  | Some current_state =>
      if state_eqb current_state pending_state then
        cleared ← lift (replace_pending_entry_recovery current_state None);
        _ ← save cleared;
        lift (Raise error)
      else throw EntryReconciliationInvariantError
        "cannot clear a recovery marker after its state changed"
  | None => throw EntryReconciliationInvariantError
      "cannot clear a recovery marker after its state changed"
  end.

Definition _execute_one (bar_open_time_ms : Z) (state : StrategyInstanceRuntimeState)
    (decision : EntryReconciliationDecision) (apply_trade_cycle_id : option string) :
    M R W StrategyInstanceRuntimeState :=
  command ← lift (build_entry_reconciliation_command state decision apply_trade_cycle_id);
  match command with
  | None => throw EntryReconciliationInvariantError
      "command-bearing reconciliation decision must produce a command"
  | Some command =>
      _ ← lift (require (is_none (st_pending_entry_recovery state))
        EntryReconciliationInvariantError "cannot overwrite an existing recovery marker");
      marker ← lift (PendingEntryRecovery_post_init
        {| pe_trade_cycle_id := em_trade_cycle_id command |});
      marked ← lift (replace_pending_entry_recovery state (Some marker));
      pending_state ← save marked;
      confirmation ← catch (bridge_execute command state) (fun error =>
        match exn_cls error with
        | EntryExecutionNotReady => clear_not_ready command pending_state error
        | _ => lift (Raise error)
        end);
      match confirmation with
      | OutcomeDeclined declined =>
          _end_declined_apply bar_open_time_ms pending_state decision command declined
      | OutcomeApplied applied =>
          _ ← _journal_entry_applied applied bar_open_time_ms;
          lift (apply_success_confirmation pending_state decision command confirmation)
      | OutcomeAbsent _ =>
          lift (apply_success_confirmation pending_state decision command confirmation)
      end
  end.

Definition execute (projection : LiveEntryProjectedStrategyInstance) :
    M R W StrategyInstanceRuntimeState :=
  let bar_open_time_ms :=
    cb_open_time_ms (pu_committed_bar (pi_processing_unit (li_source projection))) in
  let source_state := ps_runtime_state (pi_resolved_state (li_source projection)) in
  decision ← lift (_decide projection source_state);
  match decision with
  | NoOp => mret source_state
  | Replace trade_cycle_id desired_entry =>
      cancel ← lift (EntryReconciliationDecision_post_init (Cancel trade_cycle_id));
      absent_state ← _execute_one bar_open_time_ms source_state cancel None;
      apply ← lift (EntryReconciliationDecision_post_init (Apply desired_entry));
      id ← new_trade_cycle_id;
      _execute_one bar_open_time_ms absent_state apply (Some id)
  | Apply _ =>
      id ← new_trade_cycle_id;
      _execute_one bar_open_time_ms source_state decision (Some id)
  | Cancel _ => _execute_one bar_open_time_ms source_state decision None
  end.
End orchestrator.

(** * Lemmas *)

Lemma marker_post_init_Ok m m' : PendingEntryRecovery_post_init m = Ok m' -> m' = m.
Proof. unfold PendingEntryRecovery_post_init. intros Hm. by ok_inv Hm. Qed.

Lemma decision_post_init_Ok d d' : EntryReconciliationDecision_post_init d = Ok d' -> d' = d.
Proof. destruct d; simpl; intros Hd; by ok_inv Hd. Qed.

Lemma wire_entry_post_init_Ok e e' : EntryPackageWireDesiredEntry_post_init e = Ok e' -> e' = e.
Proof. unfold EntryPackageWireDesiredEntry_post_init. intros He. by ok_inv He. Qed.

Lemma entry_request_post_init_Ok r r' : EntryPackageRequest_post_init r = Ok r' -> r' = r.
Proof. unfold EntryPackageRequest_post_init. intros Hr. by ok_inv Hr. Qed.

Lemma entry_package_request_of_Ok c s q :
  entry_package_request_of c s = Ok q ->
  er_strategy_instance_id q = em_strategy_instance_id c /\
  er_trade_cycle_id q = em_trade_cycle_id c /\
  er_ticker q = em_ticker c /\
  er_risk_multiplier q = st_risk_multiplier s /\
  match em_desired_entry c, er_desired_entry q with
  | None, None => True
  | Some e, Some w => _encode_desired_entry e = Ok w
  | _, _ => False
  end.
Proof.
  unfold entry_package_request_of. intros Hq. ok_inv Hq.
  apply entry_request_post_init_Ok in Hq as ->. simpl. split_and!; [done..|].
  destruct (em_desired_entry c); simpl in Hok; ok_inv Hok; done.
Qed.

(** What one executed command leaves: the stored aggregate [d'] and the aggregate [r] the
    orchestrator returns, for a decision about the cycle [cyc] of [d]. *)
Definition one_result (d : StrategyInstanceRuntimeState) (cyc : option CurrentTradeCycle)
    (decision : EntryReconciliationDecision) (d' r : StrategyInstanceRuntimeState) : Prop :=
  match decision with
  | Apply e =>
      (d' = with_parts d None None None /\ r = d') \/
      (exists m c, d' = with_parts d None (Some m) None /\
         r = with_parts d (Some c) None None /\
         fresh_cycle (pe_trade_cycle_id m) c /\ tc_desired_entry c = e /\ valid_state r)
  | Cancel k => exists c m, cyc = Some c /\ tc_trade_cycle_id c = k /\
      d' = with_parts d (Some c) (Some m) None /\
      r = with_parts d None None None /\ valid_state r
  | _ => False
  end.

Lemma apply_success_result d cyc m decision c o r :
  pe_trade_cycle_id m = em_trade_cycle_id c ->
  apply_success_confirmation (with_parts d cyc (Some m) None) decision c o = Ok r ->
  one_result d cyc decision (with_parts d cyc (Some m) None) r.
Proof.
  intros Hm (_ & Hv & Ha)%apply_success_Ok. simpl in Ha.
  destruct Ha as [(e & ap & cycle & -> & -> & Hac & Hae & -> & Hcyc & Hr)
                 |(k & b & cycle & -> & -> & -> & Hck & Hcm & _ & Hr)];
    apply replace_state_parts in Hr as [-> _]; rewrite with_parts_twice in *.
  - right. exists m, cycle. subst cycle. split_and!; done.
  - by exists cycle, m.
Qed.

Section protocol.
Context {R W : Type} `{Repository R} `{!RepositoryLaws R} `{Ports W}.
Context (self : EntryReconciliationOrchestrator).
Context (id : string).
Implicit Types s : sys R W.

(** A command is sent to ABI only when the stored aggregate carries its marker. *)
Lemma bridge_execute_spec d c src s (Q : EntryExecutionOutcome -> sys R W -> Prop) E :
  within id (Some d) s -> em_strategy_instance_id c = id ->
  st_pending_entry_recovery d = Some {| pe_trade_cycle_id := em_trade_cycle_id c |} ->
  (em_desired_entry c <> None -> st_current_trade_cycle d = None) ->
  (forall o s', within id (Some d) s' -> Q o s') ->
  (forall e s', within id (Some d) s' -> E e s') ->
  inside id (bridge_execute c src) Q E s.
Proof.
  intros Hw Hid Hm Hnew HQ HE. unfold bridge_execute. apply inside_bind.
  apply inside_lift. destruct (entry_package_request_of c src) as [q|] eqn:Hq; [|by apply HE].
  apply entry_package_request_of_Ok in Hq as (Hqi & Hqc & _ & _ & Hqe).
  apply inside_bind, inside_catch. eapply inside_call; [exact Hw|simpl; congruence| |].
  - exists d. split; [done|]. destruct (em_desired_entry c), (er_desired_entry q); try done.
    + split; [by apply Hnew|congruence].
    + left. congruence.
  - clear Hw. intros s' [r|e] Hw.
    + apply inside_lift. destruct (entry_outcome_of_result r); auto.
    + destruct (exn_cls e); apply inside_throw || apply inside_lift; auto.
Qed.

Lemma clear_not_ready_spec d c e s Q :
  within id (Some d) s -> em_strategy_instance_id c = id ->
  st_strategy_instance_id d = id ->
  (exists m, st_pending_entry_recovery d = Some m) -> st_pending_close_recovery d = None ->
  inside id (clear_not_ready c d e) Q broke s.
Proof.
  intros Hw Hid Hdid [m Hm] Hpc. unfold clear_not_ready. apply inside_bind. rewrite Hid.
  pget Hw. apply inside_if; intros _; [|apply inside_throw; runs_done].
  apply inside_bind. plift. unfold replace_pending_entry_recovery in *.
  match goal with Er : replace_state _ _ _ _ = Ok _ |- _ =>
    apply replace_state_parts in Er as [-> Hv] end.
  apply inside_bind. psave Hw; [|apply inside_lift; runs_done].
  eapply durable_parts; [done..|]. rewrite Hm, Hpc.
  destruct (st_current_trade_cycle d); constructor.
Qed.

Lemma end_declined_spec bar d m decision c o s :
  within id (Some (with_parts d None (Some m) None)) s ->
  st_strategy_instance_id d = id ->
  inside id (_end_declined_apply self bar (with_parts d None (Some m) None) decision c o)
    (fun r s' => exists d', within id (Some d') s' /\ one_result d None decision d' r)
    broke s.
Proof.
  intros Hw Hid. unfold _end_declined_apply. apply inside_bind. plift.
  destruct decision as [|e|k|k e]; simplify_eq/=. apply inside_bind. plift.
  apply inside_bind. plift. unfold replace_pending_entry_recovery in *.
  match goal with Er : replace_state _ _ _ _ = Ok _ |- _ =>
    apply replace_state_parts in Er as [-> Hv] end.
  apply inside_bind. psave Hw.
  - eapply durable_parts; [done..|]. constructor.
  - apply inside_bind. pjournal Hw. apply inside_ret. eexists. split; [exact Hw|]. by left.
Qed.

Lemma execute_one_spec bar d cyc decision aid s :
  within id (Some d) s -> st_strategy_instance_id d = id ->
  is_frozen cyc = false ->
  (forall m, (forall c, cyc = Some c -> pe_trade_cycle_id m = tc_trade_cycle_id c) ->
     part_step (st_current_trade_cycle d) (st_pending_entry_recovery d)
       (st_pending_close_recovery d) cyc (Some m) None) ->
  inside id (_execute_one self bar (with_parts d cyc None None) decision aid)
    (fun r s' => exists d', within id (Some d') s' /\ one_result d cyc decision d' r)
    broke s.
Proof.
  intros Hw Hid Hfr Hmark. unfold _execute_one. apply inside_bind. plift.
  destruct a as [c|]; [|apply inside_throw; runs_done].
  match goal with Eb : build_entry_reconciliation_command _ _ _ = Ok _ |- _ =>
    apply build_command_Ok in Eb as (Hci & _ & _ & Hcases) end.
  simpl in Hci, Hcases. apply inside_bind. plift. apply inside_bind. plift.
  match goal with Em : PendingEntryRecovery_post_init _ = Ok _ |- _ =>
    apply marker_post_init_Ok in Em as -> end.
  apply inside_bind. plift. unfold replace_pending_entry_recovery in *.
  match goal with Er : replace_state _ _ _ _ = Ok _ |- _ =>
    apply replace_state_parts in Er as [-> Hv] end.
  rewrite with_parts_twice in *. simpl in *. apply inside_bind.
  set (m := {| pe_trade_cycle_id := em_trade_cycle_id c |}) in *.
  psave Hw.
  { eapply durable_parts; [done..|]. apply Hmark. intros c0 Hc0. simpl.
    destruct Hcases as [(e & _ & Hn & _)|(cy & _ & _ & Hcy & Hcid & _)]; congruence. }
  apply inside_bind, inside_catch. eapply bridge_execute_spec; [exact Hw|congruence|done| | |].
  - intros Hne. simpl.
    destruct Hcases as [(e & _ & Hn & _)|(cy & _ & _ & _ & _ & Hnone)]; congruence.
  - clear Hw. intros o s1 Hw.
    destruct o as [ap|ab|dc].
    + unfold _journal_entry_applied. apply inside_bind.
      assert (forall s2, within id (Some (with_parts d cyc (Some m) None)) s2 ->
        inside id (lift (apply_success_confirmation (with_parts d cyc (Some m) None) decision c
              (OutcomeApplied ap)) : M R W _)
          (fun r s' => exists d', within id (Some d') s' /\ one_result d cyc decision d' r)
          broke s2) as Hsucc.
      { clear Hw. intros s2 Hw. plift. eauto using apply_success_result. }
      apply inside_if; intros _; [by apply inside_ret, Hsucc|]. pjournal Hw. by apply Hsucc.
    + plift. eauto using apply_success_result.
    + destruct Hcases as [(e & -> & Hn & _)|(cy & -> & _ & _ & _ & _)].
      * simpl in Hn. subst cyc. by apply end_declined_spec.
      * unfold _end_declined_apply. apply inside_bind, inside_lift. simpl. runs_done.
  - clear Hw. intros e s2 Hw. destruct (exn_cls e); try (apply inside_lift; runs_done).
    eapply clear_not_ready_spec; [exact Hw|congruence|done|by exists m|done].
Qed.

Lemma _decide_spec p src d :
  _decide self p src = Ok d ->
  decision_addresses (st_current_trade_cycle src) d /\
  is_frozen (st_current_trade_cycle src) = false /\
  forall k e, d = Replace k e ->
    get_acknowledged_desired_entry (st_current_trade_cycle src) <> Some e.
Proof.
  unfold _decide. destruct (eo_live_entry_mode self); intros Hd.
  - pose proof (decide_address _ _ _ Hd) as [? ?]. split_and!; [done..|].
    intros k e ->. by eapply decide_replace_differs.
  - destruct (eo_order_lifetime_bars self); [|done]. ok_inv Hd.
    pose proof (touch_trigger_address _ _ _ _ _ _ Hd) as [? ?]. split_and!; [done..|].
    intros k e ->. by eapply touch_trigger_replace_differs.
Qed.

(** One reconciliation follows the protocol and leaves a state that can be saved. *)
Lemma execute_spec p d s :
  within id (Some d) s -> st_strategy_instance_id d = id -> unmarked d ->
  ps_runtime_state (pi_resolved_state (li_source p)) = d ->
  inside id (execute self p) (settled id d) broke s.
Proof.
  intros Hw Hid [Hpe Hpc] Hp. unfold execute. rewrite Hp. apply inside_bind. plift.
  match goal with Ed : _decide _ _ _ = Ok _ |- _ =>
    apply _decide_spec in Ed as (Haddr & Hfr & Hdiff) end.
  assert (d = with_parts d (st_current_trade_cycle d) None None) as Hd.
  { rewrite <- Hpe, <- Hpc at 1. by rewrite with_parts_same. }
  assert (forall m, (forall c, st_current_trade_cycle d = Some c ->
      pe_trade_cycle_id m = tc_trade_cycle_id c) ->
    part_step (st_current_trade_cycle d) (st_pending_entry_recovery d)
      (st_pending_close_recovery d) (st_current_trade_cycle d) (Some m) None) as Hmark.
  { intros m Hm. rewrite Hpe, Hpc. destruct (st_current_trade_cycle d) as [c|].
    - apply mark_cancel; [|by apply Hm]. simpl in Hfr. by destruct (tc_frozen_entry_context c).
    - apply mark_apply. }
  destruct a as [|e|k|k e].
  - apply inside_ret. exists d. eauto.
  - destruct (st_current_trade_cycle d) as [|] eqn:Hc; [done|].
    apply inside_bind. pworld Hw. rewrite Hd. eapply inside_mono; [|..].
    + eapply (execute_one_spec _ d None); [exact Hw|done|done|]. by rewrite Hc.
    + intros r s2 (d' & Hw' & [[-> ->]|(m & c & -> & -> & Hf & _ & Hv)]);
        (eexists; split; [exact Hw'|split; [done|]]); [by left|right].
      split; [|simpl; congruence].
      eapply durable_parts; [done..|]. by apply entry_acknowledged.
    + done.
  - rewrite Hd at 1. eapply inside_mono.
    + eapply (execute_one_spec _ d (st_current_trade_cycle d)); done.
    + intros r s2 (d' & Hw' & (c & m & Hc & _ & -> & -> & Hv)).
      eexists; split; [exact Hw'|split; [done|]]. right. simpl. split; [|congruence].
      eapply durable_parts; [done..|]. apply attempt_ended.
    + done.
  - apply inside_bind. plift. apply inside_bind.
    match goal with Ec : EntryReconciliationDecision_post_init (Cancel k) = Ok ?x |- _ =>
      apply decision_post_init_Ok in Ec as -> end.
    rewrite Hd at 1. eapply inside_mono; [|clear Hw s|done].
    { eapply (execute_one_spec _ d (st_current_trade_cycle d)); done. }
    intros r s (d' & Hw & (c & m & Hc & <- & -> & -> & Hv)).
    apply inside_bind. plift. apply inside_bind. pworld Hw.
    match goal with Ec : EntryReconciliationDecision_post_init (Apply e) = Ok ?x |- _ =>
      apply decision_post_init_Ok in Ec as -> end.
    rewrite <- (with_parts_twice d (Some c) (Some m) None None None None).
    rewrite Hc in Hfr, Hdiff. simpl in Hfr. apply negb_false_iff in Hfr.
    eapply inside_mono; [|clear Hw|done].
    { eapply (execute_one_spec _ _ None); [exact Hw|done|done|].
      intros m' _. apply mark_replacement. by destruct (tc_frozen_entry_context c). }
    intros r s2 (d2 & Hw & [[-> ->]|(m2 & c2 & -> & -> & Hf & He & Hv2)]);
      (eexists; split; [exact Hw|split; [done|]]); [by left|right].
    split.
    + eapply durable_parts; [done..|]. by apply entry_acknowledged.
    + simpl. rewrite Hc. intros [= ->]. apply (Hdiff _ _ eq_refl). simpl. by rewrite <- He.
Qed.
End protocol.

(** * Properties *)

Section replacement.
Context {R W : Type} `{Repository R} `{!RepositoryLaws R} `{Ports W}.
Context (self : EntryReconciliationOrchestrator).
Implicit Types s : sys R W.

(** ABI answered the removal of the cycle [k] of the aggregate [src] with the absence of
    that entry. *)
Definition removal_answered (src : StrategyInstanceRuntimeState) (k : string) (w : W) : Prop :=
  exists q w' b, port_send q w = (w', Ok (EpAbsent b)) /\
    er_desired_entry q = None /\
    er_strategy_instance_id q = st_strategy_instance_id src /\ er_trade_cycle_id q = k /\
    eb_strategy_instance_id b = st_strategy_instance_id src /\ eb_trade_cycle_id b = k.

(** Events that send no entry. *)
Definition no_entry_sent (evs : list event) : Prop :=
  Forall (fun e => match e with EvSend q => er_desired_entry q = None | _ => True end) evs.

Definition nothing_entered s s' : Prop :=
  exists evs, sys_trace s' = sys_trace s ++ evs /\ no_entry_sent evs.

Lemma nothing_entered_refl s : nothing_entered s s.
Proof. exists []. rewrite app_nil_r. split; [done|constructor]. Qed.

Lemma nothing_entered_events s s' r (w : W) evs :
  nothing_entered s s' -> no_entry_sent evs ->
  nothing_entered s (Sys r w (sys_trace s' ++ evs)).
Proof.
  intros (old & Ht & Hold) Hevs. exists (old ++ evs). simpl. rewrite Ht, <- app_assoc.
  split; [done|by apply Forall_app].
Qed.

Lemma nothing_entered_same s s' r (w : W) :
  nothing_entered s s' -> nothing_entered s (Sys r w (sys_trace s')).
Proof. done. Qed.

Lemma wp_true {A} (m : M R W A) (P : Prop) s : P -> wp m (fun _ _ => P) (fun _ _ => P) s.
Proof. intros HP. unfold wp. by destruct (m s) as [s' []]. Qed.

(** A command that ABI is not ready for enters nothing: its marker is cleared. *)
Lemma not_ready_enters_nothing c pending error s s1 Q :
  nothing_entered s s1 ->
  wp (match exn_cls error with
      | EntryExecutionNotReady => clear_not_ready c pending error
      | _ => lift (Raise error)
      end) Q (fun _ => nothing_entered s) s1.
Proof.
  intros Hs1. destruct (exn_cls error); try by apply wp_lift.
  apply wp_bind, wp_get; [|done]. intros r _. destruct (repo_lookup _ _) as [current|];
    [|by apply wp_throw]. apply wp_if; intros _; [|by apply wp_throw].
  apply wp_bind, wp_lift. destruct (replace_pending_entry_recovery current None); [|done].
  apply wp_bind, wp_save; [|done]. intros r2 _. apply wp_lift.
  apply nothing_entered_events; [done|by constructor].
Qed.

Lemma entry_outcome_absent a c : entry_outcome_of_result a = Ok (OutcomeAbsent c) ->
  exists b, a = EpAbsent b /\ eb_strategy_instance_id b = ab_strategy_instance_id c /\
    eb_trade_cycle_id b = ab_trade_cycle_id c.
Proof.
  destruct a as [a|b|d| | | | |]; simpl; intros Ha; ok_inv Ha.
  unfold EntryAbsentConfirmation_post_init in *. ok_all. by exists b.
Qed.

(** The first leg of a replacement: it sends no entry, and it succeeds only when ABI proved
    the removal. *)
Lemma cancel_leg bar src k s :
  wp (_execute_one self bar src (Cancel k) None)
    (fun _ _ => removal_answered src k (sys_world s)) (fun _ => nothing_entered s) s.
Proof.
  unfold _execute_one. apply wp_bind, wp_lift. pose proof (nothing_entered_refl s) as Hs.
  destruct (build_entry_reconciliation_command src (Cancel k) None) as [[c|]|] eqn:Hb; try done.
  apply build_command_Ok in Hb as (Hi & _ & _ & [(e & [=] & _)|(cyc & [= Hk] & _ & _ & _ & Hn)]).
  subst k. apply wp_bind, wp_lift. destruct (require _ _ _); [|done].
  apply wp_bind, wp_lift. destruct (PendingEntryRecovery_post_init _); [|done].
  apply wp_bind, wp_lift. destruct (replace_pending_entry_recovery _ _) as [marked|] eqn:Hr;
    [|done]. apply replace_state_parts in Hr as [-> _].
  apply wp_bind, wp_save; [|done]. intros r1 _. set (m := with_parts _ _ _ _).
  assert (forall r w, nothing_entered s (Sys r w (sys_trace s ++ [EvSave m]))) as Hs1.
  { intros. apply nothing_entered_events; [done|by constructor]. }
  apply wp_bind, wp_catch. unfold bridge_execute. apply wp_bind, wp_lift.
  destruct (entry_package_request_of c src) as [q|e] eqn:Hq;
    [|by apply not_ready_enters_nothing].
  apply entry_package_request_of_Ok in Hq as (Hqi & Hqk & _ & _ & Hqe). rewrite Hn in Hqe.
  destruct (er_desired_entry q) eqn:Hqn; [done|]. apply wp_bind, wp_catch.
  destruct (port_send q (sys_world s)) as [w [answer|x]] eqn:Hsend;
    (eapply wp_call_at; [exact Hsend|]); simpl.
  all: assert (forall r, nothing_entered s
      (Sys r w ((sys_trace s ++ [EvSave m]) ++ [EvSend q]))) as Hs2
    by (intros r; by eapply (nothing_entered_events s (Sys r w _)); [apply Hs1|constructor]).
  2: { destruct (exn_cls x) eqn:He; try (apply wp_throw, not_ready_enters_nothing, Hs2);
       rewrite <- ?He; apply wp_lift, not_ready_enters_nothing, Hs2. }
  apply wp_lift. destruct (entry_outcome_of_result answer) as [o|x] eqn:Ho;
    [|by apply not_ready_enters_nothing].
  destruct o as [ap|ab|dc].
  - apply wp_bind. unfold _journal_entry_applied.
    assert (forall s1, nothing_entered s s1 -> wp (lift (apply_success_confirmation m
      (Cancel (em_trade_cycle_id c)) c (OutcomeApplied ap)) : M R W _)
      (fun _ _ => removal_answered src (em_trade_cycle_id c) (sys_world s))
      (fun _ => nothing_entered s) s1) as Hend.
    { intros s1 Hs1'. apply wp_lift. destruct (apply_success_confirmation _ _ _ _) eqn:Ha; [|done].
      by apply apply_success_Ok in Ha as (_ & _ & [(? & ? & ? & [=] & _)|(? & ? & ? & _ & [=] & _)]). }
    apply wp_if; intros _; [by apply wp_ret, Hend|]. apply wp_journal, Hend.
    apply (nothing_entered_events s (Sys r1 w _)); [done|].
    destruct (eo_entry_applied_journal self); by repeat constructor.
  - apply wp_lift. destruct (apply_success_confirmation _ _ _ _) eqn:Ha; [|done].
    apply apply_success_Ok in Ha
      as (Hid & _ & [(? & ? & ? & [=] & _)|(k & b & ? & [= <-] & [= <-] & _ & _ & _ & Hbk & _)]).
    apply entry_outcome_absent in Ho as (b & -> & Hb1 & Hb2).
    exists q, w, b. unfold m in Hid. simpl in Hid. split_and!; congruence.
  - unfold _end_declined_apply. apply wp_bind, wp_lift. apply Hs2.
Qed.

(** C23. A replacement is two commands in order: the new entry is sent only after ABI
    answered the removal of the old one with its absence, for this instance and the
    replaced cycle. Until then no entry is sent, so two entries never rest at once. *)
Theorem replacement_waits_for_removal projection k e s s' o evs q :
  let src := ps_runtime_state (pi_resolved_state (li_source projection)) in
  _decide self projection src = Ok (Replace k e) ->
  execute self projection s = (s', o) ->
  sys_trace s' = sys_trace s ++ evs -> EvSend q ∈ evs -> er_desired_entry q <> None ->
  removal_answered src k (sys_world s).
Proof.
  intros src Hdec Hrun Ht Hin Hq.
  assert (wp (execute self projection)
    (fun _ s' => removal_answered src k (sys_world s) \/ nothing_entered s s')
    (fun _ s' => removal_answered src k (sys_world s) \/ nothing_entered s s') s) as Hwp.
  { unfold execute. fold src. rewrite Hdec. apply wp_bind, wp_ret, wp_bind, wp_lift.
    destruct (EntryReconciliationDecision_post_init (Cancel k)) as [d|] eqn:Hd;
      [|right; apply nothing_entered_refl]. apply decision_post_init_Ok in Hd as ->.
    apply wp_bind. eapply wp_mono; [apply cancel_leg| |by right].
    intros a s1 Hrem. eapply wp_mono; [by apply wp_true, Hrem|by left..]. }
  pose proof (wp_run _ _ _ _ _ _ Hwp Hrun) as Hres.
  assert (removal_answered src k (sys_world s) \/ nothing_entered s s') as [?|Hno]
    by (by destruct o); [done|exfalso].
  destruct Hno as (evs' & Ht' & Hno). rewrite Ht in Ht'. apply app_inv_head in Ht' as ->.
  by apply (proj1 (Forall_forall _ _) Hno) in Hin.
Qed.
End replacement.

(** A bar on which the Engine wants another stop than the entry that rests. *)
Definition moved_entry : DesiredEntry :=
  {| de_side := long; de_source_plan_bar_open_time_ms := 600000;
     de_planned_entry_price := "100"; de_initial_stop_price := "95";
     de_initial_take_price := "120"; de_locked_exit_profile := "p" |}.

Definition moved_projection : LiveEntryProjectedStrategyInstance :=
  {| li_source := {| pi_processing_unit := sample_unit;
       pi_resolved_state := {| ps_runtime_state := resting_state; ps_position_open := false;
         ps_first_fill_at_ms := None; ps_average_entry_price := None; ps_closure := None;
         ps_entry_order_link_id := None; ps_entry_order_id := None |} |};
     li_desired_entry := Some moved_entry |}.

Definition sample_entry_orchestrator : EntryReconciliationOrchestrator :=
  {| eo_entry_applied_journal := true; eo_entry_declined_journal := true;
     eo_live_entry_mode := ema_anchor; eo_order_lifetime_bars := None |}.

Definition replacing_world : script :=
  one_bar [] [] [Ok (sample_absent "c1"); Ok (sample_applied "c2")].

Lemma replacement_waits_for_removal_witness : exists q,
  EvSend q ∈ sys_trace (execute sample_entry_orchestrator moved_projection
    (holding resting_state replacing_world)).1 /\
  er_desired_entry q <> None /\
  removal_answered resting_state "c1" replacing_world.
Proof.
  assert (exists q, EvSend q ∈ sys_trace (execute sample_entry_orchestrator moved_projection
    (holding resting_state replacing_world)).1 /\ er_desired_entry q <> None)
    as (q & Hin & Hq).
  { eexists. split; [vm_compute; do 3 right; left|discriminate]. }
  exists q. split; [exact Hin|]. split; [exact Hq|].
  exact (replacement_waits_for_removal sample_entry_orchestrator moved_projection "c1"
    moved_entry (holding resting_state replacing_world) _ _ _ _ eq_refl
    (surjective_pairing _) eq_refl Hin Hq).
Defined.
