(* ===== verification/PositionManagement.v ===== *)
(** Management of an open position: the pure decision
    (runtime/position_management_decision), the commands and the application of their
    confirmations or of a detected closure (runtime/position_management_execution), the
    orchestrator of one decision (runtime/position_management_orchestrator), the bar step
    that cancels an expired entry remainder (runtime/entry_remainder_cancel) and the
    closure journal helper (runtime/trade_cycle_closure/models.py). *)
From S2P Require Import Prelude Errors DecimalText Models Contracts Effects Repository Scripted.
From S2P Require Import FirstFill Protocol ProtocolRules Routing.

(** * The decision *)

Inductive PositionManagementDecision :=
| NoOp
| ApplyProtection (trade_cycle_id : string) (desired_protection : DesiredProtection)
| ClosePosition (trade_cycle_id : string) (close_signal : CloseSignal).

(** The [__post_init__] of the three classes. *)
Definition PositionManagementDecision_post_init (d : PositionManagementDecision) :
    result PositionManagementDecision :=
  match d with
  | NoOp => Ok d
  | ApplyProtection trade_cycle_id _ | ClosePosition trade_cycle_id _ =>
      _ ← require_non_empty_string trade_cycle_id "trade_cycle_id"; Ok d
  end.

Definition resolve_effective_acknowledged_protection (current_trade_cycle : CurrentTradeCycle) :
    result DesiredProtection :=
  match tc_frozen_entry_context current_trade_cycle with
  | None => raise PositionManagementDecisionInvariantError
      "resolving acknowledged protection requires a frozen entry context"
  | Some frozen_entry_context =>
      match tc_latest_confirmed_management_protection current_trade_cycle with
      | Some protection => Ok protection
      | None =>
          let desired_entry := fc_desired_entry frozen_entry_context in
          DesiredProtection_post_init
            {| dp_stop_price := de_initial_stop_price desired_entry;
               dp_take_price := Some (de_initial_take_price desired_entry) |}
      end
  end.

Definition decide_position_management (recipe : PositionManagementRecipe)
    (current_trade_cycle : option CurrentTradeCycle) : result PositionManagementDecision :=
  match current_trade_cycle with
  | None => raise PositionManagementDecisionInvariantError
      "position-management decision requires an existing current trade cycle"
  | Some cycle =>
      _ ← require (is_some (tc_frozen_entry_context cycle))
        PositionManagementDecisionInvariantError
        "position-management decision requires a frozen entry context";
      if cs_active (pr_close_signal recipe) then
        PositionManagementDecision_post_init
          (ClosePosition (tc_trade_cycle_id cycle) (pr_close_signal recipe))
      else
        effective_protection ← resolve_effective_acknowledged_protection cycle;
        if bool_decide (pr_desired_protection recipe = effective_protection) then Ok NoOp
        else PositionManagementDecision_post_init
          (ApplyProtection (tc_trade_cycle_id cycle) (pr_desired_protection recipe))
  end.

(** * Commands (command_builder.py) *)

Inductive PositionManagementExecutionCommand :=
| CommandApplyProtection (c : ApplyProtectionCommand)
| CommandClosePosition (c : ClosePositionCommand).

Definition _require_decided_cycle (state : StrategyInstanceRuntimeState)
    (decision_trade_cycle_id action : string) : result unit :=
  match st_current_trade_cycle state with
  | None => raise PositionManagementExecutionInvariantError
      (action +:+ " requires an acknowledged current trade cycle")
  | Some current_cycle =>
      require (bool_decide (tc_trade_cycle_id current_cycle = decision_trade_cycle_id))
        PositionManagementExecutionInvariantError
        (action +:+ " trade_cycle_id does not match current trade cycle")
  end.

Definition build_position_management_command (state : StrategyInstanceRuntimeState)
    (decision : PositionManagementDecision) :
    result (option PositionManagementExecutionCommand) :=
  match decision with
  | NoOp => Ok None
  | ApplyProtection trade_cycle_id desired_protection =>
      _ ← _require_decided_cycle state trade_cycle_id "APPLY_PROTECTION";
      command ← ApplyProtectionCommand_post_init
        {| apc_strategy_instance_id := st_strategy_instance_id state;
           apc_trade_cycle_id := trade_cycle_id;
           apc_desired_protection := desired_protection |};
      Ok (Some (CommandApplyProtection command))
  | ClosePosition trade_cycle_id _ =>
      _ ← _require_decided_cycle state trade_cycle_id "CLOSE_POSITION";
      command ← ClosePositionCommand_post_init
        {| cpc_strategy_instance_id := st_strategy_instance_id state;
           cpc_trade_cycle_id := trade_cycle_id;
           cpc_exposure_fraction := CANONICAL_CLOSE_EXPOSURE_FRACTION |};
      Ok (Some (CommandClosePosition command))
  end.

(** * Application of confirmations (state_applier.py) *)

Inductive PositionManagementExecutionConfirmation :=
| ConfirmedProtection (c : ProtectionAppliedConfirmation)
| ConfirmedClose (c : PositionClosedConfirmation).

Definition command_strategy_instance_id (c : PositionManagementExecutionCommand) : string :=
  match c with
  | CommandApplyProtection c => apc_strategy_instance_id c
  | CommandClosePosition c => cpc_strategy_instance_id c
  end.

Definition confirmation_strategy_instance_id (c : PositionManagementExecutionConfirmation) :
    string :=
  match c with
  | ConfirmedProtection c => pac_strategy_instance_id c
  | ConfirmedClose c => pcc_strategy_instance_id c
  end.

Definition _require_common_identity (state : StrategyInstanceRuntimeState)
    (sent_command : PositionManagementExecutionCommand)
    (confirmation : PositionManagementExecutionConfirmation) : result unit :=
  _ ← require (bool_decide (command_strategy_instance_id sent_command =
                            st_strategy_instance_id state))
    PositionManagementExecutionInvariantError
    "sent command strategy_instance_id does not match source state";
  require (bool_decide (confirmation_strategy_instance_id confirmation =
                        st_strategy_instance_id state))
    PositionManagementExecutionInvariantError
    "confirmation strategy_instance_id does not match source state".

Definition _require_current_cycle (state : StrategyInstanceRuntimeState) (action : string) :
    result CurrentTradeCycle :=
  match st_current_trade_cycle state with
  | None => raise PositionManagementExecutionInvariantError
      (action +:+ " requires an acknowledged current trade cycle")
  | Some current_cycle => Ok current_cycle
  end.

Definition _require_cycle_identity (expected actual : string) : result unit :=
  require (bool_decide (expected = actual)) PositionManagementExecutionInvariantError
    "trade_cycle_id does not match expected trade cycle".

Definition _require_matching_protection
    (decision_desired_protection sent_desired_protection confirmed_protection :
       DesiredProtection) : result unit :=
  require (bool_decide (sent_desired_protection = decision_desired_protection)
           && bool_decide (confirmed_protection = decision_desired_protection))
    PositionManagementExecutionInvariantError
    "confirmed protection does not match the position-management decision".

(** [replace(cycle, latest_confirmed_management_protection=protection)] *)
Definition replace_confirmed_protection (c : CurrentTradeCycle)
    (protection : option DesiredProtection) : result CurrentTradeCycle :=
  CurrentTradeCycle_post_init
    {| tc_trade_cycle_id := tc_trade_cycle_id c;
       tc_applied_entry_package := tc_applied_entry_package c;
       tc_frozen_entry_context := tc_frozen_entry_context c;
       tc_latest_confirmed_management_protection := protection;
       tc_entry_remainder_cancelled := tc_entry_remainder_cancelled c |}.

(** [replace(cycle, entry_remainder_cancelled=flag)] *)
Definition replace_remainder_cancelled (c : CurrentTradeCycle) (flag : bool) :
    result CurrentTradeCycle :=
  CurrentTradeCycle_post_init
    {| tc_trade_cycle_id := tc_trade_cycle_id c;
       tc_applied_entry_package := tc_applied_entry_package c;
       tc_frozen_entry_context := tc_frozen_entry_context c;
       tc_latest_confirmed_management_protection :=
         tc_latest_confirmed_management_protection c;
       tc_entry_remainder_cancelled := flag |}.

Definition _apply_protection (state : StrategyInstanceRuntimeState) (trade_cycle_id : string)
    (desired_protection : DesiredProtection)
    (sent_command : PositionManagementExecutionCommand)
    (confirmation : PositionManagementExecutionConfirmation) :
    result StrategyInstanceRuntimeState :=
  current_cycle ← _require_current_cycle state "APPLY_PROTECTION";
  match sent_command with
  | CommandApplyProtection sent =>
      match confirmation with
      | ConfirmedProtection confirmed =>
          _ ← _require_cycle_identity (tc_trade_cycle_id current_cycle) trade_cycle_id;
          _ ← _require_cycle_identity trade_cycle_id (apc_trade_cycle_id sent);
          _ ← _require_cycle_identity (apc_trade_cycle_id sent) (pac_trade_cycle_id confirmed);
          _ ← _require_matching_protection desired_protection (apc_desired_protection sent)
            (pac_confirmed_protection confirmed);
          cycle ← replace_confirmed_protection current_cycle
            (Some (pac_confirmed_protection confirmed));
          replace_current_trade_cycle state (Some cycle)
      | _ => raise PositionManagementExecutionInvariantError
          "APPLY_PROTECTION requires ProtectionAppliedConfirmation"
      end
  | _ => raise PositionManagementExecutionInvariantError
      "APPLY_PROTECTION requires ApplyProtectionCommand"
  end.

Definition _close_position (state : StrategyInstanceRuntimeState) (trade_cycle_id : string)
    (sent_command : PositionManagementExecutionCommand)
    (confirmation : PositionManagementExecutionConfirmation) :
    result StrategyInstanceRuntimeState :=
  current_cycle ← _require_current_cycle state "CLOSE_POSITION";
  match sent_command with
  | CommandClosePosition sent =>
      match confirmation with
      | ConfirmedClose confirmed =>
          _ ← _require_cycle_identity (tc_trade_cycle_id current_cycle) trade_cycle_id;
          _ ← _require_cycle_identity trade_cycle_id (cpc_trade_cycle_id sent);
          _ ← _require_cycle_identity (cpc_trade_cycle_id sent) (pcc_trade_cycle_id confirmed);
          clear_cycle_and_close_recovery state
      | _ => raise PositionManagementExecutionInvariantError
          "CLOSE_POSITION requires PositionClosedConfirmation"
      end
  | _ => raise PositionManagementExecutionInvariantError
      "CLOSE_POSITION requires ClosePositionCommand"
  end.

(** [decision] is APPLY_PROTECTION or CLOSE_POSITION, or the call is refused
    ([_require_input_types]). *)
Definition apply_position_management_confirmation (state : StrategyInstanceRuntimeState)
    (decision : PositionManagementDecision)
    (sent_command : PositionManagementExecutionCommand)
    (confirmation : PositionManagementExecutionConfirmation) :
    result StrategyInstanceRuntimeState :=
  _ ← require (match decision with NoOp => false | _ => true end)
    PositionManagementExecutionInvariantError
    "confirmation application requires APPLY_PROTECTION or CLOSE_POSITION";
  _ ← _require_common_identity state sent_command confirmation;
  match decision with
  | ApplyProtection trade_cycle_id desired_protection =>
      _apply_protection state trade_cycle_id desired_protection sent_command confirmation
  | ClosePosition trade_cycle_id _ =>
      _close_position state trade_cycle_id sent_command confirmation
  | NoOp => raise PositionManagementExecutionInvariantError
      "confirmation application requires APPLY_PROTECTION or CLOSE_POSITION"
  end.

Definition apply_detected_trade_cycle_closure (state : StrategyInstanceRuntimeState)
    (closure : TradeCycleClosure) : result StrategyInstanceRuntimeState :=
  current_cycle ← _require_current_cycle state "TRADE_CYCLE_CLOSURE";
  _ ← require (bool_decide (cl_strategy_instance_id closure = st_strategy_instance_id state))
    PositionManagementExecutionInvariantError
    "closure strategy_instance_id does not match source state";
  _ ← _require_cycle_identity (tc_trade_cycle_id current_cycle) (cl_trade_cycle_id closure);
  clear_cycle_and_close_recovery state.

(** * Journals *)

Definition journal_trade_cycle_closed {R W} (present : bool) (closure : TradeCycleClosure)
    (bar_open_time_ms : option Z) : M R W unit :=
  journal present (trade_cycle_closed (cl_strategy_instance_id closure)
    (cl_trade_cycle_id closure) bar_open_time_ms (cl_reason closure) (cl_order_id closure)
    (cl_order_link_id closure) (cl_parent_order_link_id closure)).

(** * The orchestrator *)

Section orchestrator.
Context {R W : Type} `{Repository R} `{Ports W}.
(** whether [protection_applied_journal] is configured *)
Context (protection_applied_journal : bool).

Definition _journal_protection_applied (command : ApplyProtectionCommand)
    (confirmation : ProtectionAppliedConfirmation) (bar_open_time_ms : Z) : M R W unit :=
  let orders := pac_protection_orders confirmation in
  journal protection_applied_journal
    (protection_applied (pac_strategy_instance_id confirmation)
       (pac_trade_cycle_id confirmation) bar_open_time_ms
       (apc_desired_protection command) (pac_confirmed_protection confirmation)
       (pos_quantity orders) (pos_stop orders) (pos_take orders)).

Definition execute_with_closure (projection : OpenTradeProjectedStrategyInstance) :
    M R W (StrategyInstanceRuntimeState * option TradeCycleClosure) :=
  let source_state := ps_runtime_state (pi_resolved_state (oi_source projection)) in
  decision ← lift (decide_position_management (oi_position_management_recipe projection)
                     (st_current_trade_cycle source_state));
  match decision with
  | NoOp => mret (source_state, None)
  | _ =>
      command ← lift (build_position_management_command source_state decision);
      match decision, command with
      | ApplyProtection _ _, Some (CommandApplyProtection command) =>
          protection_confirmation ← apply_protection command;
          _ ← _journal_protection_applied command protection_confirmation
            (cb_open_time_ms (pu_committed_bar (pi_processing_unit (oi_source projection))));
          state ← lift (apply_position_management_confirmation source_state decision
            (CommandApplyProtection command) (ConfirmedProtection protection_confirmation));
          mret (state, None)
      | ClosePosition _ _, Some (CommandClosePosition command) =>
          marker ← lift (PendingCloseRecovery_post_init
            {| pc_trade_cycle_id := cpc_trade_cycle_id command |});
          marked ← lift (replace_pending_close_recovery source_state (Some marker));
          pending_state ← save marked;
          close_confirmation ← close_position command;
          state ← lift (apply_position_management_confirmation pending_state decision
            (CommandClosePosition command) (ConfirmedClose close_confirmation));
          mret (state, pcc_closure close_confirmation)
      | ApplyProtection _ _, _ => throw PositionManagementExecutionInvariantError
          "APPLY_PROTECTION must produce an ApplyProtectionCommand"
      | ClosePosition _ _, _ => throw PositionManagementExecutionInvariantError
          "CLOSE_POSITION must produce a ClosePositionCommand"
      | NoOp, _ => throw PositionManagementExecutionInvariantError
          "unknown command-bearing position-management decision"
      end
  end.

(** entry_remainder_cancel/step.py *)
Definition cancel_expired_entry_remainder (journal_present : bool)
    (state : StrategyInstanceRuntimeState) (bar_open_time_ms : Z) :
    M R W StrategyInstanceRuntimeState :=
  match st_current_trade_cycle state with
  | None => mret state
  | Some cycle =>
      if tc_entry_remainder_cancelled cycle then mret state
      else
        match tc_frozen_entry_context cycle with
        | None => mret state
        | Some frozen_context =>
            match fc_entry_order_expires_at_bar frozen_context with
            | None => mret state
            | Some expires_at_bar =>
                timeframe_ms ← lift (timeframe_duration_ms
                  (rs_base_timeframe (st_registered_spec_snapshot state)));
                if negb (is_entry_order_expired bar_open_time_ms timeframe_ms expires_at_bar)
                then mret state
                else
                  outcome ← catch
                    (confirmation ← cancel_entry_remainder (st_strategy_instance_id state)
                       (tc_trade_cycle_id cycle);
                     marked_cycle ← lift (replace_remainder_cancelled cycle true);
                     marked ← lift (replace_current_trade_cycle state (Some marked_cycle));
                     saved_state ← save marked;
                     mret (inl (confirmation, saved_state)))
                    (fun exc => mret (inr exc));
                  match outcome with
                  | inr exc =>
                      _ ← journal journal_present (entry_remainder_cancel_failed
                        (st_strategy_instance_id state) (tc_trade_cycle_id cycle)
                        bar_open_time_ms (class_name (exn_cls exc)));
                      mret state
                  | inl (confirmation, saved_state) =>
                      _ ← journal journal_present (entry_remainder_cancelled
                        (st_strategy_instance_id state) (tc_trade_cycle_id cycle)
                        bar_open_time_ms (rcc_status confirmation)
                        (rcc_executed_quantity confirmation));
                      mret saved_state
                  end
            end
        end
  end.
End orchestrator.

(** * Lemmas *)

Lemma close_marker_post_init_Ok m m' : PendingCloseRecovery_post_init m = Ok m' -> m' = m.
Proof. unfold PendingCloseRecovery_post_init. intros Hm. by ok_inv Hm. Qed.

Lemma protection_command_post_init_Ok c c' : ApplyProtectionCommand_post_init c = Ok c' -> c' = c.
Proof. unfold ApplyProtectionCommand_post_init. intros Hc. by ok_inv Hc. Qed.

Lemma close_command_post_init_Ok c c' : ClosePositionCommand_post_init c = Ok c' -> c' = c.
Proof. unfold ClosePositionCommand_post_init. intros Hc. by ok_inv Hc. Qed.

Lemma pm_decision_post_init_Ok d d' : PositionManagementDecision_post_init d = Ok d' -> d' = d.
Proof. destruct d; simpl; intros Hd; by ok_inv Hd. Qed.

#[global] Arguments PositionManagementDecision_post_init : simpl never.

Lemma cycle_post_init_Ok c c' : CurrentTradeCycle_post_init c = Ok c' -> c' = c.
Proof. unfold CurrentTradeCycle_post_init. intros Hc. by ok_inv Hc. Qed.

(** The decision on a frozen cycle, and what it is about. *)
Lemma decide_position_management_Ok recipe cyc d :
  decide_position_management recipe cyc = Ok d ->
  exists c, cyc = Some c /\ frozen c /\
    match d with
    | NoOp => cs_active (pr_close_signal recipe) = false /\
        resolve_effective_acknowledged_protection c = Ok (pr_desired_protection recipe)
    | ApplyProtection k p =>
        cs_active (pr_close_signal recipe) = false /\ k = tc_trade_cycle_id c /\
        p = pr_desired_protection recipe /\
        resolve_effective_acknowledged_protection c <> Ok p
    | ClosePosition k sig =>
        cs_active (pr_close_signal recipe) = true /\ k = tc_trade_cycle_id c /\
        sig = pr_close_signal recipe
    end.
Proof.
  unfold decide_position_management. destruct cyc as [c|]; [|done]. intros Hd. ok_inv Hd.
  exists c. rewrite require_Ok in Hok. split_and!; [done| |].
  { unfold frozen. by destruct (tc_frozen_entry_context c). }
  destruct (cs_active (pr_close_signal recipe)).
  - apply pm_decision_post_init_Ok in Hd as ->. done.
  - apply result_bind_Ok in Hd as (p & Hp & Hd). case_bool_decide as Heq.
    + injection Hd as <-. split; [done|congruence].
    + apply pm_decision_post_init_Ok in Hd as ->. split_and!; [done..|congruence].
Qed.

Lemma build_management_command_Ok s d c :
  build_position_management_command s d = Ok (Some c) ->
  exists cycle, st_current_trade_cycle s = Some cycle /\
  match d, c with
  | ApplyProtection k p, CommandApplyProtection c =>
      k = tc_trade_cycle_id cycle /\
      c = {| apc_strategy_instance_id := st_strategy_instance_id s;
             apc_trade_cycle_id := k; apc_desired_protection := p |}
  | ClosePosition k _, CommandClosePosition c =>
      k = tc_trade_cycle_id cycle /\
      c = {| cpc_strategy_instance_id := st_strategy_instance_id s;
             cpc_trade_cycle_id := k;
             cpc_exposure_fraction := CANONICAL_CLOSE_EXPOSURE_FRACTION |}
  | _, _ => False
  end.
Proof.
  unfold build_position_management_command, _require_decided_cycle.
  destruct d as [|k p|k sig]; intros Hb; ok_inv Hb;
    (destruct (st_current_trade_cycle s) as [cycle|] eqn:Hc; [|done]); exists cycle;
    rewrite require_Ok, bool_decide_eq_true in Hok.
  - apply protection_command_post_init_Ok in Hok0 as ->. done.
  - apply close_command_post_init_Ok in Hok0 as ->. done.
Qed.

(** What a confirmation does to the aggregate. *)
Lemma management_confirmation_Ok s d c o s' :
  apply_position_management_confirmation s d c o = Ok s' ->
  exists cycle, st_current_trade_cycle s = Some cycle /\ valid_state s' /\
  confirmation_strategy_instance_id o = st_strategy_instance_id s /\
  match d with
  | NoOp => False
  | ApplyProtection k p => exists sent confirmed,
      c = CommandApplyProtection sent /\ o = ConfirmedProtection confirmed /\
      k = tc_trade_cycle_id cycle /\ apc_trade_cycle_id sent = k /\
      pac_trade_cycle_id confirmed = k /\
      apc_desired_protection sent = p /\ pac_confirmed_protection confirmed = p /\
      s' = with_parts s (Some
             {| tc_trade_cycle_id := tc_trade_cycle_id cycle;
                tc_applied_entry_package := tc_applied_entry_package cycle;
                tc_frozen_entry_context := tc_frozen_entry_context cycle;
                tc_latest_confirmed_management_protection := Some p;
                tc_entry_remainder_cancelled := tc_entry_remainder_cancelled cycle |})
             (st_pending_entry_recovery s) (st_pending_close_recovery s)
  | ClosePosition k _ => exists sent confirmed,
      c = CommandClosePosition sent /\ o = ConfirmedClose confirmed /\
      k = tc_trade_cycle_id cycle /\ cpc_trade_cycle_id sent = k /\
      pcc_trade_cycle_id confirmed = k /\
      s' = with_parts s None (st_pending_entry_recovery s) None
  end.
Proof.
  unfold apply_position_management_confirmation, _require_common_identity. intros Ha.
  apply result_bind_Ok in Ha as (? & Hd & Ha). apply result_bind_Ok in Ha as (? & Hi & Ha).
  apply result_bind_Ok in Hi as (? & Hi1 & Hi2).
  rewrite require_Ok, bool_decide_eq_true in Hi1, Hi2.
  destruct d as [|k p|k sig]; [done|..].
  - unfold _apply_protection, _require_current_cycle, _require_cycle_identity,
      _require_matching_protection, replace_confirmed_protection, replace_current_trade_cycle
      in Ha.
    destruct (st_current_trade_cycle s) as [cycle|]; [|done]. exists cycle. simpl in Ha.
    destruct c as [sent|]; [|done]. destruct o as [confirmed|]; [|done].
    repeat match goal with
      | X : _ ≫= _ = Ok _ |- _ => apply result_bind_Ok in X as (? & ? & X) end.
    repeat match goal with
      | X : require _ _ _ = Ok _ |- _ => apply require_Ok in X
      | X : _ && _ = true |- _ => apply andb_true_iff in X as [? ?]
      | X : bool_decide _ = true |- _ => apply bool_decide_eq_true in X
      | X : CurrentTradeCycle_post_init _ = Ok _ |- _ => apply cycle_post_init_Ok in X
      end.
    apply replace_state_parts in Ha as [-> Hv]. subst.
    split_and!; [done..|]. exists sent, confirmed. split_and!; try done; congruence.
  - unfold _close_position, _require_current_cycle, _require_cycle_identity,
      clear_cycle_and_close_recovery in Ha.
    destruct (st_current_trade_cycle s) as [cycle|]; [|done]. exists cycle. simpl in Ha.
    destruct c as [|sent]; [done|]. destruct o as [|confirmed]; [done|].
    repeat match goal with
      | X : _ ≫= _ = Ok _ |- _ => apply result_bind_Ok in X as (? & ? & X) end.
    repeat match goal with
      | X : require _ _ _ = Ok _ |- _ => apply require_Ok in X
      | X : bool_decide _ = true |- _ => apply bool_decide_eq_true in X
      end.
    apply replace_state_parts in Ha as [-> Hv].
    split_and!; [done..|]. exists sent, confirmed. split_and!; try done; congruence.
Qed.

Lemma detected_closure_Ok s cl s' :
  apply_detected_trade_cycle_closure s cl = Ok s' ->
  exists cycle, st_current_trade_cycle s = Some cycle /\
    cl_strategy_instance_id cl = st_strategy_instance_id s /\
    cl_trade_cycle_id cl = tc_trade_cycle_id cycle /\
    s' = with_parts s None (st_pending_entry_recovery s) None /\ valid_state s'.
Proof.
  unfold apply_detected_trade_cycle_closure, _require_current_cycle, _require_cycle_identity,
    clear_cycle_and_close_recovery.
  destruct (st_current_trade_cycle s) as [cycle|]; [|done]. simpl. intros Hc.
  apply result_bind_Ok in Hc as (? & Hi & Hc). apply result_bind_Ok in Hc as (? & Hk & Hc).
  rewrite require_Ok, bool_decide_eq_true in Hi, Hk.
  apply replace_state_parts in Hc as [-> Hv]. exists cycle. done.
Qed.

Lemma confirmed_protection_differs c p :
  frozen c -> resolve_effective_acknowledged_protection c <> Ok p ->
  tc_latest_confirmed_management_protection c <> Some p.
Proof.
  unfold frozen, resolve_effective_acknowledged_protection.
  destruct (tc_frozen_entry_context c); [|done]. intros _ Hp Heq. by rewrite Heq in Hp.
Qed.

Section protocol.
Context {R W : Type} `{Repository R} `{!RepositoryLaws R} `{Ports W}.
Context (id : string).
Implicit Types s : sys R W.

(** One management decision follows the protocol and leaves a state that can be saved. *)
Lemma execute_with_closure_spec b p d s :
  within id (Some d) s -> st_strategy_instance_id d = id -> unmarked d ->
  ps_runtime_state (pi_resolved_state (oi_source p)) = d ->
  inside id (execute_with_closure b p)
    (fun r s' => settled id d r.1 s') broke s.
Proof.
  intros Hw Hid [Hpe Hpc] Hp. unfold execute_with_closure. rewrite Hp. apply inside_bind. plift.
  match goal with Ed : decide_position_management _ _ = Ok _ |- _ =>
    apply decide_position_management_Ok in Ed as (c & Hc & Hf & Hd) end.
  destruct a as [|k prot|k sig].
  - apply inside_ret. exists d. simpl. eauto.
  - apply inside_bind. plift. destruct Hd as (_ & -> & -> & Hdiff).
    destruct a as [cmd|]; [|apply inside_throw; runs_done].
    match goal with Eb : build_position_management_command _ _ = Ok _ |- _ =>
      apply build_management_command_Ok in Eb as (c' & Hc' & Hb) end.
    destruct cmd as [cmd|cmd]; [|done]. destruct Hb as [_ ->].
    apply inside_bind. pcall Hw; [by exists d, c|].
    apply inside_bind. unfold _journal_protection_applied. pjournal Hw.
    apply inside_bind. plift. apply inside_ret.
    match goal with Ea : apply_position_management_confirmation _ _ _ _ = Ok _ |- _ =>
      apply management_confirmation_Ok in Ea
        as (c2 & Hc2 & Hv & _ & sent & conf & _ & _ & _ & _ & _ & _ & _ & ->) end.
    rewrite Hc in Hc2. injection Hc2 as <-. rewrite Hpe, Hpc in *.
    exists d. split; [exact Hw|]. split; [done|]. right. split.
    + eapply durable_parts; [done..|]. rewrite Hc, Hpe, Hpc. apply managed.
      split_and!; done.
    + simpl. rewrite Hc. intros [= Heq].
      apply (confirmed_protection_differs _ _ Hf Hdiff). by rewrite <- Heq.
  - apply inside_bind. plift. destruct Hd as (_ & -> & ->).
    destruct a as [cmd|]; [|apply inside_throw; runs_done].
    match goal with Eb : build_position_management_command _ _ = Ok _ |- _ =>
      apply build_management_command_Ok in Eb as (c' & Hc' & Hb) end.
    destruct cmd as [cmd|cmd]; [done|]. destruct Hb as [_ ->]. simpl.
    apply inside_bind. plift.
    match goal with Em : PendingCloseRecovery_post_init _ = Ok _ |- _ =>
      apply close_marker_post_init_Ok in Em as -> end.
    apply inside_bind. plift. unfold replace_pending_close_recovery in *.
    match goal with Er : replace_state _ _ _ _ = Ok _ |- _ =>
      apply replace_state_parts in Er as [-> Hv] end.
    rewrite Hpe, Hc in *. apply inside_bind. psave Hw.
    { eapply durable_parts; [done..|]. rewrite Hc, Hpe, Hpc. by apply mark_close. }
    apply inside_bind. pcall Hw; [by eexists|]. apply inside_bind. plift. apply inside_ret.
    match goal with Ea : apply_position_management_confirmation _ _ _ _ = Ok _ |- _ =>
      apply management_confirmation_Ok in Ea
        as (c2 & Hc2 & Hv2 & _ & sent & conf & _ & _ & _ & _ & _ & ->) end.
    eexists. split; [exact Hw|]. split; [done|]. right. split.
    + eapply durable_parts; [done..|]. apply close_confirmed.
    + simpl. congruence.
Qed.

(** The remainder of an expired entry is cancelled at most once per frozen cycle, and the
    bar goes on with the stored aggregate whatever the outcome. *)
Lemma cancel_expired_spec b d bar s :
  within id (Some d) s -> st_strategy_instance_id d = id -> unmarked d ->
  inside id (cancel_expired_entry_remainder b d bar)
    (fun r s' => within id (Some r) s' /\ st_strategy_instance_id r = id /\ unmarked r)
    broke s.
Proof.
  intros Hw Hid [Hpe Hpc]. unfold cancel_expired_entry_remainder.
  destruct (st_current_trade_cycle d) as [c|] eqn:Hc; [|by apply inside_ret].
  apply inside_if; intros Hflag; [by apply inside_ret|].
  destruct (tc_frozen_entry_context c) as [f|] eqn:Hf; [|by apply inside_ret].
  destruct (fc_entry_order_expires_at_bar f) as [e|] eqn:He; [|by apply inside_ret].
  apply inside_bind. plift. apply inside_if; intros _; [by apply inside_ret|].
  apply inside_bind, inside_catch. apply inside_bind.
  assert (forall exc s', within id (Some d) s' ->
    inside id (mret (inr exc) : M R W (EntryRemainderCancelConfirmation *
          StrategyInstanceRuntimeState + exn))
      (fun o s' => inside id match o with
           | inl (confirmation, saved_state) =>
               _ ← journal b (entry_remainder_cancelled (st_strategy_instance_id d)
                 (tc_trade_cycle_id c) bar (rcc_status confirmation)
                 (rcc_executed_quantity confirmation));
               mret saved_state
           | inr exc =>
               _ ← journal b (entry_remainder_cancel_failed (st_strategy_instance_id d)
                 (tc_trade_cycle_id c) bar (class_name (exn_cls exc)));
               mret d
           end
         (fun r s' => within id (Some r) s' /\ st_strategy_instance_id r = id /\
            unmarked r) broke s') broke s') as Hfail.
  { intros exc s' Hs'. apply inside_ret, inside_bind. pjournal Hs'. apply inside_ret.
    split_and!; done. }
  pcall Hw; [exists d, c, f; split_and!; try done; congruence| |by apply Hfail].
  apply inside_bind, inside_lift. destruct (replace_remainder_cancelled c true) as [c'|] eqn:Hc';
    [|by apply Hfail].
  unfold replace_remainder_cancelled in Hc'. apply cycle_post_init_Ok in Hc' as ->.
  apply inside_bind, inside_lift. unfold replace_current_trade_cycle.
  destruct (replace_state _ _ _ _) as [d'|] eqn:Hd'; [|by apply Hfail].
  apply replace_state_parts in Hd' as [-> Hv]. rewrite Hpe, Hpc in *.
  apply inside_bind. eapply inside_save; [exact Hw|done| | |].
  - eapply durable_parts; [done..|]. rewrite Hc, Hpe, Hpc. apply managed.
    split_and!; try done. unfold frozen. congruence.
  - clear Hw. intros s1 Hw. apply inside_ret, inside_bind. pjournal Hw. apply inside_ret.
    split_and!; done.
  - intros s1 e1 Hw1. by apply Hfail.
Qed.
End protocol.

(** * Properties *)

(** The protection that ABI acknowledged last: the last one position management confirmed,
    else the one the entry was sent with. *)
Definition acknowledged (c : CurrentTradeCycle) (p : DesiredProtection) : Prop :=
  match tc_latest_confirmed_management_protection c with
  | Some q => p = q
  | None => exists f, tc_frozen_entry_context c = Some f /\
      DesiredProtection_post_init
        {| dp_stop_price := de_initial_stop_price (fc_desired_entry f);
           dp_take_price := Some (de_initial_take_price (fc_desired_entry f)) |} = Ok p
  end.

Lemma acknowledged_resolves c p :
  frozen c -> resolve_effective_acknowledged_protection c = Ok p <-> acknowledged c p.
Proof.
  unfold frozen, acknowledged, resolve_effective_acknowledged_protection.
  destruct (tc_frozen_entry_context c) as [f|]; [|done]. intros _.
  destruct (tc_latest_confirmed_management_protection c); naive_solver.
Qed.

(** C26. The position-management decision exists on every frozen cycle with a valid
    acknowledged protection, and is the right one: an active close signal closes the
    position whatever the protection says; otherwise a protection is applied exactly when
    the recipe differs from what ABI acknowledged last; and it always names the current
    cycle. Without a cycle, or before the fill is frozen, it is refused. *)
Theorem decide_position_management_correct recipe c p :
  frozen c -> tc_trade_cycle_id c <> EmptyString -> acknowledged c p ->
  (exists d, decide_position_management recipe (Some c) = Ok d /\
    match d with
    | ClosePosition k signal => cs_active (pr_close_signal recipe) = true /\
        k = tc_trade_cycle_id c /\ signal = pr_close_signal recipe
    | ApplyProtection k q => cs_active (pr_close_signal recipe) = false /\
        k = tc_trade_cycle_id c /\ q = pr_desired_protection recipe /\ q <> p
    | NoOp => cs_active (pr_close_signal recipe) = false /\ pr_desired_protection recipe = p
    end) /\
  is_ok (decide_position_management recipe None) = false /\
  forall c', tc_frozen_entry_context c' = None ->
    is_ok (decide_position_management recipe (Some c')) = false.
Proof.
  intros Hf Hne Hack. apply acknowledged_resolves in Hack; [|done]. split_and!; [|done|].
  - assert (exists d, decide_position_management recipe (Some c) = Ok d) as [d Hd].
    { unfold decide_position_management, PositionManagementDecision_post_init.
      unfold frozen in Hf.
      destruct (tc_frozen_entry_context c); [|done]. simpl.
      rewrite Hack. destruct (cs_active _); simpl;
        [|destruct (bool_decide _); [by eexists|]; simpl]; rewrite require_non_empty_true by done;
        by eexists. }
    exists d. split; [done|]. apply decide_position_management_Ok in Hd as (c' & [= <-] & _ & Hd).
    destruct d; [naive_solver congruence|naive_solver congruence|done].
  - intros c' Hc'. unfold decide_position_management. by rewrite Hc'.
Qed.

Definition example_recipe (stop : string) : PositionManagementRecipe :=
  {| pr_desired_protection := {| dp_stop_price := stop; dp_take_price := Some "120" |};
     pr_close_signal := {| cs_active := false; cs_reason := None; cs_component_id := None;
                           cs_layer := None |};
     pr_diagnostics := [];
     pr_engine_desired_protection_text :=
       {| et_stop_price := stop; et_take_price := Some "120" |} |}.

Lemma decide_position_management_correct_witness :
  exists d, decide_position_management (example_recipe "95")
              (Some (sample_cycle (Some sample_frozen))) = Ok d /\
    match d with
    | ClosePosition k signal => False
    | ApplyProtection k q => k = "c1" /\ q = {| dp_stop_price := "95"; dp_take_price := Some "120" |}
    | NoOp => False
    end.
Proof.
  destruct (decide_position_management_correct (example_recipe "95")
    (sample_cycle (Some sample_frozen)) {| dp_stop_price := "90"; dp_take_price := Some "120" |})
    as [(d & Hd & Hcase) _]; [discriminate|discriminate| |].
  - exists sample_frozen. split; [reflexivity|]. vm_compute. reflexivity.
  - exists d. split; [exact Hd|]. destruct d; simpl in Hcase;
      [destruct Hcase as [_ [=]]|naive_solver|destruct Hcase as [[=] _]].
Defined.

Definition example_protection_command : ApplyProtectionCommand :=
  {| apc_strategy_instance_id := "i1"; apc_trade_cycle_id := "c1";
     apc_desired_protection := {| dp_stop_price := "95"; dp_take_price := Some "120" |} |}.

Definition example_protection_confirmation : ProtectionAppliedConfirmation :=
  {| pac_strategy_instance_id := "i1"; pac_trade_cycle_id := "c1";
     pac_confirmed_protection := {| dp_stop_price := "95"; dp_take_price := Some "120" |};
     pac_protection_orders :=
       {| pos_quantity := "2";
          pos_stop := {| pro_order_id := "sl"; pro_trigger_price := "95" |};
          pos_take := {| pro_order_id := "tp"; pro_trigger_price := "120" |} |} |}.

(** A confirmation changes the aggregate only when it answers the command that
    carries the decision, for this instance and the current cycle: a confirmed protection
    is recorded exactly as decided, sent and confirmed, a confirmed close ends the cycle
    and its close marker; nothing else of the aggregate changes and its invariant holds. *)
Theorem management_confirmation_sound s d cmd o s' :
  build_position_management_command s d = Ok (Some cmd) ->
  apply_position_management_confirmation s d cmd o = Ok s' ->
  exists cycle, st_current_trade_cycle s = Some cycle /\ valid_state s' /\
    confirmation_strategy_instance_id o = st_strategy_instance_id s /\
    match d, o with
    | ApplyProtection k p, ConfirmedProtection confirmed =>
        k = tc_trade_cycle_id cycle /\
        cmd = CommandApplyProtection
          {| apc_strategy_instance_id := st_strategy_instance_id s; apc_trade_cycle_id := k;
             apc_desired_protection := p |} /\
        pac_trade_cycle_id confirmed = k /\ pac_confirmed_protection confirmed = p /\
        s' = with_parts s (Some
               {| tc_trade_cycle_id := tc_trade_cycle_id cycle;
                  tc_applied_entry_package := tc_applied_entry_package cycle;
                  tc_frozen_entry_context := tc_frozen_entry_context cycle;
                  tc_latest_confirmed_management_protection := Some p;
                  tc_entry_remainder_cancelled := tc_entry_remainder_cancelled cycle |})
               (st_pending_entry_recovery s) (st_pending_close_recovery s)
    | ClosePosition k _, ConfirmedClose confirmed =>
        k = tc_trade_cycle_id cycle /\
        cmd = CommandClosePosition
          {| cpc_strategy_instance_id := st_strategy_instance_id s; cpc_trade_cycle_id := k;
             cpc_exposure_fraction := CANONICAL_CLOSE_EXPOSURE_FRACTION |} /\
        pcc_trade_cycle_id confirmed = k /\
        s' = with_parts s None (st_pending_entry_recovery s) None
    | _, _ => False
    end.
Proof.
  intros Hb Ha. apply build_management_command_Ok in Hb as (c & Hc & Hb).
  apply management_confirmation_Ok in Ha as (c' & Hc' & Hv & Hid & Ha).
  assert (c' = c) as -> by congruence. exists c. split_and!; [done..|].
  destruct d as [|k p|k sig]; [done|..]; destruct cmd; try done.
  - destruct Ha as (sent & conf & [= <-] & -> & ? & _ & ? & _ & ? & ?), Hb as [_ ->].
    by split_and!.
  - destruct Ha as (sent & conf & [= <-] & -> & ? & _ & ? & ?), Hb as [_ ->]. by split_and!.
Qed.

Lemma management_confirmation_sound_witness : exists cycle s',
  apply_position_management_confirmation open_state
    (ApplyProtection "c1" {| dp_stop_price := "95"; dp_take_price := Some "120" |})
    (CommandApplyProtection example_protection_command)
    (ConfirmedProtection example_protection_confirmation) = Ok s' /\
  st_current_trade_cycle open_state = Some cycle /\ valid_state s'.
Proof.
  eexists _, _. split; [vm_compute; reflexivity|].
  destruct (management_confirmation_sound open_state
    (ApplyProtection "c1" {| dp_stop_price := "95"; dp_take_price := Some "120" |})
    (CommandApplyProtection example_protection_command)
    (ConfirmedProtection example_protection_confirmation)
    (with_parts open_state (Some
       {| tc_trade_cycle_id := "c1";
          tc_applied_entry_package := tc_applied_entry_package (sample_cycle None);
          tc_frozen_entry_context := Some sample_frozen;
          tc_latest_confirmed_management_protection :=
            Some {| dp_stop_price := "95"; dp_take_price := Some "120" |};
          tc_entry_remainder_cancelled := false |}) None None))
    as (cycle & Hc & Hv & _); [vm_compute; reflexivity..|].
  split; [reflexivity|exact Hv].
Defined.

(** A confirmed protection is not applied again: once the confirmation of the
    decision has been applied, the same recipe decides NO_OP on the new aggregate, as long
    as the recipe does not close the position. *)
Theorem confirmed_protection_converges recipe s k p cmd o s' :
  decide_position_management recipe (st_current_trade_cycle s) = Ok (ApplyProtection k p) ->
  apply_position_management_confirmation s (ApplyProtection k p) cmd o = Ok s' ->
  decide_position_management recipe (st_current_trade_cycle s') = Ok NoOp /\
  exists c c', st_current_trade_cycle s = Some c /\ st_current_trade_cycle s' = Some c' /\
    manages c c' /\ acknowledged c' p /\
    s' = with_parts s (Some c') (st_pending_entry_recovery s) (st_pending_close_recovery s).
Proof.
  intros Hd Ha. apply decide_position_management_Ok in Hd as (c & Hc & Hf & Hcl & -> & -> & _).
  apply management_confirmation_Ok in Ha
    as (c1 & Hc1 & _ & _ & sent & conf & _ & _ & _ & _ & _ & _ & _ & ->).
  assert (c1 = c) as -> by congruence. simpl. unfold frozen in Hf.
  destruct (tc_frozen_entry_context c) as [f|] eqn:Hcf; [|done]. split.
  - unfold decide_position_management, resolve_effective_acknowledged_protection. simpl.
    rewrite Hcl. simpl. by rewrite bool_decide_true.
  - exists c. eexists. split_and!; [done|done| |done|done].
    split_and!; simpl; try done. unfold frozen. congruence.
Qed.

Lemma confirmed_protection_converges_witness : exists s',
  apply_position_management_confirmation open_state
    (ApplyProtection "c1" {| dp_stop_price := "95"; dp_take_price := Some "120" |})
    (CommandApplyProtection example_protection_command)
    (ConfirmedProtection example_protection_confirmation) = Ok s' /\
  decide_position_management (example_recipe "95") (st_current_trade_cycle s') = Ok NoOp.
Proof.
  eexists. split; [vm_compute; reflexivity|].
  refine (proj1 (confirmed_protection_converges (example_recipe "95") open_state "c1"
    {| dp_stop_price := "95"; dp_take_price := Some "120" |}
    (CommandApplyProtection example_protection_command)
    (ConfirmedProtection example_protection_confirmation) _ _ _)); vm_compute; reflexivity.
Defined.
