(* ===== verification/RuntimeOrchestrator.v ===== *)
(** The semantic orchestrator of one committed bar for one strategy instance
    (runtime/orchestrator/orchestrator.py, StrategyRuntimeOrchestrator): the whole of
    [process] under the instance's critical section, and [dispatch]. *)
From S2P Require Import Prelude Errors DecimalText Models Contracts Effects FirstFill.
From S2P Require Import Repository Scripted Protocol ProtocolRules.
From S2P Require Import EntryReconciliation Routing EntryOrchestrator PositionManagement.

Record StrategyRuntimeOrchestrator := {
  ro_entry_reconciliation_orchestrator : EntryReconciliationOrchestrator;
  ro_protection_applied_journal : bool;
  ro_live_entry_journal : bool;
  ro_trade_cycle_closed_journal : bool;
  ro_trade_cycle_opened_journal : bool;
  ro_open_trade_journal : bool;
  ro_entry_cycle_ended_journal : bool;
  ro_first_fill_freezer : FirstFillFreezer;
  ro_entry_remainder_cancel_port : bool;
  ro_entry_remainder_cancel_journal : bool }.

Definition unit_request (u : StrategyBarProcessingUnit) :
    GetOrCreateStrategyInstanceRuntimeStateRequest :=
  {| gc_strategy_instance_id := pu_strategy_instance_id u;
     gc_strategy_id := ds_strategy_id (pu_deployment u);
     gc_instrument := ds_instrument (pu_deployment u);
     gc_base_timeframe := ds_base_timeframe (pu_deployment u);
     gc_raw_spec := ds_raw_spec (pu_deployment u);
     gc_source_path := ds_source_path (pu_deployment u) |}.

Section orchestrator.
Context {R W : Type} `{Repository R} `{Ports W}.
Context (self : StrategyRuntimeOrchestrator).

Definition _journal_live_entry (unit : StrategyBarProcessingUnit)
    (projection : LiveEntryProjectedStrategyInstance) : M R W () :=
  journal (ro_live_entry_journal self)
    (live_entry_evaluated (pu_strategy_instance_id unit)
       (ds_instrument (pu_deployment unit)) (ds_base_timeframe (pu_deployment unit))
       (cb_open_time_ms (pu_committed_bar unit)) (li_desired_entry projection)).

Definition _journal_open_trade (unit : StrategyBarProcessingUnit)
    (projection : OpenTradeProjectedStrategyInstance) : M R W () :=
  if negb (ro_open_trade_journal self) then mret tt
  else
    current_cycle ← assert_some
      (st_current_trade_cycle (ps_runtime_state (pi_resolved_state (oi_source projection))));
    frozen_context ← assert_some (tc_frozen_entry_context current_cycle);
    let recipe := oi_position_management_recipe projection in
    emit (EvJournal (open_trade_evaluated (pu_strategy_instance_id unit)
      (ds_instrument (pu_deployment unit)) (ds_base_timeframe (pu_deployment unit))
      (cb_open_time_ms (pu_committed_bar unit)) (tc_trade_cycle_id current_cycle)
      (de_side (fc_desired_entry frozen_context))
      (pr_engine_desired_protection_text recipe) (pr_close_signal recipe))).

Definition _journal_entry_cycle_ended (source_state saved_state : StrategyInstanceRuntimeState)
    (unit : StrategyBarProcessingUnit) : M R W () :=
  match st_current_trade_cycle source_state with
  | None => mret tt
  | Some source_cycle =>
      if is_some (tc_frozen_entry_context source_cycle) then mret tt
      else
        let record := journal_entry_cycle_ended (ro_entry_cycle_ended_journal self)
          (pu_strategy_instance_id unit) (tc_trade_cycle_id source_cycle)
          (Some (cb_open_time_ms (pu_committed_bar unit))) CANCELLED in
        match st_current_trade_cycle saved_state with
        | Some saved_cycle =>
            if bool_decide (tc_trade_cycle_id saved_cycle = tc_trade_cycle_id source_cycle)
            then mret tt else record
        | None => record
        end
  end.

(** [resulting_state is state]: [apply_first_fill] returns its argument exactly when it
    returns an equal state, since a freeze sets a context that was [None]. *)
Definition _ensure_first_fill_frozen
    (resolved : PositionResolvedStrategyInstanceRuntimeState) (bar_open_time_ms : Z) :
    M R W PositionResolvedStrategyInstanceRuntimeState :=
  let state := ps_runtime_state resolved in
  match st_current_trade_cycle state with
  | None => throw FirstFillInvariantError
      "apply_first_fill requires an existing current trade cycle"
  | Some current_cycle =>
      first_fill_at_ms ← assert_some (ps_first_fill_at_ms resolved);
      resulting_state ← lift (freeze (ro_first_fill_freezer self) state
        (tc_trade_cycle_id current_cycle) first_fill_at_ms);
      if bool_decide (resulting_state = state) then mret resolved
      else
        saved_state ← save resulting_state;
        average_entry_price ← assert_some (ps_average_entry_price resolved);
        entry_order_link_id ← assert_some (ps_entry_order_link_id resolved);
        _ ← journal_trade_cycle_opened (ro_trade_cycle_opened_journal self)
          (st_strategy_instance_id state) (tc_trade_cycle_id current_cycle)
          (Some bar_open_time_ms) first_fill_at_ms average_entry_price
          entry_order_link_id (ps_entry_order_id resolved);
        mret (with_runtime_state resolved saved_state)
  end.

(** From the projection to the final save. *)
Definition _apply_projection (unit : StrategyBarProcessingUnit)
    (projection : StrategyUseCaseProjectedInstance) : M R W StrategyInstanceRuntimeState :=
  let finish source_state '(resulting_state, closure) :=
    if state_eqb resulting_state source_state then mret resulting_state
    else
      saved_state ← save resulting_state;
      _ ← match closure with
          | Some closure => journal_trade_cycle_closed (ro_trade_cycle_closed_journal self)
              closure (Some (cb_open_time_ms (pu_committed_bar unit)))
          | None => mret tt
          end;
      _ ← _journal_entry_cycle_ended source_state saved_state unit;
      mret saved_state in
  match projection with
  | LiveEntryProjected projection =>
      let source_state := ps_runtime_state (pi_resolved_state (li_source projection)) in
      _ ← _journal_live_entry unit projection;
      resulting_state ← EntryOrchestrator.execute
        (ro_entry_reconciliation_orchestrator self) projection;
      finish source_state (resulting_state, None)
  | OpenTradeProjected projection =>
      let source_state := ps_runtime_state (pi_resolved_state (oi_source projection)) in
      _ ← _journal_open_trade unit projection;
      result ← execute_with_closure (ro_protection_applied_journal self) projection;
      finish source_state result
  end.

(** From the open-position lookup on: what [process] does once the instance is neither
    unknown nor in recovery. *)
Definition _process_resolved (unit : StrategyBarProcessingUnit)
    (state : StrategyInstanceRuntimeState)
    (resolved : PositionResolvedStrategyInstanceRuntimeState) :
    M R W StrategyInstanceRuntimeState :=
  let bar_open_time_ms := cb_open_time_ms (pu_committed_bar unit) in
  match ps_closure resolved with
  | Some closure =>
      ended ← lift (apply_detected_trade_cycle_closure state closure);
      saved_state ← save ended;
      _ ← journal_trade_cycle_closed (ro_trade_cycle_closed_journal self) closure
        (Some bar_open_time_ms);
      mret saved_state
  | None =>
      if ps_position_open resolved then
        resolved ← _ensure_first_fill_frozen resolved bar_open_time_ms;
        current_cycle ← assert_some (st_current_trade_cycle (ps_runtime_state resolved));
        frozen_context ← assert_some (tc_frozen_entry_context current_cycle);
        if bar_open_time_ms <? fc_entry_bar_open_time_ms frozen_context then
          mret (ps_runtime_state resolved)
        else
          resolved ← (if ro_entry_remainder_cancel_port self then
              runtime_state ← cancel_expired_entry_remainder
                (ro_entry_remainder_cancel_journal self) (ps_runtime_state resolved)
                bar_open_time_ms;
              mret (with_runtime_state resolved runtime_state)
            else mret resolved);
          projection ← route {| pi_processing_unit := unit; pi_resolved_state := resolved |};
          _apply_projection unit projection
      else
        projection ← route {| pi_processing_unit := unit; pi_resolved_state := resolved |};
        _apply_projection unit projection
  end.

(** [process] inside the critical section. *)
Definition _process_held (unit : StrategyBarProcessingUnit) :
    M R W StrategyInstanceRuntimeState :=
  state ← get_or_create (unit_request unit);
  if is_some (st_pending_entry_recovery state) || is_some (st_pending_close_recovery state)
  then mret state
  else
    resolved ← resolve state;
    _process_resolved unit state resolved.

Definition process (unit : StrategyBarProcessingUnit) : M R W StrategyInstanceRuntimeState :=
  hold (pu_strategy_instance_id unit) false (_process_held unit).

Definition dispatch (unit : StrategyBarProcessingUnit) :
    M R W StrategyCycleDispatchOutcome :=
  _ ← process unit;
  lift (outcome_succeeded (pu_strategy_instance_id unit)).
End orchestrator.

(** * The protocol *)

Lemma state_eqb_same_cycle a b :
  state_eqb a b = true -> st_current_trade_cycle a = st_current_trade_cycle b.
Proof. intros Hab. by apply state_eqb_cycle in Hab as [? _]. Qed.

Section protocol.
Context {R W : Type} `{Repository R} `{!RepositoryLaws R} `{Ports W}.
Context (self : StrategyRuntimeOrchestrator).
Context (id : string).
Implicit Types s : sys R W.

(** [stored_result r s]: the aggregate an operation returns is the stored one. *)
Definition stored_result (r : StrategyInstanceRuntimeState) (s : sys R W) : Prop :=
  within id (Some r) s.

Lemma ensure_first_fill_frozen_spec p d bar s :
  within id (Some d) s -> st_strategy_instance_id d = id -> unmarked d ->
  ps_runtime_state p = d ->
  inside id (_ensure_first_fill_frozen self p bar)
    (fun p' s' => stored_result (ps_runtime_state p') s' /\
       st_strategy_instance_id (ps_runtime_state p') = id /\ unmarked (ps_runtime_state p'))
    broke s.
Proof.
  intros Hw Hid Hu Hp. unfold _ensure_first_fill_frozen. rewrite Hp.
  destruct (st_current_trade_cycle d) as [c|] eqn:Hc; [|apply inside_throw; runs_done].
  apply inside_bind. unfold assert_some at 1.
  destruct (ps_first_fill_at_ms p) as [t|]; [|apply inside_throw; runs_done].
  apply inside_ret, inside_bind. plift. apply inside_if; intros Heq.
  - apply inside_ret. rewrite Hp. done.
  - apply bool_decide_eq_false in Heq.
    match goal with Ef : freeze _ _ _ _ = Ok _ |- _ =>
      pose proof (freeze_durable _ _ _ _ _ Ef Heq) as (Hd & Hi & Hpe & Hpc) end.
    apply inside_bind. psave Hw; [congruence|exact Hd|].
    apply inside_bind. unfold assert_some at 1.
    destruct (ps_average_entry_price p); [|apply inside_throw; runs_done].
    apply inside_ret, inside_bind. unfold assert_some.
    destruct (ps_entry_order_link_id p); [|apply inside_throw; runs_done].
    apply inside_ret, inside_bind. unfold journal_trade_cycle_opened. pjournal Hw.
    apply inside_ret. simpl. split_and!; [done|congruence|].
    destruct Hu. split; congruence.
Qed.

Lemma journal_open_trade_spec unit p o s Q :
  within id o s -> (forall s', within id o s' -> Q tt s') ->
  inside id (_journal_open_trade self unit p) Q broke s.
Proof.
  intros Hw HQ. unfold _journal_open_trade. apply inside_if; intros _; [by apply inside_ret, HQ|].
  apply inside_bind. unfold assert_some at 1.
  destruct (st_current_trade_cycle _); [|apply inside_throw; runs_done].
  apply inside_ret, inside_bind. unfold assert_some.
  destruct (tc_frozen_entry_context _); [|apply inside_throw; runs_done].
  apply inside_ret. eapply inside_emit_journal; [exact Hw|done].
Qed.

Lemma journal_entry_cycle_ended_spec b i k bar reason o s Q :
  within id o s -> (forall s', within id o s' -> Q tt s') ->
  inside id (journal_entry_cycle_ended b i k bar reason) Q broke s.
Proof.
  intros Hw HQ. unfold journal_entry_cycle_ended. apply inside_if; intros _; [by apply inside_ret, HQ|].
  apply inside_bind. plift. eapply inside_emit_journal; [exact Hw|done].
Qed.

Lemma finish_spec unit source r closure s :
  settled id source r s ->
  inside id (if state_eqb r source then mret r
      else
        saved_state ← save r;
        _ ← match closure with
            | Some closure => journal_trade_cycle_closed (ro_trade_cycle_closed_journal self)
                closure (Some (cb_open_time_ms (pu_committed_bar unit)))
            | None => mret tt
            end;
        _ ← _journal_entry_cycle_ended self source saved_state unit;
        mret saved_state)
    stored_result broke s.
Proof.
  intros (d & Hw & Hi & Hr). apply inside_if; intros Heq.
  - apply inside_ret. destruct Hr as [->|[_ Hne]]; [done|].
    by apply state_eqb_same_cycle in Heq.
  - apply inside_bind. psave Hw.
    { destruct Hr as [->|[Hd _]]; [apply durable_again|done]. }
    apply inside_bind. destruct closure as [cl|].
    + unfold journal_trade_cycle_closed. pjournal Hw. apply inside_bind.
      unfold _journal_entry_cycle_ended.
      repeat match goal with
        | |- inside id (match ?x with _ => _ end) _ _ _ => destruct x
        end; try (by do 2 apply inside_ret);
        (eapply journal_entry_cycle_ended_spec; [exact Hw|clear Hw; intros s1 Hw; by apply inside_ret]).
    + apply inside_ret, inside_bind. unfold _journal_entry_cycle_ended.
      repeat match goal with
        | |- inside id (match ?x with _ => _ end) _ _ _ => destruct x
        end; try (by do 2 apply inside_ret);
        (eapply journal_entry_cycle_ended_spec; [exact Hw|clear Hw; intros s1 Hw; by apply inside_ret]).
Qed.

Lemma apply_projection_spec unit p d proj s :
  within id (Some d) s -> st_strategy_instance_id d = id -> unmarked d ->
  ps_runtime_state p = d ->
  match proj with
  | LiveEntryProjected l => pi_resolved_state (li_source l) = p
  | OpenTradeProjected o => pi_resolved_state (oi_source o) = p
  end ->
  inside id (_apply_projection self unit proj) stored_result broke s.
Proof.
  intros Hw Hid Hu Hp Hsrc. unfold _apply_projection. destruct proj as [l|o].
  - rewrite Hsrc, Hp. apply inside_bind. unfold _journal_live_entry. pjournal Hw.
    apply inside_bind. eapply inside_mono; [|clear Hw|done].
    { eapply execute_spec; [exact Hw|done|done|]. by rewrite Hsrc. }
    intros r s1 Hr. by apply (finish_spec unit d r None).
  - rewrite Hsrc, Hp. apply inside_bind. eapply journal_open_trade_spec; [exact Hw|].
    clear Hw. intros s1 Hw. apply inside_bind. eapply inside_mono; [|clear Hw|done].
    { eapply execute_with_closure_spec; [exact Hw|done|done|]. by rewrite Hsrc. }
    intros [r cl] s2 Hr. by apply finish_spec.
Qed.

Lemma route_and_apply_spec unit p d s :
  within id (Some d) s -> st_strategy_instance_id d = id -> unmarked d ->
  ps_runtime_state p = d ->
  inside id (projection ← route {| pi_processing_unit := unit; pi_resolved_state := p |};
      _apply_projection self unit projection) stored_result broke s.
Proof.
  intros Hw Hid Hu Hp. apply inside_bind. eapply inside_mono; [|clear Hw|done].
  { by eapply route_spec. }
  intros proj s1 [Hw Hsrc]. eapply apply_projection_spec; [exact Hw|done|done|exact Hp|].
  destruct proj; destruct Hsrc as [-> _]; done.
Qed.

Lemma process_resolved_spec unit d p s :
  within id (Some d) s -> st_strategy_instance_id d = id -> unmarked d ->
  ps_runtime_state p = d ->
  inside id (_process_resolved self unit d p) stored_result broke s.
Proof.
  intros Hw Hid Hu Hp. unfold _process_resolved. destruct (ps_closure p) as [cl|].
  - apply inside_bind. plift.
    match goal with Ed : apply_detected_trade_cycle_closure _ _ = Ok _ |- _ =>
      apply detected_closure_Ok in Ed as (c & Hc & _ & _ & -> & Hv) end.
    destruct Hu as [Hpe Hpc]. rewrite Hpe in *. apply inside_bind. psave Hw.
    { eapply durable_parts; [done..|]. rewrite Hc, Hpe, Hpc. apply cycle_ended. }
    apply inside_bind. unfold journal_trade_cycle_closed. pjournal Hw. by apply inside_ret.
  - apply inside_if; intros _; [|by eapply route_and_apply_spec].
    apply inside_bind. eapply inside_mono; [|clear Hw|done].
    { by eapply ensure_first_fill_frozen_spec. }
    clear p Hp Hid Hu. intros p s1 (Hw & Hid & Hu). unfold stored_result in Hw.
    apply inside_bind. unfold assert_some at 1.
    destruct (st_current_trade_cycle _); [|apply inside_throw; runs_done].
    apply inside_ret, inside_bind. unfold assert_some.
    destruct (tc_frozen_entry_context _); [|apply inside_throw; runs_done].
    apply inside_ret, inside_if; intros _; [by apply inside_ret|].
    apply inside_bind, inside_if; intros _; [|by apply inside_ret; eapply route_and_apply_spec].
    apply inside_bind. eapply inside_mono; [|clear Hw|done].
    { by eapply cancel_expired_spec. }
    intros d' s2 (Hw & Hid' & Hu'). apply inside_ret. by eapply route_and_apply_spec.
Qed.

Lemma process_held_spec unit o s :
  within id o s -> pu_strategy_instance_id unit = id ->
  inside id (_process_held self unit) stored_result broke s.
Proof.
  intros Hw Hid. unfold _process_held. apply inside_bind.
  eapply inside_get_or_create; [exact Hw|done| |clear Hw; intros; runs_done].
  clear Hw. intros d s1 Hw Hd. apply inside_if; intros Hm; [by apply inside_ret|].
  apply orb_false_iff in Hm as [Hpe Hpc]. unfold is_some in *.
  assert (unmarked d) as Hu.
  { split; [by destruct (st_pending_entry_recovery d)|by destruct (st_pending_close_recovery d)]. }
  apply inside_bind. eapply inside_mono; [eapply (resolve_spec id d _ broke)| |done]; try done.
  clear Hw. intros p s2 (Hw & Hp & _). by eapply process_resolved_spec.
Qed.
End protocol.

(** * Properties *)

Definition sample_orchestrator : StrategyRuntimeOrchestrator :=
  {| ro_entry_reconciliation_orchestrator :=
       {| eo_entry_applied_journal := true; eo_entry_declined_journal := true;
          eo_live_entry_mode := ema_anchor; eo_order_lifetime_bars := None |};
     ro_protection_applied_journal := true; ro_live_entry_journal := true;
     ro_trade_cycle_closed_journal := true; ro_trade_cycle_opened_journal := true;
     ro_open_trade_journal := true; ro_entry_cycle_ended_journal := true;
     ro_first_fill_freezer := {| ff_order_lifetime_bars := None |};
     ro_entry_remainder_cancel_port := true;
     ro_entry_remainder_cancel_journal := true |}.

(** When the processing of a bar returns, the aggregate it returns is the one
    the repository holds for the instance, and no other instance was touched. *)
Theorem bar_returns_stored_state {R W} `{Repository R} `{!RepositoryLaws R} `{Ports W}
    (self : StrategyRuntimeOrchestrator) (unit : StrategyBarProcessingUnit) (s s' : sys R W) r :
  process self unit s = (s', Ok r) ->
  repo_lookup (sys_repo s') (pu_strategy_instance_id unit) = Some r /\
  forall k, k <> pu_strategy_instance_id unit ->
    repo_lookup (sys_repo s') k = repo_lookup (sys_repo s) k.
Proof.
  intros Hp. set (id := pu_strategy_instance_id unit).
  assert (wp (process self unit) (fun r s' => repo_lookup (sys_repo s') id = Some r /\
    forall k, k <> id -> repo_lookup (sys_repo s') k = repo_lookup (sys_repo s) k)
    (fun _ _ => True) s) as Hwp.
  { apply wp_hold; [|done]. intros w.
    eapply wp_mono; [by eapply inside_wp, (process_held_spec self id)|done|done]. }
  apply (wp_run _ _ _ _ _ _ Hwp Hp).
Qed.

(** The same while other threads run, whatever they do to other instances: at the moment the
    processing of a bar returns, the aggregate it returns is the stored one. *)
Theorem bar_returns_stored_state_among_threads {R W} `{Repository R} `{!RepositoryLaws R} `{Ports W}
    (self : StrategyRuntimeOrchestrator) (unit : StrategyBarProcessingUnit) (s : sys R W) :
  safe None (process self unit) (fun mode r s' => mode = None /\
    match r with
    | Ok d => repo_lookup (sys_repo s') (pu_strategy_instance_id unit) = Some d
    | Raise _ => True
    end) s.
Proof.
  apply (safe_hold _ _ _ (fun d o => o = Some d)). intros s1 _.
  eapply inside_mono; [by eapply process_held_spec|done|done].
Qed.

(** A bar on which ABI reports no position and the Engine the entry that rests already. *)
Definition quiet_bar : script :=
  one_bar [Ok (sample_flat_response None)]
    [Ok {| lpr_desired_entry := Some sample_entry |}] [].

Lemma bar_returns_stored_state_witness : exists s' r,
  process sample_orchestrator sample_unit
    (holding resting_state quiet_bar) = (s', Ok r) /\
  repo_lookup (sys_repo s') "i1" = Some r.
Proof.
  eexists _, _. split; [vm_compute; reflexivity|].
  eapply (bar_returns_stored_state sample_orchestrator sample_unit
    (holding resting_state quiet_bar)). vm_compute. reflexivity.
Defined.

(** C10. While a recovery marker is stored, a bar does nothing for the instance:
    no service is called, nothing is saved, the journal is silent, and the call returns the
    stored aggregate (or raises, when the deployment's strategy is another one). *)
Theorem recovery_marker_blocks_bar {R W} `{Repository R} `{!RepositoryLaws R} `{Ports W}
    (self : StrategyRuntimeOrchestrator) (unit : StrategyBarProcessingUnit) (s s' : sys R W) d o :
  repo_lookup (sys_repo s) (pu_strategy_instance_id unit) = Some d ->
  st_pending_entry_recovery d <> None \/ st_pending_close_recovery d <> None ->
  process self unit s = (s', o) ->
  same_content (sys_repo s) (sys_repo s') /\
  (sys_trace s' = sys_trace s \/
   sys_trace s' = sys_trace s ++ [EvAcquire (pu_strategy_instance_id unit);
                                  EvRelease (pu_strategy_instance_id unit)]) /\
  match o with Ok r => r = d | Raise _ => True end.
Proof.
  intros Hd Hm Hp. set (id := pu_strategy_instance_id unit) in *.
  set (P := fun s' : sys R W => same_content (sys_repo s) (sys_repo s') /\
    (sys_trace s' = sys_trace s \/ sys_trace s' = sys_trace s ++ [EvAcquire id; EvRelease id])).
  assert (wp (process self unit) (fun r s' => P s' /\ r = d) (fun _ => P) s) as Hwp.
  { apply wp_hold; [|intros; split; [done|by left]]. intros w.
    apply wp_bind, wp_get_or_create; simpl.
    - intros r st Hr Hst _. change (repo_lookup (sys_repo s) id = Some st) in Hst.
      assert (st = d) as -> by congruence. apply wp_if; intros Hnone.
      + apply wp_ret. simpl. split; [|done]. split; [done|]. right. simpl. by rewrite <- app_assoc.
      + exfalso. apply orb_false_iff in Hnone as [H1 H2]. unfold is_some in *.
        destruct (st_pending_entry_recovery d), (st_pending_close_recovery d); naive_solver.
    - intros r st _ Hn. change (repo_lookup (sys_repo s) id = None) in Hn. congruence.
    - intros r e Hr. split; [done|]. right. simpl. by rewrite <- app_assoc. }
  pose proof (wp_run _ _ _ _ _ _ Hwp Hp) as Hrun. destruct o; unfold P in Hrun; naive_solver.
Qed.

Definition uncertain_state : StrategyInstanceRuntimeState :=
  sample_state None (Some {| pe_trade_cycle_id := "c1" |}) None.

Lemma recovery_marker_blocks_bar_witness : exists s' o,
  process sample_orchestrator sample_unit (holding uncertain_state quiet_bar) = (s', o) /\
  same_content (sys_repo (holding uncertain_state quiet_bar)) (sys_repo s') /\
  (sys_trace s' = [] \/ sys_trace s' = [] ++ [EvAcquire "i1"; EvRelease "i1"]) /\
  match o with Ok r => r = uncertain_state | Raise _ => True end.
Proof.
  eexists _, _. split; [apply surjective_pairing|].
  apply (recovery_marker_blocks_bar sample_orchestrator sample_unit
    (holding uncertain_state quiet_bar) _ uncertain_state);
    [reflexivity|by left|apply surjective_pairing].
Defined.

(** C11. When ABI's lookup reports that the cycle ended on its own orders, the bar
    ends it and does nothing else: the closure must name this instance and this cycle
    (otherwise the bar fails and nothing changes), the cleared aggregate is saved, the
    closure is journaled once, and neither the Engine nor ABI is called on that bar. *)
Theorem detected_closure_ends_cycle {R W} `{Repository R} `{!RepositoryLaws R} `{Ports W}
    (self : StrategyRuntimeOrchestrator) (unit : StrategyBarProcessingUnit)
    (s s' : sys R W) d c w response closure o :
  let id := pu_strategy_instance_id unit in
  let request := {| lq_strategy_instance_id := id; lq_trade_cycle_id := tc_trade_cycle_id c |} in
  repo_lookup (sys_repo s) id = Some d -> unmarked d -> st_current_trade_cycle d = Some c ->
  port_lookup request (sys_world s) = (w, Ok response) -> lr_closure response = Some closure ->
  process self unit s = (s', o) ->
  match o with
  | Ok r =>
      cl_strategy_instance_id closure = id /\ cl_trade_cycle_id closure = tc_trade_cycle_id c /\
      r = with_parts d None None None /\ stored (sys_repo s) (sys_repo s') r /\
      sys_trace s' = sys_trace s ++ [EvAcquire id; EvLookup request; EvSave r] ++
        (if ro_trade_cycle_closed_journal self
         then [EvJournal (trade_cycle_closed (cl_strategy_instance_id closure)
                 (cl_trade_cycle_id closure) (Some (cb_open_time_ms (pu_committed_bar unit)))
                 (cl_reason closure) (cl_order_id closure) (cl_order_link_id closure)
                 (cl_parent_order_link_id closure))] else []) ++ [EvRelease id]
  | Raise _ => same_content (sys_repo s) (sys_repo s')
  end.
Proof.
  intros id request Hd [Hpe Hpc] Hc Hport Hcl Hp.
  assert (st_strategy_instance_id d = id) as Hid by by eapply lookup_id.
  set (Q := fun r (s' : sys R W) =>
    cl_strategy_instance_id closure = id /\ cl_trade_cycle_id closure = tc_trade_cycle_id c /\
    r = with_parts d None None None /\ stored (sys_repo s) (sys_repo s') r /\
    sys_trace s' = sys_trace s ++ [EvAcquire id; EvLookup request; EvSave r] ++
      (if ro_trade_cycle_closed_journal self
       then [EvJournal (trade_cycle_closed (cl_strategy_instance_id closure)
               (cl_trade_cycle_id closure) (Some (cb_open_time_ms (pu_committed_bar unit)))
               (cl_reason closure) (cl_order_id closure) (cl_order_link_id closure)
               (cl_parent_order_link_id closure))] else []) ++ [EvRelease id]).
  assert (wp (process self unit) Q (fun _ s' => same_content (sys_repo s) (sys_repo s')) s)
    as Hwp; [|apply (wp_run _ _ _ _ _ _ Hwp Hp)].
  apply wp_hold_wait; [|done]. apply wp_bind, wp_get_or_create; simpl; [| |done].
  2: { intros r1 d1 _ Hn. change (repo_lookup (sys_repo s) id = None) in Hn. congruence. }
  intros r1 d1 Hr1 Hd1 _. change (repo_lookup (sys_repo s) id = Some d1) in Hd1.
  assert (d1 = d) as -> by congruence. rewrite Hpe, Hpc. simpl.
  apply wp_bind. unfold resolve. rewrite Hc. apply wp_bind, wp_lift.
  destruct (OpenPositionLookupRequest_post_init _) eqn:Hq; [|done].
  apply lookup_request_Ok in Hq as ->. rewrite Hid. apply wp_bind.
  eapply wp_call_at; [exact Hport|]. apply wp_ret. unfold _process_resolved. simpl. rewrite Hcl.
  apply wp_bind, wp_lift. destruct (apply_detected_trade_cycle_closure d closure) eqn:Ha; [|done].
  apply detected_closure_Ok in Ha as (c' & Hc' & Hcli & Hclk & -> & _). simplify_eq/=.
  apply wp_bind, wp_save; simpl; [|intros r2 e Hr2 k; by rewrite Hr2].
  intros r2 Hr2. apply wp_bind. unfold journal_trade_cycle_closed. apply wp_journal. apply wp_ret.
  unfold Q. simpl. rewrite Hpe in *. split_and!; [congruence|done|done| |].
  - intros k. rewrite Hr2, Hr1. done.
  - by rewrite <- !app_assoc.
Qed.

Lemma detected_closure_ends_cycle_witness : exists s' o,
  process sample_orchestrator sample_unit
    (holding open_state (one_bar [Ok (sample_flat_response (Some sample_closure))] [] []))
    = (s', o) /\
  match o with
  | Ok r => r = with_parts open_state None None None
  | Raise _ => same_content (sys_repo (holding open_state quiet)) (sys_repo s')
  end.
Proof.
  eexists _, _. split; [apply surjective_pairing|].
  pose proof (detected_closure_ends_cycle sample_orchestrator sample_unit
    (holding open_state (one_bar [Ok (sample_flat_response (Some sample_closure))] [] []))
    _ open_state (sample_cycle (Some sample_frozen)) _
    (sample_flat_response (Some sample_closure)) sample_closure _
    eq_refl (conj eq_refl eq_refl) eq_refl eq_refl eq_refl (surjective_pairing _)) as Hend.
  destruct (process _ _ _) as [s' [r|e]]; simpl in *; [apply Hend|exact Hend].
Defined.
