(* ===== verification/UncertainResolver.v ===== *)
(** The uncertain-exchange-state resolver (runtime/uncertain_exchange_state_resolver): one
    bounded attempt to resolve a durable recovery marker (resolver.py), one tick of the
    background worker over all marked instances (worker.py), and the corrective cancel of
    the ABI adapter (infrastructure/abi/http_entry_cycle_recovery.py, [cancel]). The
    worker's thread life cycle is in Intake.v with the other worker. *)
From S2P Require Import Prelude Errors DecimalText Models Contracts Effects FirstFill.
From S2P Require Import Repository Scripted Protocol ProtocolRules.
From S2P Require Import EntryReconciliation Routing EntryOrchestrator PositionManagement.
From S2P Require Import RuntimeOrchestrator.

Record UncertainExchangeStateResolver := {
  ur_trade_cycle_closed_journal : bool;
  ur_trade_cycle_opened_journal : bool;
  ur_entry_cycle_ended_journal : bool;
  ur_first_fill_freezer : FirstFillFreezer }.

Definition _build_cycle (trade_cycle_id : string) (applied : RecoveryStateAppliedEntryPackage) :
    result CurrentTradeCycle :=
  entry ← _decode_desired_entry (ra_applied_desired_entry applied);
  package ← AppliedEntryPackage_post_init
    {| ap_applied_desired_entry := entry;
       ap_calculated_quantity := ra_calculated_quantity applied |};
  CurrentTradeCycle_post_init
    {| tc_trade_cycle_id := trade_cycle_id;
       tc_applied_entry_package := package;
       tc_frozen_entry_context := None;
       tc_latest_confirmed_management_protection := None;
       tc_entry_remainder_cancelled := false |}.

(** [CloseSignal(True)] *)
Definition active_close_signal : CloseSignal :=
  {| cs_active := true; cs_reason := None; cs_component_id := None; cs_layer := None |}.

(** The test of the exact formal absence. *)
Definition is_exact_absent (cancel_result : EntryPackageResult)
    (strategy_instance_id trade_cycle_id : string) : bool :=
  match cancel_result with
  | EpAbsent a => bool_decide (eb_strategy_instance_id a = strategy_instance_id)
                  && bool_decide (eb_trade_cycle_id a = trade_cycle_id)
  | _ => false
  end.

Section resolver.
Context {R W : Type} `{Repository R} `{Ports W}.
Context (self : UncertainExchangeStateResolver).

(** [AbiEntryCycleRecoveryPort.cancel] *)
Definition recovery_cancel (strategy_instance_id trade_cycle_id ticker risk_multiplier :
    string) : M R W EntryPackageResult :=
  request ← lift (EntryPackageRequest_post_init
    {| er_strategy_instance_id := strategy_instance_id;
       er_trade_cycle_id := trade_cycle_id;
       er_ticker := ticker;
       er_desired_entry := None;
       er_risk_multiplier := risk_multiplier |});
  send_entry_package request.

Definition _resolve_pending_close (state : StrategyInstanceRuntimeState) : M R W () :=
  pending_close_recovery ← assert_some (st_pending_close_recovery state);
  let trade_cycle_id := pc_trade_cycle_id pending_close_recovery in
  command ← lift (ClosePositionCommand_post_init
    {| cpc_strategy_instance_id := st_strategy_instance_id state;
       cpc_trade_cycle_id := trade_cycle_id;
       cpc_exposure_fraction := CANONICAL_CLOSE_EXPOSURE_FRACTION |});
  confirmation ← catch (c ← close_position command; mret (Some c)) (fun exc =>
    if is_position_management_execution_error (exn_cls exc) then mret None
    else lift (Raise exc));
  match confirmation with
  | None => mret tt
  | Some confirmation =>
      decision ← lift (PositionManagementDecision_post_init
        (ClosePosition trade_cycle_id active_close_signal));
      resulting_state ← catch
        (s ← lift (apply_position_management_confirmation state decision
                    (CommandClosePosition command) (ConfirmedClose confirmation));
         mret (Some s))
        (fun exc => match exn_cls exc with
                    | PositionManagementExecutionInvariantError => mret None
                    | _ => lift (Raise exc)
                    end);
      match resulting_state with
      | None => mret tt
      | Some resulting_state =>
          _ ← save resulting_state;
          match pcc_closure confirmation with
          | Some closure =>
              journal_trade_cycle_closed (ur_trade_cycle_closed_journal self) closure None
          | None => mret tt
          end
      end
  end.

Definition _cancel_and_clear_only_if_exact_absent (state : StrategyInstanceRuntimeState)
    (trade_cycle_id : string) : M R W () :=
  cancel_result ← catch
    (r ← recovery_cancel (st_strategy_instance_id state) trade_cycle_id
       (rs_instrument (st_registered_spec_snapshot state)) (st_risk_multiplier state);
     mret (Some r))
    (fun exc => if is_abi_entry_package_client_error (exn_cls exc) then mret None
                else lift (Raise exc));
  match cancel_result with
  | None => mret tt
  | Some cancel_result =>
      if is_exact_absent cancel_result (st_strategy_instance_id state) trade_cycle_id then
        cleared ← lift (clear_cycle_and_entry_recovery state);
        _ ← save cleared;
        journal_entry_cycle_ended (ur_entry_cycle_ended_journal self)
          (st_strategy_instance_id state) trade_cycle_id None EXACT_ABSENT
      else mret tt
  end.

Definition _journal_terminal_without_fill (state : StrategyInstanceRuntimeState)
    (trade_cycle_id : string) (response : RecoveryStateResponse) : M R W () :=
  match response with
  | TerminalWithoutFill =>
      journal_entry_cycle_ended (ur_entry_cycle_ended_journal self)
        (st_strategy_instance_id state) trade_cycle_id None
        EntryOrchestrator.TERMINAL_WITHOUT_FILL
  | _ => mret tt
  end.

(** [replace(state, current_trade_cycle=_build_cycle(...), pending_entry_recovery=None)] *)
Definition reconstruct_cycle (state : StrategyInstanceRuntimeState) (trade_cycle_id : string)
    (applied : RecoveryStateAppliedEntryPackage) : result StrategyInstanceRuntimeState :=
  cycle ← _build_cycle trade_cycle_id applied;
  replace_state state (Some cycle) None (st_pending_close_recovery state).

Definition _resolve_uncertain_apply (state : StrategyInstanceRuntimeState)
    (trade_cycle_id : string) (response : RecoveryStateResponse) : M R W () :=
  match response with
  | EntryOrderLive package =>
      reconstructed ← lift (reconstruct_cycle state trade_cycle_id package);
      _ ← save reconstructed;
      mret tt
  | RecoveryPositionOpen p =>
      reconstructed ← lift (reconstruct_cycle state trade_cycle_id
                              (po_applied_entry_package p));
      frozen ← lift (freeze (ur_first_fill_freezer self) reconstructed trade_cycle_id
                       (po_first_fill_at_ms p));
      _ ← save frozen;
      journal_trade_cycle_opened (ur_trade_cycle_opened_journal self)
        (st_strategy_instance_id state) trade_cycle_id None (po_first_fill_at_ms p)
        (po_average_entry_price p) (po_entry_order_link_id p) (po_entry_order_id p)
  | TerminalWithoutFill | TerminalAfterFill =>
      cleared ← lift (clear_cycle_and_entry_recovery state);
      _ ← save cleared;
      _journal_terminal_without_fill state trade_cycle_id response
  | EntryOrderNotFound => _cancel_and_clear_only_if_exact_absent state trade_cycle_id
  end.

Definition _resolve_uncertain_removal (state : StrategyInstanceRuntimeState)
    (current_cycle : CurrentTradeCycle) (response : RecoveryStateResponse) : M R W () :=
  match response with
  | TerminalWithoutFill | TerminalAfterFill =>
      cleared ← lift (clear_cycle_and_entry_recovery state);
      _ ← save cleared;
      _journal_terminal_without_fill state (tc_trade_cycle_id current_cycle) response
  | RecoveryPositionOpen _ =>
      cleared ← lift (replace_pending_entry_recovery state None);
      _ ← save cleared;
      mret tt
  | EntryOrderLive _ =>
      _cancel_and_clear_only_if_exact_absent state (tc_trade_cycle_id current_cycle)
  | EntryOrderNotFound => mret tt
  end.

Definition _resolve_pending_entry (state : StrategyInstanceRuntimeState)
    (pending_entry_recovery : PendingEntryRecovery) (strategy_instance_id : string) :
    M R W () :=
  let trade_cycle_id := pe_trade_cycle_id pending_entry_recovery in
  response ← catch
    (r ← query_recovery_state strategy_instance_id trade_cycle_id; mret (Some r))
    (fun exc => if is_abi_entry_cycle_recovery_client_error (exn_cls exc) then mret None
                else lift (Raise exc));
  match response with
  | None => mret tt
  | Some response =>
      match st_current_trade_cycle state with
      | None => _resolve_uncertain_apply state trade_cycle_id response
      | Some current_trade_cycle =>
          _resolve_uncertain_removal state current_trade_cycle response
      end
  end.

(** [attempt] inside the critical section. *)
Definition _attempt_held (strategy_instance_id : string) : M R W () :=
  state ← get strategy_instance_id;
  match state with
  | None => mret tt
  | Some state =>
      match st_pending_close_recovery state, st_pending_entry_recovery state with
      | Some _, _ => _resolve_pending_close state
      | None, None => mret tt
      | None, Some pending_entry_recovery =>
          _resolve_pending_entry state pending_entry_recovery strategy_instance_id
      end
  end.

Definition attempt (strategy_instance_id : string) : M R W () :=
  hold strategy_instance_id false (_attempt_held strategy_instance_id).

(** worker.py, [_tick]: the worker's state is read before each instance, so the number of
    instances attempted before a stop is an input, [running]. An exception of one
    instance is logged and the tick goes on. *)
Fixpoint attempt_each (running : nat) (ids : list string) : M R W () :=
  match ids, running with
  | [], _ | _, O => mret tt
  | strategy_instance_id :: ids, S running =>
      _ ← catch (attempt strategy_instance_id) (fun _ => mret tt);
      attempt_each running ids
  end.

(** [dict.fromkeys] *)
Fixpoint fromkeys (l : list string) : list string :=
  match l with
  | [] => []
  | x :: l => x :: filter (fun y => y <> x) (fromkeys l)
  end.

Definition _tick (running : nat) : M R W () :=
  entry_ids ← on_repo repo_list_ids_with_pending_entry_recovery;
  close_ids ← on_repo repo_list_ids_with_pending_close_recovery;
  attempt_each running (fromkeys (entry_ids ++ close_ids)).
End resolver.

(** * The protocol *)

Lemma build_cycle_Ok k applied c :
  _build_cycle k applied = Ok c -> fresh_cycle k c.
Proof.
  unfold _build_cycle. intros Hc. ok_inv Hc. apply cycle_post_init_Ok in Hc as ->. done.
Qed.

Section protocol.
Context {R W : Type} `{Repository R} `{!RepositoryLaws R} `{Ports W}.
Context (self : UncertainExchangeStateResolver).
Context (id : string).
Implicit Types s : sys R W.

Lemma recovery_cancel_spec d k ticker risk s (Q : EntryPackageResult -> sys R W -> Prop) E :
  within id (Some d) s ->
  st_pending_entry_recovery d = Some {| pe_trade_cycle_id := k |} \/
    (unmarked d /\ exists c, st_current_trade_cycle d = Some c /\ tc_trade_cycle_id c = k) ->
  (forall r s', within id (Some d) s' -> Q r s') ->
  (forall e s', within id (Some d) s' -> E e s') ->
  inside id (recovery_cancel id k ticker risk) Q E s.
Proof.
  intros Hw Hd HQ HE. unfold recovery_cancel. apply inside_bind, inside_lift.
  destruct (EntryPackageRequest_post_init _) as [q|] eqn:Hq; [|by apply HE].
  apply entry_request_post_init_Ok in Hq as ->.
  eapply inside_call; [exact Hw|done|by exists d|].
  clear Hw. intros s' [r|e] Hw; auto.
Qed.

Lemma cleared_for_end d m (s' : StrategyInstanceRuntimeState) :
  clear_cycle_and_entry_recovery d = Ok s' ->
  st_pending_entry_recovery d = Some m -> st_pending_close_recovery d = None ->
  durable_step (Some d) s' /\ st_strategy_instance_id s' = st_strategy_instance_id d.
Proof.
  unfold clear_cycle_and_entry_recovery. intros [-> Hv]%replace_state_parts Hpe Hpc.
  split; [|done]. eapply durable_parts; [done..|]. rewrite Hpe, Hpc. apply attempt_ended.
Qed.

Lemma cancel_and_clear_spec d k s :
  within id (Some d) s -> st_strategy_instance_id d = id ->
  st_pending_entry_recovery d = Some {| pe_trade_cycle_id := k |} ->
  st_pending_close_recovery d = None ->
  inside id (_cancel_and_clear_only_if_exact_absent self d k) kept broke s.
Proof.
  intros Hw Hid Hpe Hpc. unfold _cancel_and_clear_only_if_exact_absent.
  apply inside_bind, inside_catch, inside_bind. rewrite Hid.
  eapply recovery_cancel_spec; [exact Hw|by left| |].
  - clear Hw. intros r s1 Hw. apply inside_ret, inside_if; intros _; [|by apply inside_ret; runs_done].
    apply inside_bind. plift.
    match goal with Ec : clear_cycle_and_entry_recovery _ = Ok _ |- _ =>
      pose proof (cleared_for_end _ _ _ Ec Hpe Hpc) as [Hd Hi] end.
    apply inside_bind. psave Hw; [congruence|done|].
    eapply journal_entry_cycle_ended_spec; [exact Hw|]. clear Hw. intros s2 Hw. by runs_done.
  - clear Hw. intros e s1 Hw. apply inside_if; intros _.
    + apply inside_ret, inside_ret. by runs_done.
    + apply inside_lift. runs_done.
Qed.

Lemma journal_terminal_spec d k response o s :
  within id o s ->
  inside id (_journal_terminal_without_fill self d k response) kept broke s.
Proof.
  intros Hw. unfold _journal_terminal_without_fill.
  destruct response; try (apply inside_ret; by runs_done).
  eapply journal_entry_cycle_ended_spec; [exact Hw|]. clear Hw. intros s1 Hw. by runs_done.
Qed.

Lemma terminal_spec d m k response s :
  within id (Some d) s -> st_strategy_instance_id d = id ->
  st_pending_entry_recovery d = Some m -> st_pending_close_recovery d = None ->
  inside id (cleared ← lift (clear_cycle_and_entry_recovery d);
      _ ← save cleared;
      _journal_terminal_without_fill self d k response) kept broke s.
Proof.
  intros Hw Hid Hpe Hpc. apply inside_bind. plift.
  match goal with Ec : clear_cycle_and_entry_recovery _ = Ok _ |- _ =>
    pose proof (cleared_for_end _ _ _ Ec Hpe Hpc) as [Hd Hi] end.
  apply inside_bind. psave Hw; [congruence|done|]. by eapply journal_terminal_spec.
Qed.

Lemma reconstruct_Ok d k applied (s' : StrategyInstanceRuntimeState) :
  reconstruct_cycle d k applied = Ok s' ->
  exists c, fresh_cycle k c /\ valid_state s' /\
    s' = with_parts d (Some c) None (st_pending_close_recovery d).
Proof.
  unfold reconstruct_cycle. intros Hr. ok_inv Hr.
  apply build_cycle_Ok in Hok. apply replace_state_parts in Hr as [-> Hv]. eauto.
Qed.

Lemma resolve_uncertain_apply_spec d k response s :
  within id (Some d) s -> st_strategy_instance_id d = id ->
  st_current_trade_cycle d = None ->
  st_pending_entry_recovery d = Some {| pe_trade_cycle_id := k |} ->
  st_pending_close_recovery d = None ->
  inside id (_resolve_uncertain_apply self d k response) kept broke s.
Proof.
  intros Hw Hid Hc Hpe Hpc. unfold _resolve_uncertain_apply.
  destruct response as [p| |p| |]; try by eapply terminal_spec.
  - apply inside_bind. plift.
    match goal with Er : reconstruct_cycle _ _ _ = Ok _ |- _ =>
      apply reconstruct_Ok in Er as (c & Hf & Hv & ->) end. rewrite Hpc in *.
    apply inside_bind. psave Hw; [|apply inside_ret; by runs_done].
    eapply durable_parts; [done..|]. rewrite Hc, Hpe, Hpc. by apply entry_acknowledged.
  - by eapply cancel_and_clear_spec.
  - apply inside_bind. plift.
    match goal with Er : reconstruct_cycle _ _ _ = Ok _ |- _ =>
      apply reconstruct_Ok in Er as (c & Hf & Hv & ->) end. rewrite Hpc in *.
    apply inside_bind. plift.
    match goal with Er : freeze _ _ _ _ = Ok _ |- _ =>
      apply freeze_parts in Er as [[-> (c' & [= <-] & Hfr)]|(c1 & c' & [= <-] & _ & Hfz & -> & Hv')]
    end; [by destruct Hf as (_ & ? & _)|].
    apply inside_bind. psave Hw.
    { eapply durable_parts; [done..|]. rewrite Hc, Hpe, Hpc.
      eapply entry_acknowledged_filled; [|exact Hfz]. done. }
    unfold journal_trade_cycle_opened. pjournal Hw. by runs_done.
Qed.

Lemma resolve_uncertain_removal_spec d c response s :
  within id (Some d) s -> st_strategy_instance_id d = id ->
  st_current_trade_cycle d = Some c ->
  st_pending_entry_recovery d = Some {| pe_trade_cycle_id := tc_trade_cycle_id c |} ->
  st_pending_close_recovery d = None ->
  inside id (_resolve_uncertain_removal self d c response) kept broke s.
Proof.
  intros Hw Hid Hc Hpe Hpc. unfold _resolve_uncertain_removal.
  destruct response as [p| |p| |]; try by eapply terminal_spec.
  - by eapply cancel_and_clear_spec.
  - apply inside_ret. by runs_done.
  - apply inside_bind. plift. unfold replace_pending_entry_recovery in *.
    match goal with Er : replace_state _ _ _ _ = Ok _ |- _ =>
      apply replace_state_parts in Er as [-> Hv] end.
    apply inside_bind. psave Hw; [|apply inside_ret; by runs_done].
    eapply durable_parts; [done..|]. rewrite Hc, Hpe, Hpc. apply removal_ineffective.
Qed.

Lemma resolve_pending_close_spec d m s :
  within id (Some d) s -> st_strategy_instance_id d = id ->
  st_pending_close_recovery d = Some m -> st_pending_entry_recovery d = None ->
  inside id (_resolve_pending_close self d) kept broke s.
Proof.
  intros Hw Hid Hpc Hpe. unfold _resolve_pending_close. rewrite Hpc. apply inside_bind, inside_ret.
  apply inside_bind. plift.
  match goal with Ec : ClosePositionCommand_post_init _ = Ok _ |- _ =>
    apply close_command_post_init_Ok in Ec as -> end.
  apply inside_bind, inside_catch, inside_bind.
  pcall Hw; [exists d; split; [done|]; rewrite Hpc; by destruct m| |].
  - apply inside_ret, inside_bind. plift.
    match goal with Ed : PositionManagementDecision_post_init _ = Ok _ |- _ =>
      apply pm_decision_post_init_Ok in Ed as -> end.
    apply inside_bind, inside_catch, inside_bind, inside_lift.
    destruct (apply_position_management_confirmation _ _ _ _) as [r|e] eqn:Ha.
    + apply management_confirmation_Ok in Ha
        as (c & Hc & Hv & _ & sent & conf & _ & _ & _ & _ & _ & ->). rewrite Hpe in *.
      apply inside_ret, inside_bind. psave Hw.
      { eapply durable_parts; [done..|]. rewrite Hc, Hpe, Hpc. apply close_confirmed. }
      destruct (pcc_closure _); [|apply inside_ret; by runs_done].
      unfold journal_trade_cycle_closed. pjournal Hw. by runs_done.
    + destruct (exn_cls e); apply inside_lift; runs_done.
  - apply inside_if; intros _; [apply inside_ret, inside_ret; by runs_done|apply inside_lift; runs_done].
Qed.

Lemma attempt_held_spec o s :
  within id o s -> (forall d, o = Some d -> st_strategy_instance_id d = id) ->
  legal_option o ->
  inside id (_attempt_held self id) kept broke s.
Proof.
  intros Hw Hid Hl. unfold _attempt_held. apply inside_bind. pget Hw.
  destruct o as [d|]; [|apply inside_ret; by runs_done]. specialize (Hid d eq_refl).
  destruct (st_pending_close_recovery d) as [m|] eqn:Hpc.
  - eapply resolve_pending_close_spec; [exact Hw|done|done|].
    destruct Hl as [[_ Hv]%valid_markers _]. by apply (Hv m).
  - destruct (st_pending_entry_recovery d) as [m|] eqn:Hpe; [|apply inside_ret; by runs_done].
    unfold _resolve_pending_entry. apply inside_bind, inside_catch, inside_bind.
    pcall Hw; [exists d; split; [done|]; rewrite Hpe; by destruct m| |].
    + apply inside_ret. destruct (st_current_trade_cycle d) as [c|] eqn:Hc.
      * eapply resolve_uncertain_removal_spec; [exact Hw|done|done| |done].
        destruct Hl as [[Hv _]%valid_markers _]. rewrite Hpe, <- (Hv m c Hpe Hc). by destruct m.
      * eapply resolve_uncertain_apply_spec; [exact Hw|done|done| |done].
        rewrite Hpe. by destruct m.
    + apply inside_if; intros _; [apply inside_ret, inside_ret; by runs_done|apply inside_lift; runs_done].
Qed.
End protocol.

Lemma reconstruct_cycle_Ok d k applied s' :
  reconstruct_cycle d k applied = Ok s' ->
  exists c, _build_cycle k applied = Ok c /\
    s' = with_parts d (Some c) None (st_pending_close_recovery d) /\ valid_state s'.
Proof.
  unfold reconstruct_cycle. intros Hr. apply result_bind_Ok in Hr as (c & Hb & Hr).
  apply replace_state_parts in Hr as [-> Hv]. by exists c.
Qed.

Lemma freeze_identity ff s k t s' :
  freeze ff s k t = Ok s' -> st_strategy_instance_id s' = st_strategy_instance_id s.
Proof. by intros [[-> _]|(c & c' & _ & _ & _ & -> & _)]%freeze_parts. Qed.

Lemma fromkeys_spec l : NoDup (fromkeys l) /\ forall x, x ∈ fromkeys l <-> x ∈ l.
Proof.
  induction l as [|x l [IHn IHm]]; simpl; [split; [constructor|done]|]. split.
  - constructor; [|by apply NoDup_filter]. rewrite list_elem_of_filter. tauto.
  - intros y. rewrite !elem_of_cons, list_elem_of_filter, IHm.
    destruct (decide (y = x)); naive_solver.
Qed.

(** A piece that writes journal records at most. *)
Definition keeps_store {R W A} (m : M R W A) : Prop :=
  forall s, wp m (fun _ s' => sys_repo s' = sys_repo s) (fun _ _ => False) s.

Lemma keeps_ret {R W A} (a : A) : keeps_store (mret a : M R W A).
Proof. done. Qed.

Lemma keeps_journal {R W} b j : keeps_store (journal b j : M R W unit).
Proof. intros s. by apply wp_journal. Qed.

Lemma keeps_cycle_ended {R W} b i k bar reason :
  reason ∈ ENTRY_CYCLE_END_REASONS ->
  keeps_store (journal_entry_cycle_ended b i k bar reason : M R W unit).
Proof.
  intros Hr s. unfold journal_entry_cycle_ended. apply wp_if; intros _; [done|].
  apply wp_bind, wp_lift. rewrite bool_decide_true by done. by apply wp_emit.
Qed.

(** * Properties *)

Lemma require_raise b c msg e : require b c msg = Raise e -> exn_cls e = c.
Proof. unfold require, raise. by destruct b; intros; simplify_eq. Qed.

Lemma request_post_init_raise r e :
  EntryPackageRequest_post_init r = Raise e -> exn_cls e = ValueError.
Proof.
  unfold EntryPackageRequest_post_init, require_non_empty_string,
    require_positive_exact_decimal_text. intros Hr.
  repeat match type of Hr with
  | (_ ← require ?b ?c ?m; _) = _ =>
      let H := fresh in destruct (require b c m) eqn:H; simpl in Hr;
      [|apply require_raise in H; congruence]
  end. done.
Qed.

(** What an attempt may leave for an instance whose entry for cycle [k] is uncertain, given
    ABI's answer to the query and its answer to the corrective cancel. *)
Definition resolves (self : UncertainExchangeStateResolver) (d : StrategyInstanceRuntimeState)
    (k : string) (answer : result RecoveryStateResponse) (cancel : result EntryPackageResult)
    (d' : StrategyInstanceRuntimeState) : Prop :=
  let cleared := with_parts d None None None in
  let confirmed :=
    match cancel with
    | Ok r => is_exact_absent r (st_strategy_instance_id d) k
    | Raise _ => false
    end in
  match answer, st_current_trade_cycle d with
  (* the query failed: nothing is known, nothing changes *)
  | Raise _, _ => d' = d
  (* the order ended: no cycle, no marker *)
  | Ok TerminalWithoutFill, _ | Ok TerminalAfterFill, _ => d' = cleared
  (* an entry of unknown fate rests, or was filled: its cycle is rebuilt *)
  | Ok (EntryOrderLive p), None => exists c, _build_cycle k p = Ok c /\ fresh_cycle k c /\
      d' = with_parts d (Some c) None None
  | Ok (RecoveryPositionOpen p), None => exists c,
      _build_cycle k (po_applied_entry_package p) = Ok c /\ fresh_cycle k c /\
      freeze (ur_first_fill_freezer self) (with_parts d (Some c) None None) k
        (po_first_fill_at_ms p) = Ok d'
  (* a removal of unknown fate came too late *)
  | Ok (RecoveryPositionOpen _), Some c => d' = with_parts d (Some c) None None
  (* a removal of unknown fate that had no effect is repeated; an entry ABI does not know is
     removed: only the exact absence clears *)
  | Ok (EntryOrderLive _), Some _ | Ok EntryOrderNotFound, None =>
      d' = if confirmed then cleared else d
  | Ok EntryOrderNotFound, Some _ => d' = d
  end.

Section resolution.
Context {R W : Type} `{Repository R} `{!RepositoryLaws R} `{Ports W}.
Context (self : UncertainExchangeStateResolver).
Implicit Types s : sys R W.

(** What holds of the store when the attempt returned, and when it raised. *)
Definition left_resolved d k answer cancel : unit -> sys R W -> Prop := fun _ s' =>
  exists d', repo_lookup (sys_repo s') (st_strategy_instance_id d) = Some d' /\
    resolves self d k answer cancel d'.
Definition left_alone s : exn -> sys R W -> Prop := fun _ s' =>
  same_content (sys_repo s) (sys_repo s').

Lemma resolved_same s s1 d k answer cancel :
  same_content (sys_repo s) (sys_repo s1) ->
  repo_lookup (sys_repo s) (st_strategy_instance_id d) = Some d ->
  resolves self d k answer cancel d -> left_resolved d k answer cancel tt s1.
Proof. intros Hs1 Hd Hr. exists d. by rewrite Hs1. Qed.

(** A save followed by journal records. *)
Lemma resolved_save s s1 d k answer cancel d' (tail : M R W unit) :
  same_content (sys_repo s) (sys_repo s1) ->
  st_strategy_instance_id d' = st_strategy_instance_id d ->
  resolves self d k answer cancel d' -> keeps_store tail ->
  wp (_ ← save d'; tail) (left_resolved d k answer cancel) (left_alone s) s1.
Proof.
  intros Hs1 Hid Hr Htail. apply wp_bind, wp_save.
  - intros r Hst. eapply wp_mono; [apply Htail| |done]. simpl. intros [] s2 Hs2. exists d'.
    split; [|done]. by rewrite Hs2, Hst, decide_True.
  - intros r e Hst i. simpl. by rewrite Hst.
Qed.

(** The cancel that ABI answers with [cancel]. *)
Definition cancel_answers d k (w : W) (cancel : result EntryPackageResult) : Prop :=
  (port_send {| er_strategy_instance_id := st_strategy_instance_id d; er_trade_cycle_id := k;
     er_ticker := rs_instrument (st_registered_spec_snapshot d); er_desired_entry := None;
     er_risk_multiplier := st_risk_multiplier d |} w).2 = cancel.

Lemma corrective_cancel s s1 d k answer cancel :
  same_content (sys_repo s) (sys_repo s1) -> cancel_answers d k (sys_world s1) cancel ->
  repo_lookup (sys_repo s) (st_strategy_instance_id d) = Some d ->
  (forall d', d' = (if match cancel with
                       | Ok r => is_exact_absent r (st_strategy_instance_id d) k
                       | Raise _ => false end
                    then with_parts d None None None else d) ->
     resolves self d k answer cancel d') ->
  st_pending_close_recovery d = None ->
  wp (_cancel_and_clear_only_if_exact_absent self d k)
    (left_resolved d k answer cancel) (left_alone s) s1.
Proof.
  intros Hs1 Hcancel Hd Hres Hpc. unfold _cancel_and_clear_only_if_exact_absent.
  apply wp_bind, wp_catch, wp_bind. unfold recovery_cancel. apply wp_bind, wp_lift.
  destruct (EntryPackageRequest_post_init _) as [q|x] eqn:Hq.
  2: { apply request_post_init_raise in Hq. rewrite Hq. by apply wp_lift. }
  apply entry_request_post_init_Ok in Hq as ->. unfold cancel_answers in Hcancel.
  eapply wp_call_at; [apply surjective_pairing|]. rewrite Hcancel. destruct cancel as [r|x].
  - apply wp_ret, wp_if; intros Hex.
    + apply wp_bind, wp_lift. destruct (clear_cycle_and_entry_recovery d) eqn:Hcl; [|done].
      unfold clear_cycle_and_entry_recovery in Hcl. apply replace_state_parts in Hcl as [-> _].
      rewrite Hpc. apply resolved_save; [done|done|apply Hres; by rewrite Hex|].
      apply keeps_cycle_ended. unfold ENTRY_CYCLE_END_REASONS. set_solver.
    + apply wp_ret. eapply resolved_same; [exact Hs1|done|]. apply Hres. by rewrite Hex.
  - apply wp_if; intros _; [|by apply wp_lift].
    apply wp_ret, wp_ret. eapply resolved_same; [exact Hs1|done|]. by apply Hres.
Qed.

Lemma keeps_terminal d k response :
  keeps_store (_journal_terminal_without_fill self d k response : M R W unit).
Proof.
  unfold _journal_terminal_without_fill. destruct response; try apply keeps_ret.
  apply keeps_cycle_ended. unfold ENTRY_CYCLE_END_REASONS. set_solver.
Qed.

Lemma terminal_resolution s s1 d k k' response cancel :
  same_content (sys_repo s) (sys_repo s1) -> st_pending_close_recovery d = None ->
  resolves self d k (Ok response) cancel (with_parts d None None None) ->
  wp (cleared ← lift (clear_cycle_and_entry_recovery d);
      _ ← save cleared;
      _journal_terminal_without_fill self d k' response)
    (left_resolved d k (Ok response) cancel) (left_alone s) s1.
Proof.
  intros Hs1 Hpc Hr. apply wp_bind, wp_lift.
  destruct (clear_cycle_and_entry_recovery d) eqn:Hcl; [|done].
  unfold clear_cycle_and_entry_recovery in Hcl. apply replace_state_parts in Hcl as [-> _].
  rewrite Hpc. apply resolved_save; [done|done|done|apply keeps_terminal].
Qed.

Lemma apply_resolution s s1 d k response cancel :
  same_content (sys_repo s) (sys_repo s1) -> cancel_answers d k (sys_world s1) cancel ->
  repo_lookup (sys_repo s) (st_strategy_instance_id d) = Some d ->
  st_current_trade_cycle d = None -> st_pending_close_recovery d = None ->
  wp (_resolve_uncertain_apply self d k response)
    (left_resolved d k (Ok response) cancel) (left_alone s) s1.
Proof.
  intros Hs1 Hcancel Hd Hc Hpc. unfold _resolve_uncertain_apply.
  destruct response as [p| |p| |]; 
    try (apply terminal_resolution; [done|done|]; simpl; first [done|by rewrite Hc]).
  - apply wp_bind, wp_lift. destruct (reconstruct_cycle d k p) eqn:Hr; [|done].
    pose proof (reconstruct_cycle_Ok _ _ _ _ Hr) as (c & Hb & -> & Hv). rewrite Hpc in *.
    apply resolved_save; [done|done| |apply keeps_ret].
    simpl. rewrite Hc. exists c. split_and!; [done|by eapply build_cycle_Ok|done].
  - eapply corrective_cancel; try done. intros d' ->. simpl. by rewrite Hc.
  - apply wp_bind, wp_lift. destruct (reconstruct_cycle d k _) as [r1|] eqn:Hr; [|done].
    pose proof (reconstruct_cycle_Ok _ _ _ _ Hr) as (c & Hb & -> & Hv). rewrite Hpc in *.
    apply wp_bind, wp_lift. destruct (freeze _ _ _ _) as [d'|] eqn:Hf; [|done].
    pose proof (freeze_identity _ _ _ _ _ Hf) as Hid.
    apply resolved_save; [done|done| |apply keeps_journal].
    simpl. rewrite Hc. exists c. split_and!; [done|by eapply build_cycle_Ok|done].
Qed.

Lemma removal_resolution s s1 d c k response cancel :
  same_content (sys_repo s) (sys_repo s1) -> cancel_answers d k (sys_world s1) cancel ->
  repo_lookup (sys_repo s) (st_strategy_instance_id d) = Some d ->
  st_current_trade_cycle d = Some c -> tc_trade_cycle_id c = k ->
  st_pending_close_recovery d = None ->
  wp (_resolve_uncertain_removal self d c response)
    (left_resolved d k (Ok response) cancel) (left_alone s) s1.
Proof.
  intros Hs1 Hcancel Hd Hc Hk Hpc. unfold _resolve_uncertain_removal. rewrite Hk.
  destruct response as [p| |p| |]; 
    try (apply terminal_resolution; [done|done|]; simpl; first [done|by rewrite Hc]).
  - eapply corrective_cancel; try done. intros d' ->. simpl. by rewrite Hc.
  - apply wp_ret. eapply resolved_same; [exact Hs1|done|]. simpl. by rewrite Hc.
  - apply wp_bind, wp_lift. destruct (replace_pending_entry_recovery d None) eqn:Hr; [|done].
    apply replace_state_parts in Hr as [-> _]. rewrite Hc, Hpc.
    apply resolved_save; [done|done| |apply keeps_ret]. simpl. by rewrite Hc.
Qed.

(** C12. One attempt on an instance whose entry or removal is of unknown fate leaves in
    the store exactly what ABI's answers prove (see [resolves]): the marker is cleared only
    on a terminal order, a live order or a position whose cycle is rebuilt, a removal that
    came too late, or the exact formal absence that ABI confirms for this instance and
    cycle; without an answer, or on anything else, the instance stays as it was. *)
Theorem pending_entry_resolution s s' d k answer cancel o :
  repo_lookup (sys_repo s) (st_strategy_instance_id d) = Some d -> valid_state d ->
  st_pending_entry_recovery d = Some {| pe_trade_cycle_id := k |} ->
  (port_query (st_strategy_instance_id d) k (sys_world s)).2 = answer ->
  cancel_answers d k (port_query (st_strategy_instance_id d) k (sys_world s)).1 cancel ->
  attempt self (st_strategy_instance_id d) s = (s', o) ->
  match o with
  | Ok _ => exists d', repo_lookup (sys_repo s') (st_strategy_instance_id d) = Some d' /\
      resolves self d k answer cancel d'
  | Raise _ => same_content (sys_repo s) (sys_repo s')
  end.
Proof.
  intros Hd Hv Hpe Hquery Hcancel Hrun.
  assert (wp (attempt self (st_strategy_instance_id d)) (left_resolved d k answer cancel)
            (left_alone s) s) as Hwp; [|apply (wp_run _ _ _ _ _ _ Hwp Hrun)].
  apply wp_hold_wait; [|done]. destruct (valid_markers _ Hv) as [Hpk Hx].
  assert (st_pending_close_recovery d = None) as Hpc.
  { destruct (st_pending_close_recovery d) as [x|] eqn:Hpc; [|done].
    destruct (Hx x eq_refl) as [Hn _]. congruence. }
  apply wp_bind, wp_get; simpl; [|done]. intros r Hr. rewrite Hd, Hpc, Hpe.
  unfold _resolve_pending_entry. simpl. apply wp_bind, wp_catch, wp_bind.
  eapply wp_call_at; [apply surjective_pairing|]. simpl. rewrite Hquery.
  destruct answer as [a|x].
  - apply wp_ret. destruct (st_current_trade_cycle d) as [c|] eqn:Hc.
    + eapply removal_resolution; try done. by specialize (Hpk _ _ Hpe eq_refl).
    + by eapply apply_resolution.
  - apply wp_if; intros _; [|by apply wp_lift]. apply wp_ret, wp_ret.
    eapply (resolved_same s); done.
Qed.
End resolution.

Definition sample_resolver : UncertainExchangeStateResolver :=
  {| ur_trade_cycle_closed_journal := true; ur_trade_cycle_opened_journal := true;
     ur_entry_cycle_ended_journal := true;
     ur_first_fill_freezer := {| ff_order_lifetime_bars := None |} |}.

(** ABI answers the query with [answer] and the corrective cancel with [cancel]. *)
Definition recovery_script (answer : RecoveryStateResponse) (cancel : EntryPackageResult) :
    script :=
  Script [] [Ok cancel] [Ok answer] [] [] [] [] [] [] [] [] [] true.

Lemma pending_entry_resolution_witness : exists s' o,
  attempt sample_resolver "i1"
    (holding uncertain_state (recovery_script EntryOrderNotFound (sample_absent "c1"))) = (s', o) /\
  match o with
  | Ok _ => exists d', repo_lookup (sys_repo s') "i1" = Some d' /\
      resolves sample_resolver uncertain_state "c1" (Ok EntryOrderNotFound)
        (Ok (sample_absent "c1")) d' /\ st_pending_entry_recovery d' = None
  | Raise _ => False
  end.
Proof.
  eexists _, _. split; [apply surjective_pairing|].
  pose proof (pending_entry_resolution sample_resolver
    (holding uncertain_state (recovery_script EntryOrderNotFound (sample_absent "c1")))
    _ uncertain_state "c1" (Ok EntryOrderNotFound) (Ok (sample_absent "c1")) _
    eq_refl eq_refl eq_refl eq_refl eq_refl (surjective_pairing _)) as Hres.
  destruct (attempt _ _ _) as [s' [u|e]] eqn:Hrun; simpl in *.
  - destruct Hres as (d' & Hd' & Hr). exists d'. split; [exact Hd'|]. split; [exact Hr|].
    by rewrite Hr.
  - vm_compute in Hrun. discriminate.
Defined.

(** The close that ABI confirms for this instance and cycle. *)
Definition confirms_close (d : StrategyInstanceRuntimeState) (k : string)
    (answer : result PositionClosedConfirmation) : bool :=
  match answer with
  | Ok c => bool_decide (pcc_strategy_instance_id c = st_strategy_instance_id d)
            && bool_decide (pcc_trade_cycle_id c = k)
  | Raise _ => false
  end.

Lemma close_confirmation_cases d c k sig cmd conf :
  valid_state d -> st_current_trade_cycle d = Some c -> tc_trade_cycle_id c = k ->
  st_pending_entry_recovery d = None ->
  cpc_strategy_instance_id cmd = st_strategy_instance_id d -> cpc_trade_cycle_id cmd = k ->
  match apply_position_management_confirmation d (ClosePosition k sig)
          (CommandClosePosition cmd) (ConfirmedClose conf) with
  | Ok d' => confirms_close d k (Ok conf) = true /\ d' = with_parts d None None None
  | Raise e => confirms_close d k (Ok conf) = false
  end.
Proof.
  intros Hv Hc Hk Hpe Hci Hck. destruct (confirms_close d k (Ok conf)) eqn:Hcc; simpl in Hcc.
  - apply andb_true_iff in Hcc as [H1 H2]. apply bool_decide_eq_true in H1, H2.
    unfold apply_position_management_confirmation, _require_common_identity, _close_position,
      _require_current_cycle, _require_cycle_identity. simpl.
    rewrite Hc, H1, Hci. simpl. rewrite Hk, Hck, H2, !bool_decide_true by done. simpl.
    unfold clear_cycle_and_close_recovery. by rewrite replace_state_total, Hpe.
  - destruct (apply_position_management_confirmation _ _ _ _) as [d'|e] eqn:Ha; [|done].
    apply management_confirmation_Ok in Ha
      as (c' & Hc' & _ & Hid & sent & conf' & _ & [= <-] & Hk' & _ & Hkk & _).
    simpl in Hid. by rewrite Hid, Hkk, !bool_decide_true in Hcc.
Qed.

(** C13. One attempt on an instance whose close is of unknown fate repeats the
    close of the marked cycle at ABI, and ends the cycle exactly when ABI confirms the
    close of this instance and this cycle; on any other answer of ABI the marker stays and
    the next attempt repeats it. An error outside the contract leaves the store alone. *)
Theorem pending_close_resolution {R W} `{Repository R} `{!RepositoryLaws R} `{Ports W}
    (self : UncertainExchangeStateResolver) (s s' : sys R W) d k answer o :
  repo_lookup (sys_repo s) (st_strategy_instance_id d) = Some d -> valid_state d ->
  st_pending_close_recovery d = Some {| pc_trade_cycle_id := k |} ->
  (port_close_position {| cpc_strategy_instance_id := st_strategy_instance_id d;
     cpc_trade_cycle_id := k; cpc_exposure_fraction := CANONICAL_CLOSE_EXPOSURE_FRACTION |}
     (sys_world s)).2 = answer ->
  attempt self (st_strategy_instance_id d) s = (s', o) ->
  match o with
  | Ok _ => repo_lookup (sys_repo s') (st_strategy_instance_id d) =
      Some (if confirms_close d k answer then with_parts d None None None else d)
  | Raise _ => same_content (sys_repo s) (sys_repo s')
  end.
Proof.
  intros Hd Hv Hpc Hport Hrun. destruct (valid_markers _ Hv) as [_ Hx].
  destruct (Hx _ Hpc) as (Hpe & c & Hc & Hk). simpl in Hk.
  set (Q := fun (_ : unit) (s' : sys R W) => repo_lookup (sys_repo s') (st_strategy_instance_id d) =
      Some (if confirms_close d k answer then with_parts d None None None else d)).
  assert (wp (attempt self (st_strategy_instance_id d)) Q (left_alone s) s) as Hwp;
    [|apply (wp_run _ _ _ _ _ _ Hwp Hrun)].
  apply wp_hold_wait; [|done]. apply wp_bind, wp_get; simpl; [|done]. intros r Hr.
  rewrite Hd, Hpc. unfold _resolve_pending_close. rewrite Hpc. apply wp_bind, wp_ret. simpl.
  apply wp_bind, wp_lift. destruct (ClosePositionCommand_post_init _) as [cmd|] eqn:Hcmd; [|done].
  apply close_command_post_init_Ok in Hcmd as ->. apply wp_bind, wp_catch, wp_bind.
  eapply wp_call_at; [apply surjective_pairing|]. simpl. rewrite Hport.
  destruct answer as [conf|x].
  2: { apply wp_if; intros _; [|by apply wp_lift]. apply wp_ret, wp_ret. unfold Q. simpl.
       by rewrite Hr. }
  apply wp_ret, wp_bind, wp_lift.
  destruct (PositionManagementDecision_post_init _) as [dec|] eqn:Hdec; [|done].
  apply pm_decision_post_init_Ok in Hdec as ->. apply wp_bind, wp_catch, wp_bind, wp_lift.
  pose proof (close_confirmation_cases d c k active_close_signal
    {| cpc_strategy_instance_id := st_strategy_instance_id d; cpc_trade_cycle_id := k;
       cpc_exposure_fraction := CANONICAL_CLOSE_EXPOSURE_FRACTION |} conf Hv Hc) as Hcase.
  destruct (apply_position_management_confirmation _ _ _ _) as [d'|e].
  - destruct Hcase as [Hconf ->]; [done..|]. apply wp_ret, wp_bind, wp_save.
    + intros r2 Hst. simpl in Hst. destruct (pcc_closure conf); [apply wp_journal|apply wp_ret];
        unfold Q; rewrite Hconf; simpl; by rewrite Hst, decide_True.
    + intros r2 e2 Hst i. simpl in *. by rewrite Hst.
  - specialize (Hcase (eq_sym Hk) Hpe eq_refl eq_refl). unfold Q.
    destruct (exn_cls e); try by apply wp_lift. apply wp_ret, wp_ret.
    rewrite Hcase. simpl. by rewrite Hr.
Qed.

Definition closing_state : StrategyInstanceRuntimeState :=
  sample_state (Some (sample_cycle (Some sample_frozen))) None
    (Some {| pc_trade_cycle_id := "c1" |}).

Definition close_script (answer : PositionClosedConfirmation) : script :=
  Script [] [] [] [] [Ok answer] [] [] [] [] [] [] [] true.

Lemma pending_close_resolution_witness : exists s' o,
  attempt sample_resolver "i1" (holding closing_state (close_script sample_closed)) = (s', o) /\
  match o with
  | Ok _ => repo_lookup (sys_repo s') "i1" = Some (with_parts closing_state None None None)
  | Raise _ => same_content (sys_repo (holding closing_state quiet)) (sys_repo s')
  end.
Proof.
  eexists _, _. split; [apply surjective_pairing|].
  apply (pending_close_resolution sample_resolver
    (holding closing_state (close_script sample_closed)) _ closing_state "c1"
    (Ok sample_closed)); [reflexivity..|apply surjective_pairing].
Defined.

Definition has_marker (o : option StrategyInstanceRuntimeState) : Prop :=
  match o with
  | Some d => st_pending_entry_recovery d <> None \/ st_pending_close_recovery d <> None
  | None => False
  end.

Lemma attempt_each_fold {R W} `{Repository R} `{Ports W}
    (self : UncertainExchangeStateResolver) running ids (s : sys R W) :
  attempt_each self running ids s =
    (fold_left (fun s id => (attempt self id s).1) (take running ids) s, Ok tt).
Proof.
  revert running s. induction ids as [|id ids IH]; intros running s; [by destruct running|].
  destruct running as [|running]; [done|]. simpl. rewrite <- IH.
  rewrite run_bind, run_catch. by destruct (attempt self id s) as [s' []].
Qed.

(** One tick, when the repository lists the marked instances, attempts each instance
    that has a marker exactly once, each on the system its predecessors left; an attempt
    that raises keeps no other from its turn, and the tick returns. A stop (after [running]
    instances) cuts it short. *)
Theorem tick_attempts_every_marked_instance {R W} `{Repository R} `{!RepositoryLaws R} `{Ports W}
    (self : UncertainExchangeStateResolver) (running : nat) (s : sys R W) r1 r2 entry_ids close_ids :
  repo_list_ids_with_pending_entry_recovery (sys_repo s) = (r1, Ok entry_ids) ->
  repo_list_ids_with_pending_close_recovery r1 = (r2, Ok close_ids) ->
  exists pending, NoDup pending /\
    (forall id, id ∈ pending <-> has_marker (repo_lookup (sys_repo s) id)) /\
    _tick self running s =
      (fold_left (fun s id => (attempt self id s).1) (take running pending)
         (Sys r2 (sys_world s) (sys_trace s)), Ok tt).
Proof.
  intros He Hc. exists (fromkeys (entry_ids ++ close_ids)).
  destruct (fromkeys_spec (entry_ids ++ close_ids)) as [Hn Hm]. split_and!; [done| |].
  - intros id. rewrite Hm, elem_of_app. apply list_entry_ok in He as [Hs1 He].
    apply list_close_ok in Hc as [Hs2 Hc]. rewrite He, Hc, Hs1.
    destruct (repo_lookup (sys_repo s) id) as [d|]; simpl; naive_solver.
  - rewrite <- attempt_each_fold. unfold _tick. rewrite run_bind, run_on_repo, He.
    cbv iota beta. rewrite run_bind, run_on_repo. simpl. by rewrite Hc.
Qed.

Lemma tick_attempts_every_marked_instance_witness : exists pending,
  (forall id, id ∈ pending <->
     has_marker (repo_lookup (sys_repo (holding closing_state (close_script sample_closed))) id)) /\
  _tick sample_resolver 5 (holding closing_state (close_script sample_closed)) =
    (fold_left (fun s id => (attempt sample_resolver id s).1) (take 5 pending)
       (holding closing_state (close_script sample_closed)), Ok tt).
Proof.
  destruct (tick_attempts_every_marked_instance sample_resolver 5
    (holding closing_state (close_script sample_closed))
    (sys_repo (holding closing_state quiet)) (sys_repo (holding closing_state quiet))
    [] ["i1"]) as (pending & _ & Hm & Ht); [vm_compute; reflexivity..|].
  exists pending. split; [exact Hm|exact Ht].
Defined.
