(* ===== verification/EnabledControl.v ===== *)
(** Operator actions on one strategy instance: the shared cancel step
    (runtime/enabled_control/cancel_step.py), enable/disable
    (runtime/enabled_control/service.py), delete (runtime/strategy_delete/service.py),
    close position and cancel entry orders (runtime/operator_commands/service.py), and the
    read-only trade state (runtime/trading_state/service.py). *)
From S2P Require Import Prelude Errors DecimalText Models Contracts Effects FirstFill.
From S2P Require Import Repository Scripted Protocol ProtocolRules RuntimeOrchestrator.
From S2P Require Import EntryReconciliation Routing EntryOrchestrator PositionManagement.
From S2P Require Import UncertainResolver.

(** [raise cls()] of an [EnabledControlRefused]: its message is its [reason]. *)
Definition refusal_exn (c : exn_class) : exn :=
  Exn c (match refusal c with Some (_, reason) => reason | None => EmptyString end).

Record EnabledChangeResult := {
  ch_strategy_instance_id : string;
  ch_enabled : bool;
  ch_cancelled_entry_order : bool }.

Record DeleteResult := {
  dr_strategy_instance_id : string;
  dr_cancelled_entry_order : bool;
  dr_trash_file : string }.

Record ClosePositionResult := {
  cr_strategy_instance_id : string;
  cr_trade_cycle_id : string;
  cr_enabled : bool;
  cr_closure_reason : option string }.

Record CancelEntryOrdersResult := {
  co_strategy_instance_id : string;
  co_enabled : bool;
  co_cancelled_entry_order : bool }.

Record StrategyOperatorCommandsService := {
  os_trade_cycle_closed_journal : bool;
  os_trade_cycle_opened_journal : bool;
  os_first_fill_freezer : FirstFillFreezer }.

Section control.
Context {R W : Type} `{Repository R} `{Ports W}.

Definition refuse {A} (c : exn_class) : M R W A := lift (Raise (refusal_exn c)).

(** [except cls as exc: raise r from exc], for the first [cls] that matches. *)
Definition translate {A} (m : M R W A) (rules : exn_class -> option exn_class) : M R W A :=
  catch m (fun exc => match rules (exn_cls exc) with
                      | Some c => refuse c
                      | None => lift (Raise exc)
                      end).

(** enabled_control/cancel_step.py, [EntryOrderCancelStep.run] *)
Definition cancel_step_run (entry_cycle_ended_journal : bool)
    (strategy_instance_id : string) : M R W bool :=
  state ← get strategy_instance_id;
  match state with
  | None => mret false
  | Some state =>
      if is_some (st_pending_entry_recovery state) || is_some (st_pending_close_recovery state)
      then refuse RecoveryPending
      else
        match st_current_trade_cycle state with
        | None => mret false
        | Some cycle =>
            resolved ← translate (resolve state) (fun c =>
              if is_open_position_resolution_error c then Some AbiUnavailable else None);
            if ps_position_open resolved then refuse PositionOpen
            else if is_some (ps_closure resolved) then refuse CycleNotSettled
            else
              cancel_result ← translate
                (recovery_cancel strategy_instance_id (tc_trade_cycle_id cycle)
                   (rs_instrument (st_registered_spec_snapshot state))
                   (st_risk_multiplier state))
                (fun c => if is_abi_entry_package_client_error c then Some AbiUnavailable
                          else None);
              if negb (is_exact_absent cancel_result strategy_instance_id
                         (tc_trade_cycle_id cycle))
              then refuse CancelNotConfirmed
              else
                cleared ← lift (replace_current_trade_cycle state None);
                _ ← save cleared;
                _ ← journal_entry_cycle_ended entry_cycle_ended_journal
                  strategy_instance_id (tc_trade_cycle_id cycle) None DISABLED;
                mret true
        end
  end.

(** [_require_in_catalog], [_current_enabled] and [_deployment]: load the catalog and
    find the instance in it. *)
Definition catalog_deployment (strategy_instance_id : string) :
    M R W DeploymentSpecification :=
  snapshot ← translate load_snapshot (fun c =>
    match c with
    | DeploymentCatalogUnavailableError => Some CatalogUnavailable
    | _ => None
    end);
  match get_by_strategy_instance_id snapshot strategy_instance_id with
  | None => refuse StrategyInstanceNotFound
  | Some deployment => mret deployment
  end.

Definition _current_enabled (strategy_instance_id : string) : M R W bool :=
  deployment ← catalog_deployment strategy_instance_id;
  mret (ds_enabled deployment).

(** The [except] clauses of [_write] and [_write_disabled]. *)
Definition write_rules (c : exn_class) : option exn_class :=
  match c with
  | DeploymentNotInCatalog => Some StrategyInstanceNotFound
  | DeploymentFileChanged => Some FileChanged
  | DeploymentIdentityWouldChange => Some IdentityChanged
  | _ => if is_enabled_file_change_error c then Some WriteFailed else None
  end.

Definition _write (strategy_instance_id : string) (enabled : bool) : M R W () :=
  _ ← translate (set_enabled_file strategy_instance_id enabled) write_rules;
  mret tt.

(** [with self._locked(id)], and the [try: with hold(...) except StrategyInstanceBusy] of
    the other services. *)
Definition _locked {A} (strategy_instance_id : string) (body : M R W A) : M R W A :=
  translate (hold strategy_instance_id true body) (fun c =>
    match c with StrategyInstanceBusy => Some InstanceBusy | _ => None end).

(** enabled_control/service.py *)
Definition _set_enabled_locked (journal_present : bool) (strategy_instance_id : string)
    (enabled : bool) : M R W EnabledChangeResult :=
  current ← _current_enabled strategy_instance_id;
  if Bool.eqb current enabled then
    mret {| ch_strategy_instance_id := strategy_instance_id; ch_enabled := enabled;
            ch_cancelled_entry_order := false |}
  else
    cancelled ← (if enabled then mret false
                 else cancel_step_run journal_present strategy_instance_id);
    _ ← _write strategy_instance_id enabled;
    mret {| ch_strategy_instance_id := strategy_instance_id; ch_enabled := enabled;
            ch_cancelled_entry_order := cancelled |}.

Definition set_enabled (journal_present : bool) (strategy_instance_id : string)
    (enabled : bool) : M R W EnabledChangeResult :=
  _ ← _current_enabled strategy_instance_id;
  _locked strategy_instance_id
    (_set_enabled_locked journal_present strategy_instance_id enabled).

(** strategy_delete/service.py *)
Definition delete_rules (c : exn_class) : option exn_class :=
  match c with
  | DeploymentNotInCatalog => Some StrategyInstanceNotFound
  | DeploymentFileChanged => Some FileChanged
  | DeploymentTrashNameTaken => Some TrashNameTaken
  | DeploymentTrashMoveFailed => Some MoveFailed
  | _ => if is_enabled_file_change_error c then Some MoveFailed else None
  end.

Definition _guard {A} (action : M R W A) : M R W A := translate action delete_rules.

Definition _delete_locked (journal_present : bool) (strategy_instance_id : string) :
    M R W DeleteResult :=
  deployment ← catalog_deployment strategy_instance_id;
  if ds_enabled deployment then refuse StillEnabled
  else
    original ← _guard (read_original strategy_instance_id);
    cancelled ← cancel_step_run journal_present strategy_instance_id;
    trash_file ← _guard (move_to_trash strategy_instance_id original);
    mret {| dr_strategy_instance_id := strategy_instance_id;
            dr_cancelled_entry_order := cancelled; dr_trash_file := trash_file |}.

Definition delete_instance (journal_present : bool) (strategy_instance_id : string) :
    M R W DeleteResult :=
  _ ← catalog_deployment strategy_instance_id;
  _locked strategy_instance_id (_delete_locked journal_present strategy_instance_id).

(** operator_commands/service.py *)
Context (self : StrategyOperatorCommandsService).

Definition _write_disabled (strategy_instance_id : string) : M R W () :=
  _write strategy_instance_id false.

(** The freeze of a fill that no bar has frozen yet, in [_close_locked]. *)
Definition freeze_before_close (strategy_instance_id : string)
    (state : StrategyInstanceRuntimeState) (cycle : CurrentTradeCycle)
    (resolved : PositionResolvedStrategyInstanceRuntimeState) :
    M R W StrategyInstanceRuntimeState :=
  if is_some (tc_frozen_entry_context cycle) then mret state
  else
    first_fill_at_ms ← assert_some (ps_first_fill_at_ms resolved);
    frozen ← lift (freeze (os_first_fill_freezer self) state (tc_trade_cycle_id cycle)
                     first_fill_at_ms);
    state ← save frozen;
    _ ← match ps_average_entry_price resolved, ps_entry_order_link_id resolved with
        | Some average_entry_price, Some entry_order_link_id =>
            journal_trade_cycle_opened (os_trade_cycle_opened_journal self)
              strategy_instance_id (tc_trade_cycle_id cycle) None first_fill_at_ms
              average_entry_price entry_order_link_id (ps_entry_order_id resolved)
        | _, _ => mret tt
        end;
    mret state.

(** The end of [_close_locked]: disable, mark, close, and end the cycle on confirmation. *)
Definition disable_mark_close (strategy_instance_id : string)
    (state : StrategyInstanceRuntimeState) (trade_cycle_id : string) :
    M R W ClosePositionResult :=
  _ ← _write_disabled strategy_instance_id;
  command ← lift (ClosePositionCommand_post_init
    {| cpc_strategy_instance_id := strategy_instance_id;
       cpc_trade_cycle_id := trade_cycle_id;
       cpc_exposure_fraction := CANONICAL_CLOSE_EXPOSURE_FRACTION |});
  marker ← lift (PendingCloseRecovery_post_init
    {| pc_trade_cycle_id := trade_cycle_id |});
  marked ← lift (replace_pending_close_recovery state (Some marker));
  pending ← save marked;
  confirmation ← translate (close_position command) (fun c =>
    if is_position_management_execution_error c then Some AbiUnavailable
    else None);
  if negb (bool_decide (pcc_strategy_instance_id confirmation =
                        strategy_instance_id))
     || negb (bool_decide (pcc_trade_cycle_id confirmation =
                           trade_cycle_id))
  then refuse AbiUnavailable
  else
    closed ← lift (clear_cycle_and_close_recovery pending);
    _ ← save closed;
    _ ← match pcc_closure confirmation with
        | Some closure => journal_trade_cycle_closed
            (os_trade_cycle_closed_journal self) closure None
        | None => mret tt
        end;
    mret {| cr_strategy_instance_id := strategy_instance_id;
            cr_trade_cycle_id := trade_cycle_id;
            cr_enabled := false;
            cr_closure_reason :=
              match pcc_closure confirmation with
              | Some closure => Some (cl_reason closure)
              | None => None
              end |}.

Definition _close_locked (strategy_instance_id : string) : M R W ClosePositionResult :=
  state ← get strategy_instance_id;
  match state with
  | None => refuse NoPosition
  | Some state =>
      if is_some (st_pending_entry_recovery state) || is_some (st_pending_close_recovery state)
      then refuse RecoveryPending
      else
        match st_current_trade_cycle state with
        | None => refuse NoPosition
        | Some _ =>
            resolved ← translate (resolve state) (fun c =>
              if is_open_position_resolution_error c then Some AbiUnavailable else None);
            if is_some (ps_closure resolved) then refuse CycleNotSettled
            else if negb (ps_position_open resolved) then refuse NoPosition
            else
              let state := ps_runtime_state resolved in
              cycle ← assert_some (st_current_trade_cycle state);
              state ← freeze_before_close strategy_instance_id state cycle resolved;
              disable_mark_close strategy_instance_id state (tc_trade_cycle_id cycle)
        end
  end.

Definition operator_close_position (strategy_instance_id : string) :
    M R W ClosePositionResult :=
  _ ← catalog_deployment strategy_instance_id;
  _locked strategy_instance_id (_close_locked strategy_instance_id).

Definition cancel_entry_orders (journal_present : bool) (strategy_instance_id : string) :
    M R W CancelEntryOrdersResult :=
  _ ← catalog_deployment strategy_instance_id;
  _locked strategy_instance_id
    (cancelled ← cancel_step_run journal_present strategy_instance_id;
     _ ← _write_disabled strategy_instance_id;
     mret {| co_strategy_instance_id := strategy_instance_id; co_enabled := false;
             co_cancelled_entry_order := cancelled |}).
End control.

(** * trading_state *)

Inductive TradeState := FLAT | ENTRY_PENDING | IN_POSITION.
Inductive RecoveryKind := recovery_entry | recovery_close.

#[export] Instance TradeState_eq_dec : EqDecision TradeState.
Proof. solve_decision. Defined.

Record StrategyInstanceTradingState := {
  ti_strategy_instance_id : string;
  ti_trade_state : TradeState;
  ti_trade_cycle_id : option string;
  ti_side : option side;
  ti_first_fill_at_ms : option Z;
  ti_recovery_pending : option RecoveryKind }.

Definition _describe (strategy_instance_id : string)
    (state : option StrategyInstanceRuntimeState) : StrategyInstanceTradingState :=
  let flat recovery :=
    {| ti_strategy_instance_id := strategy_instance_id; ti_trade_state := FLAT;
       ti_trade_cycle_id := None; ti_side := None; ti_first_fill_at_ms := None;
       ti_recovery_pending := recovery |} in
  match state with
  | None => flat None
  | Some state =>
      let recovery :=
        match st_pending_entry_recovery state, st_pending_close_recovery state with
        | Some _, _ => Some recovery_entry
        | None, Some _ => Some recovery_close
        | None, None => None
        end in
      match st_current_trade_cycle state with
      | None => flat recovery
      | Some cycle =>
          let frozen := tc_frozen_entry_context cycle in
          {| ti_strategy_instance_id := strategy_instance_id;
             ti_trade_state := match frozen with None => ENTRY_PENDING | Some _ => IN_POSITION end;
             ti_trade_cycle_id := Some (tc_trade_cycle_id cycle);
             ti_side := Some (de_side (tc_desired_entry cycle));
             ti_first_fill_at_ms :=
               match frozen with None => None | Some f => Some (fc_first_fill_at_ms f) end;
             ti_recovery_pending := recovery |}
      end
  end.

Section trading_state.
Context {R W : Type} `{Repository R} `{Ports W}.

Fixpoint describe_each (deployments : list DeploymentSpecification) :
    M R W (list StrategyInstanceTradingState) :=
  match deployments with
  | [] => mret []
  | deployment :: deployments =>
      let id := ds_strategy_instance_id deployment in
      state ← catch (get id) (fun exc =>
        let c := exn_cls exc in
        if is_strategy_instance_state_error c || is_os_error c || is_value_error c
        then throw StateUnavailable EmptyString else lift (Raise exc));
      items ← describe_each deployments;
      mret (_describe id state :: items)
  end.

Definition list_trading_states : M R W (list StrategyInstanceTradingState) :=
  snapshot ← catch load_snapshot (fun exc =>
    match exn_cls exc with
    | DeploymentCatalogUnavailableError => throw TradingStateCatalogUnavailable EmptyString
    | _ => lift (Raise exc)
    end);
  describe_each (sn_accepted_deployments snapshot).
End trading_state.

(** * The protocol *)

(** An aggregate that leaves nothing on the exchange: no cycle and no marker. *)
Definition idle (o : option StrategyInstanceRuntimeState) : Prop :=
  match o with
  | None => True
  | Some d => unmarked d /\ st_current_trade_cycle d = None
  end.

Lemma idle_disable o i : idle o -> permitted o (EvSetEnabled i false).
Proof. destruct o as [d|]; intros Hi; right; simpl in *; [|done]. by destruct Hi as [? ->]. Qed.

Section protocol.
Context {R W : Type} `{Repository R} `{!RepositoryLaws R} `{Ports W}.
Context (id : string).
Implicit Types s : sys R W.

Lemma inside_translate {A} (m : M R W A) rules Q s :
  inside id m Q broke s -> inside id (translate m rules) Q broke s.
Proof.
  intros Hm. unfold translate. apply inside_catch. eapply inside_mono; [exact Hm|done|].
  intros e s' Hs'. destruct (rules (exn_cls e)); by apply inside_lift.
Qed.

Lemma refuse_spec {A} c o (Q : A -> sys R W -> Prop) s :
  within id o s -> inside id (refuse c) Q broke s.
Proof. intros Hw. apply inside_lift. runs_done. Qed.

(** After the cancel step returns, nothing of the strategy is left on the exchange. *)
Lemma cancel_step_spec b o s :
  within id o s -> (forall d, o = Some d -> st_strategy_instance_id d = id) ->
  inside id (cancel_step_run b id)
    (fun _ s' => exists o', within id o' s' /\ idle o') broke s.
Proof.
  intros Hw Hid. unfold cancel_step_run. apply inside_bind. pget Hw.
  destruct o as [d|]; [|apply inside_ret; by exists None]. specialize (Hid d eq_refl).
  apply inside_if; intros Hm; [by eapply refuse_spec|]. apply orb_false_iff in Hm as [Hpe Hpc].
  assert (unmarked d) as Hu.
  { split; [by destruct (st_pending_entry_recovery d)|by destruct (st_pending_close_recovery d)]. }
  destruct (st_current_trade_cycle d) as [c|] eqn:Hc; [|apply inside_ret; exists (Some d); by split].
  apply inside_bind, inside_translate. eapply inside_mono; [eapply (resolve_spec id d _ broke)| |done]; try done.
  clear Hw. intros p s1 (Hw & _ & _).
  apply inside_if; intros _; [by eapply refuse_spec|].
  apply inside_if; intros _; [by eapply refuse_spec|].
  apply inside_bind, inside_translate. eapply recovery_cancel_spec; [exact Hw| | |].
  - right. split; [done|]. by exists c.
  - clear Hw. intros r s2 Hw. apply inside_if; intros _; [by eapply refuse_spec|].
    apply inside_bind. plift. unfold replace_current_trade_cycle in *.
    match goal with Er : replace_state _ _ _ _ = Ok _ |- _ =>
      apply replace_state_parts in Er as [-> Hv] end.
    destruct Hu as [Hpe' Hpc']. rewrite Hpe', Hpc' in *.
    apply inside_bind. psave Hw.
    { eapply durable_parts; [done..|]. rewrite Hc, Hpe', Hpc'. apply cycle_ended. }
    apply inside_bind. eapply journal_entry_cycle_ended_spec; [exact Hw|].
    clear Hw. intros s3 Hw. apply inside_ret. eexists. split; [exact Hw|]. done.
  - clear Hw. intros e s2 Hw. runs_done.
Qed.

Lemma catalog_deployment_spec k o (Q : DeploymentSpecification -> sys R W -> Prop) s :
  within id o s -> (forall d s', within id o s' -> Q d s') ->
  inside id (catalog_deployment k) Q broke s.
Proof.
  intros Hw HQ. unfold catalog_deployment. apply inside_bind, inside_translate.
  pworld Hw. destruct (get_by_strategy_instance_id _ _); [by apply inside_ret, HQ|].
  by eapply refuse_spec.
Qed.

Lemma write_spec enabled o (Q : () -> sys R W -> Prop) s :
  within id o s -> permitted o (EvSetEnabled id enabled) ->
  (forall s', within id o s' -> Q tt s') ->
  inside id (_write id enabled) Q broke s.
Proof.
  intros Hw Hp HQ. unfold _write. apply inside_bind, inside_translate.
  pcall Hw. by apply inside_ret, HQ.
Qed.

Lemma set_enabled_locked_spec b enabled o s :
  within id o s -> (forall d, o = Some d -> st_strategy_instance_id d = id) ->
  inside id (_set_enabled_locked b id enabled) kept broke s.
Proof.
  intros Hw Hid. unfold _set_enabled_locked, _current_enabled. apply inside_bind, inside_bind.
  eapply catalog_deployment_spec; [exact Hw|]. clear Hw. intros d s1 Hw. apply inside_ret.
  apply inside_if; intros _; [apply inside_ret; by runs_done|].
  apply inside_bind. destruct enabled.
  - apply inside_ret, inside_bind. eapply write_spec; [exact Hw|by left|].
    clear Hw. intros s2 Hw. apply inside_ret. by runs_done.
  - eapply inside_mono; [by eapply cancel_step_spec|clear Hw|done].
    intros cancelled s2 (o' & Hw & Hi). apply inside_bind.
    eapply write_spec; [exact Hw|by apply idle_disable|].
    clear Hw. intros s3 Hw. apply inside_ret. by runs_done.
Qed.

Lemma delete_locked_spec b o s :
  within id o s -> (forall d, o = Some d -> st_strategy_instance_id d = id) ->
  inside id (_delete_locked b id) kept broke s.
Proof.
  intros Hw Hid. unfold _delete_locked. apply inside_bind.
  eapply catalog_deployment_spec; [exact Hw|]. clear Hw. intros d s1 Hw.
  apply inside_if; intros _; [by eapply refuse_spec|].
  apply inside_bind, inside_translate. unfold read_original. pworld Hw.
  apply inside_bind. eapply inside_mono; [by eapply cancel_step_spec|clear Hw|done].
  intros cancelled s2 (o' & Hw & Hi). apply inside_bind, inside_translate.
  pcall Hw. apply inside_ret. by runs_done.
Qed.

Lemma cancel_orders_spec b o s :
  within id o s -> (forall d, o = Some d -> st_strategy_instance_id d = id) ->
  inside id (cancelled ← cancel_step_run b id;
      _ ← _write_disabled id;
      mret {| co_strategy_instance_id := id; co_enabled := false;
              co_cancelled_entry_order := cancelled |})
    kept broke s.
Proof.
  intros Hw Hid. apply inside_bind. eapply inside_mono; [by eapply cancel_step_spec|clear Hw|done].
  intros cancelled s2 (o' & Hw & Hi). apply inside_bind.
  eapply write_spec; [exact Hw|by apply idle_disable|].
  clear Hw. intros s3 Hw. apply inside_ret. by runs_done.
Qed.

Lemma freeze_before_close_spec self d c p s :
  within id (Some d) s -> st_strategy_instance_id d = id -> unmarked d ->
  st_current_trade_cycle d = Some c ->
  inside id (freeze_before_close self id d c p)
    (fun d' s' => within id (Some d') s' /\ st_strategy_instance_id d' = id /\
       unmarked d' /\ exists c', st_current_trade_cycle d' = Some c' /\ frozen c' /\
       tc_trade_cycle_id c' = tc_trade_cycle_id c)
    broke s.
Proof.
  intros Hw Hid Hu Hc. unfold freeze_before_close. apply inside_if; intros Hf.
  - apply inside_ret. split_and!; try done. exists c. split_and!; try done.
    unfold frozen. by destruct (tc_frozen_entry_context c).
  - apply inside_bind. unfold assert_some at 1.
    destruct (ps_first_fill_at_ms p) as [t|]; [|apply inside_throw; runs_done].
    apply inside_ret, inside_bind. plift.
    match goal with Er : freeze _ _ _ _ = Ok _ |- _ => apply freeze_parts in Er
      as [[-> (c' & Hc' & Hfr)]|(c1 & c' & Hc1 & _ & Hfz & -> & Hv')] end.
    { rewrite Hc in Hc'. injection Hc' as <-. by destruct (tc_frozen_entry_context c) eqn:?. }
    rewrite Hc in Hc1. injection Hc1 as <-. apply inside_bind. psave Hw.
    { eapply durable_parts; [done..|]. rewrite Hc. by apply first_fill. }
    assert (exists c2, Some c' = Some c2 /\ frozen c2 /\
      tc_trade_cycle_id c2 = tc_trade_cycle_id c) as Hcyc.
    { exists c'. split_and!; [done|by eapply freezes_frozen|].
      by destruct Hfz as (_ & f & _ & ->). }
    apply inside_bind. destruct (ps_average_entry_price p) as [price|]; [|by apply inside_ret, inside_ret].
    destruct (ps_entry_order_link_id p) as [link|]; [|by apply inside_ret, inside_ret].
    unfold journal_trade_cycle_opened. pjournal Hw. by apply inside_ret.
Qed.

Lemma disable_mark_close_spec self d c s :
  within id (Some d) s -> st_strategy_instance_id d = id -> unmarked d ->
  st_current_trade_cycle d = Some c -> frozen c ->
  inside id (disable_mark_close self id d (tc_trade_cycle_id c)) kept broke s.
Proof.
  intros Hw Hid [Hpe Hpc] Hc' Hf. unfold disable_mark_close.
  apply inside_bind. eapply write_spec; [exact Hw|by right; rewrite Hc'|].
  clear Hw. intros s3 Hw. apply inside_bind. plift.
  match goal with Ec : ClosePositionCommand_post_init _ = Ok _ |- _ =>
    apply close_command_post_init_Ok in Ec as -> end.
  apply inside_bind. plift.
  match goal with Em : PendingCloseRecovery_post_init _ = Ok _ |- _ =>
    apply close_marker_post_init_Ok in Em as -> end.
  apply inside_bind. plift. unfold replace_pending_close_recovery in *.
  match goal with Er : replace_state _ _ _ _ = Ok _ |- _ =>
    apply replace_state_parts in Er as [-> Hv] end.
  rewrite Hpe, Hc' in *. apply inside_bind. psave Hw.
  { eapply durable_parts; [done..|]. rewrite Hc', Hpe, Hpc. by apply mark_close. }
  apply inside_bind, inside_translate. pcall Hw; [by eexists|].
  apply inside_if; intros _; [by eapply refuse_spec|].
  apply inside_bind. plift. unfold clear_cycle_and_close_recovery in *.
  match goal with Er : replace_state _ _ _ _ = Ok _ |- _ =>
    apply replace_state_parts in Er as [-> Hv2] end.
  apply inside_bind. psave Hw; [eapply durable_parts; [done..|]; apply close_confirmed|].
  apply inside_bind. destruct (pcc_closure _) as [cl|].
  - unfold journal_trade_cycle_closed. pjournal Hw. apply inside_ret. by runs_done.
  - apply inside_ret, inside_ret. by runs_done.
Qed.

Lemma close_locked_spec self o s :
  within id o s -> (forall d, o = Some d -> st_strategy_instance_id d = id) ->
  inside id (_close_locked self id) kept broke s.
Proof.
  intros Hw Hid. unfold _close_locked. apply inside_bind. pget Hw.
  destruct o as [d|]; [|by eapply refuse_spec]. specialize (Hid d eq_refl).
  apply inside_if; intros Hm; [by eapply refuse_spec|]. apply orb_false_iff in Hm as [Hpe Hpc].
  assert (unmarked d) as Hu.
  { split; [by destruct (st_pending_entry_recovery d)|by destruct (st_pending_close_recovery d)]. }
  destruct (st_current_trade_cycle d) as [c0|] eqn:Hc0; [|by eapply refuse_spec].
  apply inside_bind, inside_translate. eapply inside_mono; [eapply (resolve_spec id d _ broke)| |done]; try done.
  clear Hw. intros p s1 (Hw & Hp & _). rewrite Hp, Hc0.
  apply inside_if; intros _; [by eapply refuse_spec|].
  apply inside_if; intros _; [by eapply refuse_spec|].
  apply inside_bind, inside_ret, inside_bind. eapply inside_mono; [by eapply freeze_before_close_spec| |done].
  clear Hw. intros d1 s2 (Hw & Hid1 & Hu1 & c' & Hc' & Hf & Hk). rewrite <- Hk.
  by eapply disable_mark_close_spec.
Qed.
End protocol.

(** The catalog lookup touches neither the repository nor the trace. *)
Lemma wp_catalog_deployment {R W} `{Repository R} `{Ports W} k Q E (s : sys R W) :
  (forall d w, Q d (Sys (sys_repo s) w (sys_trace s))) ->
  (forall e w, E e (Sys (sys_repo s) w (sys_trace s))) ->
  wp (catalog_deployment k) Q E s.
Proof.
  intros HQ HE. unfold catalog_deployment, translate.
  apply wp_bind, wp_catch, wp_on_world. intros w [sn|e].
  - destruct (get_by_strategy_instance_id sn k) as [d|]; [by apply wp_ret|by apply wp_lift].
  - destruct (exn_cls e); by apply wp_lift.
Qed.

(** * Properties *)

Section outcomes.
Context {R W : Type} `{Repository R} `{!RepositoryLaws R} `{Ports W}.
Context (id : string).
Implicit Types s : sys R W.

(** A translated exception is an exception of the same kind of failure. *)
Lemma wp_translate_any {A} (m : M R W A) rules Q (P : sys R W -> Prop) s :
  wp m Q (fun _ => P) s -> wp (translate m rules) Q (fun _ => P) s.
Proof.
  intros Hm. apply wp_catch. eapply wp_mono; [exact Hm|done|].
  intros e s' Hs'. destruct (rules (exn_cls e)); by apply wp_lift.
Qed.

Lemma wp_refuse {A} c Q (P : sys R W -> Prop) s :
  P s -> wp (refuse c : M R W A) Q (fun _ => P) s.
Proof. intros. by apply wp_lift. Qed.

Lemma unmarked_not_pending d :
  is_some (st_pending_entry_recovery d) || is_some (st_pending_close_recovery d) = false ->
  unmarked d.
Proof.
  intros [H1 H2]%orb_false_iff. split;
    [by destruct (st_pending_entry_recovery d)|by destruct (st_pending_close_recovery d)].
Qed.

(** ** The cancel step *)

Definition removal_lookup (d : StrategyInstanceRuntimeState) (c : CurrentTradeCycle) :
    OpenPositionLookupRequest :=
  {| lq_strategy_instance_id := st_strategy_instance_id d;
     lq_trade_cycle_id := tc_trade_cycle_id c |}.

Definition removal_request (d : StrategyInstanceRuntimeState) (c : CurrentTradeCycle) :
    EntryPackageRequest :=
  {| er_strategy_instance_id := st_strategy_instance_id d;
     er_trade_cycle_id := tc_trade_cycle_id c;
     er_ticker := rs_instrument (st_registered_spec_snapshot d);
     er_desired_entry := None; er_risk_multiplier := st_risk_multiplier d |}.

(** What ABI answered when the resting entry of [c] was cancelled and its removal proved. *)
Definition removal_proved (d : StrategyInstanceRuntimeState) (c : CurrentTradeCycle) (w : W) :
    Prop :=
  exists w1 w2 response answer,
    port_lookup (removal_lookup d c) w = (w1, Ok response) /\
    lr_position_open response = false /\ lr_closure response = None /\
    port_send (removal_request d c) w1 = (w2, Ok answer) /\
    is_exact_absent answer (st_strategy_instance_id d) (tc_trade_cycle_id c) = true.

(** What a cancel step that returned [b] leaves. *)
Definition cancel_step_done (journaled : bool) s d (b : bool) s' : Prop :=
  unmarked d /\
  if b then
    exists c, st_current_trade_cycle d = Some c /\ removal_proved d c (sys_world s) /\
      stored (sys_repo s) (sys_repo s') (with_parts d None None None) /\
      sys_trace s' = sys_trace s ++
        [EvLookup (removal_lookup d c); EvSend (removal_request d c);
         EvSave (with_parts d None None None)] ++
        if journaled then
          [EvJournal (entry_cycle_ended (st_strategy_instance_id d) (tc_trade_cycle_id c) None
             DISABLED)]
        else []
  else
    st_current_trade_cycle d = None /\ same_content (sys_repo s) (sys_repo s') /\
    sys_trace s' = sys_trace s.

Local Notation unchanged s := (fun _ s' => same_content (sys_repo s) (sys_repo s')).

(** The part of the step after the proof of the removal. *)
Lemma cancel_step_clears journaled s d c s2 :
  unmarked d -> st_current_trade_cycle d = Some c -> removal_proved d c (sys_world s) ->
  same_content (sys_repo s) (sys_repo s2) ->
  sys_trace s2 = sys_trace s ++ [EvLookup (removal_lookup d c); EvSend (removal_request d c)] ->
  wp (cleared ← lift (replace_current_trade_cycle d None);
      _ ← save cleared;
      _ ← journal_entry_cycle_ended journaled (st_strategy_instance_id d)
            (tc_trade_cycle_id c) None DISABLED;
      mret true)
    (cancel_step_done journaled s d) (unchanged s) s2.
Proof.
  intros [Hpe Hpc] Hc Hp Hs Ht. apply wp_bind, wp_lift.
  destruct (replace_current_trade_cycle d None) as [d'|e] eqn:Hr; [|done].
  unfold replace_current_trade_cycle in Hr. rewrite Hpe, Hpc in Hr.
  apply replace_state_parts in Hr as [-> _]. apply wp_bind, wp_save.
  2: { intros r2 e Hr2 k. simpl in *. by rewrite Hr2. }
  intros r2 Hr2. assert (stored (sys_repo s) r2 (with_parts d None None None)) as Hst
    by (intros k; by rewrite Hr2, Hs).
  apply wp_bind. unfold journal_entry_cycle_ended. destruct journaled; simpl.
  - apply wp_bind, wp_lift. simpl. apply wp_emit, wp_ret. split; [done|]. exists c.
    split_and!; [done..|]. simpl. by rewrite Ht, <- !app_assoc.
  - apply wp_ret, wp_ret. split; [done|]. exists c. split_and!; [done..|]. simpl.
    by rewrite Ht, <- !app_assoc.
Qed.

(** C22. The cancel step that precedes a disable, a delete and an operator's cancel:
    when it returns [true], ABI reported no position and no closure for the stored cycle
    and answered its removal with the exact absence of this instance and cycle, and the
    cleared aggregate was saved; when it returns [false] there was nothing to cancel and
    nothing was called. When it raises, the stored aggregate is untouched: an unproved
    removal never clears a cycle, and a marked aggregate is never cancelled. *)
Theorem cancel_step_outcomes journaled s s' d o :
  repo_lookup (sys_repo s) id = Some d ->
  cancel_step_run journaled id s = (s', o) ->
  match o with
  | Ok b => cancel_step_done journaled s d b s'
  | Raise _ => same_content (sys_repo s) (sys_repo s')
  end.
Proof.
  intros Hd Hrun. assert (st_strategy_instance_id d = id) as Hid by by eapply lookup_id.
  assert (wp (cancel_step_run journaled id) (cancel_step_done journaled s d) (unchanged s) s)
    as Hwp; [|apply (wp_run _ _ _ _ _ _ Hwp Hrun)].
  apply wp_bind, wp_get; [|done]. intros r1 Hr1. rewrite Hd.
  apply wp_if; [intros _; by apply wp_refuse|]. intros Hu%unmarked_not_pending.
  destruct (st_current_trade_cycle d) as [c|] eqn:Hc; [|by apply wp_ret].
  apply wp_bind, wp_translate_any. unfold resolve. rewrite Hc. apply wp_bind, wp_lift.
  destruct (OpenPositionLookupRequest_post_init _) as [q|] eqn:Hq; [|done].
  apply lookup_request_Ok in Hq as ->. fold (removal_lookup d c). apply wp_bind.
  destruct (port_lookup (removal_lookup d c) (sys_world s)) as [w1 [response|e]] eqn:Hlook;
    (eapply wp_call_at; [exact Hlook|]); [|done].
  apply wp_ret. simpl. apply wp_if; [intros _; by apply wp_refuse|intros Hopen].
  apply wp_if; [intros _; by apply wp_refuse|intros Hcl].
  apply wp_bind, wp_translate_any. unfold recovery_cancel. apply wp_bind, wp_lift.
  destruct (EntryPackageRequest_post_init _) as [q|] eqn:Hq; [|done].
  apply entry_request_post_init_Ok in Hq as ->. rewrite <- Hid. fold (removal_request d c).
  destruct (port_send (removal_request d c) w1) as [w2 [answer|e]] eqn:Hsend;
    (eapply wp_call_at; [exact Hsend|]); [|done].
  apply wp_if; [intros _; by apply wp_refuse|]. intros Hex%negb_false_iff.
  apply cancel_step_clears; try done; [|simpl; by rewrite <- app_assoc].
  exists w1, w2, response, answer. split_and!; try done. by destruct (lr_closure response).
Qed.
End outcomes.

(** A resting entry whose removal ABI proves. *)
Definition removable : script :=
  one_bar [Ok (sample_flat_response None)] [] [Ok (sample_absent "c1")].

Lemma cancel_step_outcomes_witness :
  let '(s', o) := cancel_step_run true "i1" (holding resting_state removable) in
  o = Ok true /\ stored (sys_repo (holding resting_state removable)) (sys_repo s') flat_state.
Proof.
  destruct (cancel_step_run true "i1" (holding resting_state removable)) as [s' o] eqn:Hrun.
  assert (o = Ok true) as -> by (vm_compute in Hrun; congruence). split; [reflexivity|].
  pose proof (cancel_step_outcomes "i1" true (holding resting_state removable)) as Hcancel.
  destruct (Hcancel s' resting_state (Ok true) eq_refl Hrun) as (_ & c & _ & _ & Hs & _).
  exact Hs.
Defined.

(** ** Closing by the operator *)

(** Events that do not close a position. *)
Definition no_close (evs : list event) : Prop :=
  Forall (fun e => match e with EvClosePosition _ => False | _ => True end) evs.

(** The one close of these events: the deployment was disabled just before, and then the
    marked aggregate [m] was made durable. *)
Definition close_attempted (id k : string) (m : StrategyInstanceRuntimeState)
    (evs : list event) : Prop :=
  exists pre post,
    evs = pre ++ EvSetEnabled id false :: EvSave m ::
            EvClosePosition {| cpc_strategy_instance_id := id; cpc_trade_cycle_id := k;
              cpc_exposure_fraction := CANONICAL_CLOSE_EXPOSURE_FRACTION |} :: post /\
    no_close pre /\ no_close post /\
    st_pending_close_recovery m = Some {| pc_trade_cycle_id := k |}.

Section close.
Context {R W : Type} `{Repository R} `{!RepositoryLaws R} `{Ports W}.
Context (self : StrategyOperatorCommandsService) (id : string) (s0 : sys R W).
Implicit Types s : sys R W.

(** Since [s0] the instance's aggregate became [d], the others stayed, and the new events
    satisfy [P]. *)
Definition progress (P : list event -> Prop) d s : Prop :=
  (exists evs, sys_trace s = sys_trace s0 ++ evs /\ P evs) /\
  forall k, repo_lookup (sys_repo s) k =
    if decide (k = id) then Some d else repo_lookup (sys_repo s0) k.

Lemma progress_events (P P' : list event -> Prop) d s evs r w :
  progress P d s -> same_content (sys_repo s) r -> (forall old, P old -> P' (old ++ evs)) ->
  progress P' d (Sys r w (sys_trace s ++ evs)).
Proof.
  intros [(old & Ht & Hold) Hs] Hr HP. split; [|intros k; simpl; by rewrite Hr, Hs].
  exists (old ++ evs). simpl. by rewrite Ht, <- app_assoc; auto.
Qed.

Lemma progress_save (P P' : list event -> Prop) d d' s r w :
  progress P d s -> stored (sys_repo s) r d' -> st_strategy_instance_id d' = id ->
  (forall old, P old -> P' (old ++ [EvSave d'])) ->
  progress P' d' (Sys r w (sys_trace s ++ [EvSave d'])).
Proof.
  intros [(old & Ht & Hold) Hs] Hr Hid HP. split.
  - exists (old ++ [EvSave d']). simpl. by rewrite Ht, <- app_assoc; auto.
  - intros k. simpl. rewrite Hr, Hid. case_decide; [done|]. rewrite Hs. by rewrite decide_False.
Qed.

Lemma progress_same P d s r w :
  progress P d s -> same_content (sys_repo s) r -> progress P d (Sys r w (sys_trace s)).
Proof.
  intros Hp Hr. rewrite <- (app_nil_r (sys_trace s)).
  eapply progress_events; [done..|]. intros. by rewrite app_nil_r.
Qed.

Lemma no_close_snoc evs e :
  match e with EvClosePosition _ => False | _ => True end ->
  no_close evs -> no_close (evs ++ [e]).
Proof. intros He Hevs. apply Forall_app. split; [done|]. by constructor. Qed.

Lemma close_attempted_snoc k m evs e :
  match e with EvClosePosition _ => False | _ => True end ->
  close_attempted id k m evs -> close_attempted id k m (evs ++ [e]).
Proof.
  intros He (pre & post & -> & Hpre & Hpost & Hm). exists pre, (post ++ [e]).
  split_and!; [by rewrite <- app_assoc|done|by apply no_close_snoc|done].
Qed.

(** What a raised close leaves: nothing was sent, or the marker is stored. *)
Definition close_raised s : Prop :=
  (exists d', progress no_close d' s /\ st_pending_close_recovery d' = None) \/
  (exists k m, progress (close_attempted id k m) m s).

(** What a confirmed close leaves. *)
Definition close_done d (r : ClosePositionResult) s : Prop :=
  unmarked d /\ cr_strategy_instance_id r = id /\ cr_enabled r = false /\
  (exists c, st_current_trade_cycle d = Some c /\ tc_trade_cycle_id c = cr_trade_cycle_id r) /\
  exists m, progress (close_attempted id (cr_trade_cycle_id r) m) (with_parts d None None None) s.

Lemma freeze_before_close_progress d c p s :
  progress no_close d s -> st_strategy_instance_id d = id -> unmarked d ->
  st_current_trade_cycle d = Some c ->
  wp (freeze_before_close self id d c p)
    (fun d' s' => progress no_close d' s' /\ unmarked d' /\
       st_strategy_instance_id d' = id /\
       with_parts d' None None None = with_parts d None None None)
    (fun _ s' => close_raised s') s.
Proof.
  intros Hp Hid [Hpe Hpc] Hc.
  assert (forall s1, progress no_close d s1 -> close_raised s1) as Hfail by (left; by exists d).
  apply wp_if; intros _; [by apply wp_ret|]. apply wp_bind.
  destruct (ps_first_fill_at_ms p) as [t|]; [|by apply wp_throw, Hfail].
  apply wp_ret, wp_bind, wp_lift. destruct (freeze _ d _ t) as [d'|] eqn:Hf; [|by apply Hfail].
  assert (unmarked d' /\ st_strategy_instance_id d' = id /\
    with_parts d' None None None = with_parts d None None None) as (Hu & Hid' & Hparts).
  { apply freeze_parts in Hf as [[-> _]|(c1 & c' & _ & _ & _ & -> & _)]; [done|].
    split_and!; done. }
  apply wp_bind, wp_save.
  2: { intros r e Hr. by apply Hfail, progress_same. }
  intros r Hr. assert (progress no_close d' (Sys r (sys_world s) (sys_trace s ++ [EvSave d'])))
    as Hp' by (eapply progress_save; [done..|intros; by apply no_close_snoc]).
  apply wp_bind. destruct (ps_average_entry_price p); [|by apply wp_ret, wp_ret].
  destruct (ps_entry_order_link_id p); [|by apply wp_ret, wp_ret].
  apply wp_journal, wp_ret. split; [|done].
  eapply (progress_events _ _ d' (Sys r _ _)); [exact Hp'|done|].
  intros old Hold. destruct (os_trade_cycle_opened_journal self); [by apply no_close_snoc|].
  by rewrite app_nil_r.
Qed.

(** The events of a close, in order: the deployment is disabled, the marker is durable, the
    close is sent. *)
Lemma close_events_progress k d m s1 r2 (w1 w2 w3 : W) r1 :
  progress no_close d s1 -> same_content (sys_repo s1) r1 -> stored r1 r2 m ->
  st_strategy_instance_id m = id ->
  st_pending_close_recovery m = Some {| pc_trade_cycle_id := k |} ->
  let s2 := Sys r1 w1 (sys_trace s1 ++ [EvSetEnabled id false]) in
  let s3 := Sys r2 w2 (sys_trace s2 ++ [EvSave m]) in
  progress (close_attempted id k m) m
    (Sys r2 w3 (sys_trace s3 ++ [EvClosePosition {| cpc_strategy_instance_id := id;
       cpc_trade_cycle_id := k; cpc_exposure_fraction := CANONICAL_CLOSE_EXPOSURE_FRACTION |}])).
Proof.
  intros [(old & Ht & Hold) Hs] Hr1 Hr2 Hid Hm. simpl. split.
  - exists (old ++ [EvSetEnabled id false; EvSave m; EvClosePosition
      {| cpc_strategy_instance_id := id; cpc_trade_cycle_id := k;
         cpc_exposure_fraction := CANONICAL_CLOSE_EXPOSURE_FRACTION |}]).
    split; [simpl; by rewrite Ht, <- !app_assoc|].
    exists old, []. split_and!; [done..|constructor|done].
  - intros i. simpl. rewrite Hr2, Hid. case_decide; [done|]. rewrite Hr1, Hs.
    by rewrite decide_False.
Qed.

Lemma close_done_intro d c m k r s :
  unmarked d -> st_current_trade_cycle d = Some c -> tc_trade_cycle_id c = k ->
  progress (close_attempted id k m) (with_parts d None None None) s ->
  cr_strategy_instance_id r = id -> cr_enabled r = false -> cr_trade_cycle_id r = k ->
  close_done d r s.
Proof.
  intros Hu Hc Hk Hp Hri Hre Hrk. unfold close_done. rewrite Hrk. split_and!; try done.
  - by exists c.
  - by exists m.
Qed.

(** Whatever ABI answers to the close of the marked aggregate [m], the marker is stored or the
    cycle has ended. *)
Lemma close_answered d c m k conf s :
  progress (close_attempted id k m) m s -> unmarked d -> st_strategy_instance_id m = id ->
  st_current_trade_cycle d = Some c -> tc_trade_cycle_id c = k ->
  st_pending_entry_recovery m = None ->
  with_parts m None None None = with_parts d None None None ->
  wp (closed ← lift (clear_cycle_and_close_recovery m);
      _ ← save closed;
      _ ← match pcc_closure conf with
          | Some closure => journal_trade_cycle_closed
              (os_trade_cycle_closed_journal self) closure None
          | None => mret tt
          end;
      mret {| cr_strategy_instance_id := id; cr_trade_cycle_id := k; cr_enabled := false;
              cr_closure_reason := match pcc_closure conf with
                                   | Some closure => Some (cl_reason closure)
                                   | None => None
                                   end |})
    (close_done d) (fun _ => close_raised) s.
Proof.
  intros Hp Hu Hid Hc Hk Hpe Hparts.
  assert (forall s', progress (close_attempted id k m) m s' -> close_raised s') as Hfail
    by (intros s' Hs'; right; by exists k, m).
  apply wp_bind, wp_lift. destruct (clear_cycle_and_close_recovery m) as [closed|] eqn:Hr;
    [|by apply Hfail].
  apply replace_state_parts in Hr as [-> _]. rewrite Hpe, Hparts. apply wp_bind, wp_save.
  2: { intros r e Hr. by apply Hfail, progress_same. }
  intros r3 Hr3. assert (st_strategy_instance_id d = id) as Hid'.
  { rewrite <- Hid. by apply (f_equal st_strategy_instance_id) in Hparts. }
  eapply (progress_save _ (close_attempted id k m)) in Hp;
    [|exact Hr3|done|intros; by apply close_attempted_snoc].
  apply wp_bind. destruct (pcc_closure conf) as [cl|].
  - apply wp_journal, wp_ret. eapply close_done_intro; try done.
    eapply (progress_events _ _ _ (Sys r3 _ _)); [exact Hp|done|]. intros old Hold.
    destruct (os_trade_cycle_closed_journal self);
      [by apply close_attempted_snoc|by rewrite app_nil_r].
  - apply wp_ret, wp_ret. by eapply close_done_intro.
Qed.

Lemma disable_mark_close_outcomes d d1 c s1 :
  progress no_close d1 s1 -> st_strategy_instance_id d1 = id -> unmarked d1 -> unmarked d ->
  with_parts d1 None None None = with_parts d None None None ->
  st_current_trade_cycle d = Some c ->
  wp (disable_mark_close self id d1 (tc_trade_cycle_id c)) (close_done d) (fun _ => close_raised) s1.
Proof.
  intros Hp Hid1 [Hpe1 Hpc1] Hu Hparts Hc.
  assert (forall s', progress no_close d1 s' -> close_raised s') as Hfail1
    by (intros s' Hs'; left; by exists d1).
  unfold disable_mark_close, _write_disabled, _write.
  apply wp_bind, wp_bind, wp_translate_any, wp_call.
  intros w1 answer. assert (progress no_close d1
    (Sys (sys_repo s1) w1 (sys_trace s1 ++ [EvSetEnabled id false]))) as Hp1.
  { eapply (progress_events _ _ d1 s1); [exact Hp|done|]. intros; by apply no_close_snoc. }
  destruct answer as [b|e]; [|by apply Hfail1]. apply wp_ret, wp_bind, wp_lift.
  destruct (ClosePositionCommand_post_init _) as [cmd|] eqn:Hcmd; [|by apply Hfail1].
  apply close_command_post_init_Ok in Hcmd as ->. apply wp_bind, wp_lift.
  destruct (PendingCloseRecovery_post_init _) as [marker|] eqn:Hm; [|by apply Hfail1].
  apply close_marker_post_init_Ok in Hm as ->. apply wp_bind, wp_lift.
  destruct (replace_pending_close_recovery _ _) as [m|] eqn:Hr; [|by apply Hfail1].
  apply replace_state_parts in Hr as [Hm _]. apply wp_bind, wp_save.
  2: { intros r e Hr. by eapply Hfail1, progress_same. }
  intros r2 Hr2. apply wp_bind, wp_translate_any, wp_call. intros w2 confirmation. simpl.
  assert (st_strategy_instance_id m = id) as Hidm by by rewrite Hm.
  pose proof (close_events_progress (tc_trade_cycle_id c) d1 m s1 r2 w1 w1 w2 (sys_repo s1)
    Hp (fun _ => eq_refl) Hr2 Hidm ltac:(by rewrite Hm)) as Hp2.
  assert (forall s', progress (close_attempted id (tc_trade_cycle_id c) m) m s' ->
    close_raised s') as Hfail2 by (intros s' Hs'; right; by eexists _, _).
  destruct confirmation as [conf|e]; [|by apply Hfail2].
  apply wp_if; [intros _; by apply wp_refuse, Hfail2|intros _].
  eapply close_answered; try done; rewrite Hm; [exact Hpe1|exact Hparts].
Qed.

Lemma close_locked_outcomes d s :
  progress no_close d s -> st_strategy_instance_id d = id ->
  repo_lookup (sys_repo s) id = Some d ->
  wp (_close_locked self id) (close_done d)
    (fun _ s' => close_raised s' \/ progress no_close d s') s.
Proof.
  intros Hp Hid Hd.
  set (E := fun s' => close_raised s' \/ progress no_close d s').
  assert (forall s1, progress no_close d s1 -> E s1) as Hfail by (by right).
  unfold _close_locked. apply wp_bind, wp_get.
  2: { intros r e Hr. by apply Hfail, progress_same. }
  intros r1 Hr1. rewrite Hd. assert (progress no_close d (Sys r1 (sys_world s) (sys_trace s)))
    as Hp1 by by apply progress_same.
  apply wp_if; [intros _; by apply wp_refuse, Hfail|]. intros Hu%unmarked_not_pending.
  destruct (st_current_trade_cycle d) as [c|] eqn:Hc; [|by apply wp_refuse, Hfail].
  apply wp_bind, wp_translate_any. unfold resolve. rewrite Hc. apply wp_bind, wp_lift.
  destruct (OpenPositionLookupRequest_post_init _) as [q|]; [|by apply Hfail].
  apply wp_bind, wp_call. intros w response.
  assert (progress no_close d (Sys r1 w (sys_trace s ++ [EvLookup q]))) as Hp2.
  { eapply (progress_events _ _ d s); [exact Hp|done|]. intros; by apply no_close_snoc. }
  simpl. destruct response as [response|e]; [|by apply Hfail]. apply wp_ret. simpl.
  apply wp_if; [intros _; by apply wp_refuse, Hfail|intros _].
  apply wp_if; [intros _; by apply wp_refuse, Hfail|intros _].
  rewrite Hc. apply wp_bind, wp_ret, wp_bind.
  eapply wp_mono; [by eapply freeze_before_close_progress| |by left].
  clear Hp Hp1 Hp2. intros d1 s1 (Hp & Hu1 & Hid1 & Hparts).
  eapply wp_mono; [by apply (disable_mark_close_outcomes d d1 c)|done|by left].
Qed.

(** An operator's close: when it returns, the stored cycle (unmarked before) is
    ended, and the events are, in this order, the deployment disabled, the aggregate with
    its close marker made durable, and one close sent for this instance and cycle. When it
    raises, either nothing was sent to close (and no marker was left by the call), or the
    strategy was disabled and the marked aggregate is the stored one, for the resolver. *)
Theorem operator_close_outcomes s' d o :
  repo_lookup (sys_repo s0) id = Some d ->
  operator_close_position self id s0 = (s', o) ->
  match o with
  | Ok r => close_done d r s'
  | Raise _ => close_raised s' \/ progress no_close d s'
  end.
Proof.
  intros Hd Hrun. assert (st_strategy_instance_id d = id) as Hid by by eapply lookup_id.
  assert (forall evs r w, no_close evs -> same_content (sys_repo s0) r ->
    progress no_close d (Sys r w (sys_trace s0 ++ evs))) as Hsame.
  { intros evs r w Hevs Hr. split; [by exists evs|]. intros k. simpl. rewrite Hr.
    case_decide; [by subst k|done]. }
  assert (forall w, progress no_close d (Sys (sys_repo s0) w (sys_trace s0))) as Hfail.
  { intros w. rewrite <- (app_nil_r (sys_trace s0)). apply Hsame; [constructor|done]. }
  assert (wp (operator_close_position self id) (close_done d)
    (fun _ s' => close_raised s' \/ progress no_close d s') s0) as Hwp;
    [|apply (wp_run _ _ _ _ _ _ Hwp Hrun)].
  apply wp_bind, wp_catalog_deployment; [|by right]. intros deployment w.
  apply wp_translate_any, wp_hold; [|by right]. intros w2. simpl.
  assert (forall (P : list event -> Prop) d' s1, (forall evs, P evs -> P (evs ++ [EvRelease id])) ->
    progress P d' s1 -> progress P d' (Sys (sys_repo s1) (sys_world s1)
      (sys_trace s1 ++ [EvRelease id]))) as Hrelease.
  { intros P d' s1 HP Hs1. by eapply progress_events. }
  eapply wp_mono; [apply (close_locked_outcomes d)|..]; try done.
  - apply Hsame; [by apply (no_close_snoc []); [|constructor]|done].
  - intros r s1 (Hu & Hi & He & Hc & m & Hp). split_and!; try done. exists m.
    apply Hrelease; [intros; by apply close_attempted_snoc|done].
  - intros _ s1 [[(d' & Hp & Hm)|(k & m & Hp)]|Hp].
    + left; left. exists d'. split; [|done]. apply Hrelease; [intros; by apply no_close_snoc|done].
    + left; right. exists k, m.
      apply Hrelease; [intros; by apply close_attempted_snoc|done].
    + right. apply Hrelease; [intros; by apply no_close_snoc|done].
Qed.
End close.

Definition sample_operator : StrategyOperatorCommandsService :=
  {| os_trade_cycle_closed_journal := true; os_trade_cycle_opened_journal := true;
     os_first_fill_freezer := {| ff_order_lifetime_bars := Some 3 |} |}.

(** ABI reports the fill that no bar has frozen yet, then confirms the close. *)
Definition closing_world : script :=
  Script [Ok sample_open_response] [] [] [] [Ok sample_closed] [] [] []
    [Ok (sample_catalog [sample_deployment])] [Ok true] [] [] true.

Lemma operator_close_outcomes_witness :
  let '(s', o) := operator_close_position sample_operator "i1"
                    (holding resting_state closing_world) in
  exists r, o = Ok r /\ close_done "i1" (holding resting_state closing_world) resting_state r s'.
Proof.
  destruct (operator_close_position sample_operator "i1" (holding resting_state closing_world))
    as [s' o] eqn:Hrun.
  assert (exists r, o = Ok r) as [r ->] by (vm_compute in Hrun; inversion Hrun; eexists; reflexivity).
  exists r. split; [reflexivity|].
  exact (operator_close_outcomes sample_operator "i1" (holding resting_state closing_world)
    s' resting_state (Ok r) eq_refl Hrun).
Defined.

(** ** The trading states *)

(** What an item says of the aggregate [d] stored for its instance. *)
Definition describes (id : string) (d : option StrategyInstanceRuntimeState)
    (item : StrategyInstanceTradingState) : Prop :=
  let cycle := d ≫= st_current_trade_cycle in
  ti_strategy_instance_id item = id /\
  ti_trade_cycle_id item = tc_trade_cycle_id <$> cycle /\
  ti_side item = (fun c => de_side (tc_desired_entry c)) <$> cycle /\
  (ti_trade_state item = FLAT <-> cycle = None) /\
  (ti_trade_state item = IN_POSITION <-> exists c, cycle = Some c /\ frozen c) /\
  ti_first_fill_at_ms item = fc_first_fill_at_ms <$> (cycle ≫= tc_frozen_entry_context) /\
  (ti_recovery_pending item = Some recovery_entry <->
     (d ≫= st_pending_entry_recovery) <> None) /\
  (ti_recovery_pending item = None <->
     (d ≫= st_pending_entry_recovery) = None /\ (d ≫= st_pending_close_recovery) = None).

Lemma describe_describes id d : describes id d (_describe id d).
Proof.
  unfold describes, _describe, frozen. destruct d as [d|]; simpl; [|split_and!; naive_solver].
  destruct (st_current_trade_cycle d) as [c|]; simpl.
  - assert (tc_frozen_entry_context c <> None <-> exists c', Some c = Some c' /\
      tc_frozen_entry_context c' <> None) as Hf by naive_solver. rewrite <- Hf.
    destruct (tc_frozen_entry_context c), (st_pending_entry_recovery d),
      (st_pending_close_recovery d); simpl; split_and!; naive_solver.
  - destruct (st_pending_entry_recovery d), (st_pending_close_recovery d); simpl;
      split_and!; naive_solver.
Qed.

Lemma describe_each_spec {R W} `{Repository R} `{!RepositoryLaws R} `{Ports W} deployments
    (s0 s : sys R W) :
  same_content (sys_repo s0) (sys_repo s) -> sys_trace s = sys_trace s0 ->
  wp (describe_each deployments)
    (fun items s' => same_content (sys_repo s0) (sys_repo s') /\ sys_trace s' = sys_trace s0 /\
       Forall2 (fun dep => describes (ds_strategy_instance_id dep)
          (repo_lookup (sys_repo s0) (ds_strategy_instance_id dep))) deployments items)
    (fun _ s' => same_content (sys_repo s0) (sys_repo s') /\ sys_trace s' = sys_trace s0) s.
Proof.
  revert s. induction deployments as [|dep deployments IH]; intros s Hs Ht; [by apply wp_ret|].
  apply wp_bind, wp_catch, wp_get.
  - intros r Hr. apply wp_bind. eapply wp_mono; [apply IH|..]; simpl; [|done| |done].
    { intros k. by rewrite Hr, Hs. }
    intros items s' (Hs' & Ht' & Hi). apply wp_ret. split_and!; [done|done|].
    constructor; [|done]. rewrite Hs. apply describe_describes.
  - intros r e Hr. assert (same_content (sys_repo s0) r) as Hr0 by (intros k; by rewrite Hr, Hs).
    simpl. apply wp_if; intros _; by apply wp_lift.
Qed.

(** Listing the trading states reads and changes nothing: one item per accepted
    deployment, in the catalog's order, that describes the stored aggregate: in position
    exactly when its fill is frozen, flat exactly without a cycle, entry pending otherwise,
    and the recovery that is pending. *)
Theorem list_trading_states_describes {R W} `{Repository R} `{!RepositoryLaws R} `{Ports W}
    (s s' : sys R W) o :
  list_trading_states s = (s', o) ->
  same_content (sys_repo s) (sys_repo s') /\ sys_trace s' = sys_trace s /\
  match o with
  | Ok items => exists w c, port_load_snapshot (sys_world s) = (w, Ok c) /\
      Forall2 (fun dep => describes (ds_strategy_instance_id dep)
          (repo_lookup (sys_repo s) (ds_strategy_instance_id dep)))
        (sn_accepted_deployments c) items
  | Raise _ => True
  end.
Proof.
  unfold list_trading_states, load_snapshot. rewrite run_bind, run_catch, run_on_world.
  destruct (port_load_snapshot (sys_world s)) as [w [c|e]] eqn:Hload; intros Hrun.
  - pose proof (describe_each_spec (sn_accepted_deployments c) s
      (Sys (sys_repo s) w (sys_trace s)) (fun _ => eq_refl) eq_refl) as Hwp.
    pose proof (wp_run _ _ _ _ _ _ Hwp Hrun) as Hres.
    destruct o as [items|]; [|naive_solver]. destruct Hres as (? & ? & ?).
    split_and!; [done..|]. by exists w, c.
  - assert (s' = Sys (sys_repo s) w (sys_trace s) /\ match o with Ok _ => False | _ => True end)
      as [-> Ho] by (destruct (exn_cls e); naive_solver).
    by destruct o.
Qed.

Lemma list_trading_states_describes_witness :
  let '(s', o) := list_trading_states (holding open_state closing_world) in
  exists items, o = Ok items /\
    Forall2 (fun dep => describes (ds_strategy_instance_id dep)
      (repo_lookup (sys_repo (holding open_state closing_world)) (ds_strategy_instance_id dep)))
      [sample_deployment] items.
Proof.
  destruct (list_trading_states (holding open_state closing_world)) as [s' o] eqn:Hrun.
  assert (exists items, o = Ok items) as [items ->]
    by (vm_compute in Hrun; inversion Hrun; eexists; reflexivity).
  exists items. split; [reflexivity|].
  destruct (list_trading_states_describes (holding open_state closing_world) s' (Ok items) Hrun)
    as (_ & _ & w & c & Hload & Hitems).
  vm_compute in Hload. injection Hload as <- <-. exact Hitems.
Defined.
