(* ===== verification/ChartLayers.v ===== *)
(** The chart layers of a strategy instance (runtime/chart_layers): which EMA stack and which
    episode parameters a strategy uses, read from the feature plan that the Strategy Engine
    builds for the instance's specification. The plan port is a parameter; its implementation
    over HTTP is [build_feature_plan] of HttpClients.v. *)
From S2P Require Import Prelude Errors DecimalText Models Json Contracts Effects Repository Wire Scripted EnabledControl.

(** * Data *)

Record EmaStackEntry := {
  es_role : string; es_timeframe : string; es_period : Z; es_source : string }.

Record EpisodeEntry := { ep_episode_ref : string; ep_params : dict json }.

Record ChartLayers := {
  la_strategy_instance_id : string;
  la_ema_stack : list EmaStackEntry;
  la_episodes : list EpisodeEntry }.

(** * Reading a plan *)

Definition STACK_ROLES : list string := ["fast"; "anchor"; "slow"].
Definition ENGINE_REJECTION_STATUS : Z := 422.

Definition _mapping (value : json) (name : string) : result (dict json) :=
  match value with
  | JObj fields => Ok fields
  | _ => raise TypeError (name +:+ " must be an object")
  end.

Definition _sequence (value : json) (name : string) : result (list json) :=
  match value with
  | JList items => Ok items
  | _ => raise TypeError (name +:+ " must be a list")
  end.

(** [isinstance(feature, Mapping) and feature.get("output_id") == output_id] *)
Definition planned (output_id : string) (feature : json) : bool :=
  match feature with
  | JObj feature => bool_decide (item_or_none feature "output_id" = JStr output_id)
  | _ => false
  end.

Definition read_period (period : json) : result Z :=
  match period with
  | JInt period =>
      _ ← require (1 <=? period) ValueError "period must be a positive integer"; Ok period
  | _ => raise ValueError "period must be a positive integer"
  end.

(** What an entry copies from its one planned feature. *)
Definition feature_entry (role : string) (feature : dict json) : result EmaStackEntry :=
  _ ← require (bool_decide (item_or_none feature "kind" = JStr "ema")) ValueError
    "planned feature is not an EMA";
  parameters ← item feature "parameters";
  parameters ← _mapping parameters "parameters";
  period ← item parameters "period";
  period ← read_period period;
  timeframe ← item feature "timeframe";
  source ← item feature "source";
  match timeframe, source with
  | JStr timeframe, JStr source =>
      Ok {| es_role := role; es_timeframe := timeframe; es_period := period; es_source := source |}
  | _, _ => raise TypeError "timeframe and source must be strings"
  end.

(** One turn of the loop of [_ema_stack]. *)
Definition stack_entry (anchor_columns : dict json) (features : list json) (role : string) :
    result EmaStackEntry :=
  output_id ← item anchor_columns role;
  match output_id with
  | JStr output_id =>
      match filter (fun feature => planned output_id feature = true) features with
      | [JObj feature] => feature_entry role feature
      | _ => raise ValueError "no single planned feature for output_id"
      end
  | _ => raise TypeError "anchor_columns value must be a string"
  end.

Definition _ema_stack (plan : dict json) : result (list EmaStackEntry) :=
  anchor_columns ← item plan "anchor_columns";
  anchor_columns ← _mapping anchor_columns "anchor_columns";
  features ← item plan "features";
  features ← _sequence features "features";
  traverse (stack_entry anchor_columns features) STACK_ROLES.

Definition _episodes (plan : dict json) : result (list EpisodeEntry) :=
  match item_or_none plan "episode_params_by_ref" with
  | JNull => Ok []
  | raw =>
      by_ref ← _mapping raw "episode_params_by_ref";
      traverse (fun '(ref, params) =>
        values ← _mapping params "episode params";
        Ok {| ep_episode_ref := ref; ep_params := values |}) by_ref
  end.

Definition layers_of (strategy_instance_id : string) (plan : dict json) : result ChartLayers :=
  ema_stack ← _ema_stack plan;
  episodes ← _episodes plan;
  Ok {| la_strategy_instance_id := strategy_instance_id; la_ema_stack := ema_stack;
        la_episodes := episodes |}.

(** * The service *)

Section service.
Context {R W : Type} `{Repository R} `{Ports W}.
Context (build_feature_plan : string -> dict json -> W -> W * result (dict json)).

(** The [except] clauses around the plan. *)
Definition plan_failure (exc : exn) : exn :=
  match exn_cls exc with
  | StrategyEngineProjectionPublicError status_code code =>
      if status_code =? ENGINE_REJECTION_STATUS
      then refusal_exn (EngineRejected code (exn_msg exc))
      else refusal_exn EngineUnavailable
  | c => if is_engine_projection_unavailable c then refusal_exn EngineUnavailable else exc
  end.

(** [StrategyChartLayersService.get] *)
Definition get_chart_layers (strategy_instance_id : string) : M R W ChartLayers :=
  deployment ← catalog_deployment strategy_instance_id;
  plan ← catch
    (on_world (build_feature_plan (ds_strategy_id deployment) (ds_raw_spec deployment)))
    (fun exc => lift (Raise (plan_failure exc)));
  translate (lift (layers_of strategy_instance_id plan)) (fun c =>
    if is_decode_failure c then Some EngineUnavailable else None).
End service.

(** * What an entry is *)

(** The one planned feature whose [output_id] the plan gives the role. *)
Definition stack_feature (plan : dict json) (role : string) (feature : dict json) : Prop :=
  exists anchor_columns before after output_id,
    dget "anchor_columns" plan = Some (JObj anchor_columns) /\
    dget "features" plan = Some (JList (before ++ JObj feature :: after)) /\
    dget role anchor_columns = Some (JStr output_id) /\
    dget "output_id" feature = Some (JStr output_id) /\
    Forall (fun other => planned output_id other = false) (before ++ after).

Definition describes (plan : dict json) (role : string) (entry : EmaStackEntry) : Prop :=
  exists feature parameters,
    stack_feature plan role feature /\
    dget "kind" feature = Some (JStr "ema") /\
    dget "parameters" feature = Some (JObj parameters) /\
    dget "period" parameters = Some (JInt (es_period entry)) /\ 1 <= es_period entry /\
    dget "timeframe" feature = Some (JStr (es_timeframe entry)) /\
    dget "source" feature = Some (JStr (es_source entry)) /\
    es_role entry = role.

(** The episodes are the entries of the plan's object, one for one and in its order. *)
Definition episodes_of (plan : dict json) (episodes : list EpisodeEntry) : Prop :=
  match item_or_none plan "episode_params_by_ref" with
  | JNull => episodes = []
  | raw => raw = JObj (map (fun e => (ep_episode_ref e, JObj (ep_params e))) episodes)
  end.

Lemma item_Ok d k v : item d k = Ok v <-> dget k d = Some v.
Proof. unfold item. destruct (dget k d); naive_solver. Qed.

Lemma mapping_Ok j name d : _mapping j name = Ok d <-> j = JObj d.
Proof. destruct j; unfold raise; simpl; naive_solver. Qed.

Lemma sequence_Ok j name l : _sequence j name = Ok l <-> j = JList l.
Proof. destruct j; unfold raise; simpl; naive_solver. Qed.

Lemma item_or_none_Str d k s : item_or_none d k = JStr s <-> dget k d = Some (JStr s).
Proof. unfold item_or_none. destruct (dget k d); simpl; naive_solver. Qed.

Lemma planned_feature output_id feature :
  planned output_id (JObj feature) = true <-> dget "output_id" feature = Some (JStr output_id).
Proof. simpl. by rewrite bool_decide_eq_true, item_or_none_Str. Qed.

Lemma filter_singleton {A} (P : A -> Prop) `{forall x, Decision (P x)} l x :
  filter P l = [x] <->
  exists before after, l = before ++ x :: after /\ P x /\ Forall (fun y => ~ P y) (before ++ after).
Proof.
  split.
  - induction l as [|y l IH]; [done|]. rewrite filter_cons. case_decide as Hy.
    + intros Hl. injection Hl as -> Hl. exists [], l. split_and!; [done..|]. apply Forall_forall.
      intros z Hz Hp. by apply (filter_nil_not_elem_of P l z Hl Hp).
    + intros Hl. destruct (IH Hl) as (b & a & -> & Hx & Hf). exists (y :: b), a.
      split_and!; [done..|]. by constructor.
  - intros (b & a & -> & Hx & [Hb Ha]%Forall_app).
    assert (forall l', Forall (fun y => ~ P y) l' -> filter P l' = []) as Hnil.
    { induction 1 as [|z l' Hz _ IH]; [done|]. rewrite filter_cons. by rewrite decide_False. }
    rewrite filter_app, filter_cons, decide_True, (Hnil b), (Hnil a) by done. done.
Qed.

Lemma feature_entry_Ok role feature entry :
  feature_entry role feature = Ok entry <->
  exists parameters,
    dget "kind" feature = Some (JStr "ema") /\
    dget "parameters" feature = Some (JObj parameters) /\
    dget "period" parameters = Some (JInt (es_period entry)) /\ 1 <= es_period entry /\
    dget "timeframe" feature = Some (JStr (es_timeframe entry)) /\
    dget "source" feature = Some (JStr (es_source entry)) /\
    es_role entry = role.
Proof.
  unfold feature_entry. setoid_rewrite result_bind_Ok. split.
  - intros (_ & Hk%require_Ok%bool_decide_eq_true%item_or_none_Str & (pj & Hp%item_Ok & H)%result_bind_Ok).
    apply result_bind_Ok in H as (p & ->%mapping_Ok & H). exists p.
    apply result_bind_Ok in H as (n & Hn%item_Ok & H).
    apply result_bind_Ok in H as (z & Hz & H).
    apply result_bind_Ok in H as (t & Ht%item_Ok & H).
    apply result_bind_Ok in H as (c & Hc%item_Ok & H).
    destruct n; try discriminate Hz. simpl in Hz. ok_all. destruct t, c; try discriminate H.
    by simplify_eq/=.
  - intros (p & Hk & Hp & Hn & Hz & Ht & Hc & <-). exists tt. split.
    { by apply require_Ok, bool_decide_eq_true, item_or_none_Str. }
    unfold item. rewrite Hp. simpl. rewrite Hn. simpl. rewrite (proj2 (Z.leb_le _ _) Hz). simpl.
    rewrite Ht. simpl. rewrite Hc. simpl. by destruct entry.
Qed.

Lemma planned_mapping output_id feature : planned output_id feature = true ->
  exists fields, feature = JObj fields.
Proof. destruct feature; simpl; try done. eauto. Qed.

Lemma stack_entry_Ok columns features role entry :
  stack_entry columns features role = Ok entry <->
  exists feature before after output_id,
    features = before ++ JObj feature :: after /\ dget role columns = Some (JStr output_id) /\
    dget "output_id" feature = Some (JStr output_id) /\
    Forall (fun other => planned output_id other = false) (before ++ after) /\
    feature_entry role feature = Ok entry.
Proof.
  unfold stack_entry. rewrite result_bind_Ok. split.
  - intros (o & Ho%item_Ok & H). destruct o; try discriminate H.
    destruct (filter _ features) as [|[] []] eqn:Hf; try discriminate H.
    apply filter_singleton in Hf as (b & a & -> & Hp%planned_feature & Hba).
    exists fields, b, a, s. split_and!; [done..| |done]. eapply Forall_impl; [exact Hba|].
    by intros x ?%not_true_is_false.
  - intros (f & b & a & o & -> & Ho & Hf & Hba & He). exists (JStr o).
    split; [by apply item_Ok|].
    rewrite (proj2 (filter_singleton _ _ (JObj f))); [done|]. exists b, a. split_and!; [done| |].
    + by apply planned_feature.
    + eapply Forall_impl; [exact Hba|]. intros x ->. done.
Qed.

Lemma ema_stack_Ok plan stack :
  _ema_stack plan = Ok stack <-> Forall2 (describes plan) STACK_ROLES stack.
Proof.
  unfold _ema_stack. split.
  - intros (cj & Hc%item_Ok & (c & ->%mapping_Ok & (fj & Hf%item_Ok &
      (f & ->%sequence_Ok & H%traverse_Ok)%result_bind_Ok)%result_bind_Ok)%result_bind_Ok)%result_bind_Ok.
    eapply Forall2_impl; [exact H|]. intros role entry (x & b & a & o & -> & Ho & Hx & Hba & He)%stack_entry_Ok.
    apply feature_entry_Ok in He as (p & ?). exists x, p. split; [|done]. by exists c, b, a, o.
  - intros H. assert (exists c f, dget "anchor_columns" plan = Some (JObj c) /\
      dget "features" plan = Some (JList f)) as (c & f & Hc & Hf).
    { inversion H as [|? ? ? ? (x & p & (c & b & a & o & Hc & Hf & _) & _)]. eauto. }
    rewrite (proj2 (item_Ok _ _ _) Hc), (proj2 (item_Ok _ _ _) Hf). apply traverse_Ok.
    eapply Forall2_impl; [exact H|].
    intros role entry (x & p & (c' & b & a & o & Hc' & Hf' & Ho & Hx & Hba) & He).
    rewrite Hc in Hc'. rewrite Hf in Hf'. simplify_eq. apply stack_entry_Ok.
    exists x, b, a, o. split_and!; [done..|]. apply feature_entry_Ok. by exists p.
Qed.

Lemma episodes_Ok plan l : _episodes plan = Ok l <-> episodes_of plan l.
Proof.
  unfold _episodes, episodes_of. destruct (item_or_none plan "episode_params_by_ref") as [| | | | | |d];
    try (simpl; unfold raise; naive_solver).
  cbn [_mapping mbind result_bind]. rewrite traverse_Ok. split.
  - intros H. f_equal. induction H as [|[r p] e d l He _ IH]; [done|].
    apply result_bind_Ok in He as (v & ->%mapping_Ok & He). simplify_eq/=. by f_equal.
  - intros [= ->]. induction l as [|e l IH]; [constructor|]. simpl. constructor; [|done].
    by destruct e.
Qed.

Lemma layers_Ok id plan layers : layers_of id plan = Ok layers <->
  la_strategy_instance_id layers = id /\
  Forall2 (describes plan) STACK_ROLES (la_ema_stack layers) /\
  episodes_of plan (la_episodes layers).
Proof.
  unfold layers_of. split.
  - intros (s & Hs%ema_stack_Ok & (e & He%episodes_Ok & H)%result_bind_Ok)%result_bind_Ok.
    by simplify_eq/=.
  - intros (<- & Hs%ema_stack_Ok & He%episodes_Ok). rewrite Hs. simpl. rewrite He. simpl.
    by destruct layers.
Qed.

(** ** What the readers of a plan raise *)

Definition malformed (e : exn) : Prop := is_decode_failure (exn_cls e) = true.

Lemma item_raises d k : raises malformed (item d k).
Proof. unfold item. by destruct (dget k d). Qed.

Lemma mapping_raises j name : raises malformed (_mapping j name).
Proof. by destruct j. Qed.

Lemma traverse_raises {A B} (P : exn -> Prop) (f : A -> result B) l :
  (forall a, raises P (f a)) -> raises P (traverse f l).
Proof. intros Hf. induction l; simpl; raises; eauto. Qed.

#[local] Hint Resolve item_raises mapping_raises traverse_raises : raises.

Lemma layers_raise id plan : raises malformed (layers_of id plan).
Proof.
  unfold layers_of, _ema_stack, _episodes. raises.
  - match goal with |- raises _ (_sequence ?j _) => by destruct j end.
  - apply traverse_raises. intros role. unfold stack_entry, feature_entry, read_period. raises.
  - apply traverse_raises. intros []. raises.
Qed.

(** * Properties *)

(** The plan shows these layers. *)
Definition shows (plan : dict json) (id : string) (layers : ChartLayers) : Prop :=
  la_strategy_instance_id layers = id /\
  Forall2 (describes plan) STACK_ROLES (la_ema_stack layers) /\
  episodes_of plan (la_episodes layers).

(** What is answered for what the Engine answers. *)
Inductive plan_answer (id : string) : result (dict json) -> result ChartLayers -> Prop :=
| engine_rejects code msg :
    plan_answer id (Raise (Exn (StrategyEngineProjectionPublicError 422 code) msg))
      (Raise (refusal_exn (EngineRejected code msg)))
| engine_unreachable e :
    is_engine_projection_unavailable (exn_cls e) = true ->
    (forall code, exn_cls e <> StrategyEngineProjectionPublicError 422 code) ->
    plan_answer id (Raise e) (Raise (refusal_exn EngineUnavailable))
| engine_fails e :
    is_engine_projection_unavailable (exn_cls e) = false -> plan_answer id (Raise e) (Raise e)
| plan_invalid plan :
    (forall layers, ~ shows plan id layers) ->
    plan_answer id (Ok plan) (Raise (refusal_exn EngineUnavailable))
| plan_valid plan layers :
    shows plan id layers -> plan_answer id (Ok plan) (Ok layers).

Section contract.
Context {W : Type} `{Ports W}.
Context (build_feature_plan : string -> dict json -> W -> W * result (dict json)).

(** What a request answers, by what the catalog and the Engine answer. *)
Inductive chart_answer (id : string) (w : W) : W -> result ChartLayers -> Prop :=
| catalog_unreadable w1 e :
    port_load_snapshot w = (w1, Raise e) -> exn_cls e = DeploymentCatalogUnavailableError ->
    chart_answer id w w1 (Raise (refusal_exn CatalogUnavailable))
| catalog_fails w1 e :
    port_load_snapshot w = (w1, Raise e) -> exn_cls e <> DeploymentCatalogUnavailableError ->
    chart_answer id w w1 (Raise e)
| unknown_instance w1 snapshot :
    port_load_snapshot w = (w1, Ok snapshot) -> get_by_strategy_instance_id snapshot id = None ->
    chart_answer id w w1 (Raise (refusal_exn StrategyInstanceNotFound))
| engine_answers w1 snapshot d w2 plan r :
    port_load_snapshot w = (w1, Ok snapshot) ->
    get_by_strategy_instance_id snapshot id = Some d ->
    build_feature_plan (ds_strategy_id d) (ds_raw_spec d) w1 = (w2, plan) ->
    plan_answer id plan r ->
    chart_answer id w w2 r.
End contract.

Section properties.
Context {R W : Type} `{Repository R} `{Ports W}.
Context (build_feature_plan : string -> dict json -> W -> W * result (dict json)).

Lemma plan_failure_answers id e : plan_answer id (Raise e) (Raise (plan_failure e)).
Proof.
  destruct e as [c msg]. unfold plan_failure, ENGINE_REJECTION_STATUS; simpl.
  destruct c; simpl; try (by apply engine_fails); try (by apply engine_unreachable).
  destruct (Z.eqb_spec status_code 422) as [->|Hne]; [apply engine_rejects|].
  apply engine_unreachable; [done|]. intros code' [=]. done.
Qed.

Lemma chart_layers_cases id (s : sys R W) :
  exists w' r, get_chart_layers build_feature_plan id s = (Sys (sys_repo s) w' (sys_trace s), r) /\
    chart_answer build_feature_plan id (sys_world s) w' r.
Proof.
  unfold get_chart_layers, catalog_deployment, translate, load_snapshot.
  rewrite run_bind, run_bind, run_catch, run_on_world.
  destruct (port_load_snapshot (sys_world s)) as [w1 [snapshot|e]] eqn:Hl; cbv iota beta.
  2: { destruct e as [c msg]. exists w1. destruct c; eexists; (split; [reflexivity|]);
       first [by eapply catalog_unreadable|by eapply catalog_fails]. }
  destruct (get_by_strategy_instance_id snapshot id) as [d|] eqn:Hd.
  2: { exists w1. eexists. split; [reflexivity|]. by eapply unknown_instance. }
  rewrite run_ret, run_bind, run_catch, run_on_world. cbn [sys_world sys_repo sys_trace].
  destruct (build_feature_plan _ _ w1) as [w2 plan] eqn:Hp. exists w2.
  destruct plan as [plan|e]; simpl.
  - pose proof (layers_raise id plan) as Hr. destruct (layers_of id plan) as [layers|e] eqn:He; simpl.
    + eexists. split; [reflexivity|]. eapply engine_answers; [done..|]. apply plan_valid.
      by apply layers_Ok.
    + unfold malformed in Hr. simpl in Hr. destruct e as [c msg]. simpl in *. cbv [lift]. rewrite run_catch, run_Done. simpl. rewrite Hr.
      eexists. split; [reflexivity|]. eapply engine_answers; [done..|]. apply plan_invalid.
      intros layers Hs%layers_Ok. by rewrite He in Hs.
  - eexists. split; [reflexivity|]. eapply engine_answers; [done..|]. apply plan_failure_answers.
Qed.

(** C37. A chart-layers request changes no aggregate and no
    trace, asks the Engine for nothing when the instance is not an accepted deployment, and
    otherwise answers exactly what the Engine's plan of the instance's own specification
    shows: the EMAs of the roles fast, anchor and slow, each from the one planned feature
    with the [output_id] that [anchor_columns] gives the role, and the episode parameters
    unchanged. A plan that shows no such layers, and an Engine that cannot be reached, are
    [engine_unavailable]; only the Engine's own rejection (422) is [engine_rejected], with
    its code and message. No layer is ever guessed. *)
Theorem chart_layers_follow_the_plan id (s : sys R W) :
  exists w' r, get_chart_layers build_feature_plan id s = (Sys (sys_repo s) w' (sys_trace s), r) /\
    chart_answer build_feature_plan id (sys_world s) w' r.
Proof. apply chart_layers_cases. Qed.
End properties.

(** The order in which the plan lists its features has no
    effect on the answer, whether it is a stack or a refusal: no role is read off a position. *)
Theorem feature_order_is_irrelevant id plan features features' :
  features ≡ₚ features' ->
  layers_of id (dset "features" (JList features) plan) =
  layers_of id (dset "features" (JList features') plan).
Proof.
  intros Hp. unfold layers_of, _ema_stack, _episodes, item, item_or_none.
  rewrite !dget_dset. simpl. destruct (dget "anchor_columns" plan) as [c|]; [simpl|done].
  destruct (_mapping c "anchor_columns") as [columns|]; [simpl|done].
  f_equal. assert (forall role, stack_entry columns features role = stack_entry columns features' role) as He.
  { intros role. unfold stack_entry. destruct (item columns role) as [[]|]; simpl; try done.
    assert (filter (fun x => planned s x = true) features ≡ₚ filter (fun x => planned s x = true) features')
      as Hf by by rewrite Hp.
    revert Hf. generalize (filter (fun x => planned s x = true) features') as l2.
    generalize (filter (fun x => planned s x = true) features) as l1. intros l1 l2 Hf.
    pose proof (Permutation_length Hf) as Hn. destruct l1 as [|x [|y l1]], l2 as [|x' [|y' l2]];
      try discriminate Hn; [done| |by destruct x, x'].
    by apply Permutation_singleton_inj in Hf as ->. }
  simpl. by rewrite !He.
Qed.

(** * Witnesses *)

Definition sample_feature (output_id kind : string) (period : Z) : json :=
  JObj [("output_id", JStr output_id); ("kind", JStr kind); ("timeframe", JStr "base");
        ("source", JStr "close"); ("parameters", JObj [("period", JInt period)])].

Definition sample_features : list json :=
  [sample_feature "rsi_14" "rsi" 14; sample_feature "ema_1000" "ema" 1000;
   sample_feature "ema_200" "ema" 200; sample_feature "ema_500" "ema" 500].

Definition sample_plan : dict json :=
  [("anchor_columns", JObj [("slow", JStr "ema_1000"); ("fast", JStr "ema_200");
                            ("anchor", JStr "ema_500")]);
   ("features", JList sample_features);
   ("episode_params_by_ref", JObj [("trend", JObj [("window_bars", JInt 20)])])].

Definition sample_layers : ChartLayers :=
  let ema role period :=
    {| es_role := role; es_timeframe := "base"; es_period := period; es_source := "close" |} in
  {| la_strategy_instance_id := "i1";
     la_ema_stack := [ema "fast" 200; ema "anchor" 500; ema "slow" 1000];
     la_episodes := [{| ep_episode_ref := "trend"; ep_params := [("window_bars", JInt 20)] |}] |}.

Example sample_plan_layers : layers_of "i1" sample_plan = Ok sample_layers.
Proof. vm_compute. reflexivity. Qed.

(** A second feature with the same [output_id], or a period of zero: refused. *)
Example ambiguous_plan_is_refused :
  is_ok (layers_of "i1" (dset "features" (JList (sample_feature "ema_200" "ema" 9 :: sample_features))
    sample_plan)) = false /\
  is_ok (layers_of "i1" (dset "features" (JList (map (fun r => sample_feature r "ema" 0)
    ["ema_200"; "ema_500"; "ema_1000"])) sample_plan)) = false.
Proof. vm_compute. split; reflexivity. Qed.

Lemma feature_order_is_irrelevant_witness :
  sample_features ≡ₚ rev sample_features /\
  layers_of "i1" (dset "features" (JList sample_features) sample_plan) =
  layers_of "i1" (dset "features" (JList (rev sample_features)) sample_plan).
Proof.
  split; [apply Permutation_rev|].
  apply (feature_order_is_irrelevant "i1" sample_plan sample_features (rev sample_features)).
  apply Permutation_rev.
Defined.

(** The service on a catalog with the accepted deployment "i1", the Engine answering [plan]. *)
Definition answering (plan : result (dict json)) (_ : string) (_ : dict json) (w : script) :
    script * result (dict json) := (w, plan).

Definition ask (plan : result (dict json)) (scan : result DeploymentCatalogSnapshot) :
    result ChartLayers :=
  (get_chart_layers (answering plan) "i1" (empty_system (catalogs [scan]))).2.

Definition listed : result DeploymentCatalogSnapshot := Ok (sample_catalog [sample_deployment]).

Example sample_chart_layers :
  ask (Ok sample_plan) listed = Ok sample_layers /\
  ask (Ok sample_plan) (Ok (sample_catalog [])) = Raise (refusal_exn StrategyInstanceNotFound) /\
  ask (Ok sample_plan) (raise DeploymentCatalogUnavailableError EmptyString) =
    Raise (refusal_exn CatalogUnavailable) /\
  ask (Ok (dset "features" (JList []) sample_plan)) listed = Raise (refusal_exn EngineUnavailable) /\
  ask (raise StrategyEngineProjectionTimeout "late") listed = Raise (refusal_exn EngineUnavailable) /\
  ask (raise (StrategyEngineProjectionPublicError 422 "invalid_spec") "no stack") listed =
    Raise (refusal_exn (EngineRejected "invalid_spec" "no stack")).
Proof. vm_compute. repeat split; reflexivity. Qed.
