(* ===== verification/ExecutionEvent.v ===== *)
(** The ABI first-fill execution event (runtime/abi_execution_event): its validated value
    and the orchestrator that applies it under the instance's critical section. *)
From S2P Require Import Prelude Errors DecimalText Models Contracts Effects FirstFill.
From S2P Require Import Repository Scripted Protocol ProtocolRules.

Record AbiFirstFillExecutionEvent := {
  fe_strategy_instance_id : string;
  fe_trade_cycle_id : string;
  fe_first_fill_at_ms : Z }.

Definition AbiFirstFillExecutionEvent_post_init (e : AbiFirstFillExecutionEvent) :
    result AbiFirstFillExecutionEvent :=
  _ ← require_non_empty_string (fe_strategy_instance_id e) "strategy_instance_id";
  _ ← require_non_empty_string (fe_trade_cycle_id e) "trade_cycle_id";
  _ ← require (0 <? fe_first_fill_at_ms e) ValueError
    "first_fill_at_ms must be a strictly positive integer";
  Ok e.

Section event.
Context {R W : Type} `{Repository R} `{Ports W}.
Context (first_fill_freezer : FirstFillFreezer).

Definition _event_held (event : AbiFirstFillExecutionEvent) :
    M R W StrategyInstanceRuntimeState :=
  state ← get (fe_strategy_instance_id event);
  match state with
  | None => throw StrategyInstanceStateNotFound (fe_strategy_instance_id event)
  | Some state =>
      resulting_state ← lift (freeze first_fill_freezer state (fe_trade_cycle_id event)
                                (fe_first_fill_at_ms event));
      if bool_decide (resulting_state = state) then mret state
      else save resulting_state
  end.

Definition process_first_fill_event (event : AbiFirstFillExecutionEvent) :
    M R W StrategyInstanceRuntimeState :=
  hold (fe_strategy_instance_id event) false (_event_held event).
End event.

(** * The protocol *)

Section protocol.
Context {R W : Type} `{Repository R} `{!RepositoryLaws R} `{Ports W}.
Context (id : string).
Implicit Types s : sys R W.

Lemma event_held_spec ff e o s :
  within id o s -> fe_strategy_instance_id e = id ->
  (forall d, o = Some d -> st_strategy_instance_id d = id) ->
  inside id (_event_held ff e) (fun r s' => within id (Some r) s') broke s.
Proof.
  intros Hw He Hid. unfold _event_held. apply inside_bind. rewrite He. pget Hw.
  destruct o as [d|]; [|apply inside_throw; runs_done]. specialize (Hid d eq_refl).
  apply inside_bind. plift. apply inside_if; intros Heq; [by apply inside_ret|].
  apply bool_decide_eq_false in Heq.
  match goal with Ef : freeze _ _ _ _ = Ok _ |- _ =>
    pose proof (freeze_durable _ _ _ _ _ Ef Heq) as (Hd & Hi & _) end.
  psave Hw; [congruence|done|done].
Qed.
End protocol.

(** * Properties *)

Section event_properties.
Context {R W : Type} `{Repository R} `{!RepositoryLaws R} `{Ports W}.
Context (ff : FirstFillFreezer) (e : AbiFirstFillExecutionEvent).

Local Notation id := (fe_strategy_instance_id e).

(** What an event leaves, seen from the aggregate [d] that was stored. *)
Definition event_applied (s s' : sys R W) (d r : StrategyInstanceRuntimeState) : Prop :=
  apply_first_fill d (fe_trade_cycle_id e) (fe_first_fill_at_ms e)
    (ff_order_lifetime_bars ff) = Ok r /\
  ((r = d /\ frozen_at d (fe_trade_cycle_id e) (fe_first_fill_at_ms e) /\
    same_content (sys_repo s) (sys_repo s') /\
    sys_trace s' = sys_trace s ++ [EvAcquire id; EvRelease id]) \/
   (first_fill_applied d (fe_trade_cycle_id e) (fe_first_fill_at_ms e)
      (ff_order_lifetime_bars ff) r /\
    stored (sys_repo s) (sys_repo s') r /\
    sys_trace s' = sys_trace s ++ [EvAcquire id; EvSave r; EvRelease id])).

Lemma event_runs s s' d o :
  repo_lookup (sys_repo s) id = Some d ->
  process_first_fill_event ff e s = (s', o) ->
  match o with
  | Ok r => event_applied s s' d r
  | Raise _ => same_content (sys_repo s) (sys_repo s')
  end.
Proof.
  intros Hd Hrun.
  assert (wp (process_first_fill_event ff e) (fun r s' => event_applied s s' d r)
    (fun _ s' => same_content (sys_repo s) (sys_repo s')) s) as Hwp;
    [|apply (wp_run _ _ _ _ _ _ Hwp Hrun)].
  apply wp_hold_wait; [|done]. apply wp_bind, wp_get; simpl; [|done].
  intros r1 Hr1. rewrite Hd. apply wp_bind, wp_lift.
  destruct (freeze ff d _ _) as [r|x] eqn:Hf; [|done]. unfold freeze in Hf.
  apply wp_if; [intros ->%bool_decide_eq_true|intros Hne%bool_decide_eq_false].
  - apply wp_ret. split; [done|left]. split_and!; [done| |done|simpl; by rewrite <- app_assoc].
    by apply apply_first_fill_inputs in Hf as (_ & _ & _ & ?).
  - apply wp_save; simpl; [|intros r2 x Hr2 k; by rewrite Hr2].
    intros r2 Hr2. split; [done|right]. split_and!; [|intros k; simpl; by rewrite Hr2, Hr1|].
    + apply apply_first_fill_Ok in Hf as [[-> _]|Hf]; [done|exact Hf].
    + simpl. by rewrite <- !app_assoc.
Qed.

(** A first-fill event freezes the stored cycle it names, and nothing else: when the
    call returns, the aggregate is the one the pure transition gives, saved once; an event
    for a fill that is already frozen saves nothing. An event for another cycle, another
    fill time or an unknown instance raises, and the store stays as it was. *)
Theorem first_fill_event_applied s s' d o :
  repo_lookup (sys_repo s) id = Some d ->
  process_first_fill_event ff e s = (s', o) ->
  match o with
  | Ok r => repo_lookup (sys_repo s') (st_strategy_instance_id d) = Some r /\
      event_applied s s' d r
  | Raise _ => same_content (sys_repo s) (sys_repo s')
  end.
Proof.
  intros Hd Hrun. pose proof (event_runs s s' d o Hd Hrun) as Ha.
  destruct o as [r|]; [|done]. split; [|done].
  assert (st_strategy_instance_id d = id) as Hid by by eapply lookup_id.
  destruct Ha as [_ [(-> & _ & Hs & _)|(Hf & Hs & _)]].
  - by rewrite Hid, Hs.
  - rewrite Hs, decide_True; [done|].
    by destruct Hf as [(c & f & dd & _ & _ & _ & _ & _ & _ & _ & _ & _ & ->) _ _].
Qed.

(** A first-fill event that was processed may be delivered again: the second
    delivery finds the cycle frozen at this very time, saves nothing, calls no service,
    and returns the same aggregate (unless the repository fails to answer). *)
Theorem redelivered_event_ignored s s1 d r s2 o :
  repo_lookup (sys_repo s) id = Some d ->
  process_first_fill_event ff e s = (s1, Ok r) ->
  process_first_fill_event ff e s1 = (s2, o) ->
  match o with
  | Ok r' => r' = r /\ same_content (sys_repo s1) (sys_repo s2) /\
      sys_trace s2 = sys_trace s1 ++ [EvAcquire id; EvRelease id]
  | Raise _ => same_content (sys_repo s1) (sys_repo s2)
  end.
Proof.
  intros Hd Hrun Hrun2. pose proof (event_runs s s1 d (Ok r) Hd Hrun) as [Ha Hs].
  assert (repo_lookup (sys_repo s1) id = Some r) as Hr.
  { destruct Hs as [(-> & _ & Hs & _)|(Hf & Hs & _)]; [by rewrite Hs|].
    rewrite Hs, decide_True; [done|]. rewrite <- (lookup_id _ _ _ Hd).
    by destruct Hf as [(c & f & dd & _ & _ & _ & _ & _ & _ & _ & _ & _ & ->) _ _]. }
  pose proof (event_runs s1 s2 r o Hr Hrun2) as Ha2. destruct o as [r'|]; [|done].
  destruct Ha2 as [Ha2 Hcase].
  assert (r' = r) as -> by (apply apply_first_fill_again in Ha; congruence).
  split; [done|]. destruct Hcase as [(_ & _ & ? & ?)|(Hf & _)]; [done|exfalso].
  apply apply_first_fill_inputs in Ha as (_ & _ & _ & c & f & Hc & _ & Hcf & _).
  destruct Hf as [(c' & f' & dd & Hc' & Hcf' & _) _ _]. congruence.
Qed.
End event_properties.

Definition sample_fill_event : AbiFirstFillExecutionEvent :=
  {| fe_strategy_instance_id := "i1"; fe_trade_cycle_id := "c1";
     fe_first_fill_at_ms := 1000000 |}.

Definition three_bars : FirstFillFreezer := {| ff_order_lifetime_bars := Some 3 |}.

Lemma first_fill_event_applied_witness : exists s',
  process_first_fill_event three_bars sample_fill_event (holding resting_state quiet) =
    (s', Ok open_state) /\
  repo_lookup (sys_repo s') "i1" = Some open_state.
Proof.
  eexists. split; [vm_compute; reflexivity|].
  refine (proj1 (first_fill_event_applied three_bars sample_fill_event
    (holding resting_state quiet) _ resting_state (Ok open_state) eq_refl _)).
  vm_compute. reflexivity.
Defined.

Lemma redelivered_event_ignored_witness : exists s1 s2,
  process_first_fill_event three_bars sample_fill_event (holding resting_state quiet) =
    (s1, Ok open_state) /\
  process_first_fill_event three_bars sample_fill_event s1 = (s2, Ok open_state) /\
  sys_trace s2 = sys_trace s1 ++ [EvAcquire "i1"; EvRelease "i1"].
Proof.
  eexists _, _. split; [vm_compute; reflexivity|]. split; [vm_compute; reflexivity|].
  refine (proj2 (proj2 (redelivered_event_ignored three_bars sample_fill_event
    (holding resting_state quiet) _ resting_state open_state _ (Ok open_state) eq_refl _ _)));
    vm_compute; reflexivity.
Defined.
