(* ===== verification/CommittedBar.v ===== *)
(** One committed bar over all strategies: the selector
    (utility/deployment_selection/selector.py) and the coordinator that fans the bar out
    to one dispatch per selected deployment (utility/committed_bar/orchestrator.py). The
    dispatcher is a parameter, as the port is; composition passes
    [RuntimeOrchestrator.dispatch]. *)
From S2P Require Import Prelude Errors DecimalText Models Contracts Effects Repository Scripted.

Record SelectedDeployment := {
  sd_strategy_instance_id : string;
  sd_deployment : DeploymentSpecification }.

Definition SelectedDeployment_post_init (s : SelectedDeployment) : result SelectedDeployment :=
  _ ← require (negb (is_blank (sd_strategy_instance_id s))) ValueError
    "strategy_instance_id must be a non-empty string";
  Ok s.

Definition is_selected (event : CommittedBarEvent) (deployment : DeploymentSpecification) : bool :=
  ds_enabled deployment
  && bool_decide (ds_instrument deployment = cb_instrument event)
  && bool_decide (ds_base_timeframe deployment = cb_timeframe event).

Definition select (event : CommittedBarEvent) (snapshot : DeploymentCatalogSnapshot) :
    result (list SelectedDeployment) :=
  traverse (fun deployment => SelectedDeployment_post_init
    {| sd_strategy_instance_id := ds_strategy_instance_id deployment;
       sd_deployment := deployment |})
    (filter (fun deployment => is_selected event deployment = true)
       (sn_accepted_deployments snapshot)).

Definition DEPLOYMENT_CATALOG := "deployment_catalog".
Definition DEPLOYMENT_SELECTION := "deployment_selection".

Definition is_succeeded (outcome : StrategyCycleDispatchOutcome) : bool :=
  match so_status outcome with SUCCEEDED => true | FAILED => false end.

Definition _build_result (outcomes : list StrategyCycleDispatchOutcome) :
    result CommittedBarOrchestrationResult :=
  let succeeded_count := Z.of_nat (length (List.filter is_succeeded outcomes)) in
  let count := Z.of_nat (length outcomes) in
  CommittedBarOrchestrationResult_post_init
    {| or_selected_count := count;
       or_attempted_count := count;
       or_succeeded_count := succeeded_count;
       or_failed_count := count - succeeded_count;
       or_outcomes := outcomes |}.

Definition processing_unit (committed_bar : CommittedBarEvent) (s : SelectedDeployment) :
    StrategyBarProcessingUnit :=
  {| pu_strategy_instance_id := sd_strategy_instance_id s;
     pu_deployment := sd_deployment s;
     pu_committed_bar := committed_bar |}.

(** [str(error) or error.__class__.__name__] *)
Definition error_text (error : exn) : string :=
  if is_empty (exn_msg error) then class_name (exn_cls error) else exn_msg error.

(** What one attempt contributes: the [try/except/else] around the dispatch. *)
Definition classify_attempt (s : SelectedDeployment)
    (r : result StrategyCycleDispatchOutcome) : result StrategyCycleDispatchOutcome :=
  match r with
  | Raise error =>
      outcome_failed (sd_strategy_instance_id s) "strategy_cycle_dispatch_failed"
        (Some (error_text error))
  | Ok outcome =>
      if negb (bool_decide (so_strategy_instance_id outcome = sd_strategy_instance_id s)) then
        outcome_failed (sd_strategy_instance_id s) "strategy_cycle_outcome_identity_mismatch"
          (Some "dispatcher returned an outcome for a different deployment identity")
      else Ok outcome
  end.

Section orchestrator.
Context {R W : Type} `{Ports W}.
Context (dispatch : StrategyBarProcessingUnit -> M R W StrategyCycleDispatchOutcome).

(** The result of a computation as a value: [try ... except Exception]. *)
Definition attempt_result {A} (m : M R W A) : M R W (result A) :=
  and_then m (fun r => Done (Ok r)).

Fixpoint fan_out (committed_bar : CommittedBarEvent) (selected : list SelectedDeployment) :
    M R W (list StrategyCycleDispatchOutcome) :=
  match selected with
  | [] => mret []
  | selected_deployment :: selected =>
      r ← attempt_result (dispatch (processing_unit committed_bar selected_deployment));
      outcome ← lift (classify_attempt selected_deployment r);
      _ ← emit (EvJournal (strategy_cycle_outcome committed_bar outcome));
      outcomes ← fan_out committed_bar selected;
      mret (outcome :: outcomes)
  end.

Definition _prepare {A} (stage : string) (committed_bar : CommittedBarEvent)
    (operation : M R W A) : M R W A :=
  catch operation (fun error =>
    _ ← emit (EvJournal (orchestration_failed committed_bar stage error));
    throw (CommittedBarPreparationError stage)
      "committed-bar preparation failed at ").

Definition process_committed_bar (committed_bar : CommittedBarEvent) :
    M R W CommittedBarOrchestrationResult :=
  _ ← emit (EvJournal (orchestration_started committed_bar));
  snapshot ← _prepare DEPLOYMENT_CATALOG committed_bar load_snapshot;
  selected ← _prepare DEPLOYMENT_SELECTION committed_bar
    (lift (select committed_bar snapshot));
  outcomes ← fan_out committed_bar (sort_by sd_strategy_instance_id selected);
  result ← lift (_build_result outcomes);
  _ ← emit (EvJournal (orchestration_completed committed_bar result));
  mret result.
End orchestrator.

(** * Lemmas *)

Lemma filter_le (p : StrategyCycleDispatchOutcome -> bool) l :
  (length (List.filter p l) <= length l)%nat.
Proof. induction l; simpl; [done|]. destruct (p a); simpl; lia. Qed.

Lemma build_result_total outcomes :
  exists r, _build_result outcomes = Ok r /\ or_outcomes r = outcomes /\
    or_selected_count r = Z.of_nat (length outcomes) /\
    or_attempted_count r = Z.of_nat (length outcomes) /\
    or_succeeded_count r = Z.of_nat (length (List.filter is_succeeded outcomes)) /\
    or_failed_count r =
      Z.of_nat (length (List.filter (fun o => negb (is_succeeded o)) outcomes)).
Proof.
  assert (length outcomes = length (List.filter is_succeeded outcomes)
            + length (List.filter (fun o => negb (is_succeeded o)) outcomes))%nat as Hsplit.
  { induction outcomes as [|o l IH]; simpl; [done|].
    destruct (is_succeeded o); simpl; lia. }
  unfold _build_result, CommittedBarOrchestrationResult_post_init. cbn [or_selected_count
    or_attempted_count or_succeeded_count or_failed_count or_outcomes].
  set (n := Z.of_nat (length outcomes)). set (k := Z.of_nat (length (List.filter _ _))).
  assert (0 <= k <= n) as [Hk Hn] by (unfold k, n; lia).
  assert (existsb (fun c => c <? 0) [n; n; k; n - k] = false) as He.
  { simpl. rewrite !orb_false_iff, !Z.ltb_ge. lia. }
  rewrite He. simpl negb. rewrite Z.eqb_refl.
  replace (k + (n - k)) with n by lia. rewrite Z.eqb_refl.
  eexists. split; [reflexivity|]. simpl. unfold n, k. split_and!; lia || done.
Qed.

Lemma outcome_failed_Ok id code msg :
  is_blank id = false ->
  outcome_failed id code msg =
    Ok {| so_strategy_instance_id := id; so_status := FAILED;
          so_error_code := Some code; so_error_message := msg |}.
Proof.
  intros Hid. unfold outcome_failed, StrategyCycleDispatchOutcome_post_init. simpl.
  by rewrite Hid.
Qed.

(** The outcome of one attempt: the dispatcher's own answer for that very instance, or a
    failure. *)
Definition attempt_outcome (s : SelectedDeployment)
    (r : result StrategyCycleDispatchOutcome) (o : StrategyCycleDispatchOutcome) : Prop :=
  so_strategy_instance_id o = sd_strategy_instance_id s /\
  (r = Ok o \/
   (so_status o = FAILED /\ exists code, so_error_code o = Some code /\
      match r with
      | Raise e => code = "strategy_cycle_dispatch_failed"
      | Ok o' => code = "strategy_cycle_outcome_identity_mismatch" /\
          so_strategy_instance_id o' <> sd_strategy_instance_id s
      end)).

Lemma classify_attempt_total s r :
  is_blank (sd_strategy_instance_id s) = false ->
  exists o, classify_attempt s r = Ok o /\ attempt_outcome s r o.
Proof.
  intros Hid. unfold classify_attempt, attempt_outcome. destruct r as [o|e].
  - case_bool_decide as Heq; simpl.
    + eauto.
    + rewrite outcome_failed_Ok by done. eexists. split; [done|].
      split; [done|]. right. eauto.
  - rewrite outcome_failed_Ok by done. eexists. split; [done|].
    split; [done|]. right. eauto.
Qed.

Section fan_out.
Context {R W : Type} `{Ports W}.
Context (dispatch : StrategyBarProcessingUnit -> M R W StrategyCycleDispatchOutcome).
Context (bar : CommittedBarEvent).

(** The attempts of one bar: each deployment is dispatched once, in order, from the state
    the previous attempt left, and its outcome is journaled. *)
Inductive attempts : list SelectedDeployment -> sys R W ->
    list StrategyCycleDispatchOutcome -> sys R W -> Prop :=
| attempts_nil s : attempts [] s [] s
| attempts_cons sel l s s1 r o os s' :
    dispatch (processing_unit bar sel) s = (s1, r) ->
    attempt_outcome sel r o ->
    attempts l (Sys (sys_repo s1) (sys_world s1)
      (sys_trace s1 ++ [EvJournal (strategy_cycle_outcome bar o)])) os s' ->
    attempts (sel :: l) s (o :: os) s'.

Lemma attempts_ids l s os s' :
  attempts l s os s' ->
  map so_strategy_instance_id os = map sd_strategy_instance_id l.
Proof. induction 1 as [|? ? ? ? ? ? ? ? ? [Ho _] ? IH]; simpl; congruence. Qed.

Lemma fan_out_total l s :
  Forall (fun sel => is_blank (sd_strategy_instance_id sel) = false) l ->
  exists os s', fan_out dispatch bar l s = (s', Ok os) /\ attempts l s os s'.
Proof.
  intros Hl. revert s. induction Hl as [|sel l Hsel Hl IH]; intros s; cbn [fan_out].
  - exists [], s. split; [done|constructor].
  - destruct (dispatch (processing_unit bar sel) s) as [s1 r] eqn:Hd.
    destruct (classify_attempt_total sel r Hsel) as (o & Ho & Hout).
    destruct (IH (Sys (sys_repo s1) (sys_world s1)
      (sys_trace s1 ++ [EvJournal (strategy_cycle_outcome bar o)])))
      as (os & s' & Hrun & Hatt).
    exists (o :: os), s'. split; [|by econstructor].
    rewrite run_bind. unfold attempt_result. rewrite run_and_then, Hd, run_Done.
    rewrite run_bind, Ho, run_lift, run_bind, run_emit, run_bind, Hrun. done.
Qed.
End fan_out.

Lemma select_Ok event snapshot l :
  select event snapshot = Ok l ->
  map sd_deployment l =
    filter (fun d => is_selected event d = true) (sn_accepted_deployments snapshot) /\
  Forall (fun s => sd_strategy_instance_id s = ds_strategy_instance_id (sd_deployment s) /\
                   is_blank (sd_strategy_instance_id s) = false) l.
Proof.
  unfold select. intros H%traverse_Ok.
  induction H as [|d s ds l Hs Hl [IH1 IH2]]; simpl; [done|].
  unfold SelectedDeployment_post_init in Hs. ok_all. split; [by f_equal|].
  constructor; [done|done].
Qed.

Lemma well_formed_select event snapshot :
  well_formed_catalog snapshot ->
  exists l, select event snapshot = Ok l.
Proof.
  intros [_ Hd]. eexists. unfold select. apply traverse_map with (g := fun d =>
    {| sd_strategy_instance_id := ds_strategy_instance_id d; sd_deployment := d |}).
  apply Forall_forall. intros d [_ Hin]%list_elem_of_filter.
  rewrite Forall_forall in Hd. specialize (Hd d Hin).
  unfold DeploymentSpecification_post_init in Hd. ok_all.
  unfold SelectedDeployment_post_init. simpl.
  by match goal with E : is_blank (ds_strategy_instance_id d) = false |- _ => rewrite E end.
Qed.

Lemma selected_ids_NoDup event snapshot l :
  well_formed_catalog snapshot -> select event snapshot = Ok l ->
  NoDup (map sd_strategy_instance_id l).
Proof.
  intros Hw [Hm Hid]%select_Ok.
  assert (map sd_strategy_instance_id l = map ds_strategy_instance_id (map sd_deployment l))
    as ->.
  { rewrite map_map. clear Hm. induction Hid as [|s l [Hs _] _ IH]; simpl; congruence. }
  rewrite Hm. eapply sublist_NoDup; [by apply catalog_ids_NoDup|].
  apply fmap_sublist, sublist_filter.
Qed.

(** * Properties *)

(** Selection keeps exactly the enabled deployments of the bar's instrument and
    timeframe, in catalog order, and never fails on a catalog the catalog's own checks
    accept. *)
Theorem select_correct event snapshot :
  well_formed_catalog snapshot ->
  exists l, select event snapshot = Ok l /\
    (forall d, d ∈ map sd_deployment l <->
       d ∈ sn_accepted_deployments snapshot /\ ds_enabled d = true /\
       ds_instrument d = cb_instrument event /\ ds_base_timeframe d = cb_timeframe event) /\
    map sd_deployment l `sublist_of` sn_accepted_deployments snapshot /\
    NoDup (map sd_strategy_instance_id l).
Proof.
  intros Hw. destruct (well_formed_select event snapshot Hw) as [l Hl].
  exists l. split; [done|]. pose proof (select_Ok _ _ _ Hl) as [Hm Hid].
  rewrite Hm. split_and!.
  - intros d. rewrite list_elem_of_filter. unfold is_selected.
    rewrite !andb_true_iff, !bool_decide_eq_true. tauto.
  - apply sublist_filter.
  - by eapply selected_ids_NoDup.
Qed.

Lemma select_correct_witness :
  exists l, select sample_bar (sample_catalog [sample_deployment]) = Ok l /\
    map sd_deployment l = [sample_deployment].
Proof.
  destruct (select_correct sample_bar (sample_catalog [sample_deployment])) as (l & Hl & _).
  { split; [vm_compute; reflexivity|]. constructor; [vm_compute; reflexivity|constructor]. }
  exists l. split; [exact Hl|]. vm_compute in Hl. injection Hl as <-. reflexivity.
Defined.

(** C27. Whatever the dispatcher does (return, return an outcome of another
    instance, or raise), a committed bar whose catalog loads ends with a result: the
    selected deployments are attempted one after the other, each exactly once, in the
    order of their identities, a failing one leaving the later ones attempted; each
    outcome carries its own identity and is the dispatcher's answer or a failure; and the
    counts of the result describe exactly these outcomes. *)
Theorem committed_bar_fan_out {R W} `{Ports W}
    (dispatch : StrategyBarProcessingUnit -> M R W StrategyCycleDispatchOutcome)
    bar (s : sys R W) w snapshot :
  port_load_snapshot (sys_world s) = (w, Ok snapshot) ->
  well_formed_catalog snapshot ->
  exists selected r s',
    select bar snapshot = Ok selected /\
    attempts dispatch bar (sort_by sd_strategy_instance_id selected)
      (Sys (sys_repo s) w (sys_trace s ++ [EvJournal (orchestration_started bar)]))
      (or_outcomes r) s' /\
    process_committed_bar dispatch bar s =
      (Sys (sys_repo s') (sys_world s')
         (sys_trace s' ++ [EvJournal (orchestration_completed bar r)]), Ok r) /\
    NoDup (map so_strategy_instance_id (or_outcomes r)) /\
    map so_strategy_instance_id (or_outcomes r) ≡ₚ map sd_strategy_instance_id selected /\
    Sorted (key_le id) (map so_strategy_instance_id (or_outcomes r)) /\
    or_selected_count r = Z.of_nat (length (or_outcomes r)) /\
    or_attempted_count r = or_selected_count r /\
    or_succeeded_count r =
      Z.of_nat (length (List.filter is_succeeded (or_outcomes r))) /\
    or_failed_count r =
      Z.of_nat (length (List.filter (fun o => negb (is_succeeded o)) (or_outcomes r))).
Proof.
  intros Hload Hw. destruct (well_formed_select bar snapshot Hw) as [l Hl].
  pose proof (select_Ok _ _ _ Hl) as [Hm Hid].
  set (sorted := sort_by sd_strategy_instance_id l).
  pose proof (sort_by_perm sd_strategy_instance_id l : sorted ≡ₚ l) as Hperm.
  assert (Forall (fun sel => is_blank (sd_strategy_instance_id sel) = false) sorted) as Hb.
  { rewrite Hperm. eapply Forall_impl; [exact Hid|]. by intros ? [_ ?]. }
  destruct (fan_out_total dispatch bar sorted
    (Sys (sys_repo s) w (sys_trace s ++ [EvJournal (orchestration_started bar)])) Hb)
    as (os & s' & Hrun & Hatt).
  destruct (build_result_total os) as (r & Hr & Hos & Hsel & Hatm & Hsucc & Hfail).
  exists l, r, s'. rewrite Hos. pose proof (attempts_ids _ _ _ _ _ _ Hatt) as Hids.
  assert (map so_strategy_instance_id os ≡ₚ map sd_strategy_instance_id l) as Hp.
  { rewrite Hids. by apply Permutation_map. }
  split_and!; try done; try congruence.
  - unfold process_committed_bar, _prepare, load_snapshot. run_program. rewrite Hload, Hl.
    run_program. fold sorted. rewrite Hrun. run_program. by rewrite Hr.
  - rewrite Hp. by eapply selected_ids_NoDup.
  - rewrite Hids. pose proof (sort_by_sorted sd_strategy_instance_id l) as Hsort.
    fold sorted in Hsort. clearbody sorted. clear -Hsort.
    induction Hsort as [|y ys _ IH Hr]; simpl; [constructor|].
    constructor; [done|]. destruct Hr; simpl; constructor. done.
Qed.

Definition second_deployment : DeploymentSpecification :=
  {| ds_strategy_instance_id := "a0"; ds_enabled := true; ds_instrument := "BTC";
     ds_base_timeframe := "5m"; ds_strategy_id := "s1"; ds_raw_spec := [];
     ds_source_path := "b.json" |}.

(** A dispatcher that fails for the instance [a0] and succeeds otherwise. *)
Definition failing_dispatch (u : StrategyBarProcessingUnit) :
    M InMemory.repository script StrategyCycleDispatchOutcome :=
  if decide (pu_strategy_instance_id u = "a0") then throw RuntimeError "boom"
  else lift (outcome_succeeded (pu_strategy_instance_id u)).

Definition two_strategies : script :=
  Script [] [] [] [] [] [] [] []
    [Ok (sample_catalog [sample_deployment; second_deployment])] [] [] [] true.

Lemma committed_bar_fan_out_witness :
  exists r, (process_committed_bar failing_dispatch sample_bar (empty_system two_strategies)).2
      = Ok r /\
    map so_strategy_instance_id (or_outcomes r) ≡ₚ ["i1"; "a0"].
Proof.
  destruct (committed_bar_fan_out failing_dispatch sample_bar (empty_system two_strategies)
    (Script [] [] [] [] [] [] [] [] [] [] [] [] true)
    (sample_catalog [sample_deployment; second_deployment]))
    as (selected & r & s' & Hsel & _ & Hrun & _ & Hp & _).
  - reflexivity.
  - split; [vm_compute; reflexivity|].
    constructor; [vm_compute; reflexivity|constructor; [vm_compute; reflexivity|constructor]].
  - exists r. rewrite Hrun. split; [reflexivity|].
    vm_compute in Hsel. injection Hsel as <-. exact Hp.
Defined.

(** When the catalog or the selection fails, the failure is journaled with its
    stage, no strategy is dispatched, no state changes, and the error that is raised names
    the stage. *)
Theorem committed_bar_preparation_failure {R W} `{Ports W}
    (dispatch : StrategyBarProcessingUnit -> M R W StrategyCycleDispatchOutcome)
    bar (s : sys R W) w r e stage :
  port_load_snapshot (sys_world s) = (w, r) ->
  match r with
  | Raise error => e = error /\ stage = DEPLOYMENT_CATALOG
  | Ok snapshot => select bar snapshot = Raise e /\ stage = DEPLOYMENT_SELECTION
  end ->
  exists msg, process_committed_bar dispatch bar s =
    (Sys (sys_repo s) w
       (sys_trace s ++ [EvJournal (orchestration_started bar);
                        EvJournal (orchestration_failed bar stage e)]),
     Raise (Exn (CommittedBarPreparationError stage) msg)).
Proof.
  intros Hload Hr. eexists. unfold process_committed_bar, _prepare, load_snapshot, throw.
  run_program. rewrite Hload. destruct r as [snapshot|error]; destruct Hr as [Hr ->]; subst;
    run_program; [rewrite Hr; run_program|]; by rewrite <- app_assoc.
Qed.

Lemma committed_bar_preparation_failure_witness :
  exists msg, process_committed_bar failing_dispatch sample_bar (empty_system quiet) =
    (Sys InMemory.empty quiet
       [EvJournal (orchestration_started sample_bar);
        EvJournal (orchestration_failed sample_bar DEPLOYMENT_CATALOG
          (Exn (OtherException "ScriptExhausted") EmptyString))],
     Raise (Exn (CommittedBarPreparationError DEPLOYMENT_CATALOG) msg)).
Proof.
  exact (committed_bar_preparation_failure failing_dispatch sample_bar (empty_system quiet)
    quiet (Raise (Exn (OtherException "ScriptExhausted") EmptyString))
    (Exn (OtherException "ScriptExhausted") EmptyString) DEPLOYMENT_CATALOG
    eq_refl (conj eq_refl eq_refl)).
Defined.
