(* ===== verification/Lifecycle.v ===== *)
(** The life cycle that the two background workers share (runtime/committed_bar_intake/
    worker.py and runtime/uncertain_exchange_state_resolver/worker.py: [start],
    [stop_once], the state machine NOT_STARTED, RUNNING, STOPPING, STOPPED and the
    dedicated thread).

    A configuration is changed by atomic steps of any thread: the region under one lock
    acquisition is one step, a blocking call is a step that is enabled only when the call
    returns. [Worker] is parametrised by the loop of the dedicated thread, a partial
    function from an action of the thread and the answer to "is the state RUNNING?". *)
From S2P Require Import Prelude Errors.

Module Worker.

Definition thread := nat.

(** [_State] *)
Inductive state := NOT_STARTED | RUNNING | STOPPING | STOPPED.
#[export] Instance state_eq_dec : EqDecision state.
Proof. solve_decision. Defined.

(** Where a caller is inside [stop_once]. *)
Inductive caller :=
| Outside
| StopLocked       (* holds [_stop_lock], before [with self._lifecycle_lock] *)
| Waking           (* STOPPING is set; before [_wake.set()] (intake: nothing) *)
| Joining          (* at [thread.join()] *)
| Joined.          (* before the last [with self._lifecycle_lock] *)

Section worker.
(** the shared data of the loop, its program points, its actions, the operations other
    threads have on the data *)
Context {data point action request : Type}.

(** The dedicated thread. *)
Inductive dedicated := NoThread | At (p : point) | Terminated.

Record config := Config {
  _state : state;
  _stop_lock : option thread;
  _thread : dedicated;
  callers : gmap thread caller;
  shared : data }.

(** [loop a running p d]: the thread at [p] does [a]; [None] when it cannot; its next
    point is [None] when [_run] returns or raises. *)
Context (loop : action -> bool -> point -> data -> option (option point * data)).
Context (entry : point).
Context (wake : data -> data).
Context (serve : request -> data -> data).

Inductive operation :=
| Start (thread_starts : bool)
| StopAcquire (t : thread)
| StopDecide (t : thread)
| StopWake (t : thread)
| StopJoin (t : thread)
| StopFinish (t : thread)
| Run (a : action)
| Serve (r : request).

Definition caller_at (σ : config) (t : thread) : caller := default Outside (callers σ !! t).

Definition set_caller (t : thread) (c : caller) (σ : config) : config :=
  Config (_state σ) (_stop_lock σ) (_thread σ) (<[t := c]> (callers σ)) (shared σ).

Definition is_running (σ : config) : bool := bool_decide (_state σ = RUNNING).

(** [start]: the new configuration and whether the call returned. [thread_starts] is
    false when [thread.start()] raises. *)
Definition start (thread_starts : bool) (σ : config) : config * result () :=
  if decide (_state σ = NOT_STARTED) then
    if thread_starts then
      (Config RUNNING (_stop_lock σ) (At entry) (callers σ) (shared σ), Ok tt)
    else
      (Config STOPPED (_stop_lock σ) (_thread σ) (callers σ) (shared σ),
       raise RuntimeError "can't start new thread")
  else (σ, raise RuntimeError "start() called more than once").

(** Leaving [stop_once] releases [_stop_lock]. *)
Definition leave (t : thread) (st : state) (σ : config) : config :=
  Config st None (_thread σ) (<[t := Outside]> (callers σ)) (shared σ).

Definition step (op : operation) (σ : config) : option config :=
  match op with
  | Start ok => Some (start ok σ).1
  | StopAcquire t =>
      match caller_at σ t, _stop_lock σ with
      | Outside, None =>
          Some (set_caller t StopLocked
            (Config (_state σ) (Some t) (_thread σ) (callers σ) (shared σ)))
      | _, _ => None
      end
  | StopDecide t =>
      match caller_at σ t with
      | StopLocked =>
          Some match _state σ with
               | NOT_STARTED => leave t STOPPED σ
               | STOPPED => leave t STOPPED σ
               | RUNNING | STOPPING =>
                   set_caller t Waking
                     (Config STOPPING (_stop_lock σ) (_thread σ) (callers σ) (shared σ))
               end
      | _ => None
      end
  | StopWake t =>
      match caller_at σ t with
      | Waking =>
          Some (set_caller t Joining
            (Config (_state σ) (_stop_lock σ) (_thread σ) (callers σ) (wake (shared σ))))
      | _ => None
      end
  | StopJoin t =>
      match caller_at σ t, _thread σ with
      | Joining, Terminated => Some (set_caller t Joined σ)
      | _, _ => None
      end
  | StopFinish t =>
      match caller_at σ t with
      | Joined => Some (leave t STOPPED σ)
      | _ => None
      end
  | Run a =>
      match _thread σ with
      | At p =>
          '(p', d') ← loop a (is_running σ) p (shared σ);
          Some (Config (_state σ) (_stop_lock σ)
                  match p' with Some p' => At p' | None => Terminated end (callers σ) d')
      | _ => None
      end
  | Serve r =>
      Some (Config (_state σ) (_stop_lock σ) (_thread σ) (callers σ) (serve r (shared σ)))
  end.

Fixpoint run (ops : list operation) (σ : config) : option config :=
  match ops with
  | [] => Some σ
  | op :: ops => σ' ← step op σ; run ops σ'
  end.

Lemma run_app ops ops' σ : run (ops ++ ops') σ = (σ' ← run ops σ; run ops' σ').
Proof.
  revert σ; induction ops as [|op ops IH]; intros σ; simpl; [done|].
  destruct (step op σ); simpl; [apply IH|done].
Qed.

Definition initial (d : data) : config := Config NOT_STARTED None NoThread ∅ d.

Inductive reaches : config -> config -> Prop :=
| reaches_refl σ : reaches σ σ
| reaches_step σ op σ' σ'' : step op σ = Some σ' -> reaches σ' σ'' -> reaches σ σ''.

Lemma run_reaches ops σ σ' : run ops σ = Some σ' -> reaches σ σ'.
Proof.
  revert σ; induction ops as [|op ops IH]; intros σ Hr; simplify_eq/=; [constructor|].
  destruct (step op σ) eqn:E; [|done]. econstructor; eauto.
Qed.

(** How far the life cycle is. *)
Definition rank (s : state) : nat :=
  match s with NOT_STARTED => 0 | RUNNING => 1 | STOPPING => 2 | STOPPED => 3 end.

Definition in_stop (c : caller) : bool := match c with Outside => false | _ => true end.
Definition after_decision (c : caller) : bool :=
  match c with Waking | Joining | Joined => true | _ => false end.

Record coherent (σ : config) : Prop := {
  coh_none : _state σ = NOT_STARTED -> _thread σ = NoThread;
  coh_some : _state σ = RUNNING \/ _state σ = STOPPING -> _thread σ <> NoThread;
  coh_gone : _state σ = STOPPED -> forall p, _thread σ <> At p;
  coh_lock t : in_stop (caller_at σ t) = true <-> _stop_lock σ = Some t;
  coh_stopping t : after_decision (caller_at σ t) = true -> _state σ = STOPPING;
  coh_joined t : caller_at σ t = Joined -> _thread σ = Terminated }.

Lemma caller_at_set t c σ t' :
  caller_at (set_caller t c σ) t' = if decide (t' = t) then c else caller_at σ t'.
Proof. unfold caller_at, set_caller; simpl. case_decide; by simplify_map_eq. Qed.

Lemma caller_at_leave t st σ t' :
  caller_at (leave t st σ) t' = if decide (t' = t) then Outside else caller_at σ t'.
Proof. unfold caller_at, leave; simpl. case_decide; by simplify_map_eq. Qed.

Lemma caller_at_config st lk th d σ t :
  caller_at (Config st lk th (callers σ) d) t = caller_at σ t.
Proof. done. Qed.

Lemma worker_initial_coherent d : coherent (initial d).
Proof.
  split; unfold initial, caller_at; simpl; try done. by intros [|].
Qed.

(** Only the caller in [stop_once] holds its lock. *)
Lemma only_stopper σ t t' :
  coherent σ -> in_stop (caller_at σ t) = true -> in_stop (caller_at σ t') = true -> t' = t.
Proof. intros Hc Ht Ht'. apply (coh_lock _ Hc) in Ht, Ht'. congruence. Qed.

Lemma in_stop_after c : after_decision c = true -> in_stop c = true.
Proof. by destruct c. Qed.

(** A caller that is not the one that moves has decided nothing. *)
Lemma others_outside σ t t' :
  coherent σ -> in_stop (caller_at σ t) = true -> t' <> t ->
  caller_at σ t' = Outside.
Proof.
  intros Hc Ht Hne. destruct (caller_at σ t') eqn:E; try done;
    destruct Hne; eapply only_stopper; try done; by rewrite E.
Qed.

Ltac quick := try split; intros; destruct_or?; simpl in *; congruence.

Lemma no_decision σ :
  coherent σ -> _state σ <> STOPPING -> forall t, after_decision (caller_at σ t) = false.
Proof.
  intros Hc Hs t. destruct (after_decision (caller_at σ t)) eqn:E; [|done].
  by apply (coh_stopping _ Hc) in E.
Qed.

(** A step that moves no caller. *)
Lemma coherent_same_callers σ st th d :
  coherent σ ->
  (st = NOT_STARTED -> th = NoThread) -> (st = RUNNING \/ st = STOPPING -> th <> NoThread) ->
  (st = STOPPED -> forall p, th <> At p) ->
  (_state σ = STOPPING -> st = STOPPING) ->
  (_thread σ = Terminated -> th = Terminated) ->
  coherent (Config st (_stop_lock σ) th (callers σ) d).
Proof.
  intros [Hn Hso Hg Hl Hst Hj] ? ? ? Hkeep Hterm.
  split; simpl; try done; setoid_rewrite caller_at_config; eauto.
Qed.

(** A step of the caller that holds [_stop_lock]. *)
Lemma coherent_set_caller σ t c st d :
  coherent σ -> in_stop (caller_at σ t) = true -> in_stop c = true ->
  (st = STOPPING -> _thread σ <> NoThread) ->
  (after_decision c = true -> st = STOPPING) -> (c = Joined -> _thread σ = Terminated) ->
  (st = _state σ \/ st = STOPPING) ->
  coherent (set_caller t c (Config st (_stop_lock σ) (_thread σ) (callers σ) d)).
Proof.
  intros Hc Ht Hin Hth Hdec Hjo Hcase. pose proof Hc as [Hn Hso Hg Hl Hst Hj].
  assert (forall t', caller_at (set_caller t c (Config st (_stop_lock σ) (_thread σ)
            (callers σ) d)) t' = if decide (t' = t) then c else Outside) as Hcall.
  { intros t'. rewrite caller_at_set, caller_at_config. case_decide; [done|].
    by eapply others_outside. }
  assert (_stop_lock σ = Some t) as Hlk by by apply Hl.
  split; simpl; try setoid_rewrite Hcall.
  - destruct Hcase as [->| ->]; [exact Hn|done].
  - intros [Hr| ->]; [|by apply Hth]. destruct Hcase as [->|?]; [auto|congruence].
  - destruct Hcase as [->| ->]; [exact Hg|done].
  - intros t'. rewrite Hlk. case_decide; simpl; split; congruence.
  - intros t'. case_decide; [done|by intros [=]].
  - intros t'. case_decide; [done|by intros [=]].
Qed.

Lemma coherent_leave σ t :
  coherent σ -> in_stop (caller_at σ t) = true ->
  (forall p, _thread σ <> At p) -> coherent (leave t STOPPED σ).
Proof.
  intros Hc Ht Hth.
  assert (forall t', caller_at (leave t STOPPED σ) t' = Outside) as Hcall.
  { intros t'. rewrite caller_at_leave. case_decide; [done|]. by eapply others_outside. }
  split; simpl; try setoid_rewrite Hcall; quick.
Qed.

Lemma worker_step_coherent op σ σ' : coherent σ -> step op σ = Some σ' -> coherent σ'.
Proof.
  intros Hc Hs. pose proof Hc as [Hn Hso Hg Hl Hst Hj].
  destruct op as [ok|t|t|t|t|t|a|r]; simpl in Hs.
  - unfold start in Hs. case_decide as Hns; [|by simplify_eq/=]. pose proof (Hn Hns).
    destruct ok; simplify_eq/=; apply coherent_same_callers; try done; quick.
  - destruct (caller_at σ t) eqn:Ht; try done. destruct (_stop_lock σ) eqn:Hlk; [done|].
    simplify_eq/=.
    assert (forall t', caller_at σ t' = Outside) as Hout.
    { intros t'. destruct (caller_at σ t') eqn:E; try done;
        assert (None = Some t') as [=] by (apply Hl; by rewrite E). }
    assert (forall t', caller_at (set_caller t StopLocked (Config (_state σ) (Some t)
              (_thread σ) (callers σ) (shared σ))) t'
            = if decide (t' = t) then StopLocked else Outside) as Hcall.
    { intros t'. rewrite caller_at_set, caller_at_config, Hout. done. }
    split; simpl; try setoid_rewrite Hcall; try done; intros t'; case_decide; quick.
  - destruct (caller_at σ t) eqn:Ht; try done. simplify_eq/=.
    destruct (_state σ) eqn:E.
    + apply coherent_leave; [done|by rewrite Ht|]. by rewrite Hn.
    + apply coherent_set_caller; auto; try (by rewrite Ht); done.
    + apply coherent_set_caller; auto; try (by rewrite Ht); done.
    + apply coherent_leave; [done|by rewrite Ht|]. by apply Hg.
  - destruct (caller_at σ t) eqn:Ht; try done. simplify_eq/=.
    assert (_state σ = STOPPING) by (apply (Hst t); by rewrite Ht).
    apply coherent_set_caller; auto; try (by rewrite Ht); done.
  - destruct (caller_at σ t) eqn:Ht; try done. destruct (_thread σ) eqn:Hth; try done.
    simplify_eq/=. assert (_state σ = STOPPING) by (apply (Hst t); by rewrite Ht).
    destruct σ as [st lk th cs d]; simpl in *. subst th st.
    apply (coherent_set_caller (Config STOPPING lk Terminated cs d)); auto; try (by rewrite Ht); done.
  - destruct (caller_at σ t) eqn:Ht; try done. simplify_eq/=.
    apply coherent_leave; [done|by rewrite Ht|]. by rewrite (Hj t).
  - destruct (_thread σ) as [|p|] eqn:Hth; try done.
    destruct (loop a (is_running σ) p (shared σ)) as [[p' d']|]; [|done]. simplify_eq/=.
    assert (_state σ <> NOT_STARTED) by (intros E; specialize (Hn E); congruence).
    assert (_state σ <> STOPPED) by (intros E; by apply (Hg E p)).
    apply coherent_same_callers; try done; destruct p'; quick.
  - simplify_eq/=. by apply coherent_same_callers.
Qed.

Lemma rank_step op σ σ' :
  coherent σ -> step op σ = Some σ' -> (rank (_state σ) <= rank (_state σ'))%nat.
Proof.
  intros Hc Hs. destruct op as [ok|t|t|t|t|t|a|r]; simpl in Hs.
  - unfold start in Hs. case_decide as Hns; [|by simplify_eq/=]. rewrite Hns.
    destruct ok; simplify_eq/=; lia.
  - by destruct (caller_at σ t), (_stop_lock σ); simplify_eq/=.
  - destruct (caller_at σ t); try done. destruct (_state σ) eqn:E; simplify_eq/=; lia.
  - destruct (caller_at σ t); by simplify_eq/=.
  - destruct (caller_at σ t), (_thread σ); by simplify_eq/=.
  - destruct (caller_at σ t); try done. simplify_eq/=. destruct (_state σ); simpl; lia.
  - destruct (_thread σ); try done. destruct (loop _ _ _ _) as [[]|]; by simplify_eq/=.
  - by simplify_eq/=.
Qed.

Lemma reaches_coherent σ σ' : reaches σ σ' -> coherent σ -> coherent σ'.
Proof. induction 1; eauto using worker_step_coherent. Qed.

Lemma reaches_rank σ σ' :
  reaches σ σ' -> coherent σ -> (rank (_state σ) <= rank (_state σ'))%nat.
Proof.
  induction 1 as [|σ op σ' σ'' Hs Hr IH]; intros Hc; [lia|].
  pose proof (rank_step _ _ _ Hc Hs). specialize (IH (worker_step_coherent _ _ _ Hc Hs)). lia.
Qed.

(** Once a stop was decided the worker is not running. *)
Lemma stopped_not_running σ : (2 <= rank (_state σ))%nat -> is_running σ = false.
Proof. intros Hs. apply bool_decide_eq_false. intros E. rewrite E in Hs. simpl in Hs. lia. Qed.
End worker.
End Worker.
