(* ===== verification/Intake.v ===== *)
(** The bounded intake queue of committed bars (runtime/committed_bar_intake/boundary.py)
    and its single consumer (worker.py, [_run] and [_process_current]) on the life cycle of
    Lifecycle.v. *)
From S2P Require Import Prelude Errors DecimalText Models Contracts Lifecycle.

(** * The bounded queue *)

Module Boundary.

Section boundary.
Context {event : Type}.

(** [_queue] with its [maxsize] and its count of unfinished tasks, and [_accepting].
    [_accept_lock] makes each operation below one step. *)
Record boundary := {
  capacity : Z;
  _queue : list event;
  unfinished_tasks : Z;
  _accepting : bool }.

Definition new (capacity : Z) : result boundary :=
  _ ← require (0 <? capacity) ValueError
    "CommittedBarIntakeBoundary capacity must be a positive int";
  Ok {| capacity := capacity; _queue := []; unfinished_tasks := 0; _accepting := true |}.

Definition put_nowait (e : event) (b : boundary) : boundary * result () :=
  if negb (_accepting b) then (b, raise IntakeNotAccepting EmptyString)
  else if capacity b <=? Z.of_nat (length (_queue b)) then (b, raise QueueFull EmptyString)
  else ({| capacity := capacity b; _queue := _queue b ++ [e];
           unfinished_tasks := unfinished_tasks b + 1; _accepting := _accepting b |}, Ok tt).

Definition stop_accepting (b : boundary) : boundary :=
  {| capacity := capacity b; _queue := _queue b; unfinished_tasks := unfinished_tasks b;
     _accepting := false |}.

(** [None]: still empty when the timeout ends, [queue.Empty]. *)
Definition get (b : boundary) : option (event * boundary) :=
  match _queue b with
  | [] => None
  | e :: l => Some (e, {| capacity := capacity b; _queue := l;
                          unfinished_tasks := unfinished_tasks b;
                          _accepting := _accepting b |})
  end.

Definition task_done (b : boundary) : result boundary :=
  _ ← require (0 <? unfinished_tasks b) ValueError "task_done() called too many times";
  Ok {| capacity := capacity b; _queue := _queue b;
        unfinished_tasks := unfinished_tasks b - 1; _accepting := _accepting b |}.
End boundary.
Arguments boundary : clear implicits.
End Boundary.

(** * The consumer of the committed bars *)

Module IntakeWorker.
Import Boundary.

(** Where [_run] is. *)
Inductive point :=
| AtGet                                    (* at [self._intake.get] *)
| CaughtEmpty                              (* in [except queue.Empty] *)
| Holding (event : CommittedBarEvent)      (* dequeued, before [with self._lifecycle_lock] *)
| Processing (current : CommittedBarEvent). (* in [self._orchestrator.process] *)

(** How [process] ends: it returned or raised an [Exception], which is logged, or it raised
    another [BaseException], which ends the thread. *)
Inductive action := Dequeue | GetTimesOut | ReadState | Finish | Die.

Inductive request := PutNowait (event : CommittedBarEvent) | StopAccepting.

(** The boundary with its history: the events that [put_nowait] accepted and those whose
    processing began, each in order. *)
Record data := {
  intake : boundary CommittedBarEvent;
  accepted : list CommittedBarEvent;
  started : list CommittedBarEvent }.

Definition with_intake (b : boundary CommittedBarEvent) (d : data) : data :=
  {| intake := b; accepted := accepted d; started := started d |}.

(** [task_done], which never raises here ([unfinished_never_negative] below); the model of a
    raise is the death of the thread. *)
Definition _run_done (next : option point) (d : data) : option (option point * data) :=
  match task_done (intake d) with
  | Ok b => Some (next, with_intake b d)
  | Raise _ => Some (None, d)
  end.

Definition _run (a : action) (running : bool) (p : point) (d : data) :
    option (option point * data) :=
  match p, a with
  | AtGet, Dequeue =>
      '(event, b) ← get (intake d); Some (Some (Holding event), with_intake b d)
  | AtGet, GetTimesOut =>
      match get (intake d) with Some _ => None | None => Some (Some CaughtEmpty, d) end
  | CaughtEmpty, ReadState => Some (if running then Some AtGet else None, d)
  | Holding event, ReadState =>
      if running then
        Some (Some (Processing event),
              {| intake := intake d; accepted := accepted d; started := started d ++ [event] |})
      else _run_done None d
  | Processing _, Finish => _run_done (Some AtGet) d
  | Processing _, Die => _run_done None d
  | _, _ => None
  end.

Definition serve (r : request) (d : data) : data :=
  match r with
  | PutNowait event =>
      let '(b, result) := put_nowait event (intake d) in
      {| intake := b;
         accepted := accepted d ++ match result with Ok _ => [event] | Raise _ => [] end;
         started := started d |}
  | StopAccepting => with_intake (stop_accepting (intake d)) d
  end.

Notation config := (Worker.config (data := data) (point := point)).
Notation operation := (Worker.operation (action := action) (request := request)).

Definition step : operation -> config -> option config :=
  Worker.step _run AtGet (fun d => d) serve.
Definition run : list operation -> config -> option config :=
  Worker.run _run AtGet (fun d => d) serve.
Definition reaches : config -> config -> Prop :=
  Worker.reaches _run AtGet (fun d => d) serve.

Definition initial (b : boundary CommittedBarEvent) : config :=
  Worker.initial {| intake := b; accepted := []; started := [] |}.

Definition system (cap : Z) (σ : config) : Prop :=
  exists b, new cap = Ok b /\ reaches (initial b) σ.

(** ** Invariant *)

Definition in_hand (t : Worker.dedicated (point := point)) : list CommittedBarEvent :=
  match t with Worker.At (Holding event) => [event] | _ => [] end.
Definition busy (t : Worker.dedicated (point := point)) : Z :=
  match t with Worker.At (Holding _ | Processing _) => 1 | _ => 0 end.

Record accounted (cap : Z) (σ : config) : Prop := {
  acc_coherent : Worker.coherent σ;
  acc_capacity : capacity (intake (Worker.shared σ)) = cap;
  acc_bound : Z.of_nat (length (_queue (intake (Worker.shared σ)))) <= cap;
  acc_unfinished : unfinished_tasks (intake (Worker.shared σ))
    = Z.of_nat (length (_queue (intake (Worker.shared σ)))) + busy (Worker._thread σ);
  acc_events : exists lost,
    accepted (Worker.shared σ) = started (Worker.shared σ)
      ++ (in_hand (Worker._thread σ) ++ lost) ++ _queue (intake (Worker.shared σ)) /\
    (length (in_hand (Worker._thread σ) ++ lost) <= 1)%nat /\
    (lost <> [] -> Worker._thread σ = Worker.Terminated /\ Worker.is_running σ = false) }.

Lemma put_nowait_Ok {event} (e : event) b b' :
  put_nowait e b = (b', Ok tt) ->
  Z.of_nat (length (_queue b)) < capacity b /\ _accepting b = true /\
  b' = {| capacity := capacity b; _queue := _queue b ++ [e];
          unfinished_tasks := unfinished_tasks b + 1; _accepting := true |}.
Proof.
  unfold put_nowait. destruct (_accepting b) eqn:Ea; simpl; [|done].
  case_match eqn:Hc; intros; simplify_eq. by rewrite Z.leb_gt in Hc.
Qed.

Lemma put_nowait_Raise {event} (e : event) b b' x : put_nowait e b = (b', Raise x) -> b' = b.
Proof. unfold put_nowait. intros. by repeat case_match; simplify_eq. Qed.

Lemma accounted_initial cap b : new cap = Ok b -> accounted cap (initial b).
Proof.
  unfold new. intros Hn. ok_all. split; simpl; try done; try lia.
  - apply Worker.worker_initial_coherent.
  - exists []. split_and!; simpl; [done|lia|done].
Qed.

Lemma run_done_Ok next d :
  0 < unfinished_tasks (intake d) ->
  _run_done next d = Some (next, with_intake
    {| capacity := capacity (intake d); _queue := _queue (intake d);
       unfinished_tasks := unfinished_tasks (intake d) - 1;
       _accepting := _accepting (intake d) |} d).
Proof. intros Hu. unfold _run_done, task_done, require. by rewrite (proj2 (Z.ltb_lt _ _)). Qed.

(** A step of the dedicated thread from [p]. *)
Lemma accounted_run cap σ a p p' d' :
  accounted cap σ -> Worker._thread σ = Worker.At p ->
  _run a (Worker.is_running σ) p (Worker.shared σ) = Some (p', d') ->
  capacity (intake d') = cap /\ Z.of_nat (length (_queue (intake d'))) <= cap /\
  let t := match p' with Some p' => Worker.At p' | None => Worker.Terminated end in
  unfinished_tasks (intake d') = Z.of_nat (length (_queue (intake d'))) + busy t /\
  exists lost,
    accepted d' = started d' ++ (in_hand t ++ lost) ++ _queue (intake d') /\
    (length (in_hand t ++ lost) <= 1)%nat /\
    (lost <> [] -> t = Worker.Terminated /\ Worker.is_running σ = false).
Proof.
  intros [_ Hcap Hbd Hun (lost & Hev & Hlen & Hlost)] Ht Hr.
  rewrite Ht in *.
  assert (lost = []) as -> by (destruct lost; [done|]; by destruct Hlost).
  rewrite app_nil_r in Hev. clear Hlost Hlen.
  destruct (Worker.shared σ) as [b acc st], b as [c q u ok]; simpl in *.
  destruct p, a; simpl in Hr; try done.
  - destruct q as [|e q]; simpl in *; simplify_eq/=. split_and!; try lia.
    exists []. split_and!; simpl; [done|lia|done].
  - destruct q; simplify_eq/=. split_and!; try lia. exists []. split_and!; simpl; try done; lia.
  - simplify_eq/=. destruct (Worker.is_running σ); split_and!; simpl; try lia; exists [];
      split_and!; simpl; try done; lia.
  - destruct (Worker.is_running σ) eqn:Hrun.
    + simplify_eq/=. split_and!; try lia. exists []. rewrite <- app_assoc. simpl.
      split_and!; [done|lia|done].
    + rewrite run_done_Ok in Hr by (simpl; lia). simplify_eq/=. split_and!; try lia.
      exists [event]. split_and!; simpl; [done|lia|done].
  - rewrite run_done_Ok in Hr by (simpl; lia). simplify_eq/=. split_and!; try lia.
    exists []. split_and!; simpl; [done|lia|done].
  - rewrite run_done_Ok in Hr by (simpl; lia). simplify_eq/=. split_and!; try lia.
    exists []. split_and!; simpl; [done|lia|done].
Qed.

Lemma accounted_same cap σ σ' :
  accounted cap σ -> Worker.coherent σ' -> Worker.shared σ' = Worker.shared σ ->
  Worker._thread σ' = Worker._thread σ ->
  (Worker.is_running σ = false -> Worker.is_running σ' = false) -> accounted cap σ'.
Proof.
  intros [_ ? ? ? (lost & ? & ? & ?)] Hco Hsh Hth Hrun. split; try done; rewrite ?Hsh, ?Hth;
    try done. exists lost. naive_solver.
Qed.

Lemma accounted_step cap σ op σ' : accounted cap σ -> step op σ = Some σ' -> accounted cap σ'.
Proof.
  intros Ha Hs. pose proof (acc_coherent _ _ Ha) as Hc.
  assert (Worker.coherent σ') as Hc' by by eapply Worker.worker_step_coherent.
  pose proof (Worker.rank_step _ _ _ _ _ _ _ Hc Hs) as Hrank.
  assert (Worker._state σ <> Worker.NOT_STARTED -> Worker.is_running σ = false ->
          Worker.is_running σ' = false) as Hkeep.
  { unfold Worker.is_running. rewrite !bool_decide_eq_false. intros H1 H2 H3.
    rewrite H3 in Hrank. by destruct (Worker._state σ); simpl in *; try lia. }
  destruct op as [ok|t|t|t|t|t|a|r]; simpl in Hs.
  - unfold Worker.start in Hs. case_decide as Hns; [|by simplify_eq/=].
    pose proof (Worker.coh_none _ Hc Hns) as Hth.
    destruct ok; simplify_eq/=.
    + destruct Ha as [_ ? ? Hun (lost & Hev & Hl & Hlost)]. rewrite Hth in *.
      split; simpl; try done. exists lost. split_and!; [done|done|]. intros Hne.
      by destruct (Hlost Hne).
    + by eapply accounted_same.
  - by destruct (Worker.caller_at σ t), (Worker._stop_lock σ); simplify_eq/=;
      eapply accounted_same.
  - destruct (Worker.caller_at σ t); try done. destruct (Worker._state σ) eqn:E;
      simplify_eq/=; eapply accounted_same; try done.
  - destruct (Worker.caller_at σ t); simplify_eq/=; eapply accounted_same; try done.
  - destruct (Worker.caller_at σ t), (Worker._thread σ) eqn:Hth; simplify_eq/=;
      eapply accounted_same; done.
  - destruct (Worker.caller_at σ t); try done. simplify_eq/=. by eapply accounted_same.
  - destruct (Worker._thread σ) as [|p|] eqn:Hth; try done.
    destruct (_run a _ p _) as [[p' d']|] eqn:Hr; [|done]. simplify_eq/=.
    destruct (accounted_run _ _ _ _ _ _ Ha Hth Hr) as (? & ? & ? & ?). by split.
  - simplify_eq/=. destruct Ha as [_ Hcap Hbd Hun (lost & Hev & Hl & Hlost)].
    destruct r as [e|]; simpl in *.
    + destruct (put_nowait e _) as [b [[]|x]] eqn:Hp; simpl in *.
      * apply put_nowait_Ok in Hp as (Hlt & Hacc & ->). rewrite Hcap in Hlt.
        split; simpl; try done; rewrite ?length_app; simpl; try lia.
        exists lost. rewrite Hev, <- !app_assoc. done.
      * apply put_nowait_Raise in Hp as ->. split; simpl; try done. exists lost.
        by rewrite app_nil_r.
    + split; simpl; try done. by exists lost.
Qed.

Lemma reaches_accounted cap σ σ' : reaches σ σ' -> accounted cap σ -> accounted cap σ'.
Proof. induction 1; eauto using accounted_step. Qed.

Lemma system_accounted cap σ : system cap σ -> accounted cap σ.
Proof. intros (b & Hb & Hr). eapply reaches_accounted; [done|]. by apply accounted_initial. Qed.

(** Steps the dedicated thread still makes after a stop was decided. *)
Definition remaining (t : Worker.dedicated (point := point)) : nat :=
  match t with
  | Worker.At (Processing _) => 3
  | Worker.At AtGet => 2
  | Worker.At (CaughtEmpty | Holding _) => 1
  | _ => 0
  end.

(** What a step of the dedicated thread does to the history. *)
Lemma run_history a running p d p' d' :
  _run a running p d = Some (p', d') ->
  (running = false -> started d' = started d) /\ accepted d' = accepted d /\
  _accepting (intake d') = _accepting (intake d) /\
  (running = false ->
   remaining match p' with Some p' => Worker.At p' | None => Worker.Terminated end
     < remaining (Worker.At p))%nat.
Proof.
  intros Hr. destruct p, a; simpl in Hr; try done; unfold _run_done, task_done, require in Hr.
  - unfold get in Hr. destruct (_queue (intake d)); simplify_eq/=. split_and!; try done; lia.
  - unfold get in Hr. destruct (_queue (intake d)); simplify_eq/=. split_and!; try done; lia.
  - simplify_eq/=. split_and!; try done. intros ->. simpl. lia.
  - destruct running, (0 <? unfinished_tasks (intake d)); simplify_eq/=; split_and!; try done; lia.
  - destruct (0 <? unfinished_tasks (intake d)); simplify_eq/=; split_and!; try done; lia.
  - destruct (0 <? unfinished_tasks (intake d)); simplify_eq/=; split_and!; try done; lia.
Qed.

(** A step of a stopped worker, by any thread. *)
Lemma history_step op σ σ' :
  step op σ = Some σ' ->
  (Worker.is_running σ = false -> started (Worker.shared σ') = started (Worker.shared σ)) /\
  (_accepting (intake (Worker.shared σ)) = false ->
   accepted (Worker.shared σ') = accepted (Worker.shared σ) /\
   _accepting (intake (Worker.shared σ')) = false).
Proof.
  intros Hs. destruct op as [ok|t|t|t|t|t|a|r]; simpl in Hs.
  - unfold Worker.start in Hs. case_decide; [destruct ok|]; by simplify_eq/=.
  - by destruct (Worker.caller_at σ t), (Worker._stop_lock σ); simplify_eq/=.
  - destruct (Worker.caller_at σ t); try done. destruct (Worker._state σ); by simplify_eq/=.
  - destruct (Worker.caller_at σ t); by simplify_eq/=.
  - destruct (Worker.caller_at σ t), (Worker._thread σ); by simplify_eq/=.
  - destruct (Worker.caller_at σ t); by simplify_eq/=.
  - destruct (Worker._thread σ) as [|p|]; try done.
    destruct (_run a _ p _) as [[p' d']|] eqn:Hr; [|done]. simplify_eq/=.
    apply run_history in Hr as (? & ? & ? & _). naive_solver.
  - simplify_eq/=. destruct r as [e|]; simpl; [|done].
    split; [by destruct (put_nowait e _)|]. unfold put_nowait. intros Hf. rewrite Hf. simpl. by rewrite app_nil_r.
Qed.

Lemma reaches_accepted σ σ' :
  reaches σ σ' -> _accepting (intake (Worker.shared σ)) = false ->
  accepted (Worker.shared σ') = accepted (Worker.shared σ).
Proof.
  induction 1 as [|σ op σ' σ'' Hs Hr IH]; intros Ha; [done|].
  destruct (proj2 (history_step _ _ _ Hs) Ha) as [<- Ha']. auto.
Qed.

Lemma reaches_started σ σ' :
  reaches σ σ' -> Worker.coherent σ -> (2 <= Worker.rank (Worker._state σ))%nat ->
  started (Worker.shared σ') = started (Worker.shared σ).
Proof.
  induction 1 as [|σ op σ' σ'' Hs Hr IH]; intros Hc Hrk; [done|].
  pose proof (Worker.rank_step _ _ _ _ _ _ _ Hc Hs).
  rewrite IH; [|by eapply Worker.worker_step_coherent|lia].
  apply (history_step _ _ _ Hs).
  by apply Worker.stopped_not_running.
Qed.

Lemma remaining_decreases a σ σ' :
  step (Worker.Run a) σ = Some σ' -> Worker.is_running σ = false ->
  (remaining (Worker._thread σ') < remaining (Worker._thread σ))%nat.
Proof.
  simpl. intros Hs Hrun. rewrite Hrun in Hs. destruct (Worker._thread σ) as [|p|]; try done.
  destruct (_run a false p _) as [[p' d']|] eqn:Hr; [|done]. simplify_eq/=.
  apply run_history in Hr as (_ & _ & _ & Hd). by apply Hd.
Qed.

Lemma thread_can_step cap σ p :
  accounted cap σ -> Worker._thread σ = Worker.At p ->
  exists a, a <> Die /\ is_Some (step (Worker.Run a) σ).
Proof.
  intros Ha Ht. simpl. rewrite Ht. pose proof (acc_unfinished _ _ Ha) as Hu. rewrite Ht in Hu.
  destruct p.
  - destruct (_queue (intake (Worker.shared σ))) as [|e q] eqn:Hq;
      [exists GetTimesOut|exists Dequeue]; (split; [done|]); simpl; unfold get; rewrite Hq;
      simpl; by eexists.
  - exists ReadState. split; [done|]. simpl. by eexists.
  - exists ReadState. split; [done|]. simpl in *. destruct (Worker.is_running σ); simpl; [by eexists|].
    rewrite run_done_Ok by lia. simpl. by eexists.
  - exists Finish. split; [done|]. simpl in *. rewrite run_done_Ok by lia. simpl. by eexists.
Qed.

(** A step of the dedicated thread, and how many of them a schedule has. *)
Definition is_run (op : operation) : bool :=
  match op with Worker.Run _ => true | _ => false end.
Definition run_count (ops : list operation) : nat := length (List.filter is_run ops).

(** The steps of the other threads leave the dedicated thread where it is. *)
Lemma other_step_keeps_thread op σ σ' :
  step op σ = Some σ' -> is_run op = false -> Worker._state σ <> Worker.NOT_STARTED ->
  Worker._thread σ' = Worker._thread σ.
Proof.
  intros Hs Hop Hst. destruct op as [ok|t|t|t|t|t|a|r]; simpl in Hs; try done.
  - unfold Worker.start in Hs. by rewrite decide_False in Hs; simplify_eq/=.
  - by destruct (Worker.caller_at σ t), (Worker._stop_lock σ); simplify_eq/=.
  - destruct (Worker.caller_at σ t); try done. by destruct (Worker._state σ); simplify_eq/=.
  - by destruct (Worker.caller_at σ t); simplify_eq/=.
  - destruct (Worker.caller_at σ t), (Worker._thread σ) eqn:Hth; by simplify_eq/=.
  - by destruct (Worker.caller_at σ t); simplify_eq/=.
  - by simplify_eq/=.
Qed.

(** Whatever the schedule does after a stop was decided, the steps of the dedicated thread are
    paid from [remaining]. *)
Lemma run_count_bounded ops σ σ' :
  Worker.coherent σ -> (2 <= Worker.rank (Worker._state σ))%nat -> run ops σ = Some σ' ->
  (run_count ops + remaining (Worker._thread σ') <= remaining (Worker._thread σ))%nat.
Proof.
  revert σ. induction ops as [|op ops IH]; intros σ Hc Hrk Hr; simplify_eq/=; [unfold run_count; simpl; lia|].
  destruct (Worker.step _ _ _ _ op σ) as [σ1|] eqn:Hs; [|done]. simpl in Hr.
  pose proof (Worker.rank_step _ _ _ _ _ _ _ Hc Hs) as Hle.
  assert (Worker.coherent σ1) as Hc1 by by eapply Worker.worker_step_coherent.
  specialize (IH σ1 Hc1 ltac:(lia) Hr). unfold run_count in *. simpl.
  destruct (is_run op) eqn:Hop.
  - destruct op; try done. simpl.
    pose proof (remaining_decreases _ _ _ Hs (Worker.stopped_not_running _ Hrk)). lia.
  - rewrite (other_step_keeps_thread _ _ _ Hs Hop) in IH; [done|].
    intros E. rewrite E in Hrk. simpl in Hrk. lia.
Qed.

(** The thread exists, once it was started. *)
Lemma step_keeps_thread op σ σ' :
  step op σ = Some σ' -> Worker._state σ <> Worker.NOT_STARTED ->
  Worker._thread σ <> Worker.NoThread -> Worker._thread σ' <> Worker.NoThread.
Proof.
  intros Hs Hst Hth. destruct (is_run op) eqn:Hop.
  - destruct op; try done. simpl in Hs. destruct (Worker._thread σ) as [|p|]; try done.
    destruct (_run a _ p _) as [[[] ?]|]; by simplify_eq/=.
  - by rewrite (other_step_keeps_thread _ _ _ Hs Hop).
Qed.

(** A caller that waits for the thread goes on waiting, or the worker is stopped. *)
Definition awaited (t : Worker.thread) (σ : config) : Prop :=
  Worker.caller_at σ t = Worker.Joining \/ Worker.caller_at σ t = Worker.Joined \/
  Worker._state σ = Worker.STOPPED.

Lemma awaited_step t op σ σ' :
  Worker.coherent σ -> step op σ = Some σ' -> awaited t σ -> awaited t σ'.
Proof.
  intros Hc Hs Ht. unfold awaited in *. destruct (Worker.state_eq_dec (Worker._state σ) Worker.STOPPED) as [E|E].
  { right; right. pose proof (Worker.rank_step _ _ _ _ _ _ _ Hc Hs) as Hr. rewrite E in Hr.
    by destruct (Worker._state σ'); simpl in Hr; try lia. }
  destruct Ht as [Ht|[Ht|]]; [| |done].
  all: assert (Worker._state σ = Worker.STOPPING) as Hst by (apply (Worker.coh_stopping _ Hc t); by rewrite Ht).
  all: destruct op as [ok|t'|t'|t'|t'|t'|a|r]; simpl in Hs.
  all: try (unfold Worker.start in Hs; rewrite decide_False in Hs by (by rewrite Hst); simplify_eq/=; tauto).
  all: try (destruct (Worker._thread σ) as [|p|]; try done;
    destruct (_run _ _ p _) as [[]|]; simplify_eq/=; tauto).
  all: try (simplify_eq/=; tauto).
  all: destruct (decide (t' = t)) as [->|Hne]; [rewrite Ht in Hs; simplify_eq/=|].
  all: try (rewrite (Worker.others_outside σ t t' Hc) in Hs by (done || by rewrite Ht);
    try done; destruct (Worker._stop_lock σ); simplify_eq/=;
    rewrite Worker.caller_at_set, decide_False by done; tauto).
  - destruct (Worker._thread σ); simplify_eq/=. rewrite Worker.caller_at_set, decide_True by done. tauto.
  - tauto.
Qed.

Lemma run_awaited t ops σ σ' :
  run ops σ = Some σ' -> Worker.coherent σ -> Worker._state σ <> Worker.NOT_STARTED ->
  awaited t σ -> Worker._thread σ <> Worker.NoThread ->
  awaited t σ' /\ Worker._thread σ' <> Worker.NoThread.
Proof.
  revert σ. induction ops as [|op ops IH]; intros σ Hr Hc Hst Ht Hth; simplify_eq/=; [done|].
  destruct (Worker.step _ _ _ _ op σ) as [σ1|] eqn:Hs; [|done]. simpl in Hr.
  apply (IH σ1); [done|by eapply Worker.worker_step_coherent| |by eapply awaited_step|by eapply step_keeps_thread].
  pose proof (Worker.rank_step _ _ _ _ _ _ _ Hc Hs) as Hle. intros E. rewrite E in Hle.
  destruct (Worker._state σ); simpl in Hle; lia || done.
Qed.
End IntakeWorker.

(** * Properties *)

Module IntakeProperties.
Import Boundary IntakeWorker.

Definition bar (n : Z) : CommittedBarEvent :=
  {| cb_instrument := "BTC"; cb_timeframe := "5m"; cb_open_time_ms := n |}.

(** Two bars are accepted, a third is not; the first is processed, then a stop is decided. *)
Definition morning : list operation :=
  [Worker.Start true; Worker.Serve (PutNowait (bar 1)); Worker.Serve (PutNowait (bar 2));
   Worker.Serve (PutNowait (bar 3)); Worker.Run Dequeue; Worker.Run ReadState].
Definition shutdown : list operation :=
  [Worker.Serve StopAccepting; Worker.StopAcquire 7%nat; Worker.StopDecide 7%nat;
   Worker.StopWake 7%nat].

Definition sample_intake : boundary CommittedBarEvent :=
  {| capacity := 2; _queue := []; unfinished_tasks := 0; _accepting := true |}.

Lemma run_system ops σ : run ops (initial sample_intake) = Some σ -> system 2 σ.
Proof. intros Hr. exists sample_intake. split; [done|]. by eapply Worker.run_reaches. Qed.

Lemma run_system_from cap σ ops σ' : system cap σ -> run ops σ = Some σ' -> reaches σ σ'.
Proof. intros _. apply Worker.run_reaches. Qed.

Definition after (ops : list operation) : config :=
  default (initial sample_intake) (run ops (initial sample_intake)).

(** C39. In every interleaving of the HTTP threads, the callers of [start] and
    [stop_once] and the worker's thread: the accepted events are, in the order of their
    acceptance, those whose processing began, then at most one that the thread holds or
    dropped because a stop was decided, then the queue; the queue never exceeds its
    capacity; and the count of unfinished tasks is the queue plus the one event in the
    thread's hands, so [task_done] never raises. *)
Theorem intake_accounts_for_every_event cap σ :
  system cap σ ->
  (exists rest, accepted (Worker.shared σ) =
     started (Worker.shared σ) ++ rest ++ _queue (intake (Worker.shared σ)) /\
     (length rest <= 1)%nat /\
     (Worker._thread σ = Worker.Terminated -> rest <> [] -> Worker.is_running σ = false)) /\
  Z.of_nat (length (_queue (intake (Worker.shared σ)))) <= cap /\
  unfinished_tasks (intake (Worker.shared σ)) =
    Z.of_nat (length (_queue (intake (Worker.shared σ)))) + busy (Worker._thread σ).
Proof.
  intros [_ _ Hb Hu (lost & Hev & Hl & Hlost)]%system_accounted. split_and!; [|done|done].
  exists (in_hand (Worker._thread σ) ++ lost). split_and!; [done|done|].
  intros Ht. rewrite Ht. simpl. intros Hne. by apply Hlost.
Qed.

Lemma intake_accounts_for_every_event_witness :
  exists rest, accepted (Worker.shared (after morning)) =
     started (Worker.shared (after morning)) ++ rest ++
     _queue (intake (Worker.shared (after morning))) /\
     (length rest <= 1)%nat /\
     (Worker._thread (after morning) = Worker.Terminated -> rest <> [] ->
      Worker.is_running (after morning) = false).
Proof.
  apply (intake_accounts_for_every_event 2 (after morning)).
  apply (run_system morning). vm_compute. reflexivity.
Defined.

(** Once [stop_once] decided to stop, no further event is ever processed (at most the
    one in progress finishes) and the worker never runs again; when it reports STOPPED its
    thread is gone; and once [stop_accepting] returned no further event is accepted. *)
Theorem stop_is_final cap σ σ' :
  system cap σ -> reaches σ σ' ->
  ((2 <= Worker.rank (Worker._state σ))%nat ->
   started (Worker.shared σ') = started (Worker.shared σ) /\
   Worker.is_running σ' = false /\
   (Worker._state σ' = Worker.STOPPED -> forall p, Worker._thread σ' <> Worker.At p)) /\
  (_accepting (intake (Worker.shared σ)) = false ->
   accepted (Worker.shared σ') = accepted (Worker.shared σ)).
Proof.
  intros Hsys Hr. pose proof (acc_coherent _ _ (system_accounted _ _ Hsys)) as Hc. split.
  - intros Hrk. split_and!.
    + by apply reaches_started.
    + apply Worker.stopped_not_running. pose proof (Worker.reaches_rank _ _ _ _ _ _ Hr Hc). lia.
    + apply Worker.coh_gone. by eapply Worker.reaches_coherent.
  - by apply reaches_accepted.
Qed.

Lemma stop_is_final_witness :
  started (Worker.shared (after (morning ++ shutdown ++ [Worker.Run Finish])))
    = started (Worker.shared (after (morning ++ shutdown))) /\
  accepted (Worker.shared (after (morning ++ shutdown ++ [Worker.Run Finish])))
    = accepted (Worker.shared (after (morning ++ shutdown))).
Proof.
  assert (system 2 (after (morning ++ shutdown))) as Hs.
  { apply (run_system (morning ++ shutdown)). vm_compute. reflexivity. }
  assert (reaches (after (morning ++ shutdown))
            (after (morning ++ shutdown ++ [Worker.Run Finish]))) as Hr.
  { apply (run_system_from 2 _ [Worker.Run Finish]); [exact Hs|]. vm_compute. reflexivity. }
  split; apply (stop_is_final 2 _ _ Hs Hr); vm_compute; [lia|reflexivity].
Defined.

(** C40. [stop_once] returns, under every schedule. From the moment its caller waits for
    the thread ([thread.join()]), whatever the threads do, in any order: the worker's thread
    makes at most three more steps (the processing in progress, one more poll of the queue, the
    check that sees the stop); it begins the processing of no further event, so that an event it
    had dequeued is dropped; until it has ended it has a step to make, one other than its
    death; and once it has ended the caller returns, with the worker STOPPED. The processing in
    progress is assumed to end. *)
Theorem stop_terminates cap σ t ops σ' :
  system cap σ -> Worker.caller_at σ t = Worker.Joining -> run ops σ = Some σ' ->
  (run_count ops <= 3)%nat /\
  started (Worker.shared σ') = started (Worker.shared σ) /\
  (Worker._thread σ' = Worker.Terminated \/
   exists a, a <> Die /\ is_Some (step (Worker.Run a) σ')) /\
  (Worker._thread σ' = Worker.Terminated ->
   Worker._state σ' = Worker.STOPPED \/
   exists n σ'', run (drop n [Worker.StopJoin t; Worker.StopFinish t]) σ' = Some σ'' /\
     Worker._state σ'' = Worker.STOPPED).
Proof.
  intros Hsys Ht Hr. pose proof (system_accounted _ _ Hsys) as Ha.
  pose proof (acc_coherent _ _ Ha) as Hc.
  assert (Worker._state σ = Worker.STOPPING) as Hst.
  { apply (Worker.coh_stopping _ Hc t). by rewrite Ht. }
  assert (2 <= Worker.rank (Worker._state σ))%nat as Hrk by (rewrite Hst; simpl; lia).
  assert (reaches σ σ') as Hre by by eapply Worker.run_reaches.
  destruct (run_awaited t ops σ σ') as [Haw Hth];
    [done|done|by rewrite Hst|by left|apply (Worker.coh_some _ Hc); auto|].
  split_and!.
  - pose proof (run_count_bounded _ _ _ Hc Hrk Hr) as Hb.
    assert (remaining (Worker._thread σ) <= 3)%nat by (destruct (Worker._thread σ) as [|[]|]; simpl; lia).
    lia.
  - by apply reaches_started.
  - destruct (Worker._thread σ') as [|p|] eqn:Hp; [done| |by left]. right.
    by eapply thread_can_step; [eapply reaches_accounted|].
  - intros Hterm. destruct Haw as [Hj|[Hj|Hj]]; [right|right|by left].
    + exists 0%nat. simpl. rewrite Hj, Hterm. simpl. rewrite Worker.caller_at_set, decide_True by done.
      by eexists.
    + exists 1%nat. simpl. rewrite Hj. by eexists.
Qed.

(** After the stop was decided: the processing in progress ends, the next event is dequeued and
    dropped, and there the thread ends. *)
Definition last_steps : list operation :=
  [Worker.Run Finish; Worker.Serve (PutNowait (bar 4)); Worker.Run Dequeue; Worker.Run ReadState].

Example queued_event_is_dropped :
  let σ := after (morning ++ shutdown ++ last_steps) in
  Worker._thread σ = Worker.Terminated /\ started (Worker.shared σ) = [bar 1] /\
  accepted (Worker.shared σ) = [bar 1; bar 2].
Proof. vm_compute. repeat split; reflexivity. Qed.

Lemma stop_terminates_witness :
  let σ' := after (morning ++ shutdown ++ last_steps) in
  (run_count last_steps <= 3)%nat /\
  started (Worker.shared σ') = started (Worker.shared (after (morning ++ shutdown))) /\
  exists n σ'', run (drop n [Worker.StopJoin 7%nat; Worker.StopFinish 7%nat]) σ' = Some σ'' /\
    Worker._state σ'' = Worker.STOPPED.
Proof.
  destruct (stop_terminates 2 (after (morning ++ shutdown)) 7%nat last_steps
    (after (morning ++ shutdown ++ last_steps))) as (Hn & Hs & _ & Hstop).
  - apply (run_system (morning ++ shutdown)). vm_compute. reflexivity.
  - vm_compute. reflexivity.
  - vm_compute. reflexivity.
  - cbv zeta. split; [exact Hn|]. split; [exact Hs|].
    destruct Hstop as [Hstop|Hstop]; [vm_compute; reflexivity|vm_compute in Hstop; discriminate|exact Hstop].
Defined.
End IntakeProperties.
