(* ===== verification/ResolverWorker.v ===== *)
(** The polling loop of the uncertain-exchange-state resolver
    (runtime/uncertain_exchange_state_resolver/worker.py, [_run] and [_tick]) on the life
    cycle of Lifecycle.v. What one attempt does is in UncertainResolver.v. *)
From S2P Require Import Prelude Errors DecimalText Models Contracts Lifecycle UncertainResolver.

(** * The resolver's polling loop *)

Module ResolverWorker.

(** Where [_run] and [_tick] are. *)
Inductive point :=
| LoopHead                                          (* at the loop's [with] *)
| AtTick                                            (* before the repository's lists *)
| NextId (pending_ids : list string)                (* at the tick's [with] *)
| Attempting (strategy_instance_id : string) (pending_ids : list string)
| Waiting.                                          (* at [self._wake.wait] *)

(** What the repository lists ([None]: it raises, out of [_run]); how an attempt ends does
    not matter, its exceptions are logged. *)
Inductive action :=
| ReadState
| ListPending (listed : option (list string))
| AttemptEnds
| WaitReturns (woken : bool).

(** [_wake], and the history: per tick what the repository listed and which instances were
    attempted. *)
Record data := { _wake : bool; ticks : list (list string * list string) }.

Definition attempted_now (strategy_instance_id : string) (d : data) : data :=
  {| _wake := _wake d;
     ticks := match ticks d with
              | [] => []
              | (listed, attempted) :: old =>
                  (listed, attempted ++ [strategy_instance_id]) :: old
              end |}.

Definition _run (a : action) (running : bool) (p : point) (d : data) :
    option (option point * data) :=
  match p, a with
  | LoopHead, ReadState => Some (if running then Some AtTick else None, d)
  | AtTick, ListPending None => Some (None, d)
  | AtTick, ListPending (Some listed) =>
      Some (Some (NextId (fromkeys listed)),
            {| _wake := _wake d; ticks := (listed, []) :: ticks d |})
  | NextId [], _ => match a with ReadState => Some (Some Waiting, d) | _ => None end
  | NextId (strategy_instance_id :: pending_ids), ReadState =>
      if running then
        Some (Some (Attempting strategy_instance_id pending_ids),
              attempted_now strategy_instance_id d)
      else Some (Some Waiting, d)
  | Attempting _ pending_ids, AttemptEnds => Some (Some (NextId pending_ids), d)
  | Waiting, WaitReturns true =>
      if _wake d then Some (Some LoopHead, {| _wake := false; ticks := ticks d |}) else None
  | Waiting, WaitReturns false => Some (Some LoopHead, d)
  | _, _ => None
  end.

Definition set_wake (d : data) : data := {| _wake := true; ticks := ticks d |}.

Notation config := (Worker.config (data := data) (point := point)).
Notation operation := (Worker.operation (action := action) (request := Empty_set)).

Definition step : operation -> config -> option config :=
  Worker.step _run LoopHead set_wake (fun _ d => d).
Definition run : list operation -> config -> option config :=
  Worker.run _run LoopHead set_wake (fun _ d => d).
Definition reaches : config -> config -> Prop :=
  Worker.reaches (request := Empty_set) _run LoopHead set_wake (fun _ d => d).
Definition initial : config := Worker.initial {| _wake := false; ticks := [] |}.

(** What is still to attempt in the tick in progress. *)
Definition to_attempt (t : Worker.dedicated (point := point)) : option (list string) :=
  match t with
  | Worker.At (NextId ids) | Worker.At (Attempting _ ids) => Some ids
  | _ => None
  end.

Definition in_order (tick : list string * list string) : Prop :=
  tick.2 `prefix_of` fromkeys tick.1.

Definition ordered (σ : config) : Prop :=
  match to_attempt (Worker._thread σ), ticks (Worker.shared σ) with
  | Some ids, (listed, attempted) :: old =>
      fromkeys listed = attempted ++ ids /\ Forall in_order old
  | Some _, [] => False
  | None, l => Forall in_order l
  end.

Lemma ordered_all σ : ordered σ -> Forall in_order (ticks (Worker.shared σ)).
Proof.
  unfold ordered. destruct (to_attempt _) as [ids|], (ticks _) as [|[l a] old]; try done.
  intros [Hl Hold]. constructor; [|done]. exists ids. exact Hl.
Qed.

Lemma ordered_same σ σ' :
  ordered σ -> ticks (Worker.shared σ') = ticks (Worker.shared σ) ->
  to_attempt (Worker._thread σ') = to_attempt (Worker._thread σ) -> ordered σ'.
Proof. unfold ordered. by intros ? -> ->. Qed.

Lemma ordered_run σ a p p' d' :
  ordered σ -> Worker._thread σ = Worker.At p ->
  _run a (Worker.is_running σ) p (Worker.shared σ) = Some (p', d') ->
  ordered (Worker.Config (Worker._state σ) (Worker._stop_lock σ)
    match p' with Some p' => Worker.At p' | None => Worker.Terminated end
    (Worker.callers σ) d').
Proof.
  intros Ho E Hr. pose proof (ordered_all _ Ho) as Hall. unfold ordered in Ho. rewrite E in Ho.
  destruct (Worker.shared σ) as [w tks], (Worker.is_running σ); simpl in *;
    destruct p as [| |[|id ids]|id ids|], a as [|[l|]| |[]]; simplify_eq/=;
    unfold ordered; simpl; try done; try (by destruct w; simplify_eq/=);
    destruct tks as [|[l' a'] old]; try done.
  destruct Ho as [Hl Hold]. by rewrite Hl, <- app_assoc.
Qed.

Lemma ordered_step op σ σ' :
  Worker.coherent σ -> step op σ = Some σ' -> ordered σ -> ordered σ'.
Proof.
  intros Hc Hs Ho. destruct op as [ok|t|t|t|t|t|a|[]]; simpl in Hs.
  - unfold Worker.start in Hs. case_decide as Hns; [|by simplify_eq/=].
    apply (Worker.coh_none _ Hc) in Hns. apply (ordered_same _ σ') in Ho; [done|..];
      destruct ok; simplify_eq/=; by rewrite ?Hns.
  - by destruct (Worker.caller_at σ t), (Worker._stop_lock σ); simplify_eq/=.
  - destruct (Worker.caller_at σ t); try done. destruct (Worker._state σ); by simplify_eq/=.
  - destruct (Worker.caller_at σ t); by simplify_eq/=.
  - destruct (Worker.caller_at σ t), (Worker._thread σ) eqn:E; simplify_eq/=.
    unfold ordered in *. simpl. by rewrite E in *.
  - destruct (Worker.caller_at σ t); by simplify_eq/=.
  - destruct (Worker._thread σ) as [|p|] eqn:E; try done.
    destruct (_run a _ p _) as [[p' d']|] eqn:Hr; [|done]. simplify_eq/=.
    by eapply ordered_run.
Qed.

Lemma reaches_ordered σ σ' : reaches σ σ' -> Worker.coherent σ -> ordered σ -> ordered σ'.
Proof.
  induction 1 as [|σ op σ' σ'' Hs Hr IH]; intros Hc Ho; [done|].
  apply IH; [by eapply Worker.worker_step_coherent|by eapply ordered_step].
Qed.

(** Steps the dedicated thread still makes after a stop was decided. *)
Definition remaining (t : Worker.dedicated (point := point)) : nat :=
  match t with
  | Worker.At LoopHead => 1
  | Worker.At Waiting => 2
  | Worker.At (NextId _) => 3
  | Worker.At AtTick | Worker.At (Attempting _ _) => 4
  | _ => 0
  end.

(** Every attempt made so far, the latest tick first. *)
Definition attempts (d : data) : list string := concat (snd <$> ticks d).

Lemma tick_history a p d p' d' :
  _run a false p d = Some (p', d') ->
  attempts d' = attempts d /\
  (remaining match p' with Some p' => Worker.At p' | None => Worker.Terminated end
     < remaining (Worker.At p))%nat.
Proof.
  intros Hr. destruct p as [| |[|id ids]|id ids|], a as [|[l|]| |[]]; simplify_eq/=;
    try (split; [done|lia]).
  by destruct (_wake d); simplify_eq/=; split; [done|lia].
Qed.

Lemma attempts_step op σ σ' :
  step op σ = Some σ' -> Worker.is_running σ = false ->
  attempts (Worker.shared σ') = attempts (Worker.shared σ).
Proof.
  intros Hs Hrun. destruct op as [ok|t|t|t|t|t|a|[]]; simpl in Hs.
  - unfold Worker.start in Hs. case_decide; [destruct ok|]; by simplify_eq/=.
  - by destruct (Worker.caller_at σ t), (Worker._stop_lock σ); simplify_eq/=.
  - destruct (Worker.caller_at σ t); try done. destruct (Worker._state σ); by simplify_eq/=.
  - destruct (Worker.caller_at σ t); by simplify_eq/=.
  - destruct (Worker.caller_at σ t), (Worker._thread σ); by simplify_eq/=.
  - destruct (Worker.caller_at σ t); by simplify_eq/=.
  - destruct (Worker._thread σ) as [|p|]; try done. rewrite Hrun in Hs.
    destruct (_run a _ p _) as [[p' d']|] eqn:Hr; [|done]. simplify_eq/=.
    by apply tick_history in Hr as [-> _].
Qed.

Lemma reaches_attempts σ σ' :
  reaches σ σ' -> Worker.coherent σ -> (2 <= Worker.rank (Worker._state σ))%nat ->
  attempts (Worker.shared σ') = attempts (Worker.shared σ).
Proof.
  induction 1 as [|σ op σ' σ'' Hs Hr IH]; intros Hc Hrk; [done|].
  pose proof (Worker.rank_step _ _ _ _ _ _ _ Hc Hs).
  rewrite IH; [|by eapply Worker.worker_step_coherent|lia].
  apply (attempts_step _ _ _ Hs). by apply Worker.stopped_not_running.
Qed.

Lemma tick_remaining_decreases a σ σ' :
  step (Worker.Run a) σ = Some σ' -> Worker.is_running σ = false ->
  (remaining (Worker._thread σ') < remaining (Worker._thread σ))%nat.
Proof.
  simpl. intros Hs Hrun. rewrite Hrun in Hs. destruct (Worker._thread σ) as [|p|]; try done.
  destruct (_run a false p _) as [[p' d']|] eqn:Hr; [|done]. simplify_eq/=.
  apply tick_history in Hr as [_ Hd]. exact Hd.
Qed.
End ResolverWorker.

(** * Properties *)

Module ResolverWorkerProperties.
Import ResolverWorker.

(** The resolver's worker: each tick attempts the instances that the
    repository listed, in the listed order and none twice (a stop cuts the tick short); once a
    stop is decided no further attempt begins, and each further step of the thread brings
    it nearer to its end, which is at most four steps away. *)
Theorem resolver_worker_ticks σ σ' :
  reaches initial σ -> reaches σ σ' ->
  (forall listed attempted, (listed, attempted) ∈ ticks (Worker.shared σ) ->
     attempted `prefix_of` fromkeys listed /\ NoDup attempted /\
     forall id, id ∈ attempted -> id ∈ listed) /\
  ((2 <= Worker.rank (Worker._state σ))%nat ->
   attempts (Worker.shared σ') = attempts (Worker.shared σ) /\
   (remaining (Worker._thread σ) <= 4)%nat /\
   forall a σ1, step (Worker.Run a) σ = Some σ1 ->
     (remaining (Worker._thread σ1) < remaining (Worker._thread σ))%nat).
Proof.
  intros Hi Hr. pose proof (Worker.worker_initial_coherent (point := point) {| _wake := false; ticks := [] |}) as Hc0.
  pose proof (Worker.reaches_coherent _ _ _ _ _ _ Hi Hc0) as Hc. split.
  - intros listed attempted Hin.
    assert (ordered σ) as Ho by (apply (reaches_ordered _ _ Hi Hc0); constructor).
    apply ordered_all in Ho. rewrite Forall_forall in Ho.
    specialize (Ho _ Hin). destruct (fromkeys_spec listed) as [Hn Hm].
    destruct Ho as [rest Ho]. simpl in Ho. split_and!; [by exists rest| |].
    + rewrite Ho, NoDup_app in Hn. apply Hn.
    + intros id Hid. apply Hm. rewrite Ho. apply elem_of_app. auto.
  - intros Hrk. split_and!; [by apply reaches_attempts| |].
    + destruct (Worker._thread σ) as [|[]|]; simpl; lia.
    + intros a σ1 Hs. eapply tick_remaining_decreases; [exact Hs|].
      by apply Worker.stopped_not_running.
Qed.

(** One tick over two marked instances, one of them listed twice, cut short by a stop. *)
Definition tick_and_stop : list operation :=
  [Worker.Start true; Worker.Run ReadState; Worker.Run (ListPending (Some ["a"; "b"; "a"]));
   Worker.Run ReadState; Worker.StopAcquire 7%nat; Worker.StopDecide 7%nat; Worker.StopWake 7%nat].
Definition finish_tick : list operation :=
  [Worker.Run AttemptEnds; Worker.Run ReadState; Worker.Run (WaitReturns true);
   Worker.Run ReadState; Worker.StopJoin 7%nat; Worker.StopFinish 7%nat].

Lemma resolver_worker_ticks_witness : exists σ σ',
  run tick_and_stop initial = Some σ /\ run finish_tick σ = Some σ' /\
  attempts (Worker.shared σ) = ["a"] /\
  attempts (Worker.shared σ') = attempts (Worker.shared σ) /\
  Worker._state σ' = Worker.STOPPED.
Proof.
  eexists _, _. split; [vm_compute; reflexivity|]. split; [vm_compute; reflexivity|].
  split; [reflexivity|]. split; [|reflexivity].
  eapply (resolver_worker_ticks _ _).
  - apply (Worker.run_reaches _ _ _ _ tick_and_stop). vm_compute. reflexivity.
  - apply (Worker.run_reaches _ _ _ _ finish_tick). vm_compute. reflexivity.
  - vm_compute. lia.
Defined.
End ResolverWorkerProperties.
