(* ===== verification/Runtime.v ===== *)
(** The runtime as a whole: every operation that works on strategy instances (a committed
    bar, an ABI first-fill event, a recovery attempt, and the operator's actions), run in
    any order against any answers of the services; the proof that each of them implements
    the protocol of Protocol.v; and what follows for a whole execution. *)
From S2P Require Import Prelude Errors DecimalText Models Contracts Effects FirstFill.
From S2P Require Import Repository Scripted Protocol ProtocolRules.
From S2P Require Import EntryReconciliation Routing EntryOrchestrator PositionManagement.
From S2P Require Import RuntimeOrchestrator UncertainResolver EnabledControl ExecutionEvent.

(** The configured services. Enabling, deleting and the operator's cancel have a cancel step
    each, with or without a journal. *)
Record runtime := {
  rt_orchestrator : StrategyRuntimeOrchestrator;
  rt_resolver : UncertainExchangeStateResolver;
  rt_operator : StrategyOperatorCommandsService;
  rt_first_fill_freezer : FirstFillFreezer;
  rt_enabled_cancel_journal : bool;
  rt_delete_cancel_journal : bool;
  rt_operator_cancel_journal : bool }.

(** bootstrap/application.py, [build_application]: the services it composes from the two
    entry-order settings of the configuration. *)
Definition build_application (live_entry_mode : LiveEntryMode)
    (order_lifetime_bars : option Z) : result runtime :=
  first_fill_freezer ← FirstFillFreezer_init live_entry_mode order_lifetime_bars;
  entry_reconciliation_orchestrator ← EntryReconciliationOrchestrator_init
    {| eo_entry_applied_journal := true; eo_entry_declined_journal := true;
       eo_live_entry_mode := live_entry_mode; eo_order_lifetime_bars := order_lifetime_bars |};
  Ok {| rt_orchestrator :=
          {| ro_entry_reconciliation_orchestrator := entry_reconciliation_orchestrator;
             ro_protection_applied_journal := true; ro_live_entry_journal := true;
             ro_trade_cycle_closed_journal := true; ro_trade_cycle_opened_journal := true;
             ro_open_trade_journal := true; ro_entry_cycle_ended_journal := true;
             ro_first_fill_freezer := first_fill_freezer;
             ro_entry_remainder_cancel_port := true;
             ro_entry_remainder_cancel_journal := true |};
        rt_resolver :=
          {| ur_trade_cycle_closed_journal := true; ur_trade_cycle_opened_journal := true;
             ur_entry_cycle_ended_journal := true;
             ur_first_fill_freezer := first_fill_freezer |};
        rt_operator :=
          {| os_trade_cycle_closed_journal := true; os_trade_cycle_opened_journal := true;
             os_first_fill_freezer := first_fill_freezer |};
        rt_first_fill_freezer := first_fill_freezer;
        rt_enabled_cancel_journal := true;
        rt_delete_cancel_journal := false;
        rt_operator_cancel_journal := true |}.

Inductive operation :=
| ProcessBar (unit : StrategyBarProcessingUnit)
| ApplyFirstFillEvent (event : AbiFirstFillExecutionEvent)
| AttemptRecovery (strategy_instance_id : string)
| SetEnabled (strategy_instance_id : string) (enabled : bool)
| Delete (strategy_instance_id : string)
| OperatorClose (strategy_instance_id : string)
| OperatorCancel (strategy_instance_id : string).

Definition operation_instance (op : operation) : string :=
  match op with
  | ProcessBar unit => pu_strategy_instance_id unit
  | ApplyFirstFillEvent event => fe_strategy_instance_id event
  | AttemptRecovery id | SetEnabled id _ | Delete id | OperatorClose id
  | OperatorCancel id => id
  end.

Section runtime.
Context {R W : Type} `{Repository R} `{Ports W}.
Context (rt : runtime).

Definition ignore {A} (m : M R W A) : M R W () := _ ← m; mret tt.

Definition run_operation (op : operation) : M R W () :=
  match op with
  | ProcessBar unit => ignore (process (rt_orchestrator rt) unit)
  | ApplyFirstFillEvent event =>
      ignore (process_first_fill_event (rt_first_fill_freezer rt) event)
  | AttemptRecovery id => attempt (rt_resolver rt) id
  | SetEnabled id enabled => ignore (set_enabled (rt_enabled_cancel_journal rt) id enabled)
  | Delete id => ignore (delete_instance (rt_delete_cancel_journal rt) id)
  | OperatorClose id => ignore (operator_close_position (rt_operator rt) id)
  | OperatorCancel id => ignore (cancel_entry_orders (rt_operator_cancel_journal rt) id)
  end.

(** Operations one after the other; an operation that raises leaves the others to run. *)
Fixpoint run_operations (ops : list operation) (s : sys R W) : sys R W :=
  match ops with
  | [] => s
  | op :: ops => run_operations ops (run_operation op s).1
  end.
End runtime.

(** * Every operation implements the protocol *)

Section protocol.
Context {R W : Type} `{Repository R} `{!RepositoryLaws R} `{Ports W}.
Context (rt : runtime).
Implicit Types s : sys R W.

Lemma stored_identity s id d :
  repo_lookup (sys_repo s) id = Some d -> st_strategy_instance_id d = id.
Proof. apply lookup_id. Qed.

Lemma outside_ignore {A} (m : M R W A) : outside m -> outside (ignore m).
Proof. intros Hm. apply outside_bind; [exact Hm|]. intros _. apply outside_done. Qed.

Lemma outside_translate {A} (m : M R W A) rules : outside m -> outside (translate m rules).
Proof.
  intros Hm. apply outside_catch; [exact Hm|]. intros e.
  destruct (rules (exn_cls e)); apply outside_done.
Qed.

Lemma outside_catalog k : outside (catalog_deployment k : M R W _).
Proof.
  apply outside_bind; [apply outside_translate, outside_world|]. intros snapshot.
  destruct (get_by_strategy_instance_id _ _); apply outside_done.
Qed.

Lemma outside_locked {A} id (body : M R W A) :
  (forall s, legal_option (repo_lookup (sys_repo s) id) -> inside id body kept broke s) ->
  outside (_locked id body).
Proof. intros Hb. apply outside_translate. by apply outside_hold. Qed.

Lemma outside_process self unit : outside (process self unit : M R W _).
Proof.
  apply outside_hold. intros s Hl. eapply inside_mono; [by eapply process_held_spec|done|done].
Qed.

Lemma outside_first_fill_event ff event : outside (process_first_fill_event ff event : M R W _).
Proof.
  apply outside_hold. intros s Hl.
  eapply inside_mono; [eapply event_held_spec; [done..|apply stored_identity]|done|done].
Qed.

Lemma outside_attempt self id : outside (attempt self id : M R W _).
Proof.
  apply outside_hold. intros s Hl. eapply attempt_held_spec; [done|apply stored_identity|done].
Qed.

Lemma outside_set_enabled b id enabled : outside (set_enabled b id enabled : M R W _).
Proof.
  apply outside_bind.
  - apply outside_bind; [apply outside_catalog|]. intros d. apply outside_done.
  - intros _. apply outside_locked. intros s Hl.
    eapply set_enabled_locked_spec; [done|apply stored_identity].
Qed.

Lemma outside_delete b id : outside (delete_instance b id : M R W _).
Proof.
  apply outside_bind; [apply outside_catalog|]. intros d. apply outside_locked. intros s Hl.
  eapply delete_locked_spec; [done|apply stored_identity].
Qed.

Lemma outside_operator_close self id : outside (operator_close_position self id : M R W _).
Proof.
  apply outside_bind; [apply outside_catalog|]. intros d. apply outside_locked. intros s Hl.
  eapply close_locked_spec; [done|apply stored_identity].
Qed.

Lemma outside_operator_cancel b id : outside (cancel_entry_orders b id : M R W _).
Proof.
  apply outside_bind; [apply outside_catalog|]. intros d. apply outside_locked. intros s Hl.
  eapply cancel_orders_spec; [done|apply stored_identity].
Qed.

Lemma operation_outside op : outside (run_operation rt op : M R W _).
Proof.
  destruct op; cbn [run_operation]; try apply outside_ignore.
  - apply outside_process.
  - apply outside_first_fill_event.
  - apply outside_attempt.
  - apply outside_set_enabled.
  - apply outside_delete.
  - apply outside_operator_close.
  - apply outside_operator_cancel.
Qed.

Lemma operations_execute ops s :
  legal_store (sys_repo s) -> executes s (run_operations rt ops s).
Proof.
  revert s; induction ops as [|op ops IH]; intros s Hl; simpl; [apply executes_refl|].
  assert (executes s (run_operation rt op s).1) as H1.
  { apply outside_executes; [apply operation_outside|done]. }
  eapply executes_trans; [exact H1|]. by eapply IH, executes_legal.
Qed.
End protocol.

(** * Properties *)

(** The runtime composed for touch_trigger with entry orders that live three bars. *)
Definition sample_runtime : runtime :=
  match build_application touch_trigger (Some 3)
    as r return match r with Ok _ => runtime | Raise _ => () end with
  | Ok rt => rt
  | Raise _ => tt
  end.

Lemma empty_lookup w id : repo_lookup (sys_repo (empty_system w)) id = None.
Proof. done. Qed.

(** Whatever ABI, the Engine, the deployment files and the repository answer,
    any sequence of operations on any instances implements the protocol: for every
    instance, each stored aggregate is a legal successor of the one before it, each call
    to a service is justified by the aggregate stored at that moment, all of it happens
    inside the instance's critical section, which is free again at the end, and every
    stored aggregate keeps the invariant. *)
Theorem operations_follow_protocol {R W} `{Repository R} `{!RepositoryLaws R} `{Ports W}
    (rt : runtime) (ops : list operation) (s : sys R W) :
  legal_store (sys_repo s) ->
  legal_store (sys_repo (run_operations rt ops s)) /\
  exists evs, sys_trace (run_operations rt ops s) = sys_trace s ++ evs /\
    forall id, follows id (At false (repo_lookup (sys_repo s) id)) evs
      (At false (repo_lookup (sys_repo (run_operations rt ops s)) id)).
Proof.
  intros Hl. pose proof (operations_execute rt ops s Hl) as He.
  split; [by eapply executes_legal|exact He].
Qed.

(** A day of instance "i1": its entry is acknowledged on the first bar; on the second its
    position is open, the fill is frozen and a new protection applied; on the third the
    rest of the expired entry order is cancelled; on the fourth the Engine closes it. *)
Definition bar_at (open_time_ms : Z) : operation :=
  ProcessBar {| pu_strategy_instance_id := "i1"; pu_deployment := sample_deployment;
     pu_committed_bar := {| cb_instrument := "BTC"; cb_timeframe := "5m";
       cb_open_time_ms := open_time_ms |} |}.

Definition trading_day : list operation :=
  bar_at <$> [1200000; 1500000; 1800000; 2100000]%Z.

Definition trading_day_world : script :=
  {| sc_lookup := replicate 3 (Ok sample_open_response);
     sc_send := [Ok (sample_applied "c1")]; sc_query := [];
     sc_apply_protection := [Ok
       {| pac_strategy_instance_id := "i1"; pac_trade_cycle_id := "c1";
          pac_confirmed_protection := {| dp_stop_price := "95"; dp_take_price := Some "120" |};
          pac_protection_orders :=
            {| pos_quantity := "2";
               pos_stop := {| pro_order_id := "sl"; pro_trigger_price := "95" |};
               pos_take := {| pro_order_id := "tp"; pro_trigger_price := "120" |} |} |}];
     sc_close_position := [Ok sample_closed];
     sc_cancel_remainder := [Ok
       {| rcc_strategy_instance_id := "i1"; rcc_trade_cycle_id := "c1";
          rcc_status := ENTRY_REMAINDER_CANCELLED; rcc_executed_quantity := None |}];
     sc_live_entry := [Ok {| lpr_desired_entry := Some sample_entry |}];
     sc_open_trade := Ok <$> [sample_recipe false "95"; sample_recipe false "95";
                              sample_recipe true "95"];
     sc_snapshot := []; sc_set_enabled := []; sc_trash := []; sc_cycle_ids := ["c1"];
     sc_lock_free := true |}.

Definition trading_day_end : sys InMemory.repository script :=
  run_operations sample_runtime trading_day (empty_system trading_day_world).
Definition trading_day_trace : list event := sys_trace trading_day_end.

Lemma operations_follow_protocol_witness :
  exists evs, trading_day_trace = [] ++ evs /\
    forall id, follows id (At false None) evs
      (At false (repo_lookup (sys_repo trading_day_end) id)).
Proof.
  refine (proj2 (operations_follow_protocol sample_runtime trading_day
    (empty_system trading_day_world) _)). intros id. exact I.
Defined.
