(* ===== verification/FilePorts.v ===== *)
(** The deployment files behind the ports: the catalog of DeploymentCatalog.v, the enabled
    writer of DeploymentWriter.v and the trash mover of TrashMover.v as the four file operations
    of [Ports] (bootstrap/application.py hands them to the services), over a world that holds
    the directory beside the other services; and what an operator's action that returned has
    done to the files. *)
From S2P Require Import Prelude Errors DecimalText Models Json JsonFacts JsonLoad Contracts DeploymentCatalog Disk DeploymentWriter TrashMover Effects FirstFill Repository Scripted EntryReconciliation Routing EntryOrchestrator PositionManagement UncertainResolver EnabledControl Runtime.

(** * The ports *)

Section ports.
Context {A : Type} `{Ports A}.
Context (sha256_hexdigest : list ascii -> string) (float_repr : string -> option string).

(** The random token of the writer and the time of the mover, as the world has them. *)
Context (nonce stamp : A -> string).

(** A service that is not on the disk. *)
Definition beside {B} (f : A -> A * result B) (w : A * disk) : (A * disk) * result B :=
  let '(a, r) := f w.1 in ((a, w.2), r).

(** A file operation. *)
Definition on_disk {B} (f : A -> io B) (w : A * disk) : (A * disk) * result B :=
  let '(r, d) := f w.1 w.2 in ((w.1, d), r).

Definition file_ports : Ports (A * disk) := {|
  port_lookup q := beside (port_lookup q);
  port_send q := beside (port_send q);
  port_query id cycle := beside (port_query id cycle);
  port_apply_protection c := beside (port_apply_protection c);
  port_close_position c := beside (port_close_position c);
  port_cancel_entry_remainder id cycle := beside (port_cancel_entry_remainder id cycle);
  port_project_live_entry q := beside (port_project_live_entry q);
  port_project_open_trade q := beside (port_project_open_trade q);
  port_load_snapshot := on_disk (fun _ => load_catalog sha256_hexdigest float_repr);
  port_set_enabled id enabled :=
    on_disk (fun a => DeploymentWriter.set_enabled sha256_hexdigest float_repr (nonce a) id enabled);
  port_read_original id :=
    on_disk (fun _ => bytes ← TrashMover.read_original sha256_hexdigest float_repr id; mret (text bytes));
  port_move_to_trash id original :=
    on_disk (fun a =>
      TrashMover.move_to_trash sha256_hexdigest float_repr (stamp a) id (chars original));
  port_new_trade_cycle_id w := let '(a, id) := port_new_trade_cycle_id w.1 in ((a, w.2), id);
  port_try_lock key w := let '(a, b) := port_try_lock key w.1 in ((a, w.2), b) |}.
End ports.

(** * What leaves the files alone *)

Section frame.
Context {R A : Type} `{Repository R} `{Ports A}.
Context (sha256_hexdigest : list ascii -> string) (float_repr : string -> option string).
Context (nonce stamp : A -> string).

#[local] Instance the_ports : Ports (A * disk) := file_ports sha256_hexdigest float_repr nonce stamp.

Notation system := (sys R (A * disk)).
Notation load_snapshot := (DeploymentCatalog.load_snapshot sha256_hexdigest float_repr).

(** Nobody else writes, and the directory is [dir]. *)
Definition holds (dir : directory) (s : system) : Prop :=
  Disk.quiet (sys_world s).2 /\ dk_entries (sys_world s).2 = dir.

Definition leaves {B} (m : M R (A * disk) B) : Prop :=
  forall dir s, holds dir s -> holds dir (m s).1.

Lemma leaves_ret {B} (b : B) : leaves (mret b).
Proof. by intros dir s Hs. Qed.

Lemma leaves_lift {B} (r : result B) : leaves (lift r).
Proof. by intros dir s Hs. Qed.

Lemma leaves_bind {B C} (m : M R (A * disk) B) (f : B -> M R (A * disk) C) :
  leaves m -> (forall b, leaves (f b)) -> leaves (m ≫= f).
Proof.
  intros Hm Hf dir s Hs. rewrite run_bind. specialize (Hm dir s Hs).
  destruct (m s) as [s1 [b|e]]; [by apply Hf|done].
Qed.

Lemma leaves_catch {B} (m : M R (A * disk) B) h :
  leaves m -> (forall e, leaves (h e)) -> leaves (catch m h).
Proof.
  intros Hm Hf dir s Hs. rewrite run_catch. specialize (Hm dir s Hs).
  destruct (m s) as [s1 [b|e]]; [done|by apply Hf].
Qed.

Lemma leaves_on_repo {B} (f : R -> R * result B) : leaves (on_repo f).
Proof. intros dir s Hs. rewrite run_on_repo. by destruct (f _). Qed.

Lemma leaves_emit e : leaves (emit e).
Proof. by intros dir s Hs. Qed.

Lemma leaves_journal b j : leaves (journal b j).
Proof. destruct b; [apply leaves_emit|apply leaves_ret]. Qed.

Lemma leaves_beside {B} (f : A -> A * result B) : leaves (on_world (beside f)).
Proof. intros dir s Hs. rewrite run_on_world. unfold beside. by destruct (f _). Qed.

Lemma leaves_call {B} e (f : A -> A * result B) : leaves (call e (beside f)).
Proof. apply leaves_bind; [apply leaves_emit|intros _; apply leaves_beside]. Qed.

Lemma leaves_translate {B} (m : M R (A * disk) B) rules : leaves m -> leaves (translate m rules).
Proof.
  intros Hm. apply leaves_catch; [done|]. intros e. destruct (rules _); apply leaves_lift.
Qed.

Lemma leaves_lookup_position q : leaves (lookup_position q).
Proof. exact (leaves_call _ _). Qed.

Lemma leaves_send_entry_package q : leaves (send_entry_package q).
Proof. exact (leaves_call _ _). Qed.

Lemma leaves_close_position c : leaves (close_position c).
Proof. exact (leaves_call _ _). Qed.

(** A program on the disk that changes nothing, however it ends. *)
Definition reads {B} (m : io B) : Prop := forall d, Disk.quiet d ->
  Disk.quiet (m d).2 /\ dk_entries (m d).2 = dk_entries d.

Lemma reads_of_result {B} (r : result B) : reads (of_result r).
Proof. done. Qed.

Lemma reads_bind {B C} (m : io B) (f : B -> io C) : reads m -> (forall b, reads (f b)) -> reads (m ≫= f).
Proof.
  intros Hm Hf d Hq. cbv [mbind io_bind]. specialize (Hm d Hq). destruct (m d) as [[b|e] d1]; [|done].
  destruct Hm as [Hq1 <-]. by apply Hf.
Qed.

Lemma reads_try {B} (m : io B) h : reads m -> (forall e, reads (h e)) -> reads (try_with m h).
Proof.
  intros Hm Hf d Hq. unfold try_with. specialize (Hm d Hq). destruct (m d) as [[b|e] d1]; [done|].
  destruct Hm as [Hq1 <-]. by apply Hf.
Qed.

Lemma reads_operation {B} (f : directory -> result B) : reads (Disk.operation (fun dir => (f dir, dir))).
Proof.
  intros d Hq. destruct (Disk.operation _ d) as [r d'] eqn:Hop.
  apply operation_quiet in Hop as [? [[= _ ?]|[? _]]]; done.
Qed.

Lemma reads_load_catalog : reads (load_catalog sha256_hexdigest float_repr).
Proof.
  intros d Hq. pose proof (reads_operation Ok d Hq) as Hop. unfold load_catalog.
  by destruct (Disk.operation _ d).
Qed.

Lemma reads_read_original id : reads (TrashMover.read_original sha256_hexdigest float_repr id).
Proof.
  apply reads_bind.
  - apply reads_bind; [apply reads_try; [apply reads_load_catalog|]|].
    + intros e. case_decide; apply reads_of_result.
    + intros snapshot. destruct (get_by_strategy_instance_id _ _); apply reads_of_result.
  - intros name. apply reads_try; [apply reads_operation|]. intros e.
    destruct (is_os_error _); apply reads_of_result.
Qed.

Lemma leaves_read_original id : leaves (read_original id).
Proof.
  intros dir s [Hq Hd]. unfold Effects.read_original. rewrite run_on_world. simpl. unfold on_disk.
  pose proof (reads_bind _ (fun bytes => mret (text bytes)) (reads_read_original id)
    (fun b => reads_of_result (Ok (text b))) _ Hq) as Hr.
  match type of Hr with context [dk_entries (?m).2] => destruct m as [r d] end. simpl in *. destruct Hr as [? Hr]. split; [done|by rewrite <- Hd].
Qed.

#[local] Hint Resolve leaves_ret leaves_lift leaves_on_repo leaves_emit leaves_journal
  leaves_lookup_position leaves_send_entry_package leaves_close_position : leaves.

(** Walk through the code of an operation. *)
Ltac leaves_step :=
  lazymatch goal with
  | |- leaves (mbind _ _) => apply leaves_bind; [|intros ?]
  | |- leaves (translate _ _) => apply leaves_translate
  | |- leaves (catch _ _) => apply leaves_catch; [|intros ?]
  | |- leaves (match ?x with _ => _ end) => destruct x
  | |- leaves _ => solve [auto with leaves]
  end.
Ltac leaves := cbv zeta; repeat leaves_step.

Lemma leaves_get id : leaves (get id).
Proof. apply leaves_on_repo. Qed.

Lemma leaves_save st : leaves (save st).
Proof.
  intros dir s Hs. unfold save. rewrite run_atomic. by destruct (repo_save _ _) as [r []].
Qed.

Lemma leaves_assert {B} (o : option B) : leaves (assert_some o).
Proof. unfold assert_some, throw. leaves. Qed.

Lemma leaves_resolve st : leaves (resolve st).
Proof. unfold resolve. leaves. Qed.

Lemma leaves_recovery_cancel id cycle ticker risk : leaves (recovery_cancel id cycle ticker risk).
Proof. unfold recovery_cancel. leaves. Qed.

#[local] Hint Resolve leaves_get leaves_save leaves_assert leaves_resolve leaves_recovery_cancel : leaves.

Lemma leaves_cancel_step b id : leaves (cancel_step_run b id).
Proof. unfold cancel_step_run, refuse, journal_entry_cycle_ended. leaves. Qed.

Lemma leaves_freeze self id st c p : leaves (freeze_before_close self id st c p).
Proof. unfold freeze_before_close, journal_trade_cycle_opened. leaves. Qed.

(** * What a call that returns has done *)

(** [m] returns only with [Q]. *)
Definition ends {B} (m : M R (A * disk) B) (Q : B -> system -> Prop) (s : system) : Prop :=
  wp m Q (fun _ _ => True) s.

Lemma ends_leaves {B} dir (m : M R (A * disk) B) (Q : B -> system -> Prop) s :
  leaves m -> holds dir s -> (forall b s', holds dir s' -> Q b s') -> ends m Q s.
Proof.
  intros Hm Hs HQ. specialize (Hm dir s Hs). unfold ends, wp.
  destruct (m s) as [s' [b|e]]; [by apply HQ|done].
Qed.

Lemma ends_translate {B} (m : M R (A * disk) B) rules Q s : ends m Q s -> ends (translate m rules) Q s.
Proof.
  intros Hm. apply wp_catch. eapply wp_mono; [exact Hm|done|].
  intros e s' _. by destruct (rules _).
Qed.

Lemma ends_refuse {B} c (Q : B -> system -> Prop) s : ends (refuse c) Q s.
Proof. done. Qed.

Lemma ends_locked {B} dir i (m : M R (A * disk) B) (Q : B -> directory -> Prop) s :
  holds dir s -> (forall s, holds dir s -> ends m (fun b s' => exists dir', holds dir' s' /\ Q b dir') s) ->
  ends (_locked i m) (fun b s' => exists dir', holds dir' s' /\ Q b dir') s.
Proof.
  intros Hs Hm. apply ends_translate, wp_bind, wp_lift.
  destruct (require_non_empty_string i _); [|done]. apply wp_bind.
  unfold acquire, try_lock, wp at 1. rewrite run_on_world. simpl. destruct (port_try_lock i _) as [a' locked]. simpl.
  destruct locked; [|done]. apply wp_bind, wp_emit, wp_finally. by apply Hm.
Qed.

(** The deployment that the services find. *)
Definition found (dir : directory) (id : string) (snapshot : DeploymentCatalogSnapshot)
    (dep : DeploymentSpecification) : Prop :=
  load_snapshot (Some dir) = Ok snapshot /\ get_by_strategy_instance_id snapshot id = Some dep.

Lemma ends_catalog dir id (Q : DeploymentSpecification -> system -> Prop) s :
  holds dir s ->
  (forall snapshot dep s', holds dir s' -> found dir id snapshot dep -> Q dep s') ->
  ends (catalog_deployment id) Q s.
Proof.
  intros [Hq Hd] HQ. apply wp_bind, ends_translate.
  unfold ends, wp, Effects.load_snapshot. rewrite run_on_world. simpl. unfold on_disk.
  destruct (load_catalog _ _ _) as [[snapshot|e] d] eqn:Hl; [|done]. simpl.
  apply load_catalog_quiet in Hl as (Hq' & He & Hl); [|done]. rewrite Hd in *.
  destruct (get_by_strategy_instance_id snapshot id) as [dep|] eqn:Hg; [|done].
  by apply (HQ snapshot).
Qed.

(** The file of the deployment says [b], and nothing else has changed. *)
Definition file_says (dir : directory) (id : string) (b : bool) (dir' : directory) : Prop :=
  exists snapshot dep mode content, found dir id snapshot dep /\
    dir !! ds_source_path dep = Some (File mode content) /\
    load_snapshot (Some dir') = Ok (enabled_in (ds_source_path dep) b snapshot) /\
    (dir' = dir \/ ds_enabled dep = negb b /\ exists payload,
      dir' = <[ds_source_path dep := File (Z.land mode 511) payload]> dir).

Context (Hrepr : float_repr_law float_repr).

Lemma ends_write dir id b (Q : () -> system -> Prop) s : holds dir s ->
  (forall dir' s', holds dir' s' -> file_says dir id b dir' -> Q tt s') -> ends (_write id b) Q s.
Proof.
  intros [Hq Hd] HQ. apply wp_bind, ends_translate, wp_bind, wp_emit.
  unfold ends, wp. rewrite run_on_world. simpl. unfold on_disk.
  destruct (DeploymentWriter.set_enabled _ _ _ _ _ _) as [[changed|e] d] eqn:Hw; [|done]. simpl.
  apply set_enabled_changes_only_enabled in Hw
    as (Hq' & snapshot & dep & mode & content & Hl & Hg & Hf & Hl' & He & Hc); [|done..].
  rewrite Hd in *. apply (HQ (dk_entries d)); [done|]. exists snapshot, dep, mode, content.
  split_and!; try done. destruct changed; [right|by left]. done.
Qed.

Lemma ends_disable_mark_close dir self id st cycle s : holds dir s ->
  ends (disable_mark_close self id st cycle)
    (fun _ s' => exists dir', holds dir' s' /\ file_says dir id false dir') s.
Proof.
  intros Hs. unfold disable_mark_close, _write_disabled. apply wp_bind, (ends_write dir); [done|].
  intros dir' s' Hs' Hf. eapply (ends_leaves dir'); [|done|eauto].
  unfold refuse, journal_trade_cycle_closed. leaves.
Qed.

Lemma found_says dir id snapshot dep : found dir id snapshot dep ->
  file_says dir id (ds_enabled dep) dir.
Proof.
  intros [Hl Hg]. destruct (catalog_file _ _ _ _ _ _ Hl Hg) as (_ & _ & mode & content & Hf & _).
  exists snapshot, dep, mode, content. split_and!; [done..| |by left].
  rewrite Hl. f_equal. symmetry. eapply enabled_in_same; [exact Hl|]. by eapply found_accepted.
Qed.

(** ** The operator's actions *)

Lemma ends_set_enabled dir b id enabled s : holds dir s ->
  ends (set_enabled b id enabled)
    (fun _ s' => exists dir', holds dir' s' /\ file_says dir id enabled dir') s.
Proof.
  intros Hs. apply wp_bind, wp_bind, (ends_catalog dir); [done|]. intros snapshot0 dep0 s1 Hs1 _.
  apply wp_ret, (ends_locked dir); [done|]. clear s s1 Hs Hs1. intros s Hs.
  apply wp_bind, wp_bind, (ends_catalog dir); [done|]. intros snapshot dep s1 Hs1 Hfound.
  apply wp_ret, wp_if; intros Heq.
  - apply wp_ret. exists dir. split; [done|]. apply eqb_prop in Heq as <-. by eapply found_says.
  - apply wp_bind, (ends_leaves dir); [destruct enabled; [apply leaves_ret|apply leaves_cancel_step]|done|].
    intros cancelled s2 Hs2. apply wp_bind, (ends_write dir); [done|].
    intros dir' s' Hs' Hf. apply wp_ret. eauto.
Qed.

Lemma ends_cancel dir b id s : holds dir s ->
  ends (cancel_entry_orders b id)
    (fun _ s' => exists dir', holds dir' s' /\ file_says dir id false dir') s.
Proof.
  intros Hs. apply wp_bind, (ends_catalog dir); [done|]. intros snapshot0 dep0 s1 Hs1 _.
  apply (ends_locked dir); [done|]. clear s s1 Hs Hs1. intros s Hs.
  apply wp_bind, (ends_leaves dir); [apply leaves_cancel_step|done|]. intros cancelled s1 Hs1.
  apply wp_bind, (ends_write dir); [done|]. intros dir' s' Hs' Hf. apply wp_ret. eauto.
Qed.

Lemma ends_close dir self id s : holds dir s ->
  ends (operator_close_position self id)
    (fun _ s' => exists dir', holds dir' s' /\ file_says dir id false dir') s.
Proof.
  intros Hs. apply wp_bind, (ends_catalog dir); [done|]. intros snapshot0 dep0 s1 Hs1 _.
  apply (ends_locked dir); [done|]. clear s s1 Hs Hs1. intros s Hs.
  apply wp_bind, (ends_leaves dir); [apply leaves_get|done|]. intros [st|] s1 Hs1; [|done].
  apply wp_if; intros _; [done|]. destruct (st_current_trade_cycle st); [|done].
  apply wp_bind, ends_translate, (ends_leaves dir); [apply leaves_resolve|done|]. intros p s2 Hs2.
  apply wp_if; intros _; [done|]. apply wp_if; intros _; [done|].
  apply wp_bind, (ends_leaves dir); [apply leaves_assert|done|]. intros cycle s3 Hs3.
  apply wp_bind, (ends_leaves dir); [apply leaves_freeze|done|]. intros st' s4 Hs4.
  by apply ends_disable_mark_close.
Qed.

(** The file of a disabled deployment has become a file of the trash. *)
Definition trashed (dir : directory) (id : string) (dir' : directory) : Prop :=
  exists snapshot dep mode content target, found dir id snapshot dep /\ ds_enabled dep = false /\
    dir !! ds_source_path dep = Some (File mode content) /\
    default ∅ (trash dir) !! target = None /\
    trash dir' = Some (<[target := (mode, inl content)]> (default ∅ (trash dir))) /\
    visible dir' = visible (delete (ds_source_path dep) dir) /\
    load_snapshot (Some dir') = Ok (removed_in (ds_source_path dep) snapshot).

Lemma ends_delete dir b id s : holds dir s ->
  ends (delete_instance b id) (fun _ s' => exists dir', holds dir' s' /\ trashed dir id dir') s.
Proof.
  intros Hs. apply wp_bind, (ends_catalog dir); [done|]. intros snapshot0 dep0 s1 Hs1 _.
  apply (ends_locked dir); [done|]. clear s s1 Hs Hs1. intros s Hs.
  apply wp_bind, (ends_catalog dir); [done|]. intros snapshot dep s1 Hs1 [Hl Hg].
  apply wp_if; intros Hen; [done|].
  apply wp_bind, ends_translate, (ends_leaves dir); [apply leaves_read_original|done|].
  intros original s2 Hs2. apply wp_bind, (ends_leaves dir); [apply leaves_cancel_step|done|].
  intros cancelled s3 [Hq3 Hd3]. apply wp_bind, ends_translate, wp_bind, wp_emit.
  unfold ends, wp. rewrite run_on_world. simpl. unfold on_disk.
  destruct (TrashMover.move_to_trash _ _ _ _ _ _) as [[path|e] d] eqn:Hm; [|done]. simpl.
  apply move_to_trash_moves_the_deployment in Hm
    as (Hq' & snapshot' & dep' & mode & files & Hl' & Hg' & Hf & -> & _ & Hn & Ht & Hv & Hr); [|done].
  rewrite Hd3 in *. exists (dk_entries d). split; [done|].
  rewrite Hl in Hl'. injection Hl' as <-. rewrite Hg in Hg'. injection Hg' as <-.
  exists snapshot, dep, mode, (chars original), (trash_name (ds_source_path dep) (stamp (sys_world s3).1)).
  split_and!; done.
Qed.

(** ** The properties *)

(** The value an operator's action gives to [enabled], and of which instance. *)
Definition change_of (op : operation) : option (string * bool) :=
  match op with
  | SetEnabled id enabled => Some (id, enabled)
  | OperatorClose id | OperatorCancel id => Some (id, false)
  | _ => None
  end.

(** C32. An enable, disable, close or cancel that returned has reached the deployment's file:
    with nobody else writing, whatever the other services answered and whichever file
    operations failed on the way, the catalog loads the snapshot it loaded before with that
    one deployment's [enabled] as asked for. Either its file already said so and the
    directory is as it was, or the deployment had the other value, the one file at its path
    has new bytes with the permission bits it had, and every other entry is as it was. *)
Theorem returned_change_reaches_the_file rt op id enabled dir s s' :
  change_of op = Some (id, enabled) -> holds dir s ->
  Runtime.run_operation rt op s = (s', Ok tt) ->
  exists dir', holds dir' s' /\
    exists snapshot dep mode content, found dir id snapshot dep /\
      dir !! ds_source_path dep = Some (File mode content) /\
      load_snapshot (Some dir') = Ok (enabled_in (ds_source_path dep) enabled snapshot) /\
      (dir' = dir \/ ds_enabled dep = negb enabled /\ exists payload,
        dir' = <[ds_source_path dep := File (Z.land mode 511) payload]> dir).
Proof.
  intros Hop Hs Hrun. enough (ends (Runtime.run_operation rt op)
    (fun _ s' => exists dir', holds dir' s' /\ file_says dir id enabled dir') s) as Hends
    by exact (wp_run _ _ _ _ _ _ Hends Hrun).
  destruct op; try discriminate; injection Hop as <- <-;
    (apply wp_bind; eapply wp_mono; [|by intros ? ? HQ; apply wp_ret, HQ|done]);
    [by apply ends_set_enabled|by apply ends_close|by apply ends_cancel].
Qed.

(** C35. A deletion that returned has moved the deployment's file to the trash: with nobody
    else writing, whatever the other services answered and whichever file operations failed on
    the way, the deployment was disabled, the catalog loads the snapshot it loaded before
    without it (and one file less), every other visible entry is as it was, and the trash has
    a file under a name it had not before, with exactly the bytes and the permission bits of
    the original, beside every file it had. *)
Theorem returned_delete_reaches_the_trash rt id dir s s' :
  holds dir s -> Runtime.run_operation rt (Delete id) s = (s', Ok tt) ->
  exists dir', holds dir' s' /\
    exists snapshot dep mode content target, found dir id snapshot dep /\ ds_enabled dep = false /\
      dir !! ds_source_path dep = Some (File mode content) /\
      default ∅ (trash dir) !! target = None /\
      trash dir' = Some (<[target := (mode, inl content)]> (default ∅ (trash dir))) /\
      visible dir' = visible (delete (ds_source_path dep) dir) /\
      load_snapshot (Some dir') = Ok (removed_in (ds_source_path dep) snapshot).
Proof.
  intros Hs Hrun. enough (ends (Runtime.run_operation rt (Delete id))
    (fun _ s' => exists dir', holds dir' s' /\ trashed dir id dir') s) as Hends
    by exact (wp_run _ _ _ _ _ _ Hends Hrun).
  apply wp_bind. eapply wp_mono; [by apply ends_delete|by intros ? ? HQ; apply wp_ret, HQ|done].
Qed.
End frame.

(** * Examples *)

Notation sample_load := (DeploymentCatalog.load_snapshot sample_sha256 sample_float_repr).

Definition sample_nonce (w : script) : string := "7-00c0ffee".
Definition sample_stamp (w : script) : string := "20260101T000000Z".

#[local] Instance sample_files : Ports (script * disk) :=
  the_ports sample_sha256 sample_float_repr sample_nonce sample_stamp.

(** The services beside the disk are silent; the file operation after [n] others fails. *)
Definition failing_at (n : nat) (dir : directory) : sys _ (script * disk) :=
  Sys (sys_repo (empty_system quiet)) (quiet, {|
    dk_entries := dir;
    dk_steps := replicate n {| st_meanwhile := []; st_error := None |}
      ++ [{| st_meanwhile := []; st_error := Some "Input/output error" |}] |}) [].

Lemma failing_holds n dir : holds dir (failing_at n dir).
Proof.
  split; [|done]. unfold Disk.quiet. simpl. apply Forall_app. split; [|by repeat constructor].
  apply Forall_replicate. done.
Qed.

(** The synchronisation of the directory fails after the file was replaced. *)
Lemma returned_change_reaches_the_file_witness :
  exists s' d, Runtime.run_operation sample_runtime (OperatorCancel sample_deployment_id)
      (failing_at 10 sample_directory) = (s', Ok tt) /\
    sample_load (Some sample_directory) = Ok d /\
    sample_load (Some (dk_entries (sys_world s').2)) =
      Ok (enabled_in "trend.json" false d).
Proof.
  destruct (Runtime.run_operation _ _ _) as [s' r] eqn:Hrun.
  assert (r = Ok tt) as -> by (apply (f_equal snd) in Hrun; vm_compute in Hrun; by subst).
  destruct (returned_change_reaches_the_file _ _ sample_nonce sample_stamp sample_float_repr_law sample_runtime
    (OperatorCancel sample_deployment_id) sample_deployment_id false sample_directory _ s'
    eq_refl (failing_holds 10 sample_directory) Hrun)
    as (dir' & [_ <-] & snapshot & dep & mode & content & [Hl Hg] & _ & Hl' & _).
  exists s', snapshot. split_and!; [done..|]. rewrite Hl'. vm_compute in Hl. injection Hl as <-.
  vm_compute in Hg. by injection Hg as <-.
Defined.

Definition disabled_directory : directory := <["trend.json" := pretty_file false]> sample_directory.

Lemma returned_delete_reaches_the_trash_witness :
  exists s' d, Runtime.run_operation sample_runtime (Delete sample_deployment_id)
      (failing_at 20 disabled_directory) = (s', Ok tt) /\
    sample_load (Some disabled_directory) = Ok d /\
    sample_load (Some (dk_entries (sys_world s').2)) =
      Ok (removed_in "trend.json" d).
Proof.
  destruct (Runtime.run_operation _ _ _) as [s' r] eqn:Hrun.
  assert (r = Ok tt) as -> by (apply (f_equal snd) in Hrun; vm_compute in Hrun; by subst).
  destruct (returned_delete_reaches_the_trash _ _ sample_nonce sample_stamp sample_runtime
    sample_deployment_id disabled_directory _ s'
    (failing_holds 20 disabled_directory) Hrun)
    as (dir' & [_ <-] & snapshot & dep & mode & content & target & [Hl Hg] & _ & _ & _ & _ & _ & Hl').
  exists s', snapshot. split_and!; [done..|]. rewrite Hl'. vm_compute in Hl. injection Hl as <-.
  vm_compute in Hg. by injection Hg as <-.
Defined.
