(* ===== verification/Refusals.v ===== *)
(** The refusals of the operator's actions (runtime/enabled_control/errors.py): which of them
    each action can end with, when the services behind the ports raise errors of their own and
    no refusal of the console's. *)
From S2P Require Import Prelude Errors DecimalText Models Json JsonFacts JsonPretty JsonLoad Contracts DeploymentCatalog Disk DeploymentWriter TrashMover OpenPositionCodec EntryPackageCodec PositionManagementCodec HttpClients Effects FirstFill Repository Scripted EntryReconciliation Routing EntryOrchestrator PositionManagement UncertainResolver EnabledControl Runtime FilePorts.

(** The exception is none of the refusals. *)
Definition plain (e : exn) : Prop := refusal (exn_cls e) = None.

(** * What the services raise *)

Definition raises_plain {S A} (f : S -> S * result A) : Prop :=
  forall s s' e, f s = (s', Raise e) -> plain e.

Class RepositoryErrors (R : Type) `{Repository R} := {
  own_get id : raises_plain (repo_get (R := R) id);
  own_save state : raises_plain (repo_save (R := R) state) }.

Class ServiceErrors (W : Type) `{Ports W} := {
  own_lookup q : raises_plain (port_lookup (W := W) q);
  own_send q : raises_plain (port_send (W := W) q);
  own_close c : raises_plain (port_close_position (W := W) c);
  own_snapshot : raises_plain (port_load_snapshot (W := W));
  own_set_enabled id enabled : raises_plain (port_set_enabled (W := W) id enabled);
  own_read_original id : raises_plain (port_read_original (W := W) id);
  own_move_to_trash id original : raises_plain (port_move_to_trash (W := W) id original) }.

(** * What the pure code raises *)

Lemma plain_require b c msg : refusal c = None -> raises plain (require b c msg).
Proof. intros Hc. by apply raises_require. Qed.

Lemma plain_replace_state s c pe pc : raises plain (replace_state s c pe pc).
Proof. unfold replace_state, StrategyInstanceRuntimeState_post_init. raises. Qed.

Lemma plain_duration tf : raises plain (timeframe_duration_ms tf).
Proof. unfold timeframe_duration_ms. raises. Qed.

Lemma plain_non_empty x n : raises plain (require_non_empty_string x n).
Proof. by apply raises_require. Qed.

#[export] Hint Resolve plain_replace_state plain_duration plain_non_empty : raises.

Lemma plain_freeze self st cycle ms : raises plain (freeze self st cycle ms).
Proof.
  unfold freeze, apply_first_fill, align_first_fill_to_entry_bar, entry_order_expiration_ms,
    FrozenExecutedEntryContext_post_init, replace_frozen_entry_context, replace_current_trade_cycle,
    when_some, CurrentTradeCycle_post_init.
  raises.
Qed.

Lemma plain_clear st : raises plain (clear_cycle_and_close_recovery st).
Proof. apply plain_replace_state. Qed.

Lemma plain_lookup_request r : raises plain (OpenPositionLookupRequest_post_init r).
Proof. unfold OpenPositionLookupRequest_post_init. raises. Qed.

Lemma plain_package_request r : raises plain (EntryPackageRequest_post_init r).
Proof. unfold EntryPackageRequest_post_init, require_positive_exact_decimal_text. raises. Qed.

Lemma plain_close_command c : raises plain (ClosePositionCommand_post_init c).
Proof. unfold ClosePositionCommand_post_init. raises. Qed.

Lemma plain_close_marker p : raises plain (PendingCloseRecovery_post_init p).
Proof. unfold PendingCloseRecovery_post_init. raises. Qed.

#[export] Hint Resolve plain_freeze plain_clear plain_lookup_request plain_package_request
  plain_close_command plain_close_marker : raises.

(** * What the operations raise *)

Section refuses.
Context {R W : Type} `{RepositoryErrors R} `{ServiceErrors W}.

(** Among the refusals, [m] raises only those of [l]. *)
Definition refuses {A} (l : list exn_class) (m : M R W A) : Prop := forall s s' e,
  m s = (s', Raise e) -> plain e \/ exn_cls e ∈ l.

Lemma refuses_ret {A} l (a : A) : refuses l (mret a).
Proof. done. Qed.

Lemma refuses_bind {A B} l (m : M R W A) (f : A -> M R W B) :
  refuses l m -> (forall a, refuses l (f a)) -> refuses l (m ≫= f).
Proof.
  intros Hm Hf s s' e Hr. rewrite run_bind in Hr. destruct (m s) as [s1 [a|x]] eqn:Hs.
  - by eapply Hf.
  - injection Hr as -> ->. by eapply Hm.
Qed.

Lemma refuses_lift {A} l (r : result A) : raises plain r -> refuses l (lift r).
Proof. intros Hr s s' e [= _ ->]. by left. Qed.

Lemma refuses_refuse {A} l c : c ∈ l -> refuses (A := A) l (refuse c).
Proof. intros Hc s s' e [= _ <-]. by right. Qed.

Lemma refuses_translate {A} l (m : M R W A) rules :
  refuses l m -> (forall c c', rules c = Some c' -> c' ∈ l) -> refuses l (translate m rules).
Proof.
  intros Hm Hrules s s' e Hr. unfold translate in Hr. rewrite run_catch in Hr. destruct (m s) as [s1 [a|x]] eqn:Hs; [done|].
  destruct (rules (exn_cls x)) as [c|] eqn:Hc.
  - injection Hr as _ <-. right. by eapply Hrules.
  - injection Hr as -> ->. by eapply Hm.
Qed.

Lemma refuses_on_repo {A} l (f : R -> R * result A) : raises_plain f -> refuses l (on_repo f).
Proof.
  intros Hf s s' e Hr. rewrite run_on_repo in Hr. destruct (f _) as [r [a|x]] eqn:Hs; [done|].
  injection Hr as _ ->. left. by eapply Hf.
Qed.

Lemma refuses_on_world {A} l (f : W -> W * result A) : raises_plain f -> refuses l (on_world f).
Proof.
  intros Hf s s' e Hr. rewrite run_on_world in Hr. destruct (f _) as [w [a|x]] eqn:Hs; [done|].
  injection Hr as _ ->. left. by eapply Hf.
Qed.

Lemma refuses_emit l ev : refuses l (emit ev).
Proof. done. Qed.

Lemma refuses_call {A} l ev (f : W -> W * result A) : raises_plain f -> refuses l (call ev f).
Proof. intros Hf. apply refuses_bind; [apply refuses_emit|]. intros _. by apply refuses_on_world. Qed.

Lemma refuses_journal l b j : refuses l (journal b j).
Proof. by destruct b. Qed.

Lemma refuses_assert {A} l (o : option A) : refuses l (assert_some o).
Proof. destruct o; [done|]. by apply refuses_lift. Qed.

Lemma refuses_get l id : refuses l (get id).
Proof. apply refuses_on_repo, own_get. Qed.

Lemma refuses_save l st : refuses l (save st).
Proof.
  intros s s' e Hr. unfold save in Hr. rewrite run_atomic in Hr.
  destruct (repo_save st _) as [r [st'|x]] eqn:Hs; [done|]. injection Hr as _ ->. left. by eapply own_save.
Qed.

Lemma refuses_lookup l q : refuses l (lookup_position q).
Proof. apply refuses_call, own_lookup. Qed.

Lemma refuses_send l q : refuses l (send_entry_package q).
Proof. apply refuses_call, own_send. Qed.

Lemma refuses_close l c : refuses l (close_position c).
Proof. apply refuses_call, own_close. Qed.

Lemma refuses_snapshot l : refuses l load_snapshot.
Proof. apply refuses_on_world, own_snapshot. Qed.

Lemma refuses_file l id enabled : refuses l (set_enabled_file id enabled).
Proof. apply refuses_call, own_set_enabled. Qed.

Lemma refuses_read_original l id : refuses l (read_original id).
Proof. apply refuses_on_world, own_read_original. Qed.

Lemma refuses_move l id original : refuses l (move_to_trash id original).
Proof. apply refuses_call, own_move_to_trash. Qed.
End refuses.

Create HintDb refuses.
#[export] Hint Resolve refuses_ret refuses_emit refuses_journal refuses_assert refuses_get refuses_save
  refuses_lookup refuses_send refuses_close refuses_snapshot refuses_file refuses_read_original
  refuses_move : refuses.

(** Walk through the code of an action. *)
Ltac refuses_step :=
  lazymatch goal with
  | |- refuses _ (mbind _ _) => apply refuses_bind; [|intros ?]
  | |- refuses _ (translate _ _) =>
      apply refuses_translate; [|intros ??; repeat case_match; intros; simplify_eq; listed]
  | |- refuses _ (refuse _) => apply refuses_refuse; listed
  | |- refuses _ (lift _) => apply refuses_lift; solve [auto with raises | raises]
  | |- refuses _ (match ?x with _ => _ end) => destruct x
  | |- refuses _ _ => solve [eauto with refuses]
  end.
Ltac refuses := cbv zeta; repeat refuses_step.

(** * The actions *)

Definition catalog_refusals : list exn_class := [CatalogUnavailable; StrategyInstanceNotFound].

Definition write_refusals : list exn_class :=
  [StrategyInstanceNotFound; FileChanged; IdentityChanged; WriteFailed].

Definition cancel_step_refusals : list exn_class :=
  [RecoveryPending; AbiUnavailable; PositionOpen; CycleNotSettled; CancelNotConfirmed].

Definition close_refusals : list exn_class :=
  [NoPosition; RecoveryPending; AbiUnavailable; CycleNotSettled].

Definition move_refusals : list exn_class :=
  [StrategyInstanceNotFound; FileChanged; TrashNameTaken; MoveFailed].

(** The refusals of an action. An enabling does not ask ABI: nothing on the exchange can refuse
    it. *)
Definition refusals (op : operation) : list exn_class :=
  InstanceBusy :: catalog_refusals ++
  match op with
  | SetEnabled _ true => write_refusals
  | SetEnabled _ false | OperatorCancel _ => cancel_step_refusals ++ write_refusals
  | OperatorClose _ => close_refusals ++ write_refusals
  | Delete _ => StillEnabled :: cancel_step_refusals ++ move_refusals
  | _ => []
  end.

Section actions.
Context {R W : Type} `{RepositoryErrors R} `{ServiceErrors W}.

Notation refuses l m := (refuses (R := R) (W := W) l m).

Lemma refuses_more {A} l l' (m : M R W A) :
  refuses l m -> Forall (fun c => c ∈ l') l -> refuses l' m.
Proof.
  intros Hm Hl s s' e Hr. destruct (Hm s s' e Hr) as [?|Hc]; [by left|right].
  rewrite Forall_forall in Hl. by apply Hl.
Qed.

Lemma refuses_hold {A} l id b (m : M R W A) : refuses l m -> refuses l (hold id b m).
Proof.
  intros Hm. apply refuses_bind; [by apply refuses_lift; auto with raises|]. intros _.
  apply refuses_bind.
  - intros s s' e Hr. destruct b; [|done]. unfold acquire, try_lock in Hr. rewrite run_on_world in Hr.
    by destruct (port_try_lock _ _).
  - intros []; [|by apply refuses_lift]. apply refuses_bind; [apply refuses_emit|]. intros _.
    intros s s' e Hr. rewrite run_finally in Hr. destruct (m s) as [s1 [a|x]] eqn:Hs; [done|].
    injection Hr as _ ->. by eapply Hm.
Qed.

Lemma refuses_locked {A} l id (m : M R W A) : InstanceBusy ∈ l -> refuses l m -> refuses l (_locked id m).
Proof.
  intros Hl Hm. apply refuses_translate; [by apply refuses_hold|].
  intros c c'. by destruct c; intros [= <-].
Qed.

Lemma refuses_catalog id : refuses catalog_refusals (catalog_deployment id).
Proof. unfold catalog_deployment. refuses. Qed.

Lemma refuses_write id enabled : refuses write_refusals (_write id enabled).
Proof. unfold _write, write_rules. refuses. Qed.

Lemma refuses_resolve l st : refuses l (resolve st).
Proof. unfold resolve. refuses. Qed.

Lemma refuses_recovery_cancel l id cycle ticker risk :
  refuses l (recovery_cancel id cycle ticker risk).
Proof. unfold recovery_cancel. refuses. Qed.

#[local] Hint Resolve refuses_resolve refuses_recovery_cancel : refuses.

Lemma refuses_cancel_step b id : refuses cancel_step_refusals (cancel_step_run b id).
Proof. unfold cancel_step_run, journal_entry_cycle_ended. refuses. Qed.

Lemma refuses_freeze l self id st c p : refuses l (freeze_before_close self id st c p).
Proof. unfold freeze_before_close, journal_trade_cycle_opened. refuses. Qed.

#[local] Hint Resolve refuses_freeze : refuses.

(** The refusals of the parts are among the refusals of the whole. *)
Ltac part lemma := eapply refuses_more; [apply lemma|each_listed].

Lemma refuses_disable_mark_close self id st cycle :
  refuses (close_refusals ++ write_refusals) (disable_mark_close self id st cycle).
Proof.
  unfold disable_mark_close, _write_disabled. apply refuses_bind; [part refuses_write|]. intros _.
  unfold journal_trade_cycle_closed. refuses.
Qed.

#[local] Hint Resolve refuses_disable_mark_close : refuses.

Lemma refuses_close_locked self id : refuses (close_refusals ++ write_refusals) (_close_locked self id).
Proof. unfold _close_locked. refuses. Qed.

Lemma refuses_set_enabled b id enabled : refuses (refusals (SetEnabled id enabled)) (set_enabled b id enabled).
Proof.
  apply refuses_bind; [apply refuses_bind; [destruct enabled; part refuses_catalog|intros; apply refuses_ret]|].
  intros _. apply refuses_locked; [listed|]. unfold _set_enabled_locked.
  apply refuses_bind; [apply refuses_bind; [destruct enabled; part refuses_catalog|intros; apply refuses_ret]|].
  intros current. destruct (Bool.eqb current enabled); [apply refuses_ret|]. apply refuses_bind.
  - destruct enabled; [apply refuses_ret|part refuses_cancel_step].
  - intros cancelled. apply refuses_bind; [destruct enabled; part refuses_write|intros; apply refuses_ret].
Qed.

Lemma refuses_delete b id : refuses (refusals (Delete id)) (delete_instance b id).
Proof.
  apply refuses_bind; [part refuses_catalog|]. intros _. apply refuses_locked; [listed|].
  apply refuses_bind; [part refuses_catalog|]. intros deployment.
  destruct (ds_enabled deployment); [apply refuses_refuse; listed|].
  unfold _guard, delete_rules. refuses_step; [refuses|]. refuses_step; [part refuses_cancel_step|]. refuses.
Qed.

Lemma refuses_operator_close self id :
  refuses (refusals (OperatorClose id)) (operator_close_position self id).
Proof.
  apply refuses_bind; [part refuses_catalog|]. intros _. apply refuses_locked; [listed|].
  part refuses_close_locked.
Qed.

Lemma refuses_operator_cancel b id : refuses (refusals (OperatorCancel id)) (cancel_entry_orders b id).
Proof.
  apply refuses_bind; [part refuses_catalog|]. intros _. apply refuses_locked; [listed|].
  apply refuses_bind; [part refuses_cancel_step|]. intros cancelled.
  apply refuses_bind; [part refuses_write|intros; apply refuses_ret].
Qed.
End actions.

(** The actions of the operator. *)
Definition is_action (op : operation) : bool :=
  match op with
  | SetEnabled _ _ | Delete _ | OperatorClose _ | OperatorCancel _ => true
  | _ => false
  end.

(** An action that raises one of the refusals raises one of its own. *)
Lemma actions_refuse {R W} `{RepositoryErrors R} `{ServiceErrors W} rt op : is_action op = true ->
  refuses (R := R) (W := W) (refusals op) (run_operation rt op).
Proof.
  intros Hop. destruct op; try done; (apply refuses_bind; [|intros ?; apply refuses_ret]);
    auto using refuses_set_enabled, refuses_delete, refuses_operator_close, refuses_operator_cancel.
Qed.

(** Every refusal of an action has a status that the routes of the actions document. *)
Lemma refusals_documented op c status reason : is_action op = true -> c ∈ refusals op ->
  refusal c = Some (status, reason) -> status ∈ [404; 409; 500; 502; 503].
Proof.
  intros Hop Hc. assert (Forall (fun c => match refusal c with
    | Some (status, _) => status ∈ [404; 409; 500; 502; 503] | None => True end) (refusals op)) as Hall.
  { destruct op as [| | |id []| | |]; try done; each_listed. }
  rewrite Forall_forall in Hall. specialize (Hall c Hc). by intros Hr; rewrite Hr in Hall.
Qed.

(** * A steady world *)

(** The catalog lists deployments and the files can be changed; the other services are away. *)
Definition steady_catalog : DeploymentCatalogSnapshot := sample_catalog [sample_deployment].

Definition away {A} (w : unit) : unit * result A := (w, raise (OtherException "Away") EmptyString).

#[export] Instance steady_ports : Ports unit := {
  port_lookup _ := away; port_send _ := away; port_query _ _ := away;
  port_apply_protection _ := away; port_close_position _ := away;
  port_cancel_entry_remainder _ _ := away; port_project_live_entry _ := away;
  port_project_open_trade _ := away;
  port_load_snapshot w := (w, Ok steady_catalog);
  port_set_enabled _ _ w := (w, Ok true);
  port_read_original _ w := (w, Ok EmptyString);
  port_move_to_trash _ _ := away;
  port_new_trade_cycle_id w := (w, "cycle");
  port_try_lock _ w := (w, true) }.

#[export] Instance steady_errors : ServiceErrors unit.
Proof.
  split; intros; try done; by intros w w' e [= _ <-].
Qed.

(** * The implementations *)

#[export] Instance in_memory_errors : RepositoryErrors InMemory.repository.
Proof.
  split.
  - intros id r r' e [= _ He]. pose proof (plain_non_empty id "strategy_instance_id") as Hp.
    by destruct (require_non_empty_string _ _); simplify_eq/=.
  - intros st r r' e [= _ He]. unfold InMemory.save in He. repeat case_match; simplify_eq/=; by injection He as <-.
Qed.

(** ** The deployment files *)

Section files.
Context (sha256_hexdigest : list ascii -> string) (float_repr : string -> option string).

Lemma plain_loads t : raises plain (loads_document float_repr t).
Proof.
  apply raises_bind; [|by intros]. apply loads_with_raises.
  - intros e [He|[He|He]]; unfold plain; by rewrite He.
  - done.
  - by intros.
Qed.

Lemma plain_utf8 l : raises plain (utf8_decode l).
Proof.
  induction l as [l IH] using (induction_ltof1 _ (@length ascii)); unfold ltof in IH.
  destruct l as [|b l]; [done|]. simpl. raises; apply IH; simpl; lia.
Qed.

#[local] Hint Resolve plain_loads plain_utf8 : raises.

Lemma plain_derive strategy_id ticker base_timeframe raw_spec : raises plain
  (derive_strategy_instance_id sha256_hexdigest strategy_id ticker base_timeframe raw_spec).
Proof. unfold derive_strategy_instance_id, canonical_payload, dumps. raises. Qed.

#[local] Hint Resolve plain_derive : raises.

Lemma plain_forbid_fields names fs : raises plain (forbid_fields names fs).
Proof. induction names as [|n names IH]; simpl; raises. Qed.

Lemma plain_required_string fs name : raises plain (required_string fs name).
Proof. unfold required_string, required_field, invalid_deployment. raises. Qed.

#[local] Hint Resolve plain_forbid_fields plain_required_string : raises.

Lemma plain_read_deployment f : raises plain (read_deployment sha256_hexdigest float_repr f).
Proof.
  apply raises_bind.
  - unfold read_document, read_bytes. apply raises_bind; [|intros content _; apply raises_bind; [auto with raises|]].
    + by destruct f.2.
    + intros t _. pose proof (plain_loads (universal_newlines t)) as Hl.
      destruct (loads_document _ _); [done|]. by destruct (is_value_error _).
  - intros document _. unfold parse_deployment, required_field, DeploymentSpecification_post_init.
    raises.
Qed.

Lemma plain_load_snapshot root : raises plain (DeploymentCatalog.load_snapshot sha256_hexdigest float_repr root).
Proof.
  destruct root as [dir|]; [|done]. unfold DeploymentCatalog.load_snapshot. apply raises_bind.
  - induction (candidates dir) as [|f fs IH]; [done|]. simpl.
    pose proof (plain_read_deployment f) as Hf.
    destruct (read_deployment _ _ f) as [d|[c msg]]; [by raises|]. destruct c; try done. by raises.
  - intros [] _. unfold DeploymentCatalogSnapshot_post_init. raises.
Qed.

Lemma plain_none_when {A} caught (r : result A) : raises plain r -> raises plain (none_when caught r).
Proof. intros Hr. destruct r; [done|]. simpl in *. by destruct (caught _). Qed.

Lemma plain_parse_document content : raises plain (parse_document float_repr content).
Proof.
  unfold parse_document. apply raises_bind; [|done]. apply plain_none_when, raises_bind; auto with raises.
Qed.

Lemma plain_has_identity document id : raises plain (has_identity sha256_hexdigest document id).
Proof.
  destruct document as [document|]; [|done]. apply raises_bind; [|done]. apply plain_none_when.
  unfold item. raises.
Qed.

Lemma plain_serialize document original : raises plain (serialize document original).
Proof. unfold serialize, dumps_indented. raises. Qed.

#[local] Hint Resolve plain_parse_document plain_has_identity plain_serialize : raises.

Lemma plain_changed_content id enabled content :
  raises plain (changed_content sha256_hexdigest float_repr id enabled content).
Proof.
  unfold changed_content. apply raises_bind; [auto with raises|]. intros document _.
  apply raises_bind; [auto with raises|]. intros known _. destruct document as [document|]; [|done].
  apply raises_bind; [by apply raises_require|]. intros _ _. case_decide; [done|]. cbv zeta.
  raises.
Qed.

(** *** Programs on the directory *)

Definition fails_plainly {A} (m : io A) : Prop := forall d e d', m d = (Raise e, d') -> plain e.

Lemma fails_of_result {A} (r : result A) : raises plain r -> fails_plainly (of_result r).
Proof. by intros Hr d e d' [= -> _]. Qed.

Lemma fails_bind {A B} (m : io A) (f : A -> io B) :
  fails_plainly m -> (forall a, fails_plainly (f a)) -> fails_plainly (m ≫= f).
Proof.
  intros Hm Hf d e d' Hr. cbv [mbind io_bind] in Hr. destruct (m d) as [[a|x] d1] eqn:Hd.
  - by eapply Hf.
  - injection Hr as -> _. by eapply Hm.
Qed.

Lemma fails_try {A} (m : io A) h :
  fails_plainly m -> (forall e, plain e -> fails_plainly (h e)) -> fails_plainly (try_with m h).
Proof.
  intros Hm Hh d e d' Hr. unfold try_with in Hr. destruct (m d) as [[a|x] d1] eqn:Hd; [done|].
  eapply Hh; [by eapply Hm|exact Hr].
Qed.

Lemma fails_operation {A} (f : directory -> result A * directory) :
  (forall dir, raises plain (f dir).1) -> fails_plainly (Disk.operation f).
Proof.
  intros Hf d e d' Hr. unfold Disk.operation in Hr. destruct (dk_steps d) as [|st steps].
  - specialize (Hf (dk_entries d)). destruct (f _) as [r dir]. by injection Hr as -> _.
  - destruct (st_error st); [by injection Hr as <- _|].
    specialize (Hf (apply_changes (st_meanwhile st) (dk_entries d))).
    destruct (f _) as [r dir]. by injection Hr as -> _.
Qed.

(** Walk through a program on the directory. *)
Ltac fails_step :=
  lazymatch goal with
  | |- fails_plainly (mbind _ _) => apply fails_bind; [|intros ?]
  | |- fails_plainly (mret _) => apply (fails_of_result (Ok _)); done
  | |- fails_plainly (except_os_error _ _) => apply fails_try; [|intros ? ?]
  | |- fails_plainly (suppress_os_error _) => apply fails_try; [|intros ? ?]
  | |- fails_plainly (try_with _ _) => apply fails_try; [|intros ? ?]
  | |- fails_plainly (raise_io _ _) => apply fails_of_result; done
  | |- fails_plainly (check _ _ _) => apply fails_of_result, raises_require; done
  | |- fails_plainly (of_result _) => apply fails_of_result; solve [auto with raises]
  | |- fails_plainly (Disk.operation _) =>
      apply fails_operation; intros ?; repeat case_match; simplify_eq/=; done
  | |- fails_plainly (match ?x with _ => _ end) => destruct x
  end.
Ltac fails := cbv zeta; repeat fails_step.

#[local] Hint Resolve plain_changed_content : raises.

Lemma raises_exception {A} e : plain e -> raises (A := A) plain (Raise e).
Proof. done. Qed.

#[local] Hint Resolve raises_exception : raises.

Lemma fails_load_catalog : fails_plainly (load_catalog sha256_hexdigest float_repr).
Proof.
  intros d e d' Hr. unfold load_catalog in Hr. destruct (Disk.operation _ d) as [r d1].
  injection Hr as Hr _. pose proof (plain_load_snapshot
    (match r with Ok dir => Some dir | Raise _ => None end)) as Hp. by rewrite Hr in Hp.
Qed.

Lemma fails_locate c id : refusal c = None -> fails_plainly (locate sha256_hexdigest float_repr c id).
Proof.
  intros Hc. unfold locate. apply fails_bind; [|intros snapshot; fails].
  apply fails_try; [apply fails_load_catalog|]. intros e He. fails.
Qed.

Lemma fails_read_file name : fails_plainly (read_file name).
Proof. apply fails_operation. intros dir. simpl. by destruct (dir !! name) as [[]|]. Qed.

Lemma fails_stat_mode name : fails_plainly (stat_mode name).
Proof. apply fails_operation. intros dir. simpl. by destruct (dir !! name) as [[]|]. Qed.

Lemma fails_set_enabled nonce id enabled :
  fails_plainly (DeploymentWriter.set_enabled sha256_hexdigest float_repr nonce id enabled).
Proof.
  unfold DeploymentWriter.set_enabled. apply fails_bind; [by apply fails_locate|]. intros name.
  unfold replace_file, write_temporary, create_exclusive, change_mode, write_content, unlink,
    replace, sync_directory, sync.
  fails; auto using fails_read_file, fails_stat_mode.
Qed.

Lemma fails_read_original id :
  fails_plainly (TrashMover.read_original sha256_hexdigest float_repr id).
Proof.
  apply fails_bind; [by apply fails_locate|]. intros name. fails. apply fails_read_file.
Qed.

Lemma fails_move_to_trash stamp id original :
  fails_plainly (TrashMover.move_to_trash sha256_hexdigest float_repr stamp id original).
Proof.
  unfold TrashMover.move_to_trash. apply fails_bind; [by apply fails_locate|]. intros name.
  unfold make_trash, link_new, link_to_trash, unlink_original, read_trash, unlink_trash, unlink,
    sync_directory, sync, no_such_file.
  fails; auto using fails_read_file.
Qed.

Context {A : Type} `{ServiceErrors A} (nonce stamp : A -> string).

Lemma raises_beside {B} (f : A -> A * result B) : raises_plain f -> raises_plain (beside f).
Proof.
  intros Hf w w' e Hr. unfold beside in Hr. destruct (f w.1) as [a r] eqn:Hw. injection Hr as _ ->.
  by eapply Hf.
Qed.

Lemma raises_on_disk {B} (f : A -> io B) : (forall a, fails_plainly (f a)) -> raises_plain (on_disk f).
Proof.
  intros Hf w w' e Hr. unfold on_disk in Hr. destruct (f w.1 w.2) as [r d] eqn:Hw. injection Hr as _ ->.
  by eapply Hf.
Qed.

(** The deployment files raise errors of their own when the services beside them do. *)
#[export] Instance file_errors :
  @ServiceErrors (A * disk) (the_ports sha256_hexdigest float_repr nonce stamp).
Proof.
  split; intros; simpl;
    try (apply raises_beside; first [apply own_lookup|apply own_send|apply own_close]);
    apply raises_on_disk; intros a.
  - apply fails_load_catalog.
  - apply fails_set_enabled.
  - apply fails_bind; [apply fails_read_original|]. intros bytes. by apply (fails_of_result (Ok _)).
  - apply fails_move_to_trash.
Qed.
End files.

(** ** The HTTP adapters *)

Section http.
Context {W : Type} (abi engine : http_request -> W -> W * http_outcome) (rest : Ports W).
Context (Hclient : forall e, unexpected abi e -> plain e).

Lemma plain_of (named : exn_class -> bool) e :
  (forall c, named c = true -> refusal c = None) ->
  named (exn_cls e) = true \/ e = outside_model -> plain e.
Proof. intros Hn [He | ->]; [by apply Hn|done]. Qed.

Lemma attempt_once_plain {A} request timed_out network_failure
    (decode : Z -> option string -> list ascii -> result A) :
  plain timed_out -> plain network_failure ->
  (forall status ct content, raises plain (decode status ct content)) ->
  raises_plain (attempt_once abi request timed_out network_failure decode).
Proof.
  intros Ht Hn Hd w w' e Hr.
  pose proof (attempt_once_raises abi request timed_out network_failure decode w plain Ht Hn Hd) as Hp.
  rewrite Hr in Hp. simpl in Hp. destruct Hp as [?|?]; auto.
Qed.

(** Over HTTP the exchange-facing services raise errors of their own, if the client does. *)
#[export] Instance http_errors `{!ServiceErrors W} : @ServiceErrors W (http_ports abi engine rest).
Proof.
  split; intros; simpl; try apply own_snapshot; try apply own_set_enabled; try apply own_read_original;
    try apply own_move_to_trash; apply attempt_once_plain; try done; intros status ct content;
    (eapply raises_weaken;
      [first [apply open_position_raises|apply entry_package_raises|apply close_position_raises]|]).
  - intros e He. eapply plain_of; [|exact He]. by intros [].
  - intros e [He|He]; [unfold plain; by rewrite He|by subst].
  - intros e He. eapply plain_of; [|exact He]. by intros [].
Qed.
End http.
