(* ===== verification/HttpApp.v ===== *)
(** The HTTP application (adapters/http/app.py and models.py): the request models, every
    handler of [create_http_app], and the application that bootstrap/application.py composes.

    A request reaches a handler as its path parameters and its parsed body. What pydantic does
    with a single field is a parameter with its documented laws ([Pydantic]); how a model class
    combines its fields is written out. FastAPI's routing and the parsing of the body are not
    modelled: a body that is not JSON is [None]. Logging is not modelled. *)
From S2P Require Import Prelude Errors DecimalText Models Json Contracts Effects FirstFill Repository Scripted Protocol ProtocolRules EntryReconciliation EntryOrchestrator RuntimeOrchestrator UncertainResolver EnabledControl ChartLayers ExecutionEvent Lifecycle Intake Runtime Refusals.

(** * pydantic *)

(** The validators of the field types that the models use: [str], [StrictInt] and [bool] in
    strict mode, and [int] in the default (lax) mode. *)
Class Pydantic := {
  strict_str : json -> option string;
  strict_int : json -> option Z;
  strict_bool : json -> option bool;
  lax_int : json -> option Z }.

Class PydanticLaws `{Pydantic} := {
  strict_str_iff j s : strict_str j = Some s <-> j = JStr s;
  strict_int_iff j n : strict_int j = Some n <-> j = JInt n;
  strict_bool_iff j b : strict_bool j = Some b <-> j = JBool b;
  lax_int_int n : lax_int (JInt n) = Some n }.

(** * Requests *)

Section models.
Context `{Pydantic}.

Definition field {A} (validate : json -> option A) (fields : dict json) (name : string) : option A :=
  value ← dget name fields; validate value.

(** [extra="forbid"] *)
Definition only_fields (fields : dict json) (names : list string) : option () :=
  if forallb (fun k => bool_decide (k ∈ names)) (dkeys fields) then Some tt else None.

Definition model_fields (body : option json) : option (dict json) :=
  match body with Some (JObj fields) => Some fields | _ => None end.

Record ClosedBarRequest := {
  rq_instrument : string; rq_timeframe : string; rq_open_time_ms : Z }.

(** The field validator [require_non_empty_string]. *)
Definition not_blank (value : string) : option string :=
  if is_blank value then None else Some value.

Definition validate_ClosedBarRequest (body : option json) : option ClosedBarRequest :=
  fields ← model_fields body;
  instrument ← field strict_str fields "instrument" ≫= not_blank;
  timeframe ← field strict_str fields "timeframe" ≫= not_blank;
  open_time_ms ← field strict_int fields "open_time_ms";
  if 0 <=? open_time_ms
  then Some {| rq_instrument := instrument; rq_timeframe := timeframe;
               rq_open_time_ms := open_time_ms |}
  else None.

Definition validate_FirstFillRequest (body : option json) : option Z :=
  fields ← model_fields body;
  _ ← only_fields fields ["first_fill_at_ms"];
  first_fill_at_ms ← field strict_int fields "first_fill_at_ms";
  if 0 <? first_fill_at_ms then Some first_fill_at_ms else None.

Definition validate_EnabledRequest (body : option json) : option bool :=
  fields ← model_fields body;
  _ ← only_fields fields ["enabled"];
  field strict_bool fields "enabled".
End models.

(** * Responses *)

Record answer := { an_status : Z; an_content : json }.

Definition status_only (status : string) : json := JObj [("status", JStr status)].

Definition AcceptedResponse := status_only "accepted".
Definition LiveResponse := status_only "live".
Definition ReadyResponse := status_only "ready".
Definition NotReadyResponse := status_only "not_ready".
Definition RejectedResponse : json :=
  JObj [("status", JStr "rejected"); ("reason", JStr "invalid_webhook")].
Definition FirstFillRecordedResponse := status_only "first_fill_recorded".
Definition StrategyInstanceStateNotFoundResponse := status_only "strategy_instance_state_not_found".
Definition FirstFillConflictResponse := status_only "first_fill_conflict".
Definition InternalErrorResponse := status_only "internal_error".
Definition CatalogUnavailableResponse := status_only "catalog_unavailable".
Definition StateUnavailableResponse := status_only "state_unavailable".

Definition refused_response (status reason : string) : dict json :=
  [("status", JStr status); ("reason", JStr reason)].
Definition EnabledChangeRefusedResponse (reason : string) : json :=
  JObj (refused_response "enabled_change_refused" reason).
Definition DeleteRefusedResponse (reason : string) : json :=
  JObj (refused_response "delete_refused" reason).

(** [exclude_none=True]: without the Engine's code and message unless it rejected. *)
Definition ChartLayersRefusedResponse (exc : exn_class) (reason : string) : json :=
  JObj (refused_response "chart_layers_refused" reason
        ++ match exc with
           | EngineRejected engine_code engine_message =>
               [("engine_code", JStr engine_code); ("engine_message", JStr engine_message)]
           | _ => []
           end).

Definition text_or_none (o : option string) : json := match o with Some s => JStr s | None => JNull end.
Definition int_or_none (o : option Z) : json := match o with Some n => JInt n | None => JNull end.

Definition StrategyInstanceItem (item : DeploymentSpecification) : json :=
  JObj [("strategy_instance_id", JStr (ds_strategy_instance_id item));
        ("strategy_id", JStr (ds_strategy_id item)); ("instrument", JStr (ds_instrument item));
        ("base_timeframe", JStr (ds_base_timeframe item)); ("enabled", JBool (ds_enabled item));
        ("source_path", JStr (ds_source_path item))].

Definition InvalidDeploymentFileItem (item : InvalidDeploymentFile) : json :=
  JObj [("source_path", JStr (iv_source_path item)); ("error_code", JStr (iv_error_code item));
        ("error_message", text_or_none (iv_error_message item))].

Definition DuplicateDeploymentIdentityItem (item : DuplicateDeploymentIdentity) : json :=
  JObj [("strategy_instance_id", JStr (dd_strategy_instance_id item));
        ("source_paths", JList (map JStr (dd_source_paths item)))].

Definition StrategyInstanceListResponse (snapshot : DeploymentCatalogSnapshot) : json :=
  JObj [("scanned_file_count", JInt (sn_scanned_file_count snapshot));
        ("strategy_instances", JList (map StrategyInstanceItem (sn_accepted_deployments snapshot)));
        ("invalid_files", JList (map InvalidDeploymentFileItem (sn_invalid_files snapshot)));
        ("duplicate_identities",
         JList (map DuplicateDeploymentIdentityItem (sn_duplicate_identities snapshot)))].

(** The literals of runtime/trading_state/models.py. *)
Definition trade_state_value (s : TradeState) : string :=
  match s with FLAT => "flat" | ENTRY_PENDING => "entry_pending" | IN_POSITION => "in_position" end.
Definition recovery_kind_value (k : RecoveryKind) : string :=
  match k with recovery_entry => "entry" | recovery_close => "close" end.

Definition StrategyInstanceStateItem (item : StrategyInstanceTradingState) : json :=
  JObj [("strategy_instance_id", JStr (ti_strategy_instance_id item));
        ("trade_state", JStr (trade_state_value (ti_trade_state item)));
        ("trade_cycle_id", text_or_none (ti_trade_cycle_id item));
        ("side", text_or_none (side_text <$> ti_side item));
        ("first_fill_at_ms", int_or_none (ti_first_fill_at_ms item));
        ("recovery_pending", text_or_none (recovery_kind_value <$> ti_recovery_pending item))].

Definition StrategyInstanceStateListResponse (states : list StrategyInstanceTradingState) : json :=
  JObj [("strategy_instances", JList (map StrategyInstanceStateItem states))].

Definition EnabledChangedResponse (result : EnabledChangeResult) : json :=
  JObj [("strategy_instance_id", JStr (ch_strategy_instance_id result));
        ("enabled", JBool (ch_enabled result));
        ("cancelled_entry_order", JBool (ch_cancelled_entry_order result))].

Definition ClosePositionResponse (result : ClosePositionResult) : json :=
  JObj [("strategy_instance_id", JStr (cr_strategy_instance_id result));
        ("trade_cycle_id", JStr (cr_trade_cycle_id result)); ("enabled", JBool false);
        ("closure_reason", text_or_none (cr_closure_reason result))].

Definition CancelEntryOrdersResponse (result : CancelEntryOrdersResult) : json :=
  JObj [("strategy_instance_id", JStr (co_strategy_instance_id result)); ("enabled", JBool false);
        ("cancelled_entry_order", JBool (co_cancelled_entry_order result))].

Definition DeletedResponse (result : DeleteResult) : json :=
  JObj [("strategy_instance_id", JStr (dr_strategy_instance_id result)); ("deleted", JBool true);
        ("cancelled_entry_order", JBool (dr_cancelled_entry_order result));
        ("trash_file", JStr (dr_trash_file result))].

Definition EmaStackEntryItem (entry : EmaStackEntry) : json :=
  JObj [("role", JStr (es_role entry)); ("timeframe", JStr (es_timeframe entry));
        ("period", JInt (es_period entry)); ("source", JStr (es_source entry))].

(** The constructor of a model whose field does not validate. *)
Definition ValidationError : exn := Exn (OtherException "ValidationError") EmptyString.

Definition EpisodeEntryItem `{Pydantic} (entry : EpisodeEntry) : result json :=
  params ← traverse (fun '(name, value) =>
      match lax_int value with Some n => Ok (name, JInt n) | None => Raise ValidationError end)
    (ep_params entry);
  Ok (JObj [("episode_ref", JStr (ep_episode_ref entry)); ("params", JObj params)]).

Definition ChartLayersResponse `{Pydantic} (layers : ChartLayers) : result json :=
  episodes ← traverse EpisodeEntryItem (la_episodes layers);
  Ok (JObj [("strategy_instance_id", JStr (la_strategy_instance_id layers));
            ("ema_stack", JList (map EmaStackEntryItem (la_ema_stack layers)));
            ("episodes", JList episodes)]).

(** * The application *)

(** [app.state]: the arguments of [create_http_app]. The intake is the effect of its
    [put_nowait]. *)
Record http_app (R W : Type) := {
  ap_ready : bool;
  ap_committed_bar_intake : option (CommittedBarEvent -> M R W ());
  ap_process_first_fill : option (AbiFirstFillExecutionEvent -> M R W StrategyInstanceRuntimeState);
  ap_load_deployment_catalog : option (M R W DeploymentCatalogSnapshot);
  ap_set_strategy_enabled : option (string -> bool -> M R W EnabledChangeResult);
  ap_delete_strategy : option (string -> M R W DeleteResult);
  ap_get_chart_layers : option (string -> M R W ChartLayers);
  ap_list_trading_states : option (M R W (list StrategyInstanceTradingState));
  ap_close_position : option (string -> M R W ClosePositionResult);
  ap_cancel_entry_orders : option (string -> M R W CancelEntryOrdersResult) }.
Arguments ap_ready {R W} _.
Arguments ap_committed_bar_intake {R W} _.
Arguments ap_process_first_fill {R W} _.
Arguments ap_load_deployment_catalog {R W} _.
Arguments ap_set_strategy_enabled {R W} _.
Arguments ap_delete_strategy {R W} _.
Arguments ap_get_chart_layers {R W} _.
Arguments ap_list_trading_states {R W} _.
Arguments ap_close_position {R W} _.
Arguments ap_cancel_entry_orders {R W} _.

Definition respond (status : Z) (content : json) : answer :=
  {| an_status := status; an_content := content |}.

Definition not_ready : answer := respond 503 NotReadyResponse.
Definition rejected : answer := respond 400 RejectedResponse.
Definition internal_error : answer := respond 500 InternalErrorResponse.

(** [except EnabledControlRefused as exc: ... except Exception: ...] *)
Definition refused (content : exn_class -> string -> json) (exc : exn) : answer :=
  match refusal (exn_cls exc) with
  | Some (status_code, reason) => respond status_code (content (exn_cls exc) reason)
  | None => internal_error
  end.

Section handlers.
Context {R W : Type} `{Pydantic}.
Context (app : http_app R W).

(** [if not app.state.ready or app.state.x is None: return 503] *)
Definition when_ready {U} (use_case : option U) (k : U -> M R W answer) : M R W answer :=
  match ap_ready app, use_case with
  | true, Some u => k u
  | _, _ => mret not_ready
  end.

(** [try: result = use_case() except ...: return failed; return succeeded]: the response is
    built outside of the [try]. *)
Definition answering_with {A} (use_case : M R W A) (failed : exn -> answer)
    (succeeded : A -> result answer) : M R W answer :=
  r ← catch (a ← use_case; mret (Ok a)) (fun exc => mret (Raise exc));
  match r with
  | Ok a => lift (succeeded a)
  | Raise exc => mret (failed exc)
  end.

(** [validation_error_handler]: the answer to a request that does not validate. *)
Definition validation_error_handler {A} (request : option A) (k : A -> M R W answer) :
    M R W answer :=
  match request with Some request => k request | None => mret rejected end.

Definition health_live : M R W answer := mret (respond 200 LiveResponse).

Definition health_ready : M R W answer :=
  mret (if ap_ready app then respond 200 ReadyResponse else not_ready).

Definition closed_bar_failure (exc : exn) : answer :=
  match exn_cls exc with
  | IntakeNotAccepting | QueueFull => not_ready
  | _ => respond 500 (status_only "error")
  end.

Definition closed_bar_webhook (request : ClosedBarRequest) : M R W answer :=
  when_ready (ap_committed_bar_intake app) (fun put_nowait =>
    answering_with
      (committed_bar ← lift (CommittedBarEvent_post_init
         {| cb_instrument := rq_instrument request; cb_timeframe := rq_timeframe request;
            cb_open_time_ms := rq_open_time_ms request |});
       put_nowait committed_bar)
      closed_bar_failure (fun _ => Ok (respond 200 AcceptedResponse))).

Definition first_fill_failure (exc : exn) : answer :=
  match exn_cls exc with
  | StrategyInstanceStateNotFound => respond 404 StrategyInstanceStateNotFoundResponse
  | FirstFillInvariantError => respond 409 FirstFillConflictResponse
  | _ => internal_error
  end.

Definition first_fill (strategy_instance_id trade_cycle_id : string) (first_fill_at_ms : Z) :
    M R W answer :=
  when_ready (ap_process_first_fill app) (fun process_first_fill =>
    match AbiFirstFillExecutionEvent_post_init
        {| fe_strategy_instance_id := strategy_instance_id; fe_trade_cycle_id := trade_cycle_id;
           fe_first_fill_at_ms := first_fill_at_ms |} with
    | Raise exc => if is_value_error (exn_cls exc) then mret rejected else lift (Raise exc)
    | Ok event =>
        answering_with (process_first_fill event) first_fill_failure
          (fun _ => Ok (respond 200 FirstFillRecordedResponse))
    end).

Definition list_failure (exc : exn) : answer :=
  match exn_cls exc with
  | DeploymentCatalogUnavailableError => respond 503 CatalogUnavailableResponse
  | _ => internal_error
  end.

Definition list_strategy_instances : M R W answer :=
  when_ready (ap_load_deployment_catalog app) (fun load_deployment_catalog =>
    answering_with load_deployment_catalog list_failure
      (fun snapshot => Ok (respond 200 (StrategyInstanceListResponse snapshot)))).

Definition states_failure (exc : exn) : answer :=
  match exn_cls exc with
  | TradingStateCatalogUnavailable => respond 503 CatalogUnavailableResponse
  | StateUnavailable => respond 503 StateUnavailableResponse
  | _ => internal_error
  end.

Definition list_strategy_instance_states : M R W answer :=
  when_ready (ap_list_trading_states app) (fun list_trading_states =>
    answering_with list_trading_states states_failure
      (fun states => Ok (respond 200 (StrategyInstanceStateListResponse states)))).

Definition set_strategy_instance_enabled (strategy_instance_id : string) (enabled : bool) :
    M R W answer :=
  when_ready (ap_set_strategy_enabled app) (fun set_strategy_enabled =>
    answering_with (set_strategy_enabled strategy_instance_id enabled)
      (refused (fun _ => EnabledChangeRefusedResponse))
      (fun result => Ok (respond 200 (EnabledChangedResponse result)))).

Definition close_strategy_position (strategy_instance_id : string) : M R W answer :=
  when_ready (ap_close_position app) (fun close_position =>
    answering_with (close_position strategy_instance_id)
      (refused (fun _ => EnabledChangeRefusedResponse))
      (fun result => Ok (respond 200 (ClosePositionResponse result)))).

Definition cancel_strategy_entry_orders (strategy_instance_id : string) : M R W answer :=
  when_ready (ap_cancel_entry_orders app) (fun cancel_entry_orders =>
    answering_with (cancel_entry_orders strategy_instance_id)
      (refused (fun _ => EnabledChangeRefusedResponse))
      (fun result => Ok (respond 200 (CancelEntryOrdersResponse result)))).

Definition delete_strategy_instance (strategy_instance_id : string) : M R W answer :=
  when_ready (ap_delete_strategy app) (fun delete_strategy =>
    answering_with (delete_strategy strategy_instance_id)
      (refused (fun _ => DeleteRefusedResponse))
      (fun result => Ok (respond 200 (DeletedResponse result)))).

Definition get_strategy_chart_layers (strategy_instance_id : string) : M R W answer :=
  when_ready (ap_get_chart_layers app) (fun get_chart_layers =>
    answering_with (get_chart_layers strategy_instance_id)
      (refused ChartLayersRefusedResponse)
      (fun layers => content ← ChartLayersResponse layers; Ok (respond 200 content))).
End handlers.

(** * Routes *)

(** The requests of the application: path parameters and parsed body. *)
Inductive http_call :=
| GetHealthLive
| GetHealthReady
| PostClosedBar (body : option json)
| PutFirstFill (strategy_instance_id trade_cycle_id : string) (body : option json)
| GetStrategyInstances
| GetStrategyInstanceStates
| PutEnabled (strategy_instance_id : string) (body : option json)
| PostClosePosition (strategy_instance_id : string)
| PostCancelEntryOrders (strategy_instance_id : string)
| DeleteStrategyInstance (strategy_instance_id : string)
| GetChartLayers (strategy_instance_id : string).

(** [create_http_app]: which handler answers, after the validation of the body. *)
Definition create_http_app {R W} `{Pydantic} (app : http_app R W) (c : http_call) : M R W answer :=
  match c with
  | GetHealthLive => health_live
  | GetHealthReady => health_ready app
  | PostClosedBar body =>
      validation_error_handler (validate_ClosedBarRequest body) (closed_bar_webhook app)
  | PutFirstFill strategy_instance_id trade_cycle_id body =>
      validation_error_handler (validate_FirstFillRequest body)
        (first_fill app strategy_instance_id trade_cycle_id)
  | GetStrategyInstances => list_strategy_instances app
  | GetStrategyInstanceStates => list_strategy_instance_states app
  | PutEnabled strategy_instance_id body =>
      validation_error_handler (validate_EnabledRequest body)
        (set_strategy_instance_enabled app strategy_instance_id)
  | PostClosePosition strategy_instance_id => close_strategy_position app strategy_instance_id
  | PostCancelEntryOrders strategy_instance_id => cancel_strategy_entry_orders app strategy_instance_id
  | DeleteStrategyInstance strategy_instance_id => delete_strategy_instance app strategy_instance_id
  | GetChartLayers strategy_instance_id => get_strategy_chart_layers app strategy_instance_id
  end.

(** The statuses the decorators document: 200 and the keys of [responses]. *)
Definition documented (c : http_call) : list Z :=
  match c with
  | GetHealthLive => [200]
  | GetHealthReady => [200; 503]
  | PostClosedBar _ => [200; 400; 503]
  | PutFirstFill _ _ _ => [200; 400; 404; 409; 503; 500]
  | GetStrategyInstances | GetStrategyInstanceStates => [200; 503; 500]
  | PutEnabled _ _ => [200; 400; 404; 409; 500; 502; 503]
  | PostClosePosition _ | PostCancelEntryOrders _ | DeleteStrategyInstance _ =>
      [200; 404; 409; 500; 502; 503]
  | GetChartLayers _ => [200; 404; 422; 500; 502; 503]
  end.

(** bootstrap/application.py, [build_application]: the use cases it gives [create_http_app];
    the intake is part of the world. *)
Definition production_app {R W} `{Repository R} `{Ports W} (rt : runtime)
    (build_feature_plan : string -> dict json -> W -> W * result (dict json))
    (put_nowait : CommittedBarEvent -> W -> W * result ()) : http_app R W :=
  {| ap_ready := true;
     ap_committed_bar_intake := Some (fun event => on_world (put_nowait event));
     ap_process_first_fill := Some (process_first_fill_event (rt_first_fill_freezer rt));
     ap_load_deployment_catalog := Some load_snapshot;
     ap_set_strategy_enabled := Some (set_enabled (rt_enabled_cancel_journal rt));
     ap_delete_strategy := Some (delete_instance (rt_delete_cancel_journal rt));
     ap_get_chart_layers := Some (get_chart_layers build_feature_plan);
     ap_list_trading_states := Some list_trading_states;
     ap_close_position := Some (operator_close_position (rt_operator rt));
     ap_cancel_entry_orders := Some (cancel_entry_orders (rt_operator_cancel_journal rt)) |}.

(** The application of a failed start. *)
Definition not_ready_app {R W} : http_app R W :=
  {| ap_ready := false; ap_committed_bar_intake := None; ap_process_first_fill := None;
     ap_load_deployment_catalog := None; ap_set_strategy_enabled := None;
     ap_delete_strategy := None; ap_get_chart_layers := None; ap_list_trading_states := None;
     ap_close_position := None; ap_cancel_entry_orders := None |}.

(** * Lemmas *)

Lemma answering_with_run {R W A} (m : M R W A) failed succeeded s :
  answering_with m failed succeeded s =
  let '(s', r) := m s in
  (s', match r with Ok a => succeeded a | Raise exc => Ok (failed exc) end).
Proof.
  unfold answering_with. rewrite run_bind, run_catch, run_bind. by destruct (m s) as [s' []].
Qed.

Lemma answering_with_state {R W A} (m : M R W A) failed succeeded s :
  (answering_with m failed succeeded s).1 = (m s).1.
Proof. rewrite answering_with_run. by destruct (m s). Qed.

Lemma when_ready_run {R W U} (app : http_app R W) o (u : U) k s :
  ap_ready app = true -> o = Some u -> when_ready app o k s = k u s.
Proof. unfold when_ready. by intros -> ->. Qed.

Lemma ignore_run {R W A} (m : M R W A) s :
  ignore m s = let '(s', r) := m s in (s', match r with Ok _ => Ok tt | Raise e => Raise e end).
Proof. unfold ignore. rewrite run_bind. by destruct (m s) as [s' []]. Qed.

(** ** Validation *)

Section validation.
Context `{PydanticLaws}.

Lemma field_Some {A} (v : json -> option A) fields name a :
  field v fields name = Some a <-> exists j, dget name fields = Some j /\ v j = Some a.
Proof. unfold field. rewrite bind_Some. done. Qed.

(** The bar that the body of a closed-bar notification names. *)
Definition names_bar (body : option json) (e : CommittedBarEvent) : Prop :=
  exists fields, body = Some (JObj fields) /\
    dget "instrument" fields = Some (JStr (cb_instrument e)) /\
    dget "timeframe" fields = Some (JStr (cb_timeframe e)) /\
    dget "open_time_ms" fields = Some (JInt (cb_open_time_ms e)) /\
    is_blank (cb_instrument e) = false /\ is_blank (cb_timeframe e) = false /\
    0 <= cb_open_time_ms e.

Lemma model_fields_Some body fields : model_fields body = Some fields <-> body = Some (JObj fields).
Proof. destruct body as [[]|]; simpl; naive_solver. Qed.

Lemma not_blank_Some v w : not_blank v = Some w <-> is_blank v = false /\ w = v.
Proof. unfold not_blank. destruct (is_blank v); naive_solver. Qed.

Definition requested (e : CommittedBarEvent) : ClosedBarRequest :=
  {| rq_instrument := cb_instrument e; rq_timeframe := cb_timeframe e;
     rq_open_time_ms := cb_open_time_ms e |}.

Lemma closed_bar_request_names_bar body e :
  validate_ClosedBarRequest body = Some (requested e) <-> names_bar body e.
Proof.
  unfold validate_ClosedBarRequest, names_bar. rewrite bind_Some.
  setoid_rewrite model_fields_Some. split.
  - intros (fields & -> & Hv). exists fields. apply bind_Some in Hv as (i & Hi & Hv).
    apply bind_Some in Hv as (t & Ht & Hv). apply bind_Some in Hv as (z & Hz & Hv).
    apply bind_Some in Hi as (i' & (j & Hij & ->%strict_str_iff)%field_Some & [Hib ->]%not_blank_Some).
    apply bind_Some in Ht as (t' & (j & Htj & ->%strict_str_iff)%field_Some & [Htb ->]%not_blank_Some).
    apply field_Some in Hz as (j & Hzj & ->%strict_int_iff).
    destruct (0 <=? z) eqn:Hle; [|done]. apply Z.leb_le in Hle. injection Hv as -> -> ->. done.
  - intros (fields & -> & Hi & Ht & Hz & Hib & Htb & Hle). exists fields. split; [done|].
    repeat (apply bind_Some; eexists; split;
      [first [apply bind_Some; eexists; split;
                [apply field_Some; eexists; split; [eassumption|by apply strict_str_iff]
                |apply not_blank_Some; split; [eassumption|reflexivity]]
             |apply field_Some; eexists; split; [eassumption|by apply strict_int_iff]]|]).
    cbv beta. by rewrite (proj2 (Z.leb_le _ _) Hle).
Qed.

Lemma committed_bar_of_names body e : names_bar body e -> CommittedBarEvent_post_init e = Ok e.
Proof.
  intros (fields & _ & _ & _ & _ & Hi & Ht & Hle). unfold CommittedBarEvent_post_init.
  rewrite Hi, Ht, (proj2 (Z.leb_le _ _) Hle). done.
Qed.
End validation.

(** * The closed-bar webhook over the bounded intake *)

Section closed_bar.
Context {R W0 : Type} `{PydanticLaws}.
Notation intake_boundary := (Boundary.boundary CommittedBarEvent).

(** [CommittedBarIntakeBoundary.put_nowait] as an effect on a world that holds the intake. *)
Definition put_in_intake (event : CommittedBarEvent) (w : intake_boundary * W0) :
    (intake_boundary * W0) * result () :=
  let '(b, r) := Boundary.put_nowait event w.1 in ((b, w.2), r).

(** What a notification is answered, and the intake afterwards. *)
Definition closed_bar_outcome (ready : bool) (body : option json) (b : intake_boundary)
    (a : answer) (b' : intake_boundary) : Prop :=
  (a = respond 200 AcceptedResponse /\ ready = true /\ Boundary._accepting b = true /\
   Z.of_nat (length (Boundary._queue b)) < Boundary.capacity b /\
   exists e, names_bar body e /\
     b' = {| Boundary.capacity := Boundary.capacity b; Boundary._queue := Boundary._queue b ++ [e];
             Boundary.unfinished_tasks := Boundary.unfinished_tasks b + 1;
             Boundary._accepting := true |}) \/
  (a = rejected /\ b' = b /\ forall e, ~ names_bar body e) \/
  (a = not_ready /\ b' = b /\ (exists e, names_bar body e) /\
   (ready = false \/ Boundary._accepting b = false \/
    Boundary.capacity b <= Z.of_nat (length (Boundary._queue b)))).

(** C28. A closed-bar notification is answered 200 exactly when the
    body names a bar (a non-blank instrument and timeframe and a non-negative time, whatever
    other fields it has), the application is ready, and the intake is open and has room; the
    bar is then queued last, once. An invalid body is answered 400, and a bar that cannot be
    queued now 503 [not_ready]; neither changes the intake. The handler never raises, and the
    answer 500 does not occur. *)
Theorem closed_bar_accepts_exactly (app : http_app R (intake_boundary * W0)) body r b w t :
  ap_committed_bar_intake app = Some (fun event => on_world (put_in_intake event)) ->
  exists a b', create_http_app app (PostClosedBar body) (Sys r (b, w) t) = (Sys r (b', w) t, Ok a) /\
    closed_bar_outcome (ap_ready app) body b a b'.
Proof.
  intros Happ. simpl. unfold closed_bar_outcome.
  destruct (validate_ClosedBarRequest body) as [request|] eqn:Hv; simpl.
  2: { exists rejected, b. split; [done|]. right; left. split_and!; [done..|].
       intros e He%closed_bar_request_names_bar. by rewrite He in Hv. }
  set (e := {| cb_instrument := rq_instrument request; cb_timeframe := rq_timeframe request;
               cb_open_time_ms := rq_open_time_ms request |}).
  assert (names_bar body e) as He.
  { apply closed_bar_request_names_bar. rewrite Hv. by destruct request. }
  unfold closed_bar_webhook, when_ready. rewrite Happ.
  destruct (ap_ready app) eqn:Hready.
  2: { exists not_ready, b. split; [done|]. right; right. split_and!; [done..|by exists e|by left]. }
  rewrite answering_with_run. fold e. rewrite (committed_bar_of_names _ _ He).
  run_program. unfold put_in_intake. cbn [sys_repo sys_world sys_trace fst snd].
  unfold Boundary.put_nowait. destruct (Boundary._accepting b) eqn:Hacc; simpl.
  2: { exists not_ready, b. split; [done|]. right; right. split_and!; [done..|by exists e|by right; left]. }
  destruct (Boundary.capacity b <=? Z.of_nat (length (Boundary._queue b))) eqn:Hcap.
  - exists not_ready, b. split; [done|]. right; right. split_and!; [done..|by exists e|].
    right; right. by apply Z.leb_le.
  - exists (respond 200 AcceptedResponse). eexists. split; [reflexivity|]. left.
    apply Z.leb_gt in Hcap. split_and!; [done..|]. by exists e.
Qed.
End closed_bar.

(** * The production application *)

Section production.
Context {R W : Type} `{Repository R} `{Ports W} `{PydanticLaws}.
Context (rt : runtime) (build_feature_plan : string -> dict json -> W -> W * result (dict json)).
Context (put_nowait : CommittedBarEvent -> W -> W * result ()).
Implicit Types s : sys R W.

Notation production := (production_app rt build_feature_plan put_nowait).

(** The request that asks for an operation; bars and recovery attempts are not requested
    over HTTP. *)
Definition request_of (op : operation) : option http_call :=
  match op with
  | ApplyFirstFillEvent event =>
      Some (PutFirstFill (fe_strategy_instance_id event) (fe_trade_cycle_id event)
        (Some (JObj [("first_fill_at_ms", JInt (fe_first_fill_at_ms event))])))
  | SetEnabled id enabled => Some (PutEnabled id (Some (JObj [("enabled", JBool enabled)])))
  | Delete id => Some (DeleteStrategyInstance id)
  | OperatorClose id => Some (PostClosePosition id)
  | OperatorCancel id => Some (PostCancelEntryOrders id)
  | ProcessBar _ | AttemptRecovery _ => None
  end.

(** A first-fill event passes its constructor. *)
Definition constructible (op : operation) : Prop :=
  match op with
  | ApplyFirstFillEvent event => AbiFirstFillExecutionEvent_post_init event = Ok event
  | _ => True
  end.

(** What the operation of a request returns. *)
Inductive use_case_result :=
| FirstFillRecorded (state : StrategyInstanceRuntimeState)
| EnabledChanged (result : EnabledChangeResult)
| InstanceDeleted (result : DeleteResult)
| PositionClosed (result : ClosePositionResult)
| EntryOrdersCancelled (result : CancelEntryOrdersResult).

(** The operation with its result; [run_operation] forgets it. *)
Definition requested_operation (op : operation) : option (M R W use_case_result) :=
  match op with
  | ApplyFirstFillEvent event =>
      Some (state ← process_first_fill_event (rt_first_fill_freezer rt) event;
            mret (FirstFillRecorded state))
  | SetEnabled id enabled =>
      Some (result ← set_enabled (rt_enabled_cancel_journal rt) id enabled;
            mret (EnabledChanged result))
  | Delete id =>
      Some (result ← delete_instance (rt_delete_cancel_journal rt) id;
            mret (InstanceDeleted result))
  | OperatorClose id =>
      Some (result ← operator_close_position (rt_operator rt) id; mret (PositionClosed result))
  | OperatorCancel id =>
      Some (result ← cancel_entry_orders (rt_operator_cancel_journal rt) id;
            mret (EntryOrdersCancelled result))
  | ProcessBar _ | AttemptRecovery _ => None
  end.

(** How a refused action is called in its answer. *)
Definition refused_as (op : operation) : string :=
  match op with Delete _ => "delete_refused" | _ => "enabled_change_refused" end.

(** The contract of the answers: the status and the body, for every way the operation can end. *)
Inductive reports : operation -> result use_case_result -> answer -> Prop :=
| report_first_fill event state :
    reports (ApplyFirstFillEvent event) (Ok (FirstFillRecorded state))
      (respond 200 (JObj [("status", JStr "first_fill_recorded")]))
| report_enabled id enabled result :
    reports (SetEnabled id enabled) (Ok (EnabledChanged result))
      (respond 200 (JObj [("strategy_instance_id", JStr (ch_strategy_instance_id result));
                          ("enabled", JBool (ch_enabled result));
                          ("cancelled_entry_order", JBool (ch_cancelled_entry_order result))]))
| report_deleted id result :
    reports (Delete id) (Ok (InstanceDeleted result))
      (respond 200 (JObj [("strategy_instance_id", JStr (dr_strategy_instance_id result));
                          ("deleted", JBool true);
                          ("cancelled_entry_order", JBool (dr_cancelled_entry_order result));
                          ("trash_file", JStr (dr_trash_file result))]))
| report_closed id result :
    reports (OperatorClose id) (Ok (PositionClosed result))
      (respond 200 (JObj [("strategy_instance_id", JStr (cr_strategy_instance_id result));
                          ("trade_cycle_id", JStr (cr_trade_cycle_id result));
                          ("enabled", JBool false);
                          ("closure_reason", text_or_none (cr_closure_reason result))]))
| report_cancelled id result :
    reports (OperatorCancel id) (Ok (EntryOrdersCancelled result))
      (respond 200 (JObj [("strategy_instance_id", JStr (co_strategy_instance_id result));
                          ("enabled", JBool false);
                          ("cancelled_entry_order", JBool (co_cancelled_entry_order result))]))
| report_unknown_instance event msg :
    reports (ApplyFirstFillEvent event) (Raise (Exn StrategyInstanceStateNotFound msg))
      (respond 404 (JObj [("status", JStr "strategy_instance_state_not_found")]))
| report_conflict event msg :
    reports (ApplyFirstFillEvent event) (Raise (Exn FirstFillInvariantError msg))
      (respond 409 (JObj [("status", JStr "first_fill_conflict")]))
| report_first_fill_error event cls msg :
    cls <> StrategyInstanceStateNotFound -> cls <> FirstFillInvariantError ->
    reports (ApplyFirstFillEvent event) (Raise (Exn cls msg))
      (respond 500 (JObj [("status", JStr "internal_error")]))
| report_refusal op cls msg status reason :
    is_action op = true -> refusal cls = Some (status, reason) ->
    reports op (Raise (Exn cls msg))
      (respond status (JObj [("status", JStr (refused_as op)); ("reason", JStr reason)]))
| report_action_error op cls msg :
    is_action op = true -> refusal cls = None ->
    reports op (Raise (Exn cls msg)) (respond 500 (JObj [("status", JStr "internal_error")])).

(** One answer for every end of an operation. *)
Lemma reports_exact op r a a' : reports op r a -> reports op r a' -> a = a'.
Proof. intros Ha Ha'. inv Ha; inv Ha'; simplify_eq; try done; by destruct op. Qed.

(** The answer is 200 for no exception. *)
Lemma reports_status op r a : reports op r a -> an_status a = 200 <-> is_ok r = true.
Proof.
  intros Ha. destruct Ha as [| | | | | | | |op cls msg status reason _ Hr|]; simpl; try done.
  split; [|done]. intros ->. by destruct cls.
Qed.

Lemma refused_reports op content e :
  is_action op = true ->
  (forall cls reason,
     content cls reason = JObj [("status", JStr (refused_as op)); ("reason", JStr reason)]) ->
  reports op (Raise e) (refused content e).
Proof.
  intros Hop Hc. unfold refused. destruct e as [cls msg]; simpl.
  destruct (refusal cls) as [[status reason]|] eqn:Hr.
  - rewrite Hc. by apply report_refusal.
  - by apply report_action_error.
Qed.

Lemma first_fill_reports event e :
  reports (ApplyFirstFillEvent event) (Raise e) (first_fill_failure e).
Proof. destruct e as [[] msg]; by constructor. Qed.

Lemma validate_enabled b :
  validate_EnabledRequest (Some (JObj [("enabled", JBool b)])) = Some b.
Proof. cbn. by apply strict_bool_iff. Qed.

Lemma validate_first_fill n : 0 < n ->
  validate_FirstFillRequest (Some (JObj [("first_fill_at_ms", JInt n)])) = Some n.
Proof.
  intros Hn. apply bind_Some. eexists. split; [done|]. apply bind_Some. exists tt. split; [done|].
  apply bind_Some. exists n. split; [|by rewrite (proj2 (Z.ltb_lt _ _) Hn)].
  apply field_Some. exists (JInt n). split; [done|]. by apply strict_int_iff.
Qed.

(** A use case and its answer. *)
Lemma use_case_reports {A} op (m : M R W A) (returned : A -> use_case_result) failed succeeded s :
  (forall a, exists x, succeeded a = Ok x /\ reports op (Ok (returned a)) x) ->
  (forall e, reports op (Raise e) (failed e)) ->
  exists s' r a, (x ← m; mret (returned x)) s = (s', r) /\
    answering_with m failed succeeded s = (s', Ok a) /\ reports op r a.
Proof.
  intros Hs Hf. rewrite answering_with_run, run_bind. destruct (m s) as [s' [a|e]].
  - destruct (Hs a) as (x & Hx & Hr). exists s', (Ok (returned a)), x. by rewrite Hx.
  - exists s', (Raise e), (failed e). split_and!; [done..|apply Hf].
Qed.

Lemma requested_operation_run op m s :
  requested_operation op = Some m ->
  run_operation rt op s = let '(s', r) := m s in (s', r ≫= (fun _ => Ok tt)).
Proof.
  intros Hm. assert (match requested_operation op with
    | Some m => run_operation rt op s = let '(s', r) := m s in (s', r ≫= (fun _ => Ok tt))
    | None => True
    end) as Hop; [|by rewrite Hm in Hop]. clear m Hm.
  destruct op; cbn [requested_operation run_operation]; [done| |done|..].
  all: rewrite ignore_run, run_bind;
    match goal with |- (let '(_, _) := ?x in _) = _ => by destruct x as [s' []] end.
Qed.

(** C9. A request for an operation (a first fill, an enabling or
    disabling, a deletion, an operator's close or cancel) does exactly what the operation
    does, to the store, to the services and to the trace, and is answered exactly as [reports]
    lists: 200 with the fields of the result when the operation returned; the status and the
    reason of the refusal when the operator's action was refused; 404 for a fill of an unknown
    instance and 409 for one that contradicts its cycle; 500 [internal_error] for every other
    exception, and only then. No exception escapes from the handler. *)
Theorem requests_run_operations op c s :
  request_of op = Some c -> constructible op ->
  exists m s' r a, requested_operation op = Some m /\ m s = (s', r) /\
    run_operation rt op s = (s', r ≫= (fun _ => Ok tt)) /\
    create_http_app production c s = (s', Ok a) /\ reports op r a /\
    (an_status a = 200 <-> is_ok r = true).
Proof.
  intros Hc Hv.
  assert (exists m, requested_operation op = Some m /\ exists s' r a, m s = (s', r) /\
    create_http_app production c s = (s', Ok a) /\ reports op r a) as (m & Hm & s' & r & a & Hr & Ha & Hrep).
  { destruct op as [unit|event|id|id enabled|id|id|id]; cbn [request_of constructible] in *; try done;
      injection Hc as <-; (eexists; split; [reflexivity|]); cbn [create_http_app].
    2: rewrite validate_enabled; cbn [validation_error_handler].
    2-5: unfold set_strategy_instance_enabled, delete_strategy_instance, close_strategy_position,
        cancel_strategy_entry_orders; erewrite (when_ready_run production) by reflexivity;
      apply use_case_reports; [eexists; split; [done|constructor]|by intros; apply refused_reports].
    assert (0 < fe_first_fill_at_ms event) as Hpos.
    { unfold AbiFirstFillExecutionEvent_post_init in Hv. ok_all. lia. }
    rewrite validate_first_fill by done. cbn [validation_error_handler]. unfold first_fill.
    erewrite (when_ready_run production) by reflexivity. destruct event. cbn in Hv |- *. rewrite Hv.
    apply use_case_reports; [eexists; split; [done|constructor]|apply first_fill_reports]. }
  exists m, s', r, a. rewrite (requested_operation_run _ _ s Hm), Hr.
  split_and!; [done..|]. by eapply reports_status.
Qed.

(** ** Documented answers *)

Lemma refusal_status c status reason :
  refusal c = Some (status, reason) -> status ∈ [404; 409; 422; 500; 502; 503].
Proof. destruct c; intros [=]; subst; listed. Qed.

(** What a request of the chart layers can raise, when neither the catalog nor the Engine
    raises a refusal of the console's own. *)
Lemma chart_layers_refusals id s s' e :
  raises_plain (port_load_snapshot (W := W)) -> (forall i spec, raises_plain (build_feature_plan i spec)) ->
  get_chart_layers build_feature_plan id s = (s', Raise e) ->
  an_status (refused ChartLayersRefusedResponse e) ∈ [404; 422; 500; 502; 503].
Proof.
  intros Hcat Hplan Hrun. unfold refused.
  destruct (chart_layers_cases build_feature_plan id s) as (w' & r & Hr & Ha).
  rewrite Hrun in Hr. simplify_eq.
  inversion Ha as [w1 x|w1 x Hl|w1 sn|w1 sn d w2 plan r Hl Hd Hp Hpa]; subst; clear Ha;
    try (listed).
  - rewrite (Hcat _ _ _ Hl : refusal _ = None). listed.
  - inversion Hpa; subst; try (listed). rewrite (Hplan _ _ _ _ _ Hp : refusal _ = None). listed.
Qed.

(** The answers of a use case, by its failures. *)
Lemma use_case_answers {A} (l : list Z) (m : M R W A) failed succeeded s E :
  (forall a, match succeeded a with
             | Ok x => an_status x ∈ l
             | Raise e => E e
             end) ->
  (forall s' e, m s = (s', Raise e) -> an_status (failed e) ∈ l) ->
  wp (answering_with m failed succeeded) (fun a _ => an_status a ∈ l) (fun e _ => E e) s.
Proof.
  intros Hs Hf. unfold wp. rewrite answering_with_run. destruct (m s) as [s' [a|e]].
  - specialize (Hs a). by destruct (succeeded a).
  - by eapply Hf.
Qed.

Lemma chart_layers_response_raises layers : raises (fun e => e = ValidationError) (ChartLayersResponse layers).
Proof.
  unfold ChartLayersResponse. raises. apply traverse_raises. intros entry. unfold EpisodeEntryItem.
  raises. apply traverse_raises. intros [name value]. by destruct (lax_int value).
Qed.

Lemma first_fill_event_raises e :
  raises (fun x => exn_cls x = ValueError) (AbiFirstFillExecutionEvent_post_init e).
Proof. unfold AbiFirstFillExecutionEvent_post_init, require_non_empty_string. raises. Qed.

Lemma closed_bar_request_valid body request :
  validate_ClosedBarRequest body = Some request ->
  exists e, CommittedBarEvent_post_init
    {| cb_instrument := rq_instrument request; cb_timeframe := rq_timeframe request;
       cb_open_time_ms := rq_open_time_ms request |} = Ok e.
Proof.
  intros Hv. eexists. eapply committed_bar_of_names, closed_bar_request_names_bar. rewrite Hv.
  by destruct request.
Qed.

(** An action of the operator, by its refusals. *)
Lemma action_answers {A} op (l : list Z) (m : M R W A) content succeeded s E :
  is_action op = true -> refuses (refusals op) m ->
  Forall (fun status => status ∈ l) [200; 404; 409; 500; 502; 503] ->
  (forall a, exists c, succeeded a = Ok (respond 200 c)) ->
  wp (answering_with m (refused content) succeeded) (fun a _ => an_status a ∈ l) (fun e _ => E e) s.
Proof.
  intros Hop Hm Hl Hs. rewrite Forall_forall in Hl. apply use_case_answers.
  - intros a. destruct (Hs a) as [c ->]. apply Hl. listed.
  - intros s' e Hr. unfold refused. destruct (refusal (exn_cls e)) as [[status reason]|] eqn:He;
      [|apply Hl; listed].
    destruct (Hm _ _ _ Hr) as [Hp|Hc]; [by rewrite Hp in He|].
    apply Hl, list_elem_of_further. by eapply refusals_documented.
Qed.

(** C29. Every request is answered with a status that its route documents, whatever the store
    holds and however the services answer or fail with errors of their own; a closed-bar
    notification in particular never with 500. In particular every refusal an operator's
    action can end with has a documented status. One exception can escape from one handler: the
    response model of the chart layers refuses an episode parameter that is not an integer,
    outside of the handler's [try]. *)
Theorem answers_are_documented `{!RepositoryErrors R} `{!ServiceErrors W} c s :
  (forall id spec, raises_plain (build_feature_plan id spec)) ->
  (forall event w w' x, put_nowait event w = (w', Raise x) ->
     exn_cls x = IntakeNotAccepting \/ exn_cls x = QueueFull) ->
  wp (create_http_app production c) (fun a _ => an_status a ∈ documented c)
    (fun e _ => e = ValidationError /\ exists id, c = GetChartLayers id) s.
Proof.
  intros Hplan Hput. destruct c as [| |body|id cycle body| | |id body|id|id|id|id]; simpl.
  - apply wp_ret. listed.
  - apply wp_ret. listed.
  - unfold validation_error_handler. destruct (validate_ClosedBarRequest body) as [request|] eqn:Hv;
      [|apply wp_ret; listed].
    destruct (closed_bar_request_valid _ _ Hv) as [e He].
    unfold closed_bar_webhook, when_ready. cbn [ap_ready ap_committed_bar_intake production_app].
    apply use_case_answers; [intros ?; listed|]. rewrite He.
    intros s' x. run_program. intros Hx. destruct (put_nowait e (sys_world s)) eqn:Hp.
    simplify_eq. unfold closed_bar_failure. destruct (Hput _ _ _ _ Hp) as [-> | ->]; listed.
  - unfold validation_error_handler. destruct (validate_FirstFillRequest body) as [n|];
      [|apply wp_ret; listed].
    unfold first_fill, when_ready. cbn [ap_ready ap_process_first_fill production_app].
    match goal with |- context [AbiFirstFillExecutionEvent_post_init ?e] =>
      pose proof (first_fill_event_raises e) as Hr; destruct (AbiFirstFillExecutionEvent_post_init e) end.
    2: { simpl in Hr. rewrite Hr. apply wp_ret. listed. }
    apply use_case_answers; [intros ?; listed|]. intros s' x _. unfold first_fill_failure.
    destruct (exn_cls x); listed.
  - apply use_case_answers; [intros ?; listed|]. intros s' x _. unfold list_failure.
    destruct (exn_cls x); listed.
  - apply use_case_answers; [intros ?; listed|]. intros s' x _. unfold states_failure.
    destruct (exn_cls x); listed.
  - unfold validation_error_handler. destruct (validate_EnabledRequest body) as [enabled|];
      [|apply wp_ret; listed].
    apply (action_answers (SetEnabled id enabled)); [done|apply refuses_set_enabled| |by eexists].
    each_listed.
  - apply (action_answers (OperatorClose id)); [done|apply refuses_operator_close| |by eexists].
    each_listed.
  - apply (action_answers (OperatorCancel id)); [done|apply refuses_operator_cancel| |by eexists].
    each_listed.
  - apply (action_answers (Delete id)); [done|apply refuses_delete| |by eexists].
    each_listed.
  - apply use_case_answers.
    + intros layers. pose proof (chart_layers_response_raises layers) as Hr.
      destruct (ChartLayersResponse layers); simpl in *; [set_solver|]. split; [done|by exists id].
    + intros s' x Hx. pose proof (chart_layers_refusals _ _ _ _ own_snapshot Hplan Hx). set_solver.
Qed.
End production.

(** An application that did not start does nothing: but for [/health/live] it answers 503, or
    400 to a body that does not validate. *)
Lemma not_ready_app_answers {R W} `{Pydantic} c (s : sys R W) : c <> GetHealthLive ->
  exists a, create_http_app not_ready_app c s = (s, Ok a) /\ (a = not_ready \/ a = rejected).
Proof.
  intros Hc. destruct c as [| |body|id cycle body| | |id body|id|id|id|id]; try done; simpl;
    try (eexists; split; [reflexivity|by left]).
  - destruct (validate_ClosedBarRequest body); (eexists; split; [reflexivity|auto]).
  - destruct (validate_FirstFillRequest body); (eexists; split; [reflexivity|auto]).
  - destruct (validate_EnabledRequest body); (eexists; split; [reflexivity|auto]).
Qed.

(** * Witnesses *)

(** The strict validators, and the lax one on numbers and booleans. *)
#[export] Instance python_pydantic : Pydantic := {
  strict_str j := match j with JStr s => Some s | _ => None end;
  strict_int j := match j with JInt n => Some n | _ => None end;
  strict_bool j := match j with JBool b => Some b | _ => None end;
  lax_int j := match j with JInt n => Some n | JBool b => Some (Z.b2z b) | _ => None end }.

#[export] Instance python_pydantic_laws : PydanticLaws.
Proof. split; intros; try destruct j; simpl; naive_solver. Qed.

Definition empty_intake : Boundary.boundary CommittedBarEvent :=
  {| Boundary.capacity := 1; Boundary._queue := []; Boundary.unfinished_tasks := 0;
     Boundary._accepting := true |}.

(** An application whose only use case is the intake. *)
Definition intake_app : http_app () (Boundary.boundary CommittedBarEvent * ()) :=
  {| ap_ready := true;
     ap_committed_bar_intake := Some (fun event => on_world (put_in_intake event));
     ap_process_first_fill := None; ap_load_deployment_catalog := None;
     ap_set_strategy_enabled := None; ap_delete_strategy := None; ap_get_chart_layers := None;
     ap_list_trading_states := None; ap_close_position := None; ap_cancel_entry_orders := None |}.

Definition notification (open_time_ms : Z) : option json :=
  Some (JObj [("instrument", JStr "BTC"); ("extra", JNull); ("timeframe", JStr "5m");
              ("open_time_ms", JInt open_time_ms)]).

(** Two notifications in a queue of one, and two bodies that name no bar. *)
Example notifications_in_a_small_queue :
  let post body s := create_http_app intake_app (PostClosedBar body) s in
  let s0 := Sys () (empty_intake, ()) [] in
  let s1 := (post (notification 5) s0).1 in
  (post (notification 5) s0).2 = Ok (respond 200 AcceptedResponse) /\
  (post (notification 6) s1).2 = Ok not_ready /\
  (post (notification (-1)) s0).2 = Ok rejected /\ (post None s0).2 = Ok rejected.
Proof. vm_compute. repeat split; reflexivity. Qed.

Lemma closed_bar_accepts_exactly_witness :
  exists a b', create_http_app intake_app (PostClosedBar (notification 5)) (Sys () (empty_intake, ()) [])
      = (Sys () (b', ()) [], Ok a) /\
    closed_bar_outcome true (notification 5) empty_intake a b'.
Proof. apply (closed_bar_accepts_exactly intake_app (notification 5)). reflexivity. Defined.

Definition accept_all (_ : CommittedBarEvent) (w : script) : script * result () := (w, Ok tt).

Definition sample_app : http_app InMemory.repository script :=
  production_app sample_runtime (answering (Ok sample_plan)) accept_all.

(** The operator cancels the resting entry order of "i1" and disables it. *)
Definition cancelling : sys InMemory.repository script :=
  holding resting_state (Script [Ok (sample_flat_response None)] [Ok (sample_absent "c1")] [] [] [] [] [] []
    [Ok (sample_catalog [sample_deployment])] [Ok true] [] [] true).

Example cancelled_over_http :
  (create_http_app sample_app (PostCancelEntryOrders "i1") cancelling).2 =
    Ok (respond 200 (JObj [("strategy_instance_id", JStr "i1"); ("enabled", JBool false);
                           ("cancelled_entry_order", JBool true)])) /\
  (create_http_app sample_app (PostCancelEntryOrders "i2") cancelling).2 =
    Ok (respond 404 (EnabledChangeRefusedResponse "strategy_instance_not_found")).
Proof. vm_compute. split; reflexivity. Qed.

Lemma requests_run_operations_witness :
  request_of (OperatorCancel "i1") = Some (PostCancelEntryOrders "i1") /\
  exists m s' r a, requested_operation sample_runtime (OperatorCancel "i1") = Some m /\
    m cancelling = (s', r) /\
    run_operation sample_runtime (OperatorCancel "i1") cancelling = (s', r ≫= (fun _ => Ok tt)) /\
    create_http_app sample_app (PostCancelEntryOrders "i1") cancelling = (s', Ok a) /\
    reports (OperatorCancel "i1") r a /\ (an_status a = 200 <-> is_ok r = true).
Proof.
  split; [reflexivity|].
  apply (requests_run_operations sample_runtime (answering (Ok sample_plan)) accept_all
    (OperatorCancel "i1") (PostCancelEntryOrders "i1") cancelling); [reflexivity|exact I].
Defined.

(** The services but for the files are away. *)
Definition steady_app : http_app InMemory.repository unit :=
  production_app sample_runtime (fun _ _ => away) (fun _ w => (w, Ok tt)).

(** The deployment that is to be deleted is still enabled. *)
Lemma answers_are_documented_witness :
  let delete := DeleteStrategyInstance "i1" in
  let s := Sys InMemory.empty tt [] in
  wp (create_http_app steady_app delete) (fun a _ => an_status a ∈ documented delete)
    (fun e _ => e = ValidationError /\ exists id, delete = GetChartLayers id) s /\
  exists content, (create_http_app steady_app delete s).2 = Ok (respond 409 content).
Proof.
  intros delete s. split; [|eexists; vm_compute; reflexivity].
  apply (answers_are_documented sample_runtime (fun _ _ => away) (fun _ w => (w, Ok tt)) delete s).
  - by intros id spec w w' e [= _ <-].
  - intros event w w' x Hx. discriminate Hx.
Defined.

(** The chart layers of "i1" as they are answered, and an episode parameter that is not a
    number: the exception of the response model leaves the handler, no 502 is answered. *)
Example chart_layers_over_http :
  let get plan := (create_http_app (production_app sample_runtime (answering (Ok plan)) accept_all)
    (GetChartLayers "i1") cancelling).2 in
  let episodes value := dset "episode_params_by_ref" (JObj [("trend", JObj [("window_bars", value)])])
    sample_plan in
  is_ok (get sample_plan) = true /\
  get (episodes (JStr "many")) = Raise ValidationError /\
  get (episodes (JBool true)) = get (episodes (JInt 1)).
Proof. vm_compute. repeat split; reflexivity. Qed.
