(* ===== verification/Process.v ===== *)
(** The whole process: the HTTP server, which answers each request on a thread of its own, the
    intake worker, which orchestrates committed bars, and the polling worker, which attempts
    recoveries, all working on one repository and one set of services. Every program they run
    is [outside] of ProtocolRules.v, so the theorems of Threads.v apply: whatever the
    scheduler does, the protocol is followed and nothing waits for ever; and what the protocol
    says of every call and every save holds of every trace of the process. *)
From S2P Require Import Prelude Errors DecimalText Models Json Contracts Effects FirstFill Repository Scripted Protocol ProtocolRules Threads.
From S2P Require Import EntryReconciliation EntryOrchestrator PositionManagement RuntimeOrchestrator UncertainResolver EnabledControl ChartLayers ExecutionEvent CommittedBar Lifecycle Intake Runtime HttpApp.

(** * The threads of the process *)

(** What a thread may be started for: a request; a committed bar, taken from the intake; a
    tick of the polling worker, which attempts [running] instances before it sees that it is to
    stop; or one operation by itself. The process has one worker of each kind; the pools allow
    any number, at any time. *)
Inductive activity :=
| Request (c : http_call)
| Bar (committed_bar : CommittedBarEvent)
| Tick (running : nat)
| Run (op : operation).

Section process.
Context {R W : Type} `{Repository R} `{Ports W} `{Pydantic}.
Context (rt : runtime) (build_feature_plan : string -> dict json -> W -> W * result (dict json)).
Context (put_nowait : CommittedBarEvent -> W -> W * result ()).
Implicit Types s : sys R W.

Notation production := (production_app rt build_feature_plan put_nowait).

(** What the thread runs. The worker threads log what their work raises. *)
Definition thread_of (a : activity) : M R W () :=
  match a with
  | Request c => ignore (create_http_app production c)
  | Bar committed_bar =>
      ignore (process_committed_bar (dispatch (rt_orchestrator rt)) committed_bar)
  | Tick running => ignore (_tick (rt_resolver rt) running)
  | Run op => run_operation rt op
  end.

(** The activities one after the other. *)
Definition run_activities (activities : list activity) s : sys R W :=
  fold_left (fun s a => (thread_of a s).1) activities s.

Context `{!RepositoryLaws R}.

(** ** Every thread is outside of the critical sections between its operations *)

Lemma outside_answering {A} (m : M R W A) failed succeeded :
  outside m -> outside (answering_with m failed succeeded).
Proof.
  intros Hm. apply outside_bind; [|intros []; apply outside_done].
  apply outside_catch; [|intros; apply outside_done].
  apply outside_bind; [done|intros; apply outside_done].
Qed.

Lemma outside_describe_each l : outside (describe_each l : M R W _).
Proof.
  induction l as [|d l IH]; [apply outside_done|]. apply outside_bind.
  - apply outside_catch; [apply outside_get|]. intros e. cbn. case_match; apply outside_done.
  - intros state. apply outside_bind; [done|]. intros. apply outside_done.
Qed.

Lemma outside_trading_states : outside (list_trading_states : M R W _).
Proof.
  apply outside_bind; [|intros snapshot; apply outside_describe_each].
  apply outside_catch; [apply outside_world|]. intros e. destruct (exn_cls e); apply outside_done.
Qed.

Lemma outside_chart_layers id : outside (get_chart_layers build_feature_plan id : M R W _).
Proof.
  apply outside_bind; [apply outside_catalog|]. intros d. apply outside_bind.
  - apply outside_catch; [apply outside_world|]. intros e. apply outside_done.
  - intros plan. apply outside_translate, outside_done.
Qed.

Lemma request_outside c : outside (create_http_app production c).
Proof.
  destruct c as [| |body|id cycle body| | |id body|id|id|id|id]; cbn [create_http_app];
    try apply outside_done.
  - destruct (validate_ClosedBarRequest body); [|apply outside_done].
    apply outside_answering, outside_bind; [apply outside_done|]. intros e. apply outside_world.
  - destruct (validate_FirstFillRequest body) as [n|]; [|apply outside_done].
    unfold validation_error_handler, first_fill, when_ready. simpl.
    destruct (AbiFirstFillExecutionEvent_post_init _) as [event|e].
    + apply outside_answering, outside_first_fill_event.
    + destruct (is_value_error _); apply outside_done.
  - apply outside_answering, outside_world.
  - apply outside_answering, outside_trading_states.
  - destruct (validate_EnabledRequest body) as [b|]; [|apply outside_done].
    apply outside_answering, outside_set_enabled.
  - apply outside_answering, outside_operator_close.
  - apply outside_answering, outside_operator_cancel.
  - apply outside_answering, outside_delete.
  - apply outside_answering, outside_chart_layers.
Qed.

Lemma outside_dispatch self unit : outside (dispatch self unit : M R W _).
Proof. apply outside_bind; [apply outside_process|]. intros _. apply outside_done. Qed.

Lemma outside_fan_out (attempt_one : StrategyBarProcessingUnit -> M R W StrategyCycleDispatchOutcome)
    bar l : (forall unit, outside (attempt_one unit)) -> outside (fan_out attempt_one bar l).
Proof.
  intros Hone. induction l as [|d l IH]; [apply outside_done|]. cbn [fan_out]. apply outside_bind.
  - apply outside_and_then; [apply Hone|]. intros r. apply outside_done.
  - intros r. apply outside_bind; [apply outside_done|]. intros outcome.
    apply outside_bind; [apply (outside_journal true)|]. intros _.
    apply outside_bind; [exact IH|]. intros. apply outside_done.
Qed.

Lemma outside_prepare {A} stage bar (m : M R W A) : outside m -> outside (_prepare stage bar m).
Proof.
  intros Hm. apply outside_catch; [exact Hm|]. intros e.
  apply outside_bind; [apply (outside_journal true)|]. intros. apply outside_done.
Qed.

Lemma outside_bar self bar : outside (process_committed_bar (dispatch self) bar : M R W _).
Proof.
  apply outside_bind; [apply (outside_journal true)|]. intros _.
  apply outside_bind; [apply outside_prepare, outside_world|]. intros snapshot.
  apply outside_bind; [apply outside_prepare, outside_done|]. intros selected.
  apply outside_bind; [apply outside_fan_out, outside_dispatch|]. intros outcomes.
  apply outside_bind; [apply outside_done|]. intros result.
  apply outside_bind; [apply (outside_journal true)|]. intros. apply outside_done.
Qed.

Lemma outside_attempt_each self running ids : outside (attempt_each self running ids : M R W _).
Proof.
  revert running. induction ids as [|id ids IH]; intros [|running]; try apply outside_done.
  cbn [attempt_each]. apply outside_bind; [|intros _; apply IH].
  apply outside_catch; [apply outside_attempt|]. intros e. apply outside_done.
Qed.

Lemma outside_tick self running : outside (_tick self running : M R W _).
Proof.
  apply outside_bind; [|intros entry_ids; apply outside_bind; [|intros; apply outside_attempt_each]].
  - apply outside_read. intros r. destruct (repo_list_ids_with_pending_entry_recovery r) as [r' []] eqn:Hr.
    + by apply list_entry_ok in Hr as [? _].
    + by apply list_entry_raise in Hr.
  - apply outside_read. intros r. destruct (repo_list_ids_with_pending_close_recovery r) as [r' []] eqn:Hr.
    + by apply list_close_ok in Hr as [? _].
    + by apply list_close_raise in Hr.
Qed.

Lemma thread_outside a : outside (thread_of a).
Proof.
  destruct a; cbn [thread_of]; try apply outside_ignore.
  - apply request_outside.
  - apply outside_bar.
  - apply outside_tick.
  - apply operation_outside.
Qed.
End process.

(** * Properties *)

(** What a process may start from: stored aggregates with the invariant of the protocol, and no
    critical section held. *)
Definition rested {R W} `{Repository R} (s : sys R W) : Prop :=
  legal_store (sys_repo s) /\ forall id, section_held id (sys_trace s) = false.

Section interleavings.
Context {R W : Type} `{Repository R} `{!RepositoryLaws R} `{Ports W} `{Pydantic}.
Context (rt : runtime) (build_feature_plan : string -> dict json -> W -> W * result (dict json)).
Context (put_nowait : CommittedBarEvent -> W -> W * result ()).
Implicit Types s : sys R W.

Notation thread := (thread_of rt build_feature_plan put_nowait).

Lemma reached_orderly mvs s c :
  rested s -> schedule thread mvs (Pool [] s) = Some c ->
  exists modes, orderly modes c /\ moves s (system c).
Proof.
  intros [Hl Hfree] Hs.
  exact (orderly_schedule thread (thread_outside _ _ _) _ _ _ _ (orderly_empty s Hl Hfree) Hs).
Qed.

Lemma moves_follow s s' id :
  section_held id (sys_trace s) = false -> moves s s' ->
  exists evs, sys_trace s' = sys_trace s ++ evs /\
    follows id (At false (repo_lookup (sys_repo s) id)) evs
      (At (section_held id evs) (repo_lookup (sys_repo s') id)).
Proof.
  intros Hfree (evs & Ht & Hf). exists evs. split; [done|]. specialize (Hf id).
  rewrite Ht, section_held_app, Hfree in Hf. exact Hf.
Qed.

(** C1. Any number of HTTP requests of every kind, committed bars and recovery ticks, started at
    any time and interleaved step by step in any order, whatever ABI, the Engine, the
    deployment files, the intake and the repository answer, implement the protocol: for every
    instance the stored aggregates are legal successors, each call to a service is justified by
    the aggregate stored at that moment, and all of it happens inside the instance's critical
    section, entered and left in turn. Every stored aggregate keeps the invariant, and once the
    threads have ended every section is free. *)
Theorem interleavings_follow_protocol mvs s c :
  rested s -> schedule thread mvs (Pool [] s) = Some c ->
  legal_store (sys_repo (system c)) /\
  exists evs, sys_trace (system c) = sys_trace s ++ evs /\
    (forall id, follows id (At false (repo_lookup (sys_repo s) id)) evs
      (At (section_held id evs) (repo_lookup (sys_repo (system c)) id))) /\
    (Forall finished (threads c) -> forall id, section_held id evs = false).
Proof.
  intros Hr Hs. destruct (reached_orderly _ _ _ Hr Hs) as (modes & Ho & evs & Ht & Hf).
  destruct Hr as [_ Hfree]. split; [apply Ho|]. exists evs. split; [done|].
  assert (forall id, section_held id (sys_trace (system c)) = section_held id evs) as Hheld.
  { intros id. by rewrite Ht, section_held_app, Hfree. }
  split.
  - intros id. specialize (Hf id). by rewrite Hheld, Hfree in Hf.
  - intros Hd id. rewrite <- Hheld. by eapply orderly_free.
Qed.

(** C2. No schedule gets stuck and none goes on for ever: wherever the threads are, as long as
    one has not ended some thread can make a step (whoever is in a critical section, the others
    may have to wait for it), every sequence of steps is finite, and when no thread can make a
    step any more all have ended and every section is free. *)
Theorem threads_complete mvs s c :
  rested s -> schedule thread mvs (Pool [] s) = Some c ->
  Acc (fun c2 c1 => exists i, advance i c1 = Some c2) c /\
  ((forall i, advance i c = None) ->
   Forall finished (threads c) /\ forall id, section_held id (sys_trace (system c)) = false).
Proof.
  intros Hr Hs. destruct (reached_orderly _ _ _ Hr Hs) as (modes & Ho & _).
  split; [apply schedules_end|]. intros Hstuck.
  destruct (all_or_unfinished c) as [Hd|Hun].
  - split; [done|]. intros id. by eapply orderly_free.
  - destruct (orderly_progress _ _ Ho Hun) as (i & c' & Hc'). by rewrite Hstuck in Hc'.
Qed.

(** Activities one after the other are one of the schedules. *)
Theorem sequential_runs_are_schedules activities s :
  rested s ->
  exists mvs c, schedule thread mvs (Pool [] s) = Some c /\ Forall finished (threads c) /\
    system c = run_activities rt build_feature_plan put_nowait activities s.
Proof.
  intros [Hl Hfree].
  exact (one_after_the_other thread (thread_outside _ _ _) activities [] (Pool [] s)
    (orderly_empty s Hl Hfree) (Forall_nil_2 _)).
Qed.
End interleavings.

(** A request or a worker by itself, and any sequence of them, implements the protocol: this is
    the schedule that starts each thread when the one before has ended. *)
Theorem served_requests_follow_protocol {R W} `{Repository R} `{!RepositoryLaws R} `{Ports W}
    `{Pydantic} rt build_feature_plan put_nowait activities (s : sys R W) :
  legal_store (sys_repo s) ->
  let s' := run_activities rt build_feature_plan put_nowait activities s in
  legal_store (sys_repo s') /\
  exists evs, sys_trace s' = sys_trace s ++ evs /\
    forall id, follows id (At false (repo_lookup (sys_repo s) id)) evs
      (At false (repo_lookup (sys_repo s') id)).
Proof.
  intros Hl. assert (executes s (run_activities rt build_feature_plan put_nowait activities s)) as He.
  { revert s Hl. induction activities as [|a activities IH]; intros s Hl; [apply executes_refl|].
    pose proof (outside_executes _ _ (thread_outside rt build_feature_plan put_nowait a) Hl) as Hone.
    eapply executes_trans; [exact Hone|]. by eapply IH, executes_legal. }
  split; [by eapply executes_legal|exact He].
Qed.

(** ** Every trace of the process *)

(** A process that started with an empty store and an empty trace has come to [now]. *)
Definition history {R W} `{Repository R} `{Ports W} `{Pydantic} (rt : runtime)
    (build_feature_plan : string -> dict json -> W -> W * result (dict json))
    (put_nowait : CommittedBarEvent -> W -> W * result ()) (mvs : list move)
    (s : sys R W) (now : pool) : Prop :=
  (forall id, repo_lookup (sys_repo s) id = None) /\ sys_trace s = [] /\
  schedule (thread_of rt build_feature_plan put_nowait) mvs (Pool [] s) = Some now.

Section trace.
Context {R W : Type} `{Repository R} `{!RepositoryLaws R} `{Ports W} `{Pydantic}.
Context (rt : runtime) (build_feature_plan : string -> dict json -> W -> W * result (dict json)).
Context (put_nowait : CommittedBarEvent -> W -> W * result ()).
Context (mvs : list (move (activity := activity))) (s : sys R W) (now : pool (R := R) (W := W)).

Lemma trace_takes id evs1 e evs2 :
  history rt build_feature_plan put_nowait mvs s now ->
  sys_trace (system now) = evs1 ++ e :: evs2 ->
  event_instance e = Some id ->
  exists c1 c2, takes id c1 e c2 /\ legal_option (durable c1) /\
    agrees (durable c1) (last_saved id evs1) /\ held_by_handler c1 = section_held id evs1.
Proof.
  intros (fresh & no_event & ran) Ht He.
  assert (rested s) as Hr by (split; [intros k; by rewrite fresh|by rewrite no_event]).
  destruct (reached_orderly _ _ _ _ _ _ Hr ran) as (modes & _ & Hm).
  destruct (moves_follow _ _ id (proj2 Hr id) Hm) as (evs & Hevs & Hf).
  rewrite Ht, no_event in Hevs. simpl in Hevs. subst evs.
  rewrite fresh in Hf. destruct (follows_split _ _ _ _ _ _ Hf He) as (c1 & c2 & H1' & H2' & _).
  exists c1, c2. split_and!; [done| | |].
  - eapply follows_legal; [|exact H1']. done.
  - eapply follows_saved; [exact H1'|]. by left.
  - symmetry. exact (follows_holding _ _ _ _ H1').
Qed.

Lemma justified id evs1 e evs2 :
  history rt build_feature_plan put_nowait mvs s now ->
  sys_trace (system now) = evs1 ++ e :: evs2 ->
  event_instance e = Some id ->
  match e with EvAcquire _ | EvRelease _ | EvSave _ => False | _ => True end ->
  exists o, permitted o e /\ legal_option o /\ agrees o (last_saved id evs1).
Proof.
  intros Hh Ht He Hk. destruct (trace_takes _ _ _ _ Hh Ht He) as (c1 & c2 & Htk & Hl & Ha & _).
  destruct e; try done; destruct Htk as (o & -> & _ & Hp); by exists o.
Qed.

(** C3. In every interleaving, an entry that is sent to ABI was marked durably beforehand: the
    last aggregate saved for the instance has no cycle and carries the recovery marker
    of the very trade cycle that is sent. A crash at any later moment is therefore
    found by the recovery resolver. *)
Theorem entry_sent_only_when_marked evs1 q evs2 :
  history rt build_feature_plan put_nowait mvs s now ->
  sys_trace (system now) = evs1 ++ EvSend q :: evs2 ->
  er_desired_entry q <> None ->
  exists st, last_saved (er_strategy_instance_id q) evs1 = Some st /\
    st_current_trade_cycle st = None /\
    st_pending_entry_recovery st = Some {| pe_trade_cycle_id := er_trade_cycle_id q |}.
Proof.
  intros Hh Ht Hq. destruct (justified _ _ _ _ Hh Ht eq_refl I) as (o & Hp & _ & Ha).
  destruct Hp as (st & -> & Hst). destruct (er_desired_entry q); [|done].
  destruct Hst as [Hc Hm]. exists st. split; [|done].
  destruct Ha as [->|[_ (_ & [Hu _] & _)]]; [done|congruence].
Qed.

(** C4. A position is closed at ABI only for a cycle that is frozen and whose
    close marker was the last thing saved for the instance. *)
Theorem close_sent_only_when_marked evs1 cmd evs2 :
  history rt build_feature_plan put_nowait mvs s now ->
  sys_trace (system now) = evs1 ++ EvClosePosition cmd :: evs2 ->
  exists st c f, last_saved (cpc_strategy_instance_id cmd) evs1 = Some st /\
    st_current_trade_cycle st = Some c /\
    tc_trade_cycle_id c = cpc_trade_cycle_id cmd /\
    tc_frozen_entry_context c = Some f /\
    st_pending_close_recovery st = Some {| pc_trade_cycle_id := cpc_trade_cycle_id cmd |}.
Proof.
  intros Hh Ht. destruct (justified _ _ _ _ Hh Ht eq_refl I) as (o & Hp & Hl & Ha).
  destruct Hp as (st & -> & Hm). destruct Hl as [Hv Hf].
  destruct Hf as (c & Hc & Hfr); [congruence|].
  exists st, c. destruct (tc_frozen_entry_context c) as [f|] eqn:Hcf; [|done].
  exists f. split_and!; try done.
  - destruct Ha as [->|[_ (Hn & _)]]; [done|congruence].
  - pose proof (valid_close_marker _ _ _ Hv Hc Hm) as Hid. by simpl in Hid.
Qed.

(** C5. Position management acts at ABI only on a stored position: a protection is
    applied to, a recipe is projected for, and an entry remainder is cancelled on, the
    cycle that is saved as frozen and carries no recovery marker; the recipe is asked
    for with the very entry that was frozen, and the remainder only while its
    cancellation is not yet recorded. *)
Theorem position_managed_only_when_open evs1 e evs2 id cycle :
  history rt build_feature_plan put_nowait mvs s now ->
  sys_trace (system now) = evs1 ++ e :: evs2 ->
  match e with
  | EvApplyProtection cmd =>
      id = apc_strategy_instance_id cmd /\ cycle = apc_trade_cycle_id cmd
  | EvCancelRemainder i c => id = i /\ cycle = c
  | EvOpenTrade i q => id = i
  | _ => False
  end ->
  exists st c f, last_saved id evs1 = Some st /\ unmarked st /\
    st_current_trade_cycle st = Some c /\ tc_frozen_entry_context c = Some f /\
    match e with
    | EvOpenTrade _ q => op_desired_entry q = fc_desired_entry f /\
        op_entry_bar_open_time_ms q = fc_entry_bar_open_time_ms f
    | EvCancelRemainder _ _ => tc_trade_cycle_id c = cycle /\
        tc_entry_remainder_cancelled c = false
    | _ => tc_trade_cycle_id c = cycle
    end.
Proof.
  intros Hh Ht He. assert (event_instance e = Some id) as Hid.
  { destruct e; try done; simpl; naive_solver. }
  destruct (justified _ _ _ _ Hh Ht Hid) as (o & Hp & Hl & Ha); [by destruct e|].
  destruct e; try done.
  - destruct He as [-> ->]. destruct Hp as (st & c & -> & Hu & Hc & Hf & Hk).
    unfold frozen in Hf. destruct (tc_frozen_entry_context c) as [f|] eqn:Hcf; [|done].
    exists st, c, f. split_and!; try done.
    destruct Ha as [->|[_ (Hn & _)]]; [done|congruence].
  - destruct He as [-> ->]. destruct Hp as (st & c & f & -> & Hu & Hc & Hk & Hcf & _ & Hr).
    exists st, c, f. split_and!; try done.
    destruct Ha as [->|[_ (Hn & _)]]; [done|congruence].
  - subst id. destruct Hp as (st & c & f & -> & Hu & Hc & Hcf & Hq1 & Hq2).
    exists st, c, f. split_and!; try done.
    destruct Ha as [->|[_ (Hn & _)]]; [done|congruence].
Qed.

(** Everything that is done for an instance, each save and each call to
    ABI, to the Engine or to the deployment file, happens while the instance's critical
    section is held, and the section is entered and left in turn. *)
Theorem effects_inside_critical_section evs1 e evs2 id :
  history rt build_feature_plan put_nowait mvs s now ->
  sys_trace (system now) = evs1 ++ e :: evs2 ->
  event_instance e = Some id ->
  section_held id evs1 = match e with EvAcquire _ => false | _ => true end.
Proof.
  intros Hh Ht He. destruct (trace_takes _ _ _ _ Hh Ht He) as (c1 & c2 & Htk & _ & _ & <-).
  destruct e; try done; by destruct Htk as (o & -> & _).
Qed.

(** C6. Between two consecutive saves of an instance a trade cycle is never rewritten:
    as long as it is there it keeps its identity and its applied entry package, a frozen
    entry context never changes, a cancelled remainder stays cancelled; and the
    instance's strategy, its registered specification and its risk multiplier never
    change at all. *)
Theorem saved_cycle_stable evs1 s1 s2 evs2 :
  history rt build_feature_plan put_nowait mvs s now ->
  sys_trace (system now) = evs1 ++ EvSave s2 :: evs2 ->
  last_saved (st_strategy_instance_id s2) evs1 = Some s1 ->
  st_strategy_id s2 = st_strategy_id s1 /\
  st_registered_spec_snapshot s2 = st_registered_spec_snapshot s1 /\
  st_risk_multiplier s2 = st_risk_multiplier s1 /\
  forall c1 c2, st_current_trade_cycle s1 = Some c1 -> st_current_trade_cycle s2 = Some c2 ->
    tc_trade_cycle_id c2 = tc_trade_cycle_id c1 /\
    tc_applied_entry_package c2 = tc_applied_entry_package c1 /\
    (forall f, tc_frozen_entry_context c1 = Some f -> tc_frozen_entry_context c2 = Some f) /\
    (tc_entry_remainder_cancelled c1 = true -> tc_entry_remainder_cancelled c2 = true).
Proof.
  intros Hh Ht Hlast. destruct (trace_takes _ _ _ _ Hh Ht eq_refl) as (k1 & k2 & Htk & _ & Ha & _).
  destruct Htk as (o & -> & _ & Hd). rewrite Hlast in Ha. simpl in Ha.
  destruct Ha as [->|[? _]]; [|done]. simpl in *.
  pose proof (durable_step_identity _ _ Hd) as (_ & ? & ? & ?). split_and!; try done.
  intros c1 c2 Hc1 Hc2. by eapply durable_step_cycle.
Qed.
(** C7. An order removal is only sent for the instance's own cycle: the one whose
    marker was saved last, or, with no marker, the saved current cycle. *)
Theorem removal_sent_only_for_own_cycle evs1 q evs2 :
  history rt build_feature_plan put_nowait mvs s now ->
  sys_trace (system now) = evs1 ++ EvSend q :: evs2 ->
  er_desired_entry q = None ->
  exists st, last_saved (er_strategy_instance_id q) evs1 = Some st /\
    (st_pending_entry_recovery st = Some {| pe_trade_cycle_id := er_trade_cycle_id q |} \/
     unmarked st /\ exists c, st_current_trade_cycle st = Some c /\
       tc_trade_cycle_id c = er_trade_cycle_id q).
Proof.
  intros Hh Ht Hq. destruct (justified _ _ _ _ Hh Ht eq_refl I) as (o & Hp & _ & Ha).
  destruct Hp as (st & -> & Hst). rewrite Hq in Hst. exists st. split; [|done].
  destruct Ha as [->|[_ (Hn & [Hu _] & _)]]; [done|]. destruct Hst as [?|(_ & c & ? & _)]; congruence.
Qed.

(** C8. A deployment file is disabled or moved to the trash only for an instance that
    is settled: the last saved aggregate carries no recovery marker, and it has no cycle,
    or, when it is disabled, one whose position is frozen (its close follows); moving to
    the trash needs no cycle at all. *)
Theorem files_changed_only_when_settled evs1 e evs2 id st :
  history rt build_feature_plan put_nowait mvs s now ->
  sys_trace (system now) = evs1 ++ e :: evs2 ->
  e = EvSetEnabled id false \/ e = EvMoveToTrash id ->
  last_saved id evs1 = Some st ->
  unmarked st /\ forall c, st_current_trade_cycle st = Some c ->
    e = EvSetEnabled id false /\ tc_frozen_entry_context c <> None.
Proof.
  intros Hh Ht He Hlast.
  assert (event_instance e = Some id) as Hid by by destruct He as [-> | ->].
  destruct (justified _ _ _ _ Hh Ht Hid) as (o & Hp & _ & Ha); [by destruct He as [-> | ->]|].
  destruct Ha as [->|[Hn _]]; [|congruence]. rewrite Hlast in Hp.
  destruct He as [-> | ->]; simpl in Hp.
  - destruct Hp as [[=]|[Hu Hc]]. split; [done|]. intros c Hcyc. by rewrite Hcyc in Hc.
  - destruct Hp as [Hu Hc]. split; [done|]. intros c Hcyc. congruence.
Qed.
End trace.

(** * Witnesses *)

Notation sample_thread := (thread_of sample_runtime (answering (Ok sample_plan)) accept_all).

Definition by_default (s : sys InMemory.repository script) (c : option pool) : pool :=
  match c with Some c => c | None => Pool [] s end.

Lemma runs_by_default s c : is_some c = true -> c = Some (by_default s c).
Proof. by destruct c. Qed.

(** The trading day of Runtime.v, its four bars on threads that start together, so that three of
    them wait; a recovery attempt for "i2", a request for the trading states and a tick of the
    polling worker take turns with the first one. *)
Definition busy_day : list (move (activity := activity)) :=
  (Start <$> (Run <$> trading_day) ++
     [Run (AttemptRecovery "i2"); Request GetStrategyInstanceStates; Tick 3]) ++
  (Advance <$> [0; 4; 6; 0; 5; 4; 6; 0; 4]%nat ++
     replicate 9 0%nat ++ replicate 14 1%nat ++ replicate 12 2%nat ++ replicate 12 3%nat).

Definition busy_day_start : sys InMemory.repository script := empty_system trading_day_world.
Definition busy_day_end : pool :=
  by_default busy_day_start (schedule sample_thread busy_day (Pool [] busy_day_start)).
Definition busy_day_trace : list event := sys_trace (system busy_day_end).

Lemma busy_day_runs : schedule sample_thread busy_day (Pool [] busy_day_start) = Some busy_day_end.
Proof. apply runs_by_default. vm_compute. reflexivity. Qed.

(** While the first thread is in its section the second has to wait. *)
Example second_bar_waits :
  (schedule sample_thread (firstn 8 busy_day ++ [Advance 1%nat]) (Pool [] busy_day_start)) = None.
Proof. vm_compute. reflexivity. Qed.

Lemma busy_day_history : history sample_runtime (answering (Ok sample_plan)) accept_all
  busy_day busy_day_start busy_day_end.
Proof. exact (conj (empty_lookup _) (conj eq_refl busy_day_runs)). Qed.

Lemma busy_day_rested : rested busy_day_start.
Proof. split; intros id; [exact I|reflexivity]. Qed.

Lemma interleavings_follow_protocol_witness :
  exists evs, busy_day_trace = [] ++ evs /\
    forall id, follows id (At false None) evs
      (At (section_held id evs) (repo_lookup (sys_repo (system busy_day_end)) id)).
Proof.
  destruct (interleavings_follow_protocol sample_runtime (answering (Ok sample_plan)) accept_all
    busy_day busy_day_start busy_day_end busy_day_rested busy_day_runs) as (_ & evs & Ht & Hf & _).
  exists evs. exact (conj Ht Hf).
Defined.

(** On the busy day, and in its middle, where the second bar waits. *)
Lemma threads_complete_witness :
  let c := by_default busy_day_start
    (schedule sample_thread (firstn 8 busy_day) (Pool [] busy_day_start)) in
  advance 1 c = None /\ Acc (fun c2 c1 => exists i, advance i c1 = Some c2) c /\
  forall id, section_held id busy_day_trace = false.
Proof.
  split; [vm_compute; reflexivity|]. split.
  - refine (proj1 (threads_complete sample_runtime (answering (Ok sample_plan)) accept_all
      (firstn 8 busy_day) busy_day_start _ busy_day_rested _)).
    apply runs_by_default. vm_compute. reflexivity.
  - refine (proj2 (proj2 (threads_complete sample_runtime (answering (Ok sample_plan)) accept_all
      busy_day busy_day_start busy_day_end busy_day_rested busy_day_runs) _)).
    intros i. unfold advance. assert (Forall finished (threads busy_day_end)) as Hd.
    { vm_compute. repeat constructor. }
    destruct (threads busy_day_end !! i) as [m|] eqn:Hi; [|reflexivity].
    rewrite Forall_lookup in Hd. specialize (Hd i m Hi). destruct m as [r|f]; [reflexivity|destruct Hd].
Defined.

Lemma sequential_runs_are_schedules_witness : exists mvs c,
  schedule sample_thread mvs (Pool [] busy_day_start) = Some c /\
  system c = run_activities sample_runtime (answering (Ok sample_plan)) accept_all
    (Run <$> trading_day) busy_day_start.
Proof.
  destruct (sequential_runs_are_schedules sample_runtime (answering (Ok sample_plan)) accept_all
    (Run <$> trading_day) busy_day_start busy_day_rested) as (mvs & c & Hs & _ & Hc).
  exists mvs, c. exact (conj Hs Hc).
Defined.


(** ** The trading day *)

Local Notation day_before n := (take n busy_day_trace).
Local Notation day_after n := (drop (S n) busy_day_trace).

Lemma entry_sent_only_when_marked_witness : exists q,
  busy_day_trace = day_before 6 ++ EvSend q :: day_after 6 /\
  er_desired_entry q <> None /\
  exists st, last_saved (er_strategy_instance_id q) (day_before 6) = Some st /\
    st_current_trade_cycle st = None /\
    st_pending_entry_recovery st = Some {| pe_trade_cycle_id := er_trade_cycle_id q |}.
Proof.
  refine (ex_intro _ _ ((fun H1 H2 => conj H1 (conj H2 (entry_sent_only_when_marked
    sample_runtime (answering (Ok sample_plan)) accept_all
    busy_day busy_day_start busy_day_end _ _ _ busy_day_history H1 H2)))
    _ _)); [vm_compute; reflexivity|done].
Defined.

Lemma close_sent_only_when_marked_witness : exists cmd,
  busy_day_trace = day_before 33 ++ EvClosePosition cmd :: day_after 33 /\
  exists st c f, last_saved (cpc_strategy_instance_id cmd) (day_before 33) = Some st /\
    st_current_trade_cycle st = Some c /\
    tc_trade_cycle_id c = cpc_trade_cycle_id cmd /\
    tc_frozen_entry_context c = Some f /\
    st_pending_close_recovery st = Some {| pc_trade_cycle_id := cpc_trade_cycle_id cmd |}.
Proof.
  refine (ex_intro _ _ ((fun H1 => conj H1 (close_sent_only_when_marked
    sample_runtime (answering (Ok sample_plan)) accept_all
    busy_day busy_day_start busy_day_end _ _ _ busy_day_history H1))
    _)). vm_compute; reflexivity.
Defined.

Lemma position_managed_only_when_open_witness :
  busy_day_trace =
    day_before 22 ++ EvCancelRemainder "i1" "c1" :: day_after 22 /\
  exists st c f, last_saved "i1" (day_before 22) = Some st /\ unmarked st /\
    st_current_trade_cycle st = Some c /\ tc_frozen_entry_context c = Some f /\
    tc_trade_cycle_id c = "c1" /\ tc_entry_remainder_cancelled c = false.
Proof.
  refine ((fun H1 => conj H1 (position_managed_only_when_open sample_runtime (answering (Ok sample_plan)) accept_all
    busy_day busy_day_start busy_day_end _ (EvCancelRemainder "i1" "c1") _ "i1" "c1"
    busy_day_history H1 (conj eq_refl eq_refl)))
    _). vm_compute; reflexivity.
Defined.

Lemma effects_inside_critical_section_witness :
  busy_day_trace =
    day_before 22 ++ EvCancelRemainder "i1" "c1" :: day_after 22 /\
  section_held "i1" (day_before 22) = true.
Proof.
  refine ((fun H1 => conj H1 (effects_inside_critical_section sample_runtime (answering (Ok sample_plan)) accept_all
    busy_day busy_day_start busy_day_end _ (EvCancelRemainder "i1" "c1") _ "i1"
    busy_day_history H1 eq_refl)) _).
  vm_compute; reflexivity.
Defined.

Lemma saved_cycle_stable_witness : exists s1 s2,
  busy_day_trace = day_before 23 ++ EvSave s2 :: day_after 23 /\
  last_saved (st_strategy_instance_id s2) (day_before 23) = Some s1 /\
  st_strategy_id s2 = st_strategy_id s1 /\
  st_registered_spec_snapshot s2 = st_registered_spec_snapshot s1 /\
  st_risk_multiplier s2 = st_risk_multiplier s1 /\
  forall c1 c2, st_current_trade_cycle s1 = Some c1 -> st_current_trade_cycle s2 = Some c2 ->
    tc_trade_cycle_id c2 = tc_trade_cycle_id c1 /\
    tc_applied_entry_package c2 = tc_applied_entry_package c1 /\
    (forall f, tc_frozen_entry_context c1 = Some f -> tc_frozen_entry_context c2 = Some f) /\
    (tc_entry_remainder_cancelled c1 = true -> tc_entry_remainder_cancelled c2 = true).
Proof.
  eexists _, _. split; [vm_compute; reflexivity|]. split; [vm_compute; reflexivity|].
  apply (saved_cycle_stable sample_runtime (answering (Ok sample_plan)) accept_all
    busy_day busy_day_start busy_day_end
    (day_before 23) _ _ (day_after 23) busy_day_history); vm_compute; reflexivity.
Defined.

(** ** A closing day *)

(** A resting entry is cancelled by the operator, then the strategy, disabled by that, is
    deleted: two requests that arrive while the bar is being processed. *)
Definition disabled_deployment : DeploymentSpecification :=
  {| ds_strategy_instance_id := "i1"; ds_enabled := false; ds_instrument := "BTC";
     ds_base_timeframe := "5m"; ds_strategy_id := "s1"; ds_raw_spec := [];
     ds_source_path := "a.json" |}.

Definition closing_day_world : script :=
  {| sc_lookup := [Ok (sample_flat_response None)];
     sc_send := [Ok (sample_applied "c1"); Ok (sample_absent "c1")]; sc_query := [];
     sc_apply_protection := []; sc_close_position := []; sc_cancel_remainder := [];
     sc_live_entry := [Ok {| lpr_desired_entry := Some sample_entry |}];
     sc_open_trade := [];
     sc_snapshot := Ok <$> [sample_catalog [sample_deployment];
       sample_catalog [disabled_deployment]; sample_catalog [disabled_deployment]];
     sc_set_enabled := [Ok true]; sc_trash := [Ok "trash/a.json"]; sc_cycle_ids := ["c1"];
     sc_lock_free := true |}.

Definition closing_day : list (move (activity := activity)) :=
  (Start <$> [Run (bar_at 1200000); Request (PostCancelEntryOrders "i1");
              Request (DeleteStrategyInstance "i1")]) ++
  (Advance <$> [0; 1; 0; 1]%nat ++
     replicate 10 0%nat ++ replicate 11 1%nat ++ replicate 9 2%nat).

Definition closing_day_start : sys InMemory.repository script := empty_system closing_day_world.
Definition closing_day_end : pool :=
  by_default closing_day_start (schedule sample_thread closing_day (Pool [] closing_day_start)).
Definition closing_day_trace : list event := sys_trace (system closing_day_end).

Lemma closing_day_runs :
  schedule sample_thread closing_day (Pool [] closing_day_start) = Some closing_day_end.
Proof. apply runs_by_default. vm_compute. reflexivity. Qed.

Lemma closing_day_history : history sample_runtime (answering (Ok sample_plan)) accept_all
  closing_day closing_day_start closing_day_end.
Proof. exact (conj (empty_lookup _) (conj eq_refl closing_day_runs)). Qed.

Lemma removal_sent_only_for_own_cycle_witness : exists q,
  closing_day_trace = take 10 closing_day_trace ++ EvSend q :: drop 11 closing_day_trace /\
  er_desired_entry q = None /\
  exists st, last_saved (er_strategy_instance_id q) (take 10 closing_day_trace) = Some st /\
    (st_pending_entry_recovery st = Some {| pe_trade_cycle_id := er_trade_cycle_id q |} \/
     unmarked st /\ exists c, st_current_trade_cycle st = Some c /\
       tc_trade_cycle_id c = er_trade_cycle_id q).
Proof.
  eexists. split; [vm_compute; reflexivity|]. split; [reflexivity|].
  apply (removal_sent_only_for_own_cycle sample_runtime (answering (Ok sample_plan)) accept_all closing_day
    closing_day_start closing_day_end (take 10 closing_day_trace) _
    (drop 11 closing_day_trace) closing_day_history); vm_compute; reflexivity.
Defined.

Lemma files_changed_only_when_settled_witness : exists st,
  closing_day_trace =
    take 16 closing_day_trace ++ EvMoveToTrash "i1" :: drop 17 closing_day_trace /\
  last_saved "i1" (take 16 closing_day_trace) = Some st /\
  unmarked st /\ forall c, st_current_trade_cycle st = Some c ->
    EvMoveToTrash "i1" = EvSetEnabled "i1" false /\ tc_frozen_entry_context c <> None.
Proof.
  eexists. split; [vm_compute; reflexivity|]. split; [vm_compute; reflexivity|].
  apply (files_changed_only_when_settled sample_runtime (answering (Ok sample_plan)) accept_all closing_day
    closing_day_start closing_day_end (take 16 closing_day_trace)
    (EvMoveToTrash "i1") (drop 17 closing_day_trace) "i1" _ closing_day_history);
    [vm_compute; reflexivity|by right|vm_compute; reflexivity].
Defined.

(** ** A bar that is overtaken *)

(** A bar reads the catalog before it waits for the section of an instance, and does not look
    again. Here the strategy is disabled and deleted in between, by two requests that are
    answered with 200; then the bar goes on and sends an entry order for it. *)
Definition overtaken_world : script :=
  {| sc_lookup := []; sc_send := [Ok (sample_applied "c1")]; sc_query := [];
     sc_apply_protection := []; sc_close_position := []; sc_cancel_remainder := [];
     sc_live_entry := [Ok {| lpr_desired_entry := Some sample_entry |}];
     sc_open_trade := [];
     sc_snapshot := Ok <$> (replicate 3 (sample_catalog [sample_deployment]) ++
       replicate 2 (sample_catalog [disabled_deployment]));
     sc_set_enabled := [Ok true]; sc_trash := [Ok "trash/a.json"]; sc_cycle_ids := ["c1"];
     sc_lock_free := true |}.

Definition overtaken_bar : list (move (activity := activity)) :=
  (Start <$> [Bar sample_bar;
     Request (PutEnabled "i1" (Some (JObj [("enabled", JBool false)])));
     Request (DeleteStrategyInstance "i1")]) ++
  (Advance <$> replicate 2 0%nat ++ replicate 8 1%nat ++ replicate 9 2%nat ++
     replicate 14 0%nat).

Definition overtaken_start : sys InMemory.repository script := empty_system overtaken_world.
Definition overtaken_end : pool :=
  by_default overtaken_start (schedule sample_thread overtaken_bar (Pool [] overtaken_start)).

(** The strategy is disabled, then deleted, then entered, and what is stored at the end is its
    resting order, which no request can name any more. *)
Example overtaken_bar_enters :
  let trace := sys_trace (system overtaken_end) in
  history sample_runtime (answering (Ok sample_plan)) accept_all overtaken_bar overtaken_start
    overtaken_end /\
  Forall finished (threads overtaken_end) /\
  trace !! 2%nat = Some (EvSetEnabled "i1" false) /\ trace !! 5%nat = Some (EvMoveToTrash "i1") /\
  (exists q, trace !! 11%nat = Some (EvSend q) /\ er_strategy_instance_id q = "i1" /\
     er_desired_entry q <> None) /\
  exists d c, repo_lookup (sys_repo (system overtaken_end)) "i1" = Some d /\
    st_current_trade_cycle d = Some c /\ tc_frozen_entry_context c = None.
Proof.
  split; [split_and!; [apply empty_lookup|done|apply runs_by_default; vm_compute; reflexivity]|].
  split; [vm_compute; repeat constructor|]. do 2 (split; [vm_compute; reflexivity|]). split.
  - eexists. split; [vm_compute; reflexivity|]. by split.
  - eexists _, _. split; [vm_compute; reflexivity|]. split; vm_compute; reflexivity.
Qed.

(** ** Requests one after the other *)

Lemma served_requests_follow_protocol_witness :
  let activities := [Request GetHealthReady; Request (PutEnabled "i1" None); Bar sample_bar;
    Request (PostCancelEntryOrders "i1"); Tick 2; Request (DeleteStrategyInstance "i1")] in
  let s' := run_activities sample_runtime (answering (Ok sample_plan)) accept_all activities
    closing_day_start in
  exists evs, sys_trace s' = [] ++ evs /\
    forall id, follows id (At false None) evs (At false (repo_lookup (sys_repo s') id)).
Proof.
  intros activities s'.
  refine (proj2 (served_requests_follow_protocol sample_runtime (answering (Ok sample_plan))
    accept_all activities closing_day_start _)). intros id. exact I.
Defined.
