(* ===== verification/Bootstrap.v ===== *)
(** The construction and the shutdown of the process (bootstrap/application.py): one ordered
    sequence of steps from the configuration to the ready application, the rollback when any
    of them fails, the single owner of the outbound HTTP clients, and the lifespan that starts
    and stops the two workers. The services themselves are composed by
    [Runtime.build_application] and [HttpApp.production_app]. *)
From S2P Require Import Prelude Errors DecimalText Models Contracts Effects FirstFill Repository StateCodec JsonlRepository Config HttpAdapters Lifecycle Intake Runtime.

(** * Outbound HTTP clients *)

(** The adapters that [build_application] constructs. *)
Inductive client :=
| LiveEntryClient | OpenTradeClient | OpenPositionClient | EntryPackageClient
| EntryCycleRecoveryClient | PositionManagementClient | FeaturePlanClient.

#[export] Instance client_eq_dec : EqDecision client.
Proof. solve_decision. Defined.

(** In the order of their construction. *)
Definition all_clients : list client :=
  [LiveEntryClient; OpenTradeClient; OpenPositionClient; EntryPackageClient;
   EntryCycleRecoveryClient; PositionManagementClient; FeaturePlanClient].

(** What can be seen of the process from outside. *)
Inductive boot_event :=
| Constructed (c : client)
| Closed (c : client)
| IntakeStarted | ResolverStarted
| StoppedAccepting | IntakeStopped | ResolverStopped
| ServedRequests.

(** [_OutboundHttpClientLifecycle], with what has happened so far. *)
Record boot := {
  bo_clients : list client;
  bo_closed : bool;
  bo_log : list boot_event }.

Definition fresh : boot := {| bo_clients := []; bo_closed := false; bo_log := [] |}.

Definition B (A : Type) : Type := boot -> boot * result A.

#[export] Instance B_ret : MRet B := fun A a b => (b, Ok a).
#[export] Instance B_bind : MBind B := fun A C f m b =>
  match m b with
  | (b', Ok a) => f a b'
  | (b', Raise e) => (b', Raise e)
  end.

Definition pure {A} (r : result A) : B A := fun b => (b, r).

Definition logged (e : boot_event) (b : boot) : boot :=
  {| bo_clients := bo_clients b; bo_closed := bo_closed b; bo_log := bo_log b ++ [e] |}.

(** [add] *)
Definition add (c : client) (b : boot) : boot :=
  {| bo_clients := bo_clients b ++ [c]; bo_closed := bo_closed b; bo_log := bo_log b |}.

(** [close_all_once]: [close] says how the [close()] of a client ends; an exception is logged
    and does not stop the others. *)
Definition close_all_once (close : client -> result ()) (b : boot) : boot :=
  if bo_closed b then b
  else
    fold_left (fun b c => match close c with
                          | Ok _ | Raise _ => logged (Closed c) b
                          end) (bo_clients b)
      {| bo_clients := bo_clients b; bo_closed := true; bo_log := bo_log b |}.

(** * Startup *)

(** What the process finds when it starts. *)
Record surroundings := {
  su_environ : dict string;
  su_toml_file : string -> option (result (dict toml_value));
  su_journal : path_state;
  su_specs : path_state;
  su_state : path_state;
  su_state_file : option (list ascii);
  su_state_disk : list Jsonl.outcome;
  su_parse_url : string -> result (string * string) }.

(** The application graph. *)
Record graph := {
  gr_config : RuntimeConfig;
  gr_runtime : runtime;
  gr_state_repository : Jsonl.repo;
  gr_committed_bar_intake : Boundary.boundary CommittedBarEvent }.

Inductive application := Ready (g : graph) | NotReady.

Section startup.
Context (su : surroundings).

(** [lifecycle.add(Adapter(base_url=..., timeout_seconds=...))] *)
Definition construct (c : client) (base_url : string) (timeout_seconds : pyfloat) : B () := fun b =>
  match build_httpx_client (su_parse_url su) base_url timeout_seconds with
  | Ok _ => (add c (logged (Constructed c) b), Ok tt)
  | Raise e => (b, Raise e)
  end.

(** The body of the [try]. *)
Definition construct_graph : B graph :=
  config ← pure (load_runtime_config (su_environ su) (su_toml_file su));
  _ ← pure (prepare_journal_path (su_journal su));
  _ ← pure (prepare_specs_path (su_specs su));
  _ ← pure (prepare_state_path (su_state su));
  let engine c := construct c (rc_strategy_engine_base_url config)
                    (rc_strategy_engine_timeout_seconds config) in
  let abi c timeout := construct c (rc_abi_base_url config) timeout in
  _ ← engine LiveEntryClient;
  _ ← engine OpenTradeClient;
  _ ← abi OpenPositionClient (rc_abi_open_position_timeout_seconds config);
  _ ← abi EntryPackageClient (rc_abi_entry_package_timeout_seconds config);
  _ ← abi EntryCycleRecoveryClient (rc_abi_open_position_timeout_seconds config);
  _ ← abi PositionManagementClient (rc_abi_position_management_timeout_seconds config);
  _ ← engine FeaturePlanClient;
  _ ← pure (FirstFillFreezer_init (rc_live_entry_mode config) (rc_order_lifetime_bars config));
  repository ← pure (Jsonl.init (su_state_file su) (su_state_disk su));
  services ← pure (Runtime.build_application (rc_live_entry_mode config)
                     (rc_order_lifetime_bars config));
  intake ← pure (Boundary.new (rc_committed_bar_queue_capacity config));
  mret {| gr_config := config; gr_runtime := services; gr_state_repository := repository;
          gr_committed_bar_intake := intake |}.

(** [build_application]: the workers are only started by the lifespan, so stopping them in the
    rollback leaves nothing behind. *)
Definition start_process (close : client -> result ()) : boot * application :=
  match construct_graph fresh with
  | (b, Ok g) => (b, Ready g)
  | (b, Raise _) => (close_all_once close b, NotReady)
  end.
End startup.

(** * The lifespan *)

(** How the calls of the lifespan end. *)
Record run_outcome := {
  ro_start_intake : result ();
  ro_start_resolver : result ();
  ro_serve : result ();
  ro_stop_intake : result ();
  ro_stop_resolver : result () }.

Definition log_event (e : boot_event) : B () := fun b => (logged e b, Ok tt).

(** A call that is seen from outside when it returned. *)
Definition call_logged (r : result ()) (e : boot_event) : B () := _ ← pure r; log_event e.

Definition close_clients (close : client -> result ()) : B () := fun b =>
  (close_all_once close b, Ok tt).

(** [_lifespan] *)
Definition _lifespan (close : client -> result ()) (o : run_outcome) : B () := fun b =>
  let body : B () :=
    _ ← call_logged (ro_start_intake o) IntakeStarted;
    _ ← call_logged (ro_start_resolver o) ResolverStarted;
    call_logged (ro_serve o) ServedRequests in
  let finally_ : B () :=
    _ ← log_event StoppedAccepting;
    _ ← call_logged (ro_stop_intake o) IntakeStopped;
    _ ← call_logged (ro_stop_resolver o) ResolverStopped;
    close_clients close in
  let '(b, r) := body b in
  let '(b, r') := finally_ b in
  (b, match r' with Ok _ => r | Raise e => Raise e end).

(** * Lemmas *)

(** The owner after the clients [l] were constructed, and after it closed them. *)
Definition opened (l : list client) : boot :=
  {| bo_clients := l; bo_closed := false; bo_log := map Constructed l |}.

Lemma close_each (close : client -> result ()) l b :
  fold_left (fun b c => match close c with Ok _ | Raise _ => logged (Closed c) b end) l b =
  {| bo_clients := bo_clients b; bo_closed := bo_closed b; bo_log := bo_log b ++ map Closed l |}.
Proof.
  revert b. induction l as [|c l IH]; intros b; simpl; [rewrite app_nil_r; by destruct b|].
  rewrite IH. destruct (close c); simpl; by rewrite <- app_assoc.
Qed.

Lemma close_all_once_run close b : bo_closed b = false ->
  close_all_once close b =
  {| bo_clients := bo_clients b; bo_closed := true;
     bo_log := bo_log b ++ map Closed (bo_clients b) |}.
Proof. intros Hb. unfold close_all_once. rewrite Hb. by rewrite close_each. Qed.

(** A second call does nothing. *)
Lemma close_all_once_again close close' b :
  close_all_once close' (close_all_once close b) = close_all_once close b.
Proof.
  destruct (bo_closed b) eqn:Hb.
  - unfold close_all_once. by rewrite Hb, Hb.
  - rewrite (close_all_once_run close b Hb). done.
Qed.

(** ** What the construction needs *)

Definition absolute_url (su : surroundings) (url : string) : Prop :=
  exists scheme host, su_parse_url su url = Ok (scheme, host) /\
    scheme ∈ ["http"; "https"] /\ host <> EmptyString.

Definition reachable_with (su : surroundings) (url : string) (timeout : pyfloat) : Prop :=
  finite_positive timeout = true /\ absolute_url su url.

Lemma build_httpx_client_Ok su url timeout :
  build_httpx_client (su_parse_url su) url timeout = Ok tt <-> reachable_with su url timeout.
Proof.
  unfold build_httpx_client, reachable_with, absolute_url. split.
  - intros ([] & Ht%require_Ok & ([scheme host] & Hu & H%require_Ok)%result_bind_Ok)%result_bind_Ok.
    split; [done|]. exists scheme, host. split; [done|].
    apply andb_true_iff in H as [Hs Hh]. apply orb_true_iff in Hs. rewrite !bool_decide_eq_true in Hs.
    split; [set_solver|]. by destruct host.
  - intros [Ht (scheme & host & Hu & Hs & Hh)]. rewrite Ht, Hu. simpl. apply require_Ok.
    rewrite is_empty_false by done. rewrite andb_true_r, orb_true_iff, !bool_decide_eq_true.
    set_solver.
Qed.

(** The environment and the files from which a process starts. *)
Definition startable (su : surroundings) (config : RuntimeConfig) (repository : Jsonl.repo) : Prop :=
  load_runtime_config (su_environ su) (su_toml_file su) = Ok config /\
  prepare_journal_path (su_journal su) = Ok tt /\
  prepare_specs_path (su_specs su) = Ok tt /\
  prepare_state_path (su_state su) = Ok tt /\
  reachable_with su (rc_strategy_engine_base_url config) (rc_strategy_engine_timeout_seconds config) /\
  Forall (reachable_with su (rc_abi_base_url config))
    [rc_abi_open_position_timeout_seconds config; rc_abi_entry_package_timeout_seconds config;
     rc_abi_position_management_timeout_seconds config] /\
  Jsonl.init (su_state_file su) (su_state_disk su) = Ok repository.

(** ** A loaded configuration composes *)

Lemma order_lifetime_valid config n : _order_lifetime_bars config = Ok (Some n) -> 0 <= n.
Proof.
  unfold _order_lifetime_bars. destruct (dget _ config) as [[]|]; intros H; ok_all. done.
Qed.

Lemma loaded_config_valid values toml_file c :
  load_runtime_config values toml_file = Ok c -> RuntimeConfig_post_init c = Ok c.
Proof.
  unfold load_runtime_config. intros H. ok_all.
  match goal with Hc : RuntimeConfig_post_init _ = Ok _ |- _ =>
    pose proof Hc as Hv; unfold RuntimeConfig_post_init in Hc; ok_all; exact Hv end.
Qed.

Lemma valid_config_composes c : RuntimeConfig_post_init c = Ok c ->
  exists ff rt intake,
    FirstFillFreezer_init (rc_live_entry_mode c) (rc_order_lifetime_bars c) = Ok ff /\
    Runtime.build_application (rc_live_entry_mode c) (rc_order_lifetime_bars c) = Ok rt /\
    Boundary.new (event := CommittedBarEvent) (rc_committed_bar_queue_capacity c) = Ok intake.
Proof.
  intros H. unfold RuntimeConfig_post_init in H.
  apply result_bind_Ok in H as (_ & _ & H). apply result_bind_Ok in H as (_ & _ & H).
  apply result_bind_Ok in H as (_ & _ & H). apply result_bind_Ok in H as (_ & _ & H).
  apply result_bind_Ok in H as (_ & _ & H). apply result_bind_Ok in H as (_ & Hcap%require_Ok & H).
  apply result_bind_Ok in H as ([] & Hl & _).
  unfold Runtime.build_application, FirstFillFreezer_init, EntryOrchestrator.EntryReconciliationOrchestrator_init,
    Boundary.new. rewrite Hcap. simpl.
  destruct (rc_order_lifetime_bars c) as [n|], (rc_live_entry_mode c); simpl in *; try discriminate Hl;
    try (apply require_Ok in Hl; rewrite Hl); simpl; eauto 10.
Qed.

(** * Properties *)

(** The owner after a rollback that found the clients [l]. *)
Definition rolled_back (l : list client) : boot :=
  {| bo_clients := l; bo_closed := true; bo_log := map Constructed l ++ map Closed l |}.

(** A start that fails after [n] clients were constructed. *)
Ltac no_start n Hclose :=
  right; exists (take n all_clients); split;
    [by apply prefix_take
    |split; [exact (f_equal (fun b => (b, NotReady)) (Hclose (take n all_clients)))|]];
  intros config' repository' (? & ? & ? & ? & ? & Ha & ?);
  rewrite ?Forall_cons in Ha; rewrite <- ?build_httpx_client_Ok in *; destruct_and?;
  repeat match goal with x := _ : result _ |- _ => subst x end; congruence.

(** C38. The process starts either completely or not at all. It is ready
    exactly when the configuration loads, the three paths can be prepared, both base URLs are
    absolute HTTP URLs, every timeout is positive and finite, and the state log replays; then
    all seven outbound clients were constructed, in their order, and none is closed. In every
    other case it is not ready, and the clients constructed up to the failing step were closed,
    each once, whatever their [close] does. After a configuration has loaded, no constructor of
    a service can refuse it. *)
Theorem startup_fails_closed su close :
  (exists g, start_process su close = (opened all_clients, Ready g) /\
     startable su (gr_config g) (gr_state_repository g)) \/
  (exists l, l `prefix_of` all_clients /\ start_process su close = (rolled_back l, NotReady) /\
     forall config repository, ~ startable su config repository).
Proof.
  assert (forall l, close_all_once close (opened l) = rolled_back l) as Hclose
    by (intros l; by rewrite close_all_once_run).
  assert (forall m : boot * result graph, m = construct_graph su fresh -> start_process su close =
    match m with (b, Ok g) => (b, Ready g) | (b, Raise _) => (close_all_once close b, NotReady) end)
    as Hstart by (by intros m ->).
  unfold construct_graph, construct, pure in Hstart. cbv [mbind B_bind mret B_ret] in Hstart.
  specialize (Hstart _ eq_refl). rewrite Hstart. clear Hstart. unfold startable.
  destruct (load_runtime_config _ _) as [config|] eqn:Hload; [|no_start 0%nat Hclose].
  destruct (prepare_journal_path _) as [[]|] eqn:Hj; [|no_start 0%nat Hclose].
  destruct (prepare_specs_path _) as [[]|] eqn:Hs; [|no_start 0%nat Hclose].
  destruct (prepare_state_path _) as [[]|] eqn:Hst; [|no_start 0%nat Hclose].
  set (engine := build_httpx_client _ (rc_strategy_engine_base_url config) _).
  set (lookup := build_httpx_client _ _ (rc_abi_open_position_timeout_seconds config)).
  set (entry := build_httpx_client _ _ (rc_abi_entry_package_timeout_seconds config)).
  set (management := build_httpx_client _ _ (rc_abi_position_management_timeout_seconds config)).
  destruct engine as [[]|] eqn:He; [|no_start 0%nat Hclose].
  destruct lookup as [[]|] eqn:Hlook; [|no_start 2%nat Hclose].
  destruct entry as [[]|] eqn:Hent; [|no_start 3%nat Hclose].
  destruct management as [[]|] eqn:Hman; [|no_start 5%nat Hclose].
  destruct (valid_config_composes config) as (ff & rt & intake & Hff & Hrt & Hin);
    [by eapply loaded_config_valid|]. rewrite Hff.
  destruct (Jsonl.init _ _) as [repository|] eqn:Hrepo; [|no_start 7%nat Hclose].
  rewrite Hrt, Hin. left. eexists. split; [reflexivity|].
  rewrite !Forall_cons, <- !build_httpx_client_Ok. by split_and!.
Qed.

(** However the start of the workers and the serving of
    requests end, the shutdown first closes the intake, then waits for the two workers, and
    only then closes the seven clients, each exactly once; closing again does nothing. (The two
    waits are taken to return: a cancelled wait skips what follows it.) *)
Theorem shutdown_closes_every_client close o :
  ro_stop_intake o = Ok tt -> ro_stop_resolver o = Ok tt ->
  let b := (_lifespan close o (opened all_clients)).1 in
  exists served, served `prefix_of` [IntakeStarted; ResolverStarted; ServedRequests] /\
    bo_log b = map Constructed all_clients ++ served
      ++ [StoppedAccepting; IntakeStopped; ResolverStopped] ++ map Closed all_clients /\
    forall close', close_all_once close' b = b.
Proof.
  intros Hi Hr. unfold _lifespan, call_logged, pure, log_event. cbv [mbind B_bind]. rewrite Hi, Hr.
  assert (forall n, take n [IntakeStarted; ResolverStarted; ServedRequests] `prefix_of`
    [IntakeStarted; ResolverStarted; ServedRequests]) as Hp by (intros n; apply prefix_take).
  destruct (ro_start_intake o) as [[]|], (ro_start_resolver o) as [[]|], (ro_serve o) as [[]|];
    [exists (take 3 [IntakeStarted; ResolverStarted; ServedRequests])
    |exists (take 2 [IntakeStarted; ResolverStarted; ServedRequests])
    |exists (take 1 [IntakeStarted; ResolverStarted; ServedRequests])
    |exists (take 1 [IntakeStarted; ResolverStarted; ServedRequests])
    |exists []..]; (split; [first [apply Hp|apply prefix_nil]|]);
    unfold close_clients; rewrite close_all_once_run by done; done.
Qed.

(** * Witnesses *)

Definition accessible : path_state :=
  {| ps_mkdir := Ok tt; ps_exists := true; ps_is_file := true; ps_is_dir := true;
     ps_open := Ok tt; ps_iterdir := Ok tt |}.

Definition sample_environ (timeout : string) : dict string :=
  [("RUNTIME_STRATEGY_ENGINE_BASE_URL", "http://engine"); ("RUNTIME_ABI_BASE_URL", "http://abi");
   ("RUNTIME_STRATEGY_ENGINE_TIMEOUT_SECONDS", "5"); ("RUNTIME_ABI_OPEN_POSITION_TIMEOUT_SECONDS", "2.5");
   ("RUNTIME_ABI_ENTRY_PACKAGE_TIMEOUT_SECONDS", timeout);
   ("RUNTIME_ABI_POSITION_MANAGEMENT_TIMEOUT_SECONDS", "1e1");
   ("RUNTIME_COMMITTED_BAR_QUEUE_CAPACITY", "100"); ("RUNTIME_CONFIG_PATH", "runtime.toml")].

Definition sample_surroundings (timeout : string) (toml : dict toml_value) : surroundings :=
  {| su_environ := sample_environ timeout; su_toml_file _ := Some (Ok toml); su_journal := accessible;
     su_specs := accessible; su_state := accessible; su_state_file := None; su_state_disk := [];
     su_parse_url _ := Ok ("http", "host") |}.

(** A ready process; an entry timeout of zero, which is found after three clients were
    constructed; touch_trigger without a lifetime, which is found before any. *)
Example sample_starts :
  let start su := start_process su (fun _ => raise (OtherException "CloseError") EmptyString) in
  let lifetime := ("order_lifetime_bars", TomlInteger 3) in
  let touch := ("live_entry_mode", TomlString "touch_trigger") in
  match start (sample_surroundings "1" [touch; lifetime]) with
  | (b, Ready g) => bo_log b = map Constructed all_clients /\
      rc_order_lifetime_bars (gr_config g) = Some 3
  | _ => False
  end /\
  start (sample_surroundings "0" [touch; lifetime]) = (rolled_back (take 3 all_clients), NotReady) /\
  start (sample_surroundings "1" [touch]) = (rolled_back [], NotReady).
Proof. vm_compute. repeat split; reflexivity. Qed.

(** The resolver's thread does not start. *)
Definition failing_run : run_outcome :=
  {| ro_start_intake := Ok tt; ro_start_resolver := raise RuntimeError "can't start new thread";
     ro_serve := Ok tt; ro_stop_intake := Ok tt; ro_stop_resolver := Ok tt |}.

Lemma shutdown_closes_every_client_witness :
  let b := (_lifespan (fun _ => Ok tt) failing_run (opened all_clients)).1 in
  exists served, served `prefix_of` [IntakeStarted; ResolverStarted; ServedRequests] /\
    bo_log b = map Constructed all_clients ++ served
      ++ [StoppedAccepting; IntakeStopped; ResolverStopped] ++ map Closed all_clients /\
    forall close', close_all_once close' b = b.
Proof. apply (shutdown_closes_every_client (fun _ => Ok tt) failing_run); reflexivity. Defined.
